(** * VEIL: encrypted reliable datagram transport over UDP

    A shallow embedding of the protocol engine of the VEIL repository
    (replay window, ack bitmap, reorder buffer, retransmission manager,
    frame and packet codec, handshake, transport session send path) and the
    properties of its specification, checked against the C++ sources.

    Conventions.
    - [uint64_t], [uint32_t], [uint16_t], [uint8_t] and [size_t] values are
      integers of [Z]; every C++ operation that can leave the range is
      written with its wrap-around ([wrap64], [wrap32], [wrap16], [wrap8]).
    - A byte vector ([std::vector<uint8_t>], [std::span], [std::array]) is a
      [list Z] of values in [0, 256).
    - [std::map<uint64_t, V>] is a key-sorted association list ([OrdMap]):
      iteration order and [begin()] are observable in the code.
    - Callbacks ([std::function]) are a flag "a callback is installed" and a
      log of the calls made, returned with the new state.
    - The libsodium primitives are the fields of the class [Sodium]. *)

From Stdlib Require Import ZArith List Bool Lia QArith Qround Sorted Permutation.
Import ListNotations.
Open Scope Z_scope.

(** ** Machine integers *)

Definition two64 : Z := 18446744073709551616.

Definition wrap64 (z : Z) : Z := z mod two64.
Definition wrap32 (z : Z) : Z := z mod 4294967296.
Definition wrap16 (z : Z) : Z := z mod 65536.
Definition wrap8 (z : Z) : Z := z mod 256.

Arguments wrap64 : simpl never.
Arguments wrap32 : simpl never.
Arguments wrap16 : simpl never.
Arguments wrap8 : simpl never.

Definition is_u64 (z : Z) : Prop := 0 <= z < two64.
Definition is_u32 (z : Z) : Prop := 0 <= z < 4294967296.
Definition is_u16 (z : Z) : Prop := 0 <= z < 65536.
Definition is_u8 (z : Z) : Prop := 0 <= z < 256.
Definition is_byte (b : Z) : Prop := 0 <= b < 256.

Definition bytes : Type := list Z.

Definition size {A : Type} (l : list A) : Z := Z.of_nat (length l).

(** ** mux/replay_window.cpp *)

Module ReplayWindow.

Definition WINDOW_SIZE : Z := 64.

Record t : Type := mk {
  highest_seq_ : Z;
  bitmap_ : Z;       (* bit i = seq (highest_seq_ - i - 1) *)
  initialized_ : bool
}.

Definition fresh : t := mk 0 0 false.

Definition check (w : t) (seq : Z) : bool :=
  if negb (initialized_ w) then true
  else if wrap64 (seq + WINDOW_SIZE) <=? highest_seq_ w then false
  else if highest_seq_ w <? seq then true
  else if seq =? highest_seq_ w then false
  else
    let diff := wrap64 (highest_seq_ w - seq - 1) in
    if diff <? WINDOW_SIZE
    then Z.land (bitmap_ w) (Z.shiftl 1 diff) =? 0
    else false.

Definition update (w : t) (seq : Z) : t :=
  if negb (initialized_ w) then mk seq 0 true
  else if highest_seq_ w <? seq then
    let shift := wrap64 (seq - highest_seq_ w) in
    if WINDOW_SIZE <=? shift
    then mk seq 0 true
    else mk seq
            (Z.lor (wrap64 (Z.shiftl (bitmap_ w) shift))
                   (Z.shiftl 1 (shift - 1)))
            true
  else if seq <? highest_seq_ w then
    let diff := wrap64 (highest_seq_ w - seq - 1) in
    if diff <? WINDOW_SIZE
    then mk (highest_seq_ w) (Z.lor (bitmap_ w) (Z.shiftl 1 diff)) true
    else w
  else w.

Definition check_and_update (w : t) (seq : Z) : bool * t :=
  if negb (check w seq) then (false, w) else (true, update w seq).

Definition reset (w : t) : t := mk 0 0 false.

(** The window after a sequence of [check_and_update] calls. *)
Definition feed (w : t) (seqs : list Z) : t :=
  fold_left (fun a s => snd (check_and_update a s)) seqs w.

(** The representation invariant of the class: both fields are [uint64_t]. *)
Definition wf (w : t) : Prop := is_u64 (highest_seq_ w) /\ is_u64 (bitmap_ w).

(** [seen w c]: counter [c] can no longer be accepted by window [w]. *)
Definition seen (w : t) (c : Z) : Prop :=
  initialized_ w = true /\ is_u64 (highest_seq_ w) /\
  c <= highest_seq_ w /\ check w c = false.

(** The counters that [check_and_update] accepted while [seqs] were
    presented in order. *)
Fixpoint accepted (w : t) (seqs : list Z) : list Z :=
  match seqs with
  | [] => []
  | s :: rest =>
      (if fst (check_and_update w s) then [s] else [])
      ++ accepted (snd (check_and_update w s)) rest
  end.

End ReplayWindow.

(** ** std::map<uint64_t, V> *)

Module OrdMap.

Definition t (V : Type) : Type := list (Z * V).

Section Ops.
Context {V : Type}.

Definition empty : t V := [].

Fixpoint find (k : Z) (m : t V) : option V :=
  match m with
  | [] => None
  | (k', v) :: m' => if k' =? k then Some v else find k m'
  end.

Definition count (k : Z) (m : t V) : Z :=
  match find k m with Some _ => 1 | None => 0 end.

(** [m[k] = v] *)
Fixpoint insert (k : Z) (v : V) (m : t V) : t V :=
  match m with
  | [] => [(k, v)]
  | (k', v') :: m' =>
    if k <? k' then (k, v) :: m
    else if k =? k' then (k, v) :: m'
    else (k', v') :: insert k v m'
  end.

Fixpoint erase (k : Z) (m : t V) : t V :=
  match m with
  | [] => []
  | (k', v) :: m' => if k' =? k then m' else (k', v) :: erase k m'
  end.

(** [m.begin()] *)
Definition first (m : t V) : option (Z * V) :=
  match m with [] => None | e :: _ => Some e end.

Definition keys (m : t V) : list Z := map fst m.

Definition of_list (l : list (Z * V)) : t V :=
  fold_left (fun m e => insert (fst e) (snd e) m) l empty.

End Ops.

End OrdMap.

(** ** mux/ack_bitmap.cpp *)

Module AckBitmap.

Definition BITMAP_SIZE : Z := 64.

Record t : Type := mk {
  ack_number_ : Z;   (* highest contiguous seq received *)
  bitmap_ : Z;       (* bit i = packet (ack_number_ + 1 + i) was received *)
  initialized_ : bool
}.

Definition fresh : t := mk 0 0 false.

(** [while (bitmap_ & 1) { bitmap_ >>= 1; ++ack_number_; }]; a 64-bit
    bitmap is exhausted after at most 64 rounds. *)
Fixpoint absorb (fuel : nat) (ack bm : Z) : Z * Z :=
  match fuel with
  | O => (ack, bm)
  | S fuel' =>
      if Z.land bm 1 =? 0 then (ack, bm)
      else absorb fuel' (wrap64 (ack + 1)) (Z.shiftr bm 1)
  end.

Definition mark_received (a : t) (seq : Z) : t :=
  if negb (initialized_ a) then mk seq 0 true
  else if seq <=? ack_number_ a then a
  else if seq =? wrap64 (ack_number_ a + 1) then
    let '(ack, bm) := absorb 64 seq (Z.shiftr (bitmap_ a) 1) in
    mk ack bm true
  else
    let offset := wrap64 (seq - ack_number_ a - 1) in
    if offset <? BITMAP_SIZE
    then mk (ack_number_ a) (Z.lor (bitmap_ a) (Z.shiftl 1 offset)) true
    else a.

Definition get_ack_number (a : t) : Z := ack_number_ a.
Definition get_bitmap (a : t) : Z := bitmap_ a.

Definition is_received (a : t) (seq : Z) : bool :=
  if negb (initialized_ a) then false
  else if seq <=? ack_number_ a then true
  else
    let offset := wrap64 (seq - ack_number_ a - 1) in
    if offset <? BITMAP_SIZE
    then negb (Z.land (bitmap_ a) (Z.shiftl 1 offset) =? 0)
    else false.

Definition reset (a : t) : t := mk 0 0 false.

Definition mark_all (a : t) (seqs : list Z) : t :=
  fold_left mark_received seqs a.

(** The set bits of a 64-bit bitmap, in ascending order. *)
Definition bits_set (bm : Z) : list Z :=
  filter (Z.testbit bm) (map Z.of_nat (seq 0 64)).

(** [process_ack(ack_num, bmap)]: the sequences [1 .. ack_num], then
    [ack_num + 1 + i] for every set bit [i], in this order.  [None]: for
    the largest [uint64_t] the test [seq <= ack_num] of the first loop
    never fails and the call does not return. *)
Definition process_ack (ack_num bmap : Z) : option (list Z) :=
  if ack_num =? two64 - 1 then None
  else
    Some (map Z.of_nat (seq 1 (Z.to_nat ack_num))
          ++ map (fun i => wrap64 (ack_num + 1 + i))
                 (filter (fun i => negb (Z.land bmap (Z.shiftl 1 i) =? 0))
                         (map Z.of_nat (seq 0 64)))).

End AckBitmap.

(** ** mux/reorder_buffer.cpp *)

Module ReorderBuffer.

Record ReorderBufferConfig : Type := mkConfig {
  max_buffered_packets : Z;
  max_buffered_bytes : Z;
  max_delay_ms : Z
}.

Definition default_config : ReorderBufferConfig := mkConfig 256 1048576 1000.

Record BufferedPacket : Type := mkPacket {
  data : bytes;
  timestamp_ms : Z
}.

Record t : Type := mk {
  config_ : ReorderBufferConfig;
  buffer_ : OrdMap.t BufferedPacket;
  next_expected_ : Z;
  buffered_bytes_ : Z;
  callback_ : bool      (* a deliver callback is installed *)
}.

(** One call [callback_(seq, data)]. *)
Definition Delivery : Type := (Z * bytes)%type.

Definition create (config : ReorderBufferConfig) : t :=
  mk config OrdMap.empty 1 0 false.

Definition set_deliver_callback (b : t) : t :=
  mk (config_ b) (buffer_ b) (next_expected_ b) (buffered_bytes_ b) true.

Definition insert (b : t) (seq : Z) (payload : bytes) (ts : Z) : bool * t :=
  if (seq <? next_expected_ b) || (0 <? OrdMap.count seq (buffer_ b))
  then (false, b)
  else if max_buffered_packets (config_ b) <=? size (buffer_ b)
  then (false, b)
  else if max_buffered_bytes (config_ b)
          <? wrap64 (buffered_bytes_ b + size payload)
  then (false, b)
  else
    (true,
     mk (config_ b)
        (OrdMap.insert seq (mkPacket payload ts) (buffer_ b))
        (next_expected_ b)
        (wrap64 (buffered_bytes_ b + size payload))
        (callback_ b)).

Definition has_deliverable (b : t) : bool :=
  0 <? OrdMap.count (next_expected_ b) (buffer_ b).

(** What [callback_(seq, std::move(p.data))] does to the calls made and to
    [p.data].  The callback type takes the vector by value, so when a
    callback is installed the argument is move-constructed from [p.data],
    which is left empty; without a callback nothing is moved. *)
Definition hand_over (b : t) (seq : Z) (p : BufferedPacket)
  : list Delivery * bytes :=
  if callback_ b then ([(seq, data p)], []) else ([], data p).

(** The body of the loop of [deliver], entered when [next_expected_] is
    buffered. *)
Definition deliver_one (b : t) (p : BufferedPacket) : t * list Delivery :=
  let '(calls, rest) := hand_over b (next_expected_ b) p in
  (mk (config_ b)
      (OrdMap.erase (next_expected_ b) (buffer_ b))
      (wrap64 (next_expected_ b + 1))
      (wrap64 (buffered_bytes_ b - size rest))
      (callback_ b),
   calls).

(** [while (has_deliverable()) ...]: every round erases one entry. *)
Fixpoint deliver_loop (fuel : nat) (b : t) : t * list Delivery * Z :=
  match fuel with
  | O => (b, [], 0)
  | S fuel' =>
      match OrdMap.find (next_expected_ b) (buffer_ b) with
      | None => (b, [], 0)
      | Some p =>
          let '(b1, calls) := deliver_one b p in
          let '(b2, calls', n) := deliver_loop fuel' b1 in
          (b2, calls ++ calls', wrap64 (n + 1))
      end
  end.

Definition deliver (b : t) : t * list Delivery * Z :=
  deliver_loop (length (buffer_ b)) b.

(** The body of the loop of [flush] for the first buffered entry. *)
Definition flush_one (b : t) (seq : Z) (p : BufferedPacket)
  : t * list Delivery :=
  let '(calls, rest) := hand_over b seq p in
  (mk (config_ b)
      (OrdMap.erase seq (buffer_ b))
      (wrap64 (seq + 1))
      (wrap64 (buffered_bytes_ b - size rest))
      (callback_ b),
   calls).

Fixpoint flush_loop (fuel : nat) (now : Z) (b : t) : t * list Delivery * Z :=
  match fuel with
  | O => (b, [], 0)
  | S fuel' =>
      match OrdMap.first (buffer_ b) with
      | None => (b, [], 0)
      | Some (seq, p) =>
          if wrap64 (now - timestamp_ms p) <? max_delay_ms (config_ b)
          then (b, [], 0)
          else
            let '(b1, calls1) := flush_one b seq p in
            let '(b2, calls2, n2) := deliver b1 in
            let '(b3, calls3, n3) := flush_loop fuel' now b2 in
            (b3, calls1 ++ calls2 ++ calls3, wrap64 (wrap64 (1 + n2) + n3))
      end
  end.

Definition flush (b : t) (now : Z) : t * list Delivery * Z :=
  let '(b1, calls1, n1) := deliver b in
  let '(b2, calls2, n2) := flush_loop (length (buffer_ b1)) now b1 in
  (b2, calls1 ++ calls2, wrap64 (n1 + n2)).

Definition buffered_count (b : t) : Z := size (buffer_ b).
Definition buffered_bytes (b : t) : Z := buffered_bytes_ b.

Definition reset (b : t) : t :=
  mk (config_ b) OrdMap.empty 1 0 (callback_ b).

(** The bytes actually held: the sum of the payload sizes of the entries. *)
Definition held (m : OrdMap.t BufferedPacket) : Z :=
  fold_right (fun e acc => size (data (snd e)) + acc) 0 m.

Definition held_bytes (b : t) : Z := held (buffer_ b).

(** The counter agrees with the bytes held, as [size_t] values. *)
Definition bytes_accurate (b : t) : Prop :=
  buffered_bytes_ b = wrap64 (held_bytes b).

(** The callback calls that hand over the entries of [m] in key order. *)
Definition calls_of (m : OrdMap.t BufferedPacket) : list Delivery :=
  map (fun e => (fst e, data (snd e))) m.

(** The calls of the public interface, for stating invariants over runs. *)
Inductive Call : Type :=
  | CInsert (seq : Z) (payload : bytes) (ts : Z)
  | CDeliver
  | CFlush (now : Z).

Definition step (b : t) (c : Call) : t :=
  match c with
  | CInsert seq payload ts => snd (insert b seq payload ts)
  | CDeliver => fst (fst (deliver b))
  | CFlush now => fst (fst (flush b now))
  end.

Definition run (b : t) (cs : list Call) : t := fold_left step cs b.

(** The buffer holding exactly the sequences [k, k+1, ..., k+n-1] with the
    given payloads and arrival times. *)
Fixpoint consecutive (k : Z) (ps : list BufferedPacket)
  : OrdMap.t BufferedPacket :=
  match ps with
  | [] => []
  | p :: ps' => (k, p) :: consecutive (k + 1) ps'
  end.

(** The callback calls made by one call of the interface, and by a
    sequence of calls, in order. *)
Definition calls_made (b : t) (c : Call) : list Delivery :=
  match c with
  | CInsert _ _ _ => []
  | CDeliver => snd (fst (deliver b))
  | CFlush now => snd (fst (flush b now))
  end.

Fixpoint log (b : t) (cs : list Call) : list Delivery :=
  match cs with
  | [] => []
  | c :: cs' => calls_made b c ++ log (step b c) cs'
  end.

(** What the [insert] calls of a sequence of calls offered. *)
Fixpoint offered (cs : list Call) : list Delivery :=
  match cs with
  | [] => []
  | CInsert seq payload _ :: cs' => (seq, payload) :: offered cs'
  | _ :: cs' => offered cs'
  end.

End ReorderBuffer.

(** ** mux/retransmission.cpp *)

Module RetransmissionManager.

Record RetransmissionConfig : Type := mkConfig {
  initial_rto_ms : Z;
  min_rto_ms : Z;
  max_rto_ms : Z;
  max_retries : Z;            (* uint32_t *)
  max_unacked_packets : Z;
  max_unacked_bytes : Z;
  rtt_alpha : Q;              (* double *)
  rtt_beta : Q                (* double *)
}.

Definition default_config : RetransmissionConfig :=
  mkConfig 200 100 10000 5 1024 1048576 (1 # 8) (1 # 4).

Record UnackedPacket : Type := mkPacket {
  data : bytes;
  send_time_ms : Z;
  last_sent_ms : Z;
  retransmit_count : Z        (* uint32_t *)
}.

(** The calls made to the two callbacks. *)
Inductive Event : Type :=
  | Retransmit (seq : Z) (payload : bytes)
  | Drop (seq : Z).

Record t : Type := mk {
  config_ : RetransmissionConfig;
  unacked_ : OrdMap.t UnackedPacket;
  unacked_bytes_ : Z;
  srtt_ms_ : Z;
  rttvar_ms_ : Z;
  rto_ms_ : Z;
  rtt_initialized_ : bool;
  total_retransmits_ : Z;
  total_drops_ : Z;
  retransmit_callback_ : bool;   (* a retransmit callback is installed *)
  drop_callback_ : bool          (* a drop callback is installed *)
}.

Definition create (config : RetransmissionConfig) : t :=
  mk config OrdMap.empty 0 0 0 (initial_rto_ms config) false 0 0 false false.

Definition set_retransmit_callback (m : t) : t :=
  mk (config_ m) (unacked_ m) (unacked_bytes_ m) (srtt_ms_ m) (rttvar_ms_ m)
     (rto_ms_ m) (rtt_initialized_ m) (total_retransmits_ m) (total_drops_ m)
     true (drop_callback_ m).

Definition set_drop_callback (m : t) : t :=
  mk (config_ m) (unacked_ m) (unacked_bytes_ m) (srtt_ms_ m) (rttvar_ms_ m)
     (rto_ms_ m) (rtt_initialized_ m) (total_retransmits_ m) (total_drops_ m)
     (retransmit_callback_ m) true.

Definition with_unacked (m : t) (u : OrdMap.t UnackedPacket) (nbytes : Z) : t :=
  mk (config_ m) u nbytes (srtt_ms_ m) (rttvar_ms_ m)
     (rto_ms_ m) (rtt_initialized_ m) (total_retransmits_ m) (total_drops_ m)
     (retransmit_callback_ m) (drop_callback_ m).

Definition with_rtt (m : t) (srtt rttvar rto : Z) : t :=
  mk (config_ m) (unacked_ m) (unacked_bytes_ m) srtt rttvar
     rto true (total_retransmits_ m) (total_drops_ m)
     (retransmit_callback_ m) (drop_callback_ m).

Definition register_packet (m : t) (seq : Z) (payload : bytes)
           (send_time : Z) : bool * t :=
  if max_unacked_packets (config_ m) <=? size (unacked_ m) then (false, m)
  else if max_unacked_bytes (config_ m)
          <? wrap64 (unacked_bytes_ m + size payload)
  then (false, m)
  else if 0 <? OrdMap.count seq (unacked_ m) then (false, m)
  else
    (true,
     with_unacked m
       (OrdMap.insert seq (mkPacket payload send_time send_time 0)
                      (unacked_ m))
       (wrap64 (unacked_bytes_ m + size payload))).

(** [static_cast<int64_t>] of a [uint64_t]. *)
Definition to_int64 (z : Z) : Z :=
  if z <? 9223372036854775808 then z else z - two64.

(** [static_cast<uint64_t>] of a [double] rounds toward zero.  The double
    arithmetic of [update_rtt] is taken as exact rational arithmetic. *)
Definition trunc_u64 (q : Q) : Z :=
  wrap64 (if Qle_bool 0 q then Qfloor q else Qceiling q).

Definition update_rtt (m : t) (rtt_sample : Z) : t :=
  let '(srtt, rttvar) :=
    if negb (rtt_initialized_ m) then (rtt_sample, rtt_sample / 2)
    else
      let delta := to_int64 rtt_sample - to_int64 (srtt_ms_ m) in
      let srtt :=
        trunc_u64 (inject_Z (srtt_ms_ m)
                   + rtt_alpha (config_ m) * inject_Z delta)%Q in
      let abs_delta := wrap64 (if 0 <=? delta then delta else - delta) in
      let rttvar :=
        trunc_u64 ((1 - rtt_beta (config_ m)) * inject_Z (rttvar_ms_ m)
                   + rtt_beta (config_ m) * inject_Z abs_delta)%Q in
      (srtt, rttvar) in
  let rto := wrap64 (srtt + wrap64 (4 * rttvar)) in
  let rto := Z.max rto (min_rto_ms (config_ m)) in
  let rto := Z.min rto (max_rto_ms (config_ m)) in
  with_rtt m srtt rttvar rto.

(** The acknowledgement of the entry [p] stored under [seq]: an RTT sample
    when the packet was never retransmitted, then removal. *)
Definition ack_entry (m : t) (seq : Z) (p : UnackedPacket) (ack_time : Z) : t :=
  let m1 :=
    if retransmit_count p =? 0
    then update_rtt m (wrap64 (ack_time - send_time_ms p))
    else m in
  with_unacked m1 (OrdMap.erase seq (unacked_ m1))
               (wrap64 (unacked_bytes_ m1 - size (data p))).

Definition ack_packet (m : t) (seq : Z) (ack_time : Z) : t :=
  match OrdMap.find seq (unacked_ m) with
  | None => m
  | Some p => ack_entry m seq p ack_time
  end.

Definition process_sack (m : t) (ack_number bitmap ack_time : Z) : t :=
  (* ACK all packets up to ack_number, in key order *)
  let m1 :=
    fold_left
      (fun a e => if fst e <=? ack_number
                  then ack_entry a (fst e) (snd e) ack_time else a)
      (unacked_ m) m in
  (* the SACK bitmap, bit 0 to bit 63 *)
  fold_left
    (fun a i => if negb (Z.land bitmap (Z.shiftl 1 i) =? 0)
                then ack_packet a (wrap64 (ack_number + 1 + i)) ack_time
                else a)
    (map Z.of_nat (seq 0 64)) m1.

Definition check_timeouts (m : t) (now : Z) : list Z :=
  map fst
    (filter (fun e => rto_ms_ m <=? wrap64 (now - last_sent_ms (snd e)))
            (unacked_ m)).

(** The state threaded through the first loop of [retransmit_expired]. *)
Record Scan : Type := mkScan {
  s_entries : OrdMap.t UnackedPacket;   (* entries visited, updated *)
  s_rto : Z;
  s_total : Z;
  s_count : Z;
  s_to_drop : list Z;
  s_events : list Event
}.

Definition scan_entry (cfg : RetransmissionConfig) (cb : bool) (now : Z)
           (s : Scan) (e : Z * UnackedPacket) : Scan :=
  let '(seq, p) := e in
  if wrap64 (now - last_sent_ms p) <? s_rto s then
    mkScan (s_entries s ++ [e]) (s_rto s) (s_total s) (s_count s)
           (s_to_drop s) (s_events s)
  else if max_retries cfg <=? retransmit_count p then
    mkScan (s_entries s ++ [e]) (s_rto s) (s_total s) (s_count s)
           (s_to_drop s ++ [seq]) (s_events s)
  else
    mkScan (s_entries s
              ++ [(seq, mkPacket (data p) (send_time_ms p) now
                                 (wrap32 (retransmit_count p + 1)))])
           (Z.min (wrap64 (s_rto s * 2)) (max_rto_ms cfg))
           (wrap64 (s_total s + 1))
           (wrap64 (s_count s + 1))
           (s_to_drop s)
           (s_events s ++ (if cb then [Retransmit seq (data p)] else [])).

(** The second loop: one dropped sequence. *)
Definition drop_entry (a : t * list Event) (seq : Z) : t * list Event :=
  let '(m, evs) := a in
  let evs' := evs ++ (if drop_callback_ m then [Drop seq] else []) in
  let m1 :=
    match OrdMap.find seq (unacked_ m) with
    | None => m
    | Some p =>
        with_unacked m (OrdMap.erase seq (unacked_ m))
                     (wrap64 (unacked_bytes_ m - size (data p)))
    end in
  (mk (config_ m1) (unacked_ m1) (unacked_bytes_ m1) (srtt_ms_ m1)
      (rttvar_ms_ m1) (rto_ms_ m1) (rtt_initialized_ m1)
      (total_retransmits_ m1) (wrap64 (total_drops_ m1 + 1))
      (retransmit_callback_ m1) (drop_callback_ m1),
   evs').

(** Returns the new state, the callback calls in order, and the number of
    retransmitted packets. *)
Definition retransmit_expired (m : t) (now : Z) : t * list Event * Z :=
  let s :=
    fold_left (scan_entry (config_ m) (retransmit_callback_ m) now)
              (unacked_ m)
              (mkScan [] (rto_ms_ m) (total_retransmits_ m) 0 [] []) in
  let m1 :=
    mk (config_ m) (s_entries s) (unacked_bytes_ m) (srtt_ms_ m)
       (rttvar_ms_ m) (s_rto s) (rtt_initialized_ m) (s_total s)
       (total_drops_ m) (retransmit_callback_ m) (drop_callback_ m) in
  let '(m2, evs) := fold_left drop_entry (s_to_drop s) (m1, s_events s) in
  (m2, evs, s_count s).

Definition can_send (m : t) (nbytes : Z) : bool :=
  if max_unacked_packets (config_ m) <=? size (unacked_ m) then false
  else if max_unacked_bytes (config_ m) <? wrap64 (unacked_bytes_ m + nbytes)
  then false
  else true.

Definition unacked_count (m : t) : Z := size (unacked_ m).

(** Scenario S5: both callbacks installed, sequence 1 registered at time
    0, then [retransmit_expired] at 100, 300, 700 and 1500. *)
Definition s5_start (cfg : RetransmissionConfig) : t :=
  set_drop_callback (set_retransmit_callback (create cfg)).
Definition s5_registered (cfg : RetransmissionConfig) (payload : bytes)
  : bool * t :=
  register_packet (s5_start cfg) 1 payload 0.
Definition s5_at_100 (cfg : RetransmissionConfig) (payload : bytes)
  : t * list Event * Z :=
  retransmit_expired (snd (s5_registered cfg payload)) 100.
Definition s5_at_300 (cfg : RetransmissionConfig) (payload : bytes)
  : t * list Event * Z :=
  retransmit_expired (fst (fst (s5_at_100 cfg payload))) 300.
Definition s5_at_700 (cfg : RetransmissionConfig) (payload : bytes)
  : t * list Event * Z :=
  retransmit_expired (fst (fst (s5_at_300 cfg payload))) 700.
Definition s5_at_1500 (cfg : RetransmissionConfig) (payload : bytes)
  : t * list Event * Z :=
  retransmit_expired (fst (fst (s5_at_700 cfg payload))) 1500.

(** The bytes actually stored: the sum of the sizes of the entries. *)
Definition stored (u : OrdMap.t UnackedPacket) : Z :=
  fold_right (fun e acc => size (data (snd e)) + acc) 0 u.

(** The calls of the public interface that change the state, for stating
    invariants over runs. *)
Inductive Call : Type :=
  | CRegister (seq : Z) (payload : bytes) (send_time : Z)
  | CAck (seq : Z) (ack_time : Z)
  | CSack (ack_number bitmap : Z) (ack_time : Z)
  | CExpire (now : Z).

Definition step (m : t) (c : Call) : t :=
  match c with
  | CRegister seq payload send_time =>
      snd (register_packet m seq payload send_time)
  | CAck seq ack_time => ack_packet m seq ack_time
  | CSack ack_number bitmap ack_time =>
      process_sack m ack_number bitmap ack_time
  | CExpire now => fst (fst (retransmit_expired m now))
  end.

Definition run (m : t) (cs : list Call) : t := fold_left step cs m.

(** The sequence numbers of the callback calls. *)
Definition event_seq (e : Event) : Z :=
  match e with
  | Retransmit seq _ => seq
  | Drop seq => seq
  end.

End RetransmissionManager.

(** ** Byte strings *)

(** Big-endian writers of packet_builder.cpp and handshake.cpp. *)
Definition write_u16 (v : Z) : bytes :=
  [wrap8 (Z.shiftr v 8); wrap8 (Z.land v 255)].

Definition write_u32 (v : Z) : bytes :=
  map (fun i => wrap8 (Z.shiftr v (i * 8))) [3; 2; 1; 0].

Definition write_u64 (v : Z) : bytes :=
  map (fun i => wrap8 (Z.shiftr v (i * 8))) [7; 6; 5; 4; 3; 2; 1; 0].

(** Big-endian readers of packet_parser.cpp and handshake.cpp:
    [value = (value << 8) | data[i]] over the first bytes of [data]. *)
Definition read_be (width : nat) (wrap : Z -> Z) (data : bytes) : Z :=
  fold_left (fun value b => wrap (Z.lor (Z.shiftl value 8) b))
            (firstn width data) 0.

Definition read_u64 (data : bytes) : Z := read_be 8 wrap64 data.
Definition read_u32 (data : bytes) : Z := read_be 4 wrap32 data.
Definition read_u16 (data : bytes) : Z :=
  wrap16 (Z.lor (Z.shiftl (nth 0 data 0) 8) (nth 1 data 0)).

(** [data.subspan(offset, count)] and [data.subspan(offset)]. *)
Definition subspan (data : bytes) (offset count : Z) : bytes :=
  firstn (Z.to_nat count) (skipn (Z.to_nat offset) data).
Definition subspan_from (data : bytes) (offset : Z) : bytes :=
  skipn (Z.to_nat offset) data.

(** The content of a [std::array<uint8_t, n>] that is filled from [l]. *)
Definition fit (n : nat) (l : bytes) : bytes := firstn n (l ++ repeat 0 n).

Fixpoint bytes_eqb (a b : bytes) : bool :=
  match a, b with
  | [], [] => true
  | x :: a', y :: b' => (x =? y) && bytes_eqb a' b'
  | _, _ => false
  end.

(** [std::memcmp(a, b, n) < 0]: lexicographic order on the first bytes. *)
Fixpoint memcmp_lt (a b : bytes) : bool :=
  match a, b with
  | x :: a', y :: b' =>
      if x <? y then true else if y <? x then false else memcmp_lt a' b'
  | _, _ => false
  end.

(** ** crypto: the libsodium primitives and their wrappers *)

Class Sodium : Type := {
  (** [crypto_auth_hmacsha256_init/update/final]: key, then the
      concatenation of the updates. *)
  crypto_auth_hmacsha256 : bytes -> bytes -> bytes;
  (** [crypto_scalarmult(q, n, p)]: [None] for the return value -1. *)
  crypto_scalarmult : bytes -> bytes -> option bytes;
  (** [crypto_aead_chacha20poly1305_ietf_encrypt]: message, additional
      data, nonce, key. *)
  crypto_aead_encrypt : bytes -> bytes -> bytes -> bytes -> bytes;
  (** [crypto_aead_chacha20poly1305_ietf_decrypt]: ciphertext with tag,
      additional data, nonce, key; [None] for a non-zero return value. *)
  crypto_aead_decrypt : bytes -> bytes -> bytes -> bytes -> option bytes
}.

Module crypto.

Definition X25519_PUBLIC_KEY_SIZE : Z := 32.
Definition CHACHA20_KEY_SIZE : nat := 32.
Definition CHACHA20_NONCE_SIZE : nat := 12.
Definition POLY1305_TAG_SIZE : Z := 16.
Definition HASH_LEN : nat := 32.

Record X25519KeyPair : Type := mkKeyPair {
  secret_key : bytes;
  public_key : bytes
}.

Record SessionKeys : Type := mkSessionKeys {
  send_key : bytes;
  recv_key : bytes;
  send_nonce_base : bytes;
  recv_nonce_base : bytes
}.

Definition no_keys : SessionKeys :=
  mkSessionKeys (repeat 0 32) (repeat 0 32) (repeat 0 12) (repeat 0 12).

Definition constant_time_compare (a b : bytes) : bool :=
  if negb (size a =? size b) then false else bytes_eqb a b.

Section WithSodium.
Context {sodium : Sodium}.

(** hkdf.cpp *)

Definition hmac_sha256 (key message : bytes) : bytes :=
  fit HASH_LEN (crypto_auth_hmacsha256 key message).

Definition hkdf_extract (salt ikm : bytes) : bytes :=
  match salt with
  | [] => hmac_sha256 (repeat 0 HASH_LEN) ikm
  | _ => hmac_sha256 salt ikm
  end.

(** The blocks [T(i) = HMAC(PRK, T(i-1) || info || i)] of the loop of
  [hkdf_expand], from block [i] on. *)
Fixpoint hkdf_blocks (prk info : bytes) (n : nat) (i : Z) (t_prev : bytes)
  : bytes :=
  match n with
  | O => []
  | S n' =>
    let t := hmac_sha256 prk (t_prev ++ info ++ [wrap8 i]) in
    t ++ hkdf_blocks prk info n' (i + 1) t
  end.

(** [hkdf_expand(prk, info, output)] for an output span of [out_len]
  bytes; [None] when it throws. *)
Definition hkdf_expand (prk info : bytes) (out_len : nat) : option bytes :=
  if (255 * HASH_LEN <? out_len)%nat then None
  else
  let n := ((out_len + HASH_LEN - 1) / HASH_LEN)%nat in
  Some (firstn out_len (hkdf_blocks prk info n 1 [])).

(** The four expansions of [derive_session_keys] are 32 and 12 bytes
  long, below the guard of [hkdf_expand]. *)
Definition expand (prk info : bytes) (out_len : nat) : bytes :=
  match hkdf_expand prk info out_len with
  | Some out => out
  | None => []
  end.

(** "veil_v1_" followed by the direction label. *)
Definition prefix : bytes := [118; 101; 105; 108; 95; 118; 49; 95].
Definition key_i2r : bytes := [107; 101; 121; 95; 105; 50; 114].
Definition key_r2i : bytes := [107; 101; 121; 95; 114; 50; 105].
Definition nonce_i2r : bytes := [110; 111; 110; 99; 101; 95; 105; 50; 114].
Definition nonce_r2i : bytes := [110; 111; 110; 99; 101; 95; 114; 50; 105].

Definition derive_session_keys (shared_secret session_id : bytes)
         (is_initiator : bool) : SessionKeys :=
  let prk := hkdf_extract session_id shared_secret in
  let k_i2r := expand prk (prefix ++ key_i2r) CHACHA20_KEY_SIZE in
  let k_r2i := expand prk (prefix ++ key_r2i) CHACHA20_KEY_SIZE in
  let n_i2r := expand prk (prefix ++ nonce_i2r) CHACHA20_NONCE_SIZE in
  let n_r2i := expand prk (prefix ++ nonce_r2i) CHACHA20_NONCE_SIZE in
  if is_initiator
  then mkSessionKeys k_i2r k_r2i n_i2r n_r2i
  else mkSessionKeys k_r2i k_i2r n_r2i n_i2r.

(** x25519.cpp *)

Definition key_exchange (our_secret their_public : bytes) : option bytes :=
  match crypto_scalarmult our_secret their_public with
  | None => None
  | Some q =>
    let shared := fit 32 q in
    if forallb (fun b => b =? 0) shared then None else Some shared
  end.

(** chacha20poly1305.cpp *)

Definition encrypt (key nonce plaintext additional_data : bytes) : bytes :=
  crypto_aead_encrypt plaintext additional_data nonce key.

Definition decrypt (key nonce ciphertext_with_tag additional_data : bytes)
  : option bytes :=
  if size ciphertext_with_tag <? POLY1305_TAG_SIZE then None
  else crypto_aead_decrypt ciphertext_with_tag additional_data nonce key.

End WithSodium.

(** [make_nonce]: the counter, little-endian, XORed into the last 8 bytes
    of the 12-byte base. *)
Definition make_nonce (base : bytes) (counter : Z) : bytes :=
  firstn 4 base ++
  map (fun ib => Z.lxor (snd ib)
                   (wrap8 (Z.shiftr counter (Z.of_nat (fst ib) * 8))))
      (combine (seq 0 8) (skipn 4 base)).

End crypto.

(** A stand-in for libsodium with the algebraic laws of the real
    primitives that the proofs use (Diffie-Hellman agreement, AEAD
    correctness), for running the model on concrete inputs. *)
Module Toy.

Definition digest (key message : bytes) : bytes :=
  let h := fold_left (fun a b => (a * 33 + b + 1) mod two64)
                     (key ++ [255] ++ message) 5381 in
  write_u64 h ++ write_u64 (h * 31 + 7) ++ write_u64 (h * 131 + 11)
    ++ write_u64 (h * 137 + 13).

Definition scalarmult (n p : bytes) : option bytes :=
  Some (map (fun xy => wrap8 (fst xy + snd xy)) (combine n p)).

Definition tag (message ad nonce key : bytes) : bytes :=
  firstn 16 (digest key (nonce ++ ad ++ message)).

Definition aead_encrypt (message ad nonce key : bytes) : bytes :=
  message ++ tag message ad nonce key.

Definition aead_decrypt (c ad nonce key : bytes) : option bytes :=
  let message := firstn (length c - 16) c in
  if bytes_eqb (skipn (length c - 16) c) (tag message ad nonce key)
  then Some message else None.

Definition sodium : Sodium :=
  Build_Sodium digest scalarmult aead_encrypt aead_decrypt.

End Toy.

(** ** packet/frame.cpp, packet/packet_builder.cpp, packet/packet_parser.cpp *)

Module packet.

(** [std::variant] of the six frame structs.  The [enum class] fields
    [ControlFrame::type] and [HandshakeFrame::stage] are their [uint8_t]
    values. *)
Inductive Frame : Type :=
  | DataFrame (sequence_number : Z) (payload : bytes)
  | AckFrame (ack_number bitmap recv_window : Z)
  | ControlFrame (type timestamp : Z) (data : bytes)
  | FragmentFrame (message_id fragment_index total_fragments : Z)
                (payload : bytes)
  | HandshakeFrame (stage : Z) (payload : bytes)
  | SessionRotateFrame (new_session_id : bytes) (activation_sequence : Z).

Definition DATA : Z := 1.
Definition ACK : Z := 2.
Definition CONTROL : Z := 3.
Definition FRAGMENT : Z := 4.
Definition HANDSHAKE : Z := 16.
Definition SESSION_ROTATE : Z := 32.

Definition PING : Z := 1.
Definition PONG : Z := 2.
Definition STAGE_INIT : Z := 1.
Definition STAGE_RESPONSE : Z := 2.

Definition get_frame_type (f : Frame) : Z :=
  match f with
  | DataFrame _ _ => DATA
  | AckFrame _ _ _ => ACK
  | ControlFrame _ _ _ => CONTROL
  | FragmentFrame _ _ _ _ => FRAGMENT
  | HandshakeFrame _ _ => HANDSHAKE
  | SessionRotateFrame _ _ => SESSION_ROTATE
  end.

Definition holds_data_frame (f : Frame) : bool :=
  match f with DataFrame _ _ => true | _ => false end.

Record FrameHeader : Type := mkFrameHeader {
  fh_type : Z;
  fh_flags : Z;
  fh_length : Z          (* uint16_t *)
}.

Definition FRAME_HEADER_SIZE : Z := 4.
Definition PACKET_HEADER_SIZE : Z := 16.

Definition serialize_header (h : FrameHeader) : bytes :=
  [wrap8 (fh_type h); fh_flags h;
   wrap8 (Z.shiftr (fh_length h) 8); wrap8 (Z.land (fh_length h) 255)].

Definition parse_header (data : bytes) : option FrameHeader :=
  if size data <? FRAME_HEADER_SIZE then None
  else Some (mkFrameHeader
               (nth 0 data 0) (nth 1 data 0)
               (wrap16 (Z.lor (Z.shiftl (nth 2 data 0) 8) (nth 3 data 0)))).

(** *** PacketBuilder *)

Definition frame_payload (f : Frame) : bytes :=
  match f with
  | DataFrame s p => write_u64 s ++ p
  | AckFrame a b w => write_u64 a ++ write_u64 b ++ write_u32 w
  | ControlFrame t ts d => [wrap8 t] ++ write_u64 ts ++ d
  | FragmentFrame m i n p => write_u32 m ++ write_u16 i ++ write_u16 n ++ p
  | HandshakeFrame s p => [wrap8 s] ++ p
  | SessionRotateFrame id a => fit 32 id ++ write_u64 a
  end.

Definition serialize_frame (f : Frame) : bytes :=
  let payload := frame_payload f in
  serialize_header
    (mkFrameHeader (get_frame_type f) 0 (wrap16 (size payload)))
  ++ payload.

Definition frame_size (f : Frame) : Z :=
  let payload_size :=
    match f with
    | DataFrame _ p => 8 + size p
    | AckFrame _ _ _ => 20
    | ControlFrame _ _ d => 9 + size d
    | FragmentFrame _ _ _ p => 8 + size p
    | HandshakeFrame _ p => 1 + size p
    | SessionRotateFrame _ _ => 40
    end in
  wrap64 (FRAME_HEADER_SIZE + payload_size).

Record PacketBuilder : Type := mkBuilder {
  mtu_ : Z;
  session_id_ : Z;
  key_ : bytes;
  nonce_base_ : bytes;
  has_key_ : bool;
  payload_buffer_ : bytes
}.

Definition new_builder (mtu : Z) : PacketBuilder :=
  mkBuilder mtu 0 (repeat 0 32) (repeat 0 12) false [].

Definition set_encryption_key (b : PacketBuilder) (key nonce_base : bytes)
  : PacketBuilder :=
  mkBuilder (mtu_ b) (session_id_ b) key nonce_base true (payload_buffer_ b).

Definition set_session_id (b : PacketBuilder) (session_id : Z)
  : PacketBuilder :=
  mkBuilder (mtu_ b) session_id (key_ b) (nonce_base_ b) (has_key_ b)
            (payload_buffer_ b).

(** A builder of the given MTU with key, nonce base and session id set. *)
Definition configured_builder (mtu session : Z) (key nonce_base : bytes)
  : PacketBuilder :=
  set_session_id (set_encryption_key (new_builder mtu) key nonce_base)
                 session.

Definition remaining_capacity (b : PacketBuilder) : Z :=
  let overhead := PACKET_HEADER_SIZE + crypto.POLY1305_TAG_SIZE in
  if mtu_ b <=? wrap64 (overhead + size (payload_buffer_ b)) then 0
  else wrap64 (mtu_ b - overhead - size (payload_buffer_ b)).

Definition add_frame (b : PacketBuilder) (f : Frame) : bool * PacketBuilder :=
  let serialized := serialize_frame f in
  if remaining_capacity b
     <? wrap64 (size (payload_buffer_ b) + size serialized)
  then (false, b)
  else (true,
        mkBuilder (mtu_ b) (session_id_ b) (key_ b) (nonce_base_ b)
                  (has_key_ b) (payload_buffer_ b ++ serialized)).

Definition reset (b : PacketBuilder) : PacketBuilder :=
  mkBuilder (mtu_ b) (session_id_ b) (key_ b) (nonce_base_ b) (has_key_ b) [].

(** The outcome of [build]: the returned vector, or the
    [std::runtime_error] it throws. *)
Inductive BuildResult : Type :=
  | Built (packet : bytes)
  | Threw.

Definition add_frames (b : PacketBuilder) (fs : list Frame) : PacketBuilder :=
  fold_left (fun a f => snd (add_frame a f)) fs b.

(** Every [add_frame] call of [add_frames] returned [true]. *)
Fixpoint all_accepted (b : PacketBuilder) (fs : list Frame) : bool :=
  match fs with
  | [] => true
  | f :: fs' => fst (add_frame b f) && all_accepted (snd (add_frame b f)) fs'
  end.

Definition stream_bytes (fs : list Frame) : bytes :=
  concat (map serialize_frame fs).

Section WithSodium.
Context {sodium : Sodium}.

(** [build] is a member function that assigns no member: the builder
  is returned as it was. *)
Definition build (b : PacketBuilder) (packet_counter : Z)
  : BuildResult * PacketBuilder :=
  match payload_buffer_ b with
  | [] => (Built [], b)
  | _ =>
    if negb (has_key_ b) then (Threw, b)
    else
      let header := write_u64 (session_id_ b) ++ write_u64 packet_counter in
      let nonce := crypto.make_nonce (nonce_base_ b) packet_counter in
      let encrypted :=
        crypto.encrypt (key_ b) nonce (payload_buffer_ b) header in
      (Built (header ++ encrypted), b)
  end.

End WithSodium.

(** *** PacketParser *)

Record PacketHeader : Type := mkPacketHeader {
  ph_session_id : Z;
  ph_packet_counter : Z
}.

Record ParsedPacket : Type := mkParsed {
  session_id : Z;
  packet_counter : Z;
  frames : list Frame
}.

Inductive ParseError : Type :=
  | SUCCESS | PACKET_TOO_SHORT | DECRYPTION_FAILED | INVALID_FRAME
  | UNKNOWN_FRAME_TYPE.

Record PacketParser : Type := mkParser {
  p_key_ : bytes;
  p_nonce_base_ : bytes;
  p_has_key_ : bool
}.

Definition new_parser : PacketParser :=
  mkParser (repeat 0 32) (repeat 0 12) false.

Definition set_decryption_key (p : PacketParser) (key nonce_base : bytes)
  : PacketParser :=
  mkParser key nonce_base true.

Definition parse_packet_header (data : bytes) : option PacketHeader :=
  if size data <? PACKET_HEADER_SIZE then None
  else Some (mkPacketHeader (read_u64 (subspan data 0 8))
                            (read_u64 (subspan data 8 8))).

(** The [switch (frame_header.type)] of [parse_frame]. *)
Definition frame_of_payload (type : Z) (payload : bytes) (total_size : Z)
  : option (Frame * Z) :=
  if type =? DATA then
    if size payload <? 8 then None
    else Some (DataFrame (read_u64 payload) (skipn 8 payload), total_size)
  else if type =? ACK then
    if size payload <? 20 then None
    else Some (AckFrame (read_u64 payload)
                        (read_u64 (subspan_from payload 8))
                        (read_u32 (subspan_from payload 16)),
               total_size)
  else if type =? CONTROL then
    if size payload <? 9 then None
    else Some (ControlFrame (nth 0 payload 0)
                            (read_u64 (subspan_from payload 1))
                            (skipn 9 payload),
               total_size)
  else if type =? FRAGMENT then
    if size payload <? 8 then None
    else Some (FragmentFrame (read_u32 payload)
                             (read_u16 (subspan_from payload 4))
                             (read_u16 (subspan_from payload 6))
                             (skipn 8 payload),
               total_size)
  else if type =? HANDSHAKE then
    match payload with
    | [] => None
    | stage :: rest => Some (HandshakeFrame stage rest, total_size)
    end
  else if type =? SESSION_ROTATE then
    if size payload <? 40 then None
    else Some (SessionRotateFrame (firstn 32 payload)
                                  (read_u64 (subspan_from payload 32)),
               total_size)
  else None.

Definition parse_frame (data : bytes) : option (Frame * Z) :=
  match parse_header data with
  | None => None
  | Some h =>
      if size data <? FRAME_HEADER_SIZE + fh_length h then None
      else
        frame_of_payload
          (fh_type h)
          (subspan data FRAME_HEADER_SIZE (fh_length h))
          (FRAME_HEADER_SIZE + fh_length h)
  end.

(** [while (!payload.empty())]: every frame takes at least its 4 header
    bytes, so the length of the payload bounds the rounds. *)
Fixpoint parse_frames (fuel : nat) (payload : bytes) : option (list Frame) :=
  match payload with
  | [] => Some []
  | _ =>
      match fuel with
      | O => None
      | S fuel' =>
          match parse_frame payload with
          | None => None
          | Some (f, consumed) =>
              match parse_frames fuel' (subspan_from payload consumed) with
              | None => None
              | Some fs => Some (f :: fs)
              end
          end
      end
  end.

Section WithSodium.
Context {sodium : Sodium}.

Definition parse (p : PacketParser) (data : bytes)
  : option ParsedPacket * ParseError :=
  if size data <? PACKET_HEADER_SIZE + crypto.POLY1305_TAG_SIZE
  then (None, PACKET_TOO_SHORT)
  else
  match parse_packet_header data with
  | None => (None, PACKET_TOO_SHORT)
  | Some h =>
      if negb (p_has_key_ p) then (None, DECRYPTION_FAILED)
      else
        let encrypted := subspan_from data PACKET_HEADER_SIZE in
        let nonce :=
          crypto.make_nonce (p_nonce_base_ p) (ph_packet_counter h) in
        let aad := firstn (Z.to_nat PACKET_HEADER_SIZE) data in
        match crypto.decrypt (p_key_ p) nonce encrypted aad with
        | None => (None, DECRYPTION_FAILED)
        | Some decrypted =>
            match parse_frames (length decrypted) decrypted with
            | None => (None, INVALID_FRAME)
            | Some fs =>
                (Some (mkParsed (ph_session_id h) (ph_packet_counter h)
                                fs),
                 SUCCESS)
            end
        end
  end.

End WithSodium.

(** A frame whose fields are in the range of their C++ types. *)
Definition frame_wf (f : Frame) : Prop :=
  match f with
  | DataFrame s _ => is_u64 s
  | AckFrame a b w => is_u64 a /\ is_u64 b /\ is_u32 w
  | ControlFrame t ts _ => is_u8 t /\ is_u64 ts
  | FragmentFrame m i n _ => is_u32 m /\ is_u16 i /\ is_u16 n
  | HandshakeFrame s _ => is_u8 s
  | SessionRotateFrame id a => length id = 32%nat /\ is_u64 a
  end.

End packet.

(** ** handshake/handshake.cpp *)

Module handshake.

Definition MSG_INIT : Z := 1.
Definition MSG_RESPONSE : Z := 2.
Definition MSG_FINISH : Z := 3.

Definition MSG_HEADER_SIZE : Z := 1 + 8 + 2.
Definition MSG_HMAC_SIZE : Z := 32.

Record HandshakeConfig : Type := mkConfig {
  psk : bytes;
  timestamp_tolerance_sec : Z;
  require_psk : bool;
  max_handshake_attempts : Z
}.

Record HandshakeResult : Type := mkResult {
  session_keys : crypto.SessionKeys;
  session_id : bytes;
  is_initiator : bool
}.

Inductive HandshakeState : Type :=
  | IDLE | INIT_SENT | INIT_RECEIVED | RESPONSE_SENT | COMPLETE | FAILED.

Inductive HandshakeError : Type :=
  | NONE | INVALID_MESSAGE | TIMESTAMP_OUT_OF_RANGE | HMAC_VERIFICATION_FAILED
  | KEY_EXCHANGE_FAILED | PSK_REQUIRED_BUT_MISSING | RATE_LIMITED
  | INTERNAL_ERROR.

Definition state_eqb (a b : HandshakeState) : bool :=
  match a, b with
  | IDLE, IDLE | INIT_SENT, INIT_SENT | INIT_RECEIVED, INIT_RECEIVED
  | RESPONSE_SENT, RESPONSE_SENT | COMPLETE, COMPLETE | FAILED, FAILED => true
  | _, _ => false
  end.

Record Handshake : Type := mk {
  config_ : HandshakeConfig;
  state_ : HandshakeState;
  last_error_ : HandshakeError;
  send_callback_ : bool;          (* a send callback is installed *)
  our_keypair_ : crypto.X25519KeyPair;
  peer_public_key_ : bytes;
  shared_secret_ : option bytes;
  session_id_ : bytes;
  transcript_ : bytes;
  current_time_ : Z
}.

(** The constructor; [keypair] is what [generate_keypair()] draws. *)
Definition create (config : HandshakeConfig) (keypair : crypto.X25519KeyPair)
  : Handshake :=
  mk config IDLE NONE false
     (crypto.mkKeyPair (fit 32 (crypto.secret_key keypair))
                       (fit 32 (crypto.public_key keypair)))
     (repeat 0 32) None (repeat 0 32) [] 0.

Definition set_send_callback (h : Handshake) : Handshake :=
  mk (config_ h) (state_ h) (last_error_ h) true (our_keypair_ h)
     (peer_public_key_ h) (shared_secret_ h) (session_id_ h) (transcript_ h)
     (current_time_ h).

Definition set_current_time (h : Handshake) (time : Z) : Handshake :=
  mk (config_ h) (state_ h) (last_error_ h) (send_callback_ h) (our_keypair_ h)
     (peer_public_key_ h) (shared_secret_ h) (session_id_ h) (transcript_ h)
     time.

Definition with_state (h : Handshake) (s : HandshakeState) : Handshake :=
  mk (config_ h) s (last_error_ h) (send_callback_ h) (our_keypair_ h)
     (peer_public_key_ h) (shared_secret_ h) (session_id_ h) (transcript_ h)
     (current_time_ h).

Definition with_error (h : Handshake) (e : HandshakeError) : Handshake :=
  mk (config_ h) (state_ h) e (send_callback_ h) (our_keypair_ h)
     (peer_public_key_ h) (shared_secret_ h) (session_id_ h) (transcript_ h)
     (current_time_ h).

Definition with_transcript (h : Handshake) (t : bytes) : Handshake :=
  mk (config_ h) (state_ h) (last_error_ h) (send_callback_ h) (our_keypair_ h)
     (peer_public_key_ h) (shared_secret_ h) (session_id_ h) t
     (current_time_ h).

Definition with_peer (h : Handshake) (pk : bytes) : Handshake :=
  mk (config_ h) (state_ h) (last_error_ h) (send_callback_ h) (our_keypair_ h)
     pk (shared_secret_ h) (session_id_ h) (transcript_ h) (current_time_ h).

Definition with_shared (h : Handshake) (z : bytes) : Handshake :=
  mk (config_ h) (state_ h) (last_error_ h) (send_callback_ h) (our_keypair_ h)
     (peer_public_key_ h) (Some z) (session_id_ h) (transcript_ h)
     (current_time_ h).

Definition with_session_id (h : Handshake) (id : bytes) : Handshake :=
  mk (config_ h) (state_ h) (last_error_ h) (send_callback_ h) (our_keypair_ h)
     (peer_public_key_ h) (shared_secret_ h) id (transcript_ h)
     (current_time_ h).

(** [clock] is the reading of [std::chrono::system_clock] in seconds. *)
Definition get_current_time (h : Handshake) (clock : Z) : Z :=
  if negb (current_time_ h =? 0) then current_time_ h else clock.

(** The messages handed to the send callback by one operation. *)
Definition emit (h : Handshake) (msg : bytes) : list bytes :=
  if send_callback_ h then [msg] else [].

Section WithSodium.
Context {sodium : Sodium}.

Definition compute_hmac (h : Handshake) (data : bytes) : bytes :=
  crypto.hmac_sha256 (psk (config_ h)) data.

Definition verify_hmac (h : Handshake) (data expected_hmac : bytes) : bool :=
  crypto.constant_time_compare (compute_hmac h data) expected_hmac.

(** The envelope [type | timestamp | payload_len | payload | hmac]. *)
Definition envelope (key : bytes) (type ts : Z) (payload : bytes) : bytes :=
  let body :=
    [wrap8 type] ++ write_u64 ts ++ write_u16 (wrap16 (size payload))
      ++ payload in
  body ++ crypto.hmac_sha256 key body.

Definition build_message (h : Handshake) (type : Z) (payload : bytes)
         (clock : Z) : bytes * Handshake :=
  let msg :=
    envelope (psk (config_ h)) type (get_current_time h clock) payload in
  (msg, with_transcript h (transcript_ h ++ msg)).

Definition initiate (h : Handshake) (clock : Z)
  : bool * Handshake * list bytes :=
  if negb (state_eqb (state_ h) IDLE)
  then (false, with_error h INTERNAL_ERROR, [])
  else
    let '(msg, h1) :=
      build_message h MSG_INIT (crypto.public_key (our_keypair_ h)) clock in
    (true, with_state h1 INIT_SENT, emit h1 msg).

Definition derive_session_id (h : Handshake) : Handshake :=
  with_session_id h (crypto.hmac_sha256 (psk (config_ h)) (transcript_ h)).

Definition handle_init (h : Handshake) (payload : bytes) (clock : Z)
  : bool * Handshake * list bytes :=
  if negb (state_eqb (state_ h) IDLE)
  then (false, with_error h INVALID_MESSAGE, [])
  else if negb (size payload =? crypto.X25519_PUBLIC_KEY_SIZE)
  then (false, with_error h INVALID_MESSAGE, [])
  else
    let h1 := with_peer h payload in
    match crypto.key_exchange (crypto.secret_key (our_keypair_ h1))
                              (peer_public_key_ h1) with
    | None => (false, with_error h1 KEY_EXCHANGE_FAILED, [])
    | Some shared =>
        let h2 := with_state (with_shared h1 shared) INIT_RECEIVED in
        let '(msg, h3) :=
          build_message h2 MSG_RESPONSE
                        (crypto.public_key (our_keypair_ h2)) clock in
        (false, with_state h3 RESPONSE_SENT, emit h3 msg)
    end.

Definition handle_response (h : Handshake) (payload : bytes) (clock : Z)
  : bool * Handshake * list bytes :=
  if negb (state_eqb (state_ h) INIT_SENT)
  then (false, with_error h INVALID_MESSAGE, [])
  else if negb (size payload =? crypto.X25519_PUBLIC_KEY_SIZE)
  then (false, with_error h INVALID_MESSAGE, [])
  else
    let h1 := with_peer h payload in
    match crypto.key_exchange (crypto.secret_key (our_keypair_ h1))
                              (peer_public_key_ h1) with
    | None => (false, with_error h1 KEY_EXCHANGE_FAILED, [])
    | Some shared =>
        let h2 := with_shared h1 shared in
        let '(msg, h3) := build_message h2 MSG_FINISH [] clock in
        (true, with_state (derive_session_id h3) COMPLETE, emit h3 msg)
    end.

Definition handle_finish (h : Handshake) (payload : bytes)
  : bool * Handshake * list bytes :=
  if negb (state_eqb (state_ h) RESPONSE_SENT)
  then (false, with_error h INVALID_MESSAGE, [])
  else (true, with_state (derive_session_id h) COMPLETE, []).

(** The [switch (type)] of [process_message]. *)
Definition dispatch (h : Handshake) (type : Z) (payload : bytes) (clock : Z)
  : bool * Handshake * list bytes :=
  if type =? MSG_INIT then handle_init h payload clock
  else if type =? MSG_RESPONSE then handle_response h payload clock
  else if type =? MSG_FINISH then handle_finish h payload
  else (false, with_error h INVALID_MESSAGE, []).

Definition process_message (h : Handshake) (message : bytes) (clock : Z)
  : bool * Handshake * list bytes :=
  if size message <? MSG_HEADER_SIZE + MSG_HMAC_SIZE
  then (false, with_error h INVALID_MESSAGE, [])
  else
    let type := nth 0 message 0 in
    let timestamp := read_u64 (subspan_from message 1) in
    let payload_len := read_u16 (subspan_from message 9) in
    if negb (size message =? MSG_HEADER_SIZE + payload_len + MSG_HMAC_SIZE)
    then (false, with_error h INVALID_MESSAGE, [])
    else
      let now := get_current_time h clock in
      let diff := if now <? timestamp then wrap64 (timestamp - now)
                  else wrap64 (now - timestamp) in
      if timestamp_tolerance_sec (config_ h) <? diff
      then (false, with_error h TIMESTAMP_OUT_OF_RANGE, [])
      else
        let hmac_offset := MSG_HEADER_SIZE + payload_len in
        let msg_without_hmac := subspan message 0 hmac_offset in
        let received_hmac := subspan message hmac_offset MSG_HMAC_SIZE in
        if negb (verify_hmac h msg_without_hmac received_hmac)
        then (false, with_error h HMAC_VERIFICATION_FAILED, [])
        else
          let h1 := with_transcript h (transcript_ h ++ message) in
          let payload := subspan message MSG_HEADER_SIZE payload_len in
          dispatch h1 type payload clock.

Definition result (h : Handshake) : option HandshakeResult :=
  if negb (state_eqb (state_ h) COMPLETE) then None
  else
    match shared_secret_ h with
    | None => None
    | Some shared =>
        let is_init :=
          memcmp_lt (crypto.public_key (our_keypair_ h)) (peer_public_key_ h) in
        Some (mkResult
                (crypto.derive_session_keys shared (session_id_ h) is_init)
                (session_id_ h)
                is_init)
    end.

(** *** The three-message exchange between two endpoints

  [a] initiates and [b] responds; each message handed to a send callback
  is delivered unchanged to the other endpoint.  [ta1 tb1 ta2 tb2] are the
  clock readings of the four operations. *)
Record Exchange : Type := mkExchange {
  initiator : Handshake;         (* after processing RESPONSE *)
  responder : Handshake;         (* after processing FINISH *)
  initiator_done : bool;         (* what its [process_message] returned *)
  responder_done : bool;
  wire : list bytes              (* the messages, in the order sent *)
}.

Definition first_message (l : list bytes) : bytes :=
  match l with m :: _ => m | [] => [] end.

Definition exchange (a b : Handshake) (ta1 tb1 ta2 tb2 : Z) : Exchange :=
  let '(_, a1, out1) := initiate a ta1 in
  let m1 := first_message out1 in
  let '(_, b1, out2) := process_message b m1 tb1 in
  let m2 := first_message out2 in
  let '(done_a, a2, out3) := process_message a1 m2 ta2 in
  let m3 := first_message out3 in
  let '(done_b, b2, _) := process_message b1 m3 tb2 in
  mkExchange a2 b2 done_a done_b (out1 ++ out2 ++ out3).

(** A fresh endpoint with a send callback, as the transport session and the
  tests set it up. *)
Definition endpoint (config : HandshakeConfig) (keypair : crypto.X25519KeyPair)
  : Handshake :=
  set_send_callback (create config keypair).

End WithSodium.

End handshake.

(** ** mux/fragment_assembler.cpp *)

Module FragmentAssembler.

Record FragmentAssemblerConfig : Type := mkConfig {
  max_pending_messages : Z;
  max_fragments_per_message : Z;
  max_message_size : Z;
  fragment_timeout_ms : Z
}.

Definition default_config : FragmentAssemblerConfig :=
  mkConfig 64 64 65536 5000.

Record PendingMessage : Type := mkPending {
  total_fragments : Z;                    (* uint16_t *)
  fragments : OrdMap.t bytes;             (* keyed by fragment index *)
  first_fragment_time_ms : Z;
  total_bytes : Z
}.

Record t : Type := mk {
  config_ : FragmentAssemblerConfig;
  pending_ : OrdMap.t PendingMessage;     (* keyed by message id *)
  callback_ : bool;                       (* an assemble callback is installed *)
  total_fragments_ : Z;
  messages_assembled_ : Z;
  messages_expired_ : Z
}.

(** One call [callback_(message_id, data)]. *)
Definition Assembled : Type := (Z * bytes)%type.

Definition create (config : FragmentAssemblerConfig) : t :=
  mk config OrdMap.empty false 0 0 0.

Definition set_assemble_callback (a : t) : t :=
  mk (config_ a) (pending_ a) true (total_fragments_ a)
     (messages_assembled_ a) (messages_expired_ a).

Definition with_pending (a : t) (pending : OrdMap.t PendingMessage) : t :=
  mk (config_ a) pending (callback_ a) (total_fragments_ a)
     (messages_assembled_ a) (messages_expired_ a).

(** The loop of [try_assemble]: [n] rounds from index [i] on. *)
Fixpoint concatenate (n : nat) (i : Z) (frags : OrdMap.t bytes)
  : option bytes :=
  match n with
  | O => Some []
  | S n' =>
      match OrdMap.find i frags with
      | None => None
      | Some d =>
          match concatenate n' (i + 1) frags with
          | None => None
          | Some rest => Some (d ++ rest)
          end
      end
  end.

Definition try_assemble (msg : PendingMessage) : option bytes :=
  if negb (size (fragments msg) =? total_fragments msg) then None
  else concatenate (Z.to_nat (total_fragments msg)) 0 (fragments msg).

(** [add_fragment]: the value returned, the assembler afterwards and the
    calls of the callback.  [total] is the parameter [total_fragments]. *)
Definition add_fragment (a : t) (message_id fragment_index total : Z)
           (payload : bytes) (timestamp_ms : Z)
  : bool * t * list Assembled :=
  let a :=
    mk (config_ a) (pending_ a) (callback_ a)
       (wrap64 (total_fragments_ a + 1))
       (messages_assembled_ a) (messages_expired_ a) in
  if (total =? 0) || (total <=? fragment_index) then (false, a, [])
  else if max_fragments_per_message (config_ a) <? total then (false, a, [])
  else
    let found := OrdMap.find message_id (pending_ a) in
    if match found with
       | None => max_pending_messages (config_ a) <=? size (pending_ a)
       | Some _ => false
       end
    then (false, a, [])
    else
      (* [it]: the entry found, or the one emplaced for a new message *)
      let msg :=
        match found with
        | Some m => m
        | None => mkPending total OrdMap.empty timestamp_ms 0
        end in
      let pending :=
        match found with
        | Some _ => pending_ a
        | None => OrdMap.insert message_id msg (pending_ a)
        end in
      if negb (total_fragments msg =? total)
      then (false, with_pending a pending, [])
      else if 0 <? OrdMap.count fragment_index (fragments msg)
      then (false, with_pending a pending, [])
      else if max_message_size (config_ a)
              <? wrap64 (total_bytes msg + size payload)
      then (false, with_pending a pending, [])
      else
        let msg :=
          mkPending (total_fragments msg)
                    (OrdMap.insert fragment_index payload (fragments msg))
                    (first_fragment_time_ms msg)
                    (wrap64 (total_bytes msg + size payload)) in
        if size (fragments msg) =? total_fragments msg then
          let calls :=
            match try_assemble msg with
            | Some assembled =>
                if callback_ a then [(message_id, assembled)] else []
            | None => []
            end in
          (true,
           mk (config_ a) (OrdMap.erase message_id pending) (callback_ a)
              (total_fragments_ a) (wrap64 (messages_assembled_ a + 1))
              (messages_expired_ a),
           calls)
        else
          (true, with_pending a (OrdMap.insert message_id msg pending), []).

(** [cleanup_expired]: the number of messages erased and the assembler
    afterwards. *)
Definition cleanup_expired (a : t) (current_time_ms : Z) : Z * t :=
  let kept :=
    filter (fun e =>
              negb (fragment_timeout_ms (config_ a)
                    <? wrap64 (current_time_ms
                               - first_fragment_time_ms (snd e))))
           (pending_ a) in
  let cleaned := size (pending_ a) - size kept in
  (cleaned,
   mk (config_ a) kept (callback_ a) (total_fragments_ a)
      (messages_assembled_ a) (wrap64 (messages_expired_ a + cleaned))).

Definition pending_messages (a : t) : Z := size (pending_ a).

Definition reset (a : t) : t :=
  mk (config_ a) OrdMap.empty (callback_ a) 0 0 0.

End FragmentAssembler.

(** ** mux/rate_limiter.cpp *)

Module RateLimiter.

Record RateLimiterConfig : Type := mkConfig {
  packets_per_second : Z;
  bytes_per_second : Z;
  burst_packets : Z;
  burst_bytes : Z
}.

Definition default_config : RateLimiterConfig :=
  mkConfig 10000 100000000 100 1000000.

Record t : Type := mk {
  config_ : RateLimiterConfig;
  packet_tokens_ : Z;
  byte_tokens_ : Z;
  packets_dropped_ : Z;
  bytes_dropped_ : Z
}.

Definition create (config : RateLimiterConfig) : t :=
  mk config (burst_packets config) (burst_bytes config) 0 0.

Definition check (r : t) (packet_bytes : Z) : bool :=
  (1 <=? packet_tokens_ r) && (packet_bytes <=? byte_tokens_ r).

Definition consume (r : t) (packet_bytes : Z) : t :=
  mk (config_ r)
     (if 0 <? packet_tokens_ r then wrap64 (packet_tokens_ r - 1)
      else packet_tokens_ r)
     (if packet_bytes <=? byte_tokens_ r
      then wrap64 (byte_tokens_ r - packet_bytes) else 0)
     (packets_dropped_ r) (bytes_dropped_ r).

Definition try_consume (r : t) (packet_bytes : Z) : bool * t :=
  if negb (check r packet_bytes)
  then (false,
        mk (config_ r) (packet_tokens_ r) (byte_tokens_ r)
           (wrap64 (packets_dropped_ r + 1))
           (wrap64 (bytes_dropped_ r + packet_bytes)))
  else (true, consume r packet_bytes).

Definition refill (r : t) (elapsed_ms : Z) : t :=
  if elapsed_ms =? 0 then r
  else
    let packet_add :=
      wrap64 (packets_per_second (config_ r) * elapsed_ms) / 1000 in
    let byte_add :=
      wrap64 (bytes_per_second (config_ r) * elapsed_ms) / 1000 in
    mk (config_ r)
       (Z.min (wrap64 (packet_tokens_ r + packet_add))
              (burst_packets (config_ r)))
       (Z.min (wrap64 (byte_tokens_ r + byte_add))
              (burst_bytes (config_ r)))
       (packets_dropped_ r) (bytes_dropped_ r).

(** The calls of the public interface that change the state. *)
Inductive Call : Type :=
  | CTryConsume (packet_bytes : Z)
  | CConsume (packet_bytes : Z)
  | CRefill (elapsed_ms : Z).

Definition step (r : t) (c : Call) : t :=
  match c with
  | CTryConsume n => snd (try_consume r n)
  | CConsume n => consume r n
  | CRefill ms => refill r ms
  end.

Definition run (r : t) (cs : list Call) : t := fold_left step cs r.

(** The packet sizes that a list of [try_consume] calls lets through. *)
Fixpoint let_through (r : t) (sizes : list Z) : list Z :=
  match sizes with
  | [] => []
  | n :: rest =>
      (if fst (try_consume r n) then [n] else [])
      ++ let_through (snd (try_consume r n)) rest
  end.

End RateLimiter.

(** ** mux/session_rotator.cpp (the part the send path uses) *)

Module SessionRotator.

Record t : Type := mk {
  current_session_id_ : Z;
  packets_sent_ : Z;
  bytes_sent_ : Z;
  packets_received_ : Z;
  bytes_received_ : Z
}.

Definition current_session_id (r : t) : Z := current_session_id_ r.

Definition on_packet_sent (r : t) (nbytes : Z) : t :=
  mk (current_session_id_ r) (wrap64 (packets_sent_ r + 1))
     (wrap64 (bytes_sent_ r + nbytes)) (packets_received_ r)
     (bytes_received_ r).

Definition on_packet_received (r : t) (nbytes : Z) : t :=
  mk (current_session_id_ r) (packets_sent_ r) (bytes_sent_ r)
     (wrap64 (packets_received_ r + 1))
     (wrap64 (bytes_received_ r + nbytes)).

End SessionRotator.

(** ** transport/transport_session.cpp: the send path *)

Module transport.

Inductive SessionState : Type :=
  | DISCONNECTED | HANDSHAKING | CONNECTED | CLOSING | CLOSED.

(** The counters of [TransportStats] that the send path writes. *)
Record TransportStats : Type := mkStats {
  packets_sent : Z;
  bytes_sent : Z;
  packets_dropped_rate_limit : Z;
  messages_fragmented : Z
}.

Record TransportSession : Type := mk {
  mtu : Z;                                  (* config_.mtu *)
  state_ : SessionState;
  packet_builder_ : packet.PacketBuilder;
  rate_limiter_ : RateLimiter.t;
  retransmission_ : RetransmissionManager.t;
  session_rotator_ : SessionRotator.t;
  send_sequence_ : Z;
  next_message_id_ : Z;                     (* uint32_t *)
  session_keys_ : crypto.SessionKeys;
  stats_ : TransportStats;
  socket_send_to : bytes -> bool;           (* what UdpSocket::send_to returns *)
  datagrams_ : list bytes                   (* handed to the socket, in order *)
}.

Definition is_connected (s : TransportSession) : bool :=
  match state_ s with CONNECTED => true | _ => false end.

(** The members as the constructor leaves them: the state is
    DISCONNECTED, the builder has no key, the session keys are zero and
    [send_sequence_] is 1.  [session_id] is the id that the constructor of
    the session rotator draws. *)
Definition constructed (mtu : Z) (rate : RateLimiter.RateLimiterConfig)
           (rtx : RetransmissionManager.RetransmissionConfig)
           (session_id : Z) (socket : bytes -> bool) : TransportSession :=
  mk mtu DISCONNECTED (packet.new_builder mtu) (RateLimiter.create rate)
     (RetransmissionManager.set_drop_callback
        (RetransmissionManager.set_retransmit_callback
           (RetransmissionManager.create rtx)))
     (SessionRotator.mk session_id 0 0 0 0)
     1 1 crypto.no_keys (mkStats 0 0 0 0) socket [].

Section WithSodium.
Context {sodium : Sodium}.

(** What [send_packet_internal] builds for one frame: the packet counter
  is the current [send_sequence_]. *)
Definition sealed_packet (s : TransportSession) (frame : packet.Frame)
  : bytes :=
  let header :=
    write_u64 (SessionRotator.current_session_id (session_rotator_ s))
      ++ write_u64 (send_sequence_ s) in
  header ++
  crypto.encrypt (crypto.send_key (session_keys_ s))
                 (crypto.make_nonce (crypto.send_nonce_base (session_keys_ s))
                                    (send_sequence_ s))
                 (packet.serialize_frame frame) header.

(** [None]: the call does not return (an exception leaves it). *)
Definition send_packet_internal (s : TransportSession) (frame : packet.Frame)
         (now : Z) : option (bool * TransportSession) :=
  let frame_size := packet.frame_size frame in
  let '(admitted, limiter) :=
    RateLimiter.try_consume (rate_limiter_ s) frame_size in
  if negb admitted then
    Some (false,
          mk (mtu s) (state_ s) (packet_builder_ s) limiter (retransmission_ s)
             (session_rotator_ s) (send_sequence_ s) (next_message_id_ s)
             (session_keys_ s)
             (mkStats (packets_sent (stats_ s)) (bytes_sent (stats_ s))
                      (wrap64 (packets_dropped_rate_limit (stats_ s) + 1))
                      (messages_fragmented (stats_ s)))
             (socket_send_to s) (datagrams_ s))
  else
  let builder :=
    packet.set_encryption_key
      (packet.set_session_id
         (packet.reset (packet_builder_ s))
         (SessionRotator.current_session_id (session_rotator_ s)))
      (crypto.send_key (session_keys_ s))
      (crypto.send_nonce_base (session_keys_ s)) in
  let '(added, builder) := packet.add_frame builder frame in
  if negb added then
    Some (false,
          mk (mtu s) (state_ s) builder limiter (retransmission_ s)
             (session_rotator_ s) (send_sequence_ s) (next_message_id_ s)
             (session_keys_ s) (stats_ s) (socket_send_to s) (datagrams_ s))
  else
    match packet.build builder (send_sequence_ s) with
    | (packet.Threw, _) => None
    | (packet.Built packet_data, builder) =>
        let rtx :=
          if packet.holds_data_frame frame
          then snd (RetransmissionManager.register_packet
                      (retransmission_ s) (send_sequence_ s) packet_data now)
          else retransmission_ s in
        let sent := socket_send_to s packet_data in
        Some
          (sent,
           mk (mtu s) (state_ s) builder limiter rtx
              (if sent
               then SessionRotator.on_packet_sent (session_rotator_ s)
                                                  (size packet_data)
               else session_rotator_ s)
              (if sent then wrap64 (send_sequence_ s + 1)
               else send_sequence_ s)
              (next_message_id_ s) (session_keys_ s)
              (if sent
               then mkStats (wrap64 (packets_sent (stats_ s) + 1))
                            (wrap64 (bytes_sent (stats_ s)
                                     + size packet_data))
                            (packets_dropped_rate_limit (stats_ s))
                            (messages_fragmented (stats_ s))
               else stats_ s)
              (socket_send_to s) (datagrams_ s ++ [packet_data]))
    end.

(** The largest payload of one frame: [MTU - 16 - 4 - 8 - 16] in
  [size_t]. *)
Definition max_payload (s : TransportSession) : Z :=
  wrap64 (mtu s - packet.PACKET_HEADER_SIZE - packet.FRAME_HEADER_SIZE - 8
          - crypto.POLY1305_TAG_SIZE).

(** The chunks of the loop of [fragment_data], from [offset] on. *)
Fixpoint chunks (n : nat) (max_fragment : Z) (data : bytes) : list bytes :=
  match n with
  | O => []
  | S n' =>
    let chunk_size := Z.min max_fragment (size data) in
    firstn (Z.to_nat chunk_size) data
    :: chunks n' max_fragment (skipn (Z.to_nat chunk_size) data)
  end.

(** [None]: the division by a zero [max_fragment], or the loop over a
  [uint16_t] index that never reaches a [total_fragments] above 65535. *)
Definition fragment_data (s : TransportSession) (data : bytes)
  : option (list packet.Frame * TransportSession) :=
  let max_fragment := max_payload s in
  if max_fragment =? 0 then None
  else
  let total_fragments :=
    wrap64 (size data + max_fragment - 1) / max_fragment in
  if 65535 <? total_fragments then None
  else
    let msg_id := next_message_id_ s in
    let frames :=
      map (fun ic =>
             packet.FragmentFrame msg_id (Z.of_nat (fst ic))
                                  (wrap16 total_fragments) (snd ic))
          (combine (seq 0 (Z.to_nat total_fragments))
                   (chunks (Z.to_nat total_fragments) max_fragment data)) in
    Some (frames,
          mk (mtu s) (state_ s) (packet_builder_ s) (rate_limiter_ s)
             (retransmission_ s) (session_rotator_ s) (send_sequence_ s)
             (wrap32 (msg_id + 1)) (session_keys_ s) (stats_ s)
             (socket_send_to s) (datagrams_ s)).

Fixpoint send_fragments (s : TransportSession) (frames : list packet.Frame)
       (now : Z) (success : bool) : option (bool * TransportSession) :=
  match frames with
  | [] => Some (success, s)
  | f :: frames' =>
    match send_packet_internal s f now with
    | None => None
    | Some (ok, s1) => send_fragments s1 frames' now (success && ok)
    end
  end.

(** The DATA frame that [send] builds for a payload that needs no
  fragmentation, and the session after [send_sequence_++]. *)
Definition data_frame_of (s : TransportSession) (data : bytes)
  : packet.Frame * TransportSession :=
  (packet.DataFrame (send_sequence_ s) data,
   mk (mtu s) (state_ s) (packet_builder_ s) (rate_limiter_ s)
      (retransmission_ s) (session_rotator_ s)
      (wrap64 (send_sequence_ s + 1)) (next_message_id_ s) (session_keys_ s)
      (stats_ s) (socket_send_to s) (datagrams_ s)).

Definition send (s : TransportSession) (data : bytes) (now : Z)
  : option (bool * TransportSession) :=
  if negb (is_connected s) then Some (false, s)
  else if size data <=? max_payload s then
    let '(frame, s1) := data_frame_of s data in
    send_packet_internal s1 frame now
  else
    match fragment_data s data with
    | None => None
    | Some (frames, s1) =>
        let s2 :=
          mk (mtu s1) (state_ s1) (packet_builder_ s1) (rate_limiter_ s1)
             (retransmission_ s1) (session_rotator_ s1) (send_sequence_ s1)
             (next_message_id_ s1) (session_keys_ s1)
             (mkStats (packets_sent (stats_ s1)) (bytes_sent (stats_ s1))
                      (packets_dropped_rate_limit (stats_ s1))
                      (wrap64 (messages_fragmented (stats_ s1) + 1)))
             (socket_send_to s1) (datagrams_ s1) in
        send_fragments s2 frames now true
    end.

End WithSodium.

(** ** transport/transport_session.cpp: the receive path *)

Definition state_eqb (a b : SessionState) : bool :=
  match a, b with
  | DISCONNECTED, DISCONNECTED | HANDSHAKING, HANDSHAKING
  | CONNECTED, CONNECTED | CLOSING, CLOSING | CLOSED, CLOSED => true
  | _, _ => false
  end.

(** The counters of [TransportStats] that the send path leaves alone. *)
Record ReceiveStats : Type := mkReceiveStats {
  packets_received : Z;
  bytes_received : Z;
  packets_dropped_replay : Z;
  packets_retransmitted : Z;
  messages_assembled : Z;
  handshake_failures : Z;
  decryption_failures : Z
}.

(** [TransportSession] with the members that the receive path uses:
    [session] holds the members of the send path.  The deliver callback
    of the reorder buffer and the assemble callback of the fragment
    assembler are the lambdas of the constructor, which pass the bytes to
    [data_callback_] when one is set; [delivered_] lists the arguments of
    its calls.  The state and error callbacks are not recorded.
    [handshake_stage_] is the stage that the send callback installed by
    [start] writes into its HANDSHAKE frames. *)
Record Receiver : Type := mkReceiver {
  session : TransportSession;
  handshake_ : option handshake.Handshake;
  handshake_stage_ : Z;
  packet_parser_ : packet.PacketParser;
  replay_window_ : ReplayWindow.t;
  ack_bitmap_ : AckBitmap.t;
  reorder_buffer_ : ReorderBuffer.t;
  fragment_assembler_ : FragmentAssembler.t;
  last_ack_sent_ : Z;
  receive_stats_ : ReceiveStats;
  data_callback_ : bool;
  delivered_ : list bytes
}.

Definition with_session (r : Receiver) (s : TransportSession) : Receiver :=
  mkReceiver s (handshake_ r) (handshake_stage_ r) (packet_parser_ r)
             (replay_window_ r) (ack_bitmap_ r) (reorder_buffer_ r)
             (fragment_assembler_ r) (last_ack_sent_ r) (receive_stats_ r)
             (data_callback_ r) (delivered_ r).

Definition with_receive_stats (r : Receiver) (st : ReceiveStats) : Receiver :=
  mkReceiver (session r) (handshake_ r) (handshake_stage_ r)
             (packet_parser_ r) (replay_window_ r) (ack_bitmap_ r)
             (reorder_buffer_ r) (fragment_assembler_ r) (last_ack_sent_ r)
             st (data_callback_ r) (delivered_ r).

(** A [uint64_t] counter after one [++] per element of [calls]. *)
Definition count_calls {A : Type} (counter : Z) (calls : list A) : Z :=
  fold_left (fun n _ => wrap64 (n + 1)) calls counter.

(** [data_callback_(data)] for each of [calls], when one is set. *)
Definition hand_to_application (r : Receiver) (calls : list bytes)
  : list bytes :=
  if data_callback_ r then delivered_ r ++ calls else delivered_ r.

Definition set_state (s : TransportSession) (new_state : SessionState)
  : TransportSession :=
  if state_eqb (state_ s) new_state then s
  else
    mk (mtu s) new_state (packet_builder_ s) (rate_limiter_ s)
       (retransmission_ s) (session_rotator_ s) (send_sequence_ s)
       (next_message_id_ s) (session_keys_ s) (stats_ s)
       (socket_send_to s) (datagrams_ s).

(** The receiving members as the constructor leaves them, around the
    send-path members [s]. *)
Definition receiver_of (s : TransportSession)
           (reorder : ReorderBuffer.ReorderBufferConfig)
           (fragment : FragmentAssembler.FragmentAssemblerConfig)
  : Receiver :=
  mkReceiver s None 0 packet.new_parser ReplayWindow.fresh AckBitmap.fresh
             (ReorderBuffer.set_deliver_callback
                (ReorderBuffer.create reorder))
             (FragmentAssembler.set_assemble_callback
                (FragmentAssembler.create fragment))
             0 (mkReceiveStats 0 0 0 0 0 0 0) false [].

Definition set_data_callback (r : Receiver) : Receiver :=
  mkReceiver (session r) (handshake_ r) (handshake_stage_ r)
             (packet_parser_ r) (replay_window_ r) (ack_bitmap_ r)
             (reorder_buffer_ r) (fragment_assembler_ r) (last_ack_sent_ r)
             (receive_stats_ r) true (delivered_ r).

Section Receive.
Context {sodium : Sodium}.

Definition send_pong (s : TransportSession) (echo_timestamp now : Z)
  : option (bool * TransportSession) :=
  if negb (is_connected s) then Some (false, s)
  else
    send_packet_internal s (packet.ControlFrame packet.PONG echo_timestamp [])
                         now.

Definition send_ping (s : TransportSession) (now : Z)
  : option (bool * TransportSession) :=
  if negb (is_connected s) then Some (false, s)
  else send_packet_internal s (packet.ControlFrame packet.PING now []) now.

(** [config_.reorder] is read from the reorder buffer, which holds a copy
    of it. *)
Definition send_ack (r : Receiver) (now : Z) : option Receiver :=
  let ack_number := AckBitmap.get_ack_number (ack_bitmap_ r) in
  let frame :=
    packet.AckFrame
      ack_number (AckBitmap.get_bitmap (ack_bitmap_ r))
      (wrap32 (ReorderBuffer.max_buffered_packets
                 (ReorderBuffer.config_ (reorder_buffer_ r)))) in
  match send_packet_internal (session r) frame now with
  | None => None
  | Some (_, s) =>
      Some (mkReceiver s (handshake_ r) (handshake_stage_ r)
              (packet_parser_ r) (replay_window_ r) (ack_bitmap_ r)
              (reorder_buffer_ r) (fragment_assembler_ r) ack_number
              (receive_stats_ r) (data_callback_ r) (delivered_ r))
  end.

Definition handle_data_frame (r : Receiver) (sequence_number : Z)
           (payload : bytes) (now : Z) : option Receiver :=
  let acks := AckBitmap.mark_received (ack_bitmap_ r) sequence_number in
  let '(_, buffer) :=
    ReorderBuffer.insert (reorder_buffer_ r) sequence_number payload now in
  let '(buffer, calls, _) := ReorderBuffer.deliver buffer in
  let r1 :=
    mkReceiver (session r) (handshake_ r) (handshake_stage_ r)
               (packet_parser_ r) (replay_window_ r) acks buffer
               (fragment_assembler_ r) (last_ack_sent_ r) (receive_stats_ r)
               (data_callback_ r)
               (hand_to_application r (map snd calls)) in
  if wrap64 (last_ack_sent_ r + 2) <? AckBitmap.get_ack_number acks
  then send_ack r1 now
  else Some r1.

Definition handle_ack_frame (r : Receiver) (ack_number bitmap now : Z)
  : Receiver :=
  let s := session r in
  with_session r
    (mk (mtu s) (state_ s) (packet_builder_ s) (rate_limiter_ s)
        (RetransmissionManager.process_sack (retransmission_ s) ack_number
                                            bitmap now)
        (session_rotator_ s) (send_sequence_ s) (next_message_id_ s)
        (session_keys_ s) (stats_ s) (socket_send_to s) (datagrams_ s)).

Definition CLOSE : Z := 3.
Definition RESET : Z := 4.

Definition handle_control_frame (r : Receiver) (type timestamp now : Z)
  : option Receiver :=
  if type =? packet.PING then
    match send_pong (session r) timestamp now with
    | None => None
    | Some (_, s) => Some (with_session r s)
    end
  else if type =? packet.PONG then Some r
  else if type =? CLOSE then Some (with_session r (set_state (session r) CLOSING))
  else if type =? RESET
  then Some (with_session r (set_state (session r) DISCONNECTED))
  else Some r.

Definition handle_fragment_frame (r : Receiver)
           (message_id fragment_index total_fragments : Z) (payload : bytes)
           (now : Z) : Receiver :=
  let '(_, assembler, calls) :=
    FragmentAssembler.add_fragment (fragment_assembler_ r) message_id
                                   fragment_index total_fragments payload
                                   now in
  let st := receive_stats_ r in
  mkReceiver (session r) (handshake_ r) (handshake_stage_ r)
             (packet_parser_ r) (replay_window_ r) (ack_bitmap_ r)
             (reorder_buffer_ r) assembler (last_ack_sent_ r)
             (mkReceiveStats
                (packets_received st) (bytes_received st)
                (packets_dropped_replay st) (packets_retransmitted st)
                (count_calls (messages_assembled st) calls)
                (handshake_failures st) (decryption_failures st))
             (data_callback_ r)
             (hand_to_application r (map snd calls)).

(** The send callback of the handshake: each message goes out in a
    HANDSHAKE frame; what [send_packet_internal] returns is dropped. *)
Fixpoint send_handshake_messages (s : TransportSession) (stage : Z)
         (msgs : list bytes) (now : Z) : option TransportSession :=
  match msgs with
  | [] => Some s
  | msg :: msgs' =>
      match send_packet_internal s (packet.HandshakeFrame stage msg) now with
      | None => None
      | Some (_, s1) => send_handshake_messages s1 stage msgs' now
      end
  end.

Definition count_handshake_failure (r : Receiver) : Receiver :=
  let st := receive_stats_ r in
  with_receive_stats r
    (mkReceiveStats
       (packets_received st) (bytes_received st)
       (packets_dropped_replay st) (packets_retransmitted st)
       (messages_assembled st) (wrap64 (handshake_failures st + 1))
       (decryption_failures st)).

(** [clock] is the reading of the system clock in seconds that the
    handshake takes, [now] the one of the steady clock in milliseconds. *)
Definition handle_handshake_frame (r : Receiver) (payload : bytes)
           (clock now : Z) : option Receiver :=
  match handshake_ r with
  | None => Some r
  | Some hs =>
      let '(complete, hs, msgs) :=
        handshake.process_message hs payload clock in
      match send_handshake_messages (session r) (handshake_stage_ r) msgs
                                    now with
      | None => None
      | Some s =>
          let r1 :=
            mkReceiver s (Some hs) (handshake_stage_ r) (packet_parser_ r)
                       (replay_window_ r) (ack_bitmap_ r) (reorder_buffer_ r)
                       (fragment_assembler_ r) (last_ack_sent_ r)
                       (receive_stats_ r) (data_callback_ r) (delivered_ r) in
          if complete then
            match handshake.result hs with
            | Some result =>
                let keys := handshake.session_keys result in
                let s1 :=
                  mk (mtu s) (state_ s)
                     (packet.set_encryption_key
                        (packet_builder_ s) (crypto.send_key keys)
                        (crypto.send_nonce_base keys))
                     (rate_limiter_ s) (retransmission_ s)
                     (session_rotator_ s) (send_sequence_ s)
                     (next_message_id_ s) keys (stats_ s)
                     (socket_send_to s) (datagrams_ s) in
                Some
                  (mkReceiver (set_state s1 CONNECTED) (Some hs)
                     (handshake_stage_ r)
                     (packet.set_decryption_key
                        (packet_parser_ r) (crypto.recv_key keys)
                        (crypto.recv_nonce_base keys))
                     (replay_window_ r) (ack_bitmap_ r) (reorder_buffer_ r)
                     (fragment_assembler_ r) (last_ack_sent_ r)
                     (receive_stats_ r) (data_callback_ r) (delivered_ r))
            | None => Some (count_handshake_failure r1)
            end
          else if handshake.state_eqb (handshake.state_ hs) handshake.FAILED
          then Some (count_handshake_failure r1)
          else Some r1
      end
  end.

Definition handle_frame (r : Receiver) (frame : packet.Frame)
           (clock now : Z) : option Receiver :=
  match frame with
  | packet.DataFrame sequence_number payload =>
      handle_data_frame r sequence_number payload now
  | packet.AckFrame ack_number bitmap _ =>
      Some (handle_ack_frame r ack_number bitmap now)
  | packet.ControlFrame type timestamp _ =>
      handle_control_frame r type timestamp now
  | packet.FragmentFrame message_id fragment_index total_fragments payload =>
      Some (handle_fragment_frame r message_id fragment_index
                                  total_fragments payload now)
  | packet.HandshakeFrame _ payload =>
      handle_handshake_frame r payload clock now
  | packet.SessionRotateFrame _ _ => Some r
  end.

(** [for (auto& frame : parsed->frames) handle_frame(frame)]: the handler
    of frame number [i] reads [clock i] and [now i]. *)
Fixpoint handle_frames (r : Receiver) (frames : list packet.Frame)
         (clock now : nat -> Z) : option Receiver :=
  match frames with
  | [] => Some r
  | frame :: frames' =>
      match handle_frame r frame (clock O) (now O) with
      | None => None
      | Some r1 =>
          handle_frames r1 frames' (fun i => clock (S i)) (fun i => now (S i))
      end
  end.

(** [None]: the call does not return (an exception of
    [send_packet_internal] leaves it). *)
Definition handle_received_packet (r : Receiver) (data : bytes)
           (clock now : nat -> Z) : option Receiver :=
  let st := receive_stats_ r in
  let st :=
    mkReceiveStats (wrap64 (packets_received st + 1))
                   (wrap64 (bytes_received st + size data))
                   (packets_dropped_replay st) (packets_retransmitted st)
                   (messages_assembled st) (handshake_failures st)
                   (decryption_failures st) in
  let r := with_receive_stats r st in
  match packet.parse_packet_header data with
  | None => Some r
  | Some header =>
      if negb (packet.ph_session_id header
               =? SessionRotator.current_session_id
                    (session_rotator_ (session r)))
      then Some r
      else
        let '(fresh, window) :=
          ReplayWindow.check_and_update (replay_window_ r)
                                        (packet.ph_packet_counter header) in
        if negb fresh then
          Some (mkReceiver (session r) (handshake_ r) (handshake_stage_ r)
                  (packet_parser_ r) window (ack_bitmap_ r)
                  (reorder_buffer_ r) (fragment_assembler_ r)
                  (last_ack_sent_ r)
                  (mkReceiveStats
                     (packets_received st) (bytes_received st)
                     (wrap64 (packets_dropped_replay st + 1))
                     (packets_retransmitted st) (messages_assembled st)
                     (handshake_failures st) (decryption_failures st))
                  (data_callback_ r) (delivered_ r))
        else
          let keys := session_keys_ (session r) in
          let parser :=
            packet.set_decryption_key (packet_parser_ r)
                                      (crypto.recv_key keys)
                                      (crypto.recv_nonce_base keys) in
          match packet.parse parser data with
          | (None, error) =>
              Some (mkReceiver (session r) (handshake_ r) (handshake_stage_ r)
                      parser window (ack_bitmap_ r) (reorder_buffer_ r)
                      (fragment_assembler_ r) (last_ack_sent_ r)
                      (mkReceiveStats
                         (packets_received st) (bytes_received st)
                         (packets_dropped_replay st)
                         (packets_retransmitted st) (messages_assembled st)
                         (handshake_failures st)
                         (match error with
                          | packet.DECRYPTION_FAILED =>
                              wrap64 (decryption_failures st + 1)
                          | _ => decryption_failures st
                          end))
                      (data_callback_ r) (delivered_ r))
          | (Some parsed, _) =>
              let s := session r in
              let s1 :=
                mk (mtu s) (state_ s) (packet_builder_ s) (rate_limiter_ s)
                   (retransmission_ s)
                   (SessionRotator.on_packet_received (session_rotator_ s)
                                                      (size data))
                   (send_sequence_ s) (next_message_id_ s) (session_keys_ s)
                   (stats_ s) (socket_send_to s) (datagrams_ s) in
              handle_frames
                (mkReceiver s1 (handshake_ r) (handshake_stage_ r) parser
                            window (ack_bitmap_ r) (reorder_buffer_ r)
                            (fragment_assembler_ r) (last_ack_sent_ r) st
                            (data_callback_ r) (delivered_ r))
                (packet.frames parsed) clock now
          end
  end.

(** A datagram that the socket hands to [handle_received_packet], with
    the clock readings taken while it is handled. *)
Record Arrival : Type := mkArrival {
  datagram : bytes;
  system_clock : nat -> Z;
  steady_clock : nat -> Z
}.

Definition receive (r : Receiver) (a : Arrival) : option Receiver :=
  handle_received_packet r (datagram a) (system_clock a) (steady_clock a).

Fixpoint receive_all (r : Receiver) (arrivals : list Arrival)
  : option Receiver :=
  match arrivals with
  | [] => Some r
  | a :: arrivals' =>
      match receive r a with
      | None => None
      | Some r1 => receive_all r1 arrivals'
      end
  end.

(** The payloads that the retransmit callback hands to the socket. *)
Definition retransmitted (events : list RetransmissionManager.Event)
  : list bytes :=
  flat_map (fun e =>
              match e with
              | RetransmissionManager.Retransmit _ payload => [payload]
              | RetransmissionManager.Drop _ => []
              end)
           events.

Definition process_timeouts (r : Receiver) (now : Z) : Receiver :=
  let s := session r in
  let '(rtx, events, _) :=
    RetransmissionManager.retransmit_expired (retransmission_ s) now in
  let resent := retransmitted events in
  let '(buffer, calls, _) := ReorderBuffer.flush (reorder_buffer_ r) now in
  let '(_, assembler) :=
    FragmentAssembler.cleanup_expired (fragment_assembler_ r) now in
  let st := receive_stats_ r in
  mkReceiver
    (mk (mtu s) (state_ s) (packet_builder_ s) (rate_limiter_ s) rtx
        (session_rotator_ s) (send_sequence_ s) (next_message_id_ s)
        (session_keys_ s) (stats_ s) (socket_send_to s)
        (datagrams_ s ++ resent))
    (handshake_ r) (handshake_stage_ r) (packet_parser_ r)
    (replay_window_ r) (ack_bitmap_ r) buffer assembler (last_ack_sent_ r)
    (mkReceiveStats
       (packets_received st) (bytes_received st) (packets_dropped_replay st)
       (count_calls (packets_retransmitted st) resent)
       (messages_assembled st) (handshake_failures st)
       (decryption_failures st))
    (data_callback_ r)
    (hand_to_application r (map snd calls)).

(** [start()].  [socket_opens] is what [UdpSocket::open] returns,
    [has_peer] tells whether [config_.peer_address.host] is non-empty,
    [psk] is [config_.psk] and [keypair] the key pair that the constructor
    of [Handshake] generates.  With a peer the session initiates and its
    send callback writes the stage INIT into the HANDSHAKE frames; without
    one it waits, and the callback writes RESPONSE.  The result holds what
    [start] returns. *)
Definition start (r : Receiver) (socket_opens has_peer : bool) (psk : bytes)
           (keypair : crypto.X25519KeyPair) (clock now : Z)
  : option (bool * Receiver) :=
  if negb socket_opens then Some (false, r)
  else
    let hs :=
      handshake.set_send_callback
        (handshake.create (handshake.mkConfig psk 60 false 3) keypair) in
    let stage := if has_peer then packet.STAGE_INIT
                 else packet.STAGE_RESPONSE in
    let s := set_state (session r) HANDSHAKING in
    let started (s : TransportSession) (hs : handshake.Handshake) :=
      mkReceiver s (Some hs) stage (packet_parser_ r) (replay_window_ r)
                 (ack_bitmap_ r) (reorder_buffer_ r) (fragment_assembler_ r)
                 (last_ack_sent_ r) (receive_stats_ r) (data_callback_ r)
                 (delivered_ r) in
    if has_peer then
      let '(initiated, hs1, msgs) := handshake.initiate hs clock in
      match send_handshake_messages s stage msgs now with
      | None => None
      | Some s1 =>
          if initiated then Some (true, started s1 hs1)
          else Some (false, count_handshake_failure (started s1 hs1))
      end
    else Some (true, started s hs).

(** The payload of a FRAGMENT frame. *)
Definition fragment_payload (f : packet.Frame) : bytes :=
  match f with
  | packet.FragmentFrame _ _ _ payload => payload
  | _ => []
  end.

End Receive.

End transport.
(** ** Concrete inputs of the scenarios *)

Definition s1_config : handshake.HandshakeConfig :=
  handshake.mkConfig (repeat 171 32) 60 false 3.

Definition s1_now : Z := 1700000000.

Definition s1_hello : bytes :=
  [72; 101; 108; 108; 111; 44; 32; 87; 111; 114; 108; 100; 33].

(** A second message, sent after [s1_hello]. *)
Definition s8_again : bytes := [97; 103; 97; 105; 110].

(** Two sessions with the MTU [mtu] that share the PSK and hold the same
    session id.  The first has a peer address: [start] makes it send
    INIT.  The second waits, answers with RESPONSE and is connected by
    FINISH.  Every datagram reaches the other side. *)
Definition s10_new (mtu : Z) : transport.Receiver :=
  transport.set_data_callback
    (transport.receiver_of
       (transport.constructed mtu RateLimiter.default_config
          RetransmissionManager.default_config 7 (fun _ => true))
       ReorderBuffer.default_config FragmentAssembler.default_config).

Definition s10_started (mtu : Z) (has_peer : bool)
           (keypair : crypto.X25519KeyPair) : transport.Receiver :=
  match transport.start (sodium := Toy.sodium) (s10_new mtu) true has_peer
                        (repeat 171 32) keypair s1_now 0 with
  | Some (_, r) => r
  | None => s10_new mtu
  end.

(** [r] after the datagram that [peer] sent last. *)
Definition s10_hears (r peer : transport.Receiver) : transport.Receiver :=
  match transport.receive (sodium := Toy.sodium) r
          (transport.mkArrival
             (last (transport.datagrams_ (transport.session peer)) [])
             (fun _ => s1_now) (fun _ => 0)) with
  | Some r' => r'
  | None => r
  end.

Definition s10_initiator_started (mtu : Z) : transport.Receiver :=
  s10_started mtu true (crypto.mkKeyPair (repeat 200 32) (repeat 200 32)).

Definition s10_responder_answered (mtu : Z) : transport.Receiver :=
  s10_hears
    (s10_started mtu false
       (crypto.mkKeyPair (repeat 100 32) (repeat 100 32)))
    (s10_initiator_started mtu).

Definition s10_initiator_at (mtu : Z) : transport.Receiver :=
  s10_hears (s10_initiator_started mtu) (s10_responder_answered mtu).

Definition s10_responder_at (mtu : Z) : transport.Receiver :=
  s10_hears (s10_responder_answered mtu) (s10_initiator_at mtu).

(** The two sessions with the default MTU. *)
Definition s10_initiator : transport.Receiver := s10_initiator_at 1400.
Definition s10_responder : transport.Receiver := s10_responder_at 1400.

(** Two messages that the connected initiator sends. *)
Definition s10_first_sent : transport.TransportSession :=
  match transport.send (sodium := Toy.sodium)
          (transport.session s10_initiator) s1_hello 5 with
  | Some (_, s') => s'
  | None => transport.session s10_initiator
  end.

Definition s10_second_sent : transport.TransportSession :=
  match transport.send (sodium := Toy.sodium) s10_first_sent s8_again 6 with
  | Some (_, s') => s'
  | None => s10_first_sent
  end.

(** The connected initiator with the MTU 112, whose frames carry 68 bytes
    at most, a message of 150 bytes and the peer of the session. *)
Definition s6_session : transport.TransportSession :=
  transport.session (s10_initiator_at 112).

Definition s6_message : bytes := map Z.of_nat (seq 1 150).

Definition s6_fragments : list packet.Frame * transport.TransportSession :=
  match transport.fragment_data s6_session s6_message with
  | Some p => p
  | None => ([], s6_session)
  end.

Definition s6_receiver : transport.Receiver := s10_responder_at 112.

(** A datagram with the session id 7, the counter 5 and a body that does
    not authenticate, and the receiver after it. *)
Definition s7_arrival : transport.Arrival :=
  transport.mkArrival
    (write_u64 7 ++ write_u64 5 ++ repeat 9 20) (fun _ => 0) (fun _ => 0).

Definition s7_after : transport.Receiver :=
  match transport.receive (sodium := Toy.sodium) s6_receiver s7_arrival with
  | Some r => r
  | None => s6_receiver
  end.

(** A datagram with the session id 7 and the counter 100 that does not
    authenticate, and the receiver after it. *)
Definition s7_ahead : transport.Arrival :=
  transport.mkArrival
    (write_u64 7 ++ write_u64 100 ++ repeat 9 20) (fun _ => 0) (fun _ => 0).

Definition s7_after_ahead : transport.Receiver :=
  match transport.receive (sodium := Toy.sodium) s6_receiver s7_ahead with
  | Some r => r
  | None => s6_receiver
  end.

(** [s6_message] sent by [s6_session], and the datagrams of the message
    in the reverse order. *)
Definition s9_sent : transport.TransportSession :=
  match transport.send (sodium := Toy.sodium) s6_session s6_message 5 with
  | Some (_, s') => s'
  | None => s6_session
  end.

Definition s9_arrivals : list transport.Arrival :=
  map (fun d => transport.mkArrival d (fun _ => 0) (fun _ => 0))
      (rev (skipn (length (transport.datagrams_ s6_session))
                  (transport.datagrams_ s9_sent))).

(** ** Invariants and runs used by the properties below *)

(** [replay_tracks w A]: the window [w] records the accepted counters [A]:
    the highest one, and in its bitmap those of [A] less than 64 behind. *)
Definition replay_tracks (w : ReplayWindow.t) (A : list Z) : Prop :=
  0 <= ReplayWindow.highest_seq_ w < two64 - 64 /\
  (ReplayWindow.initialized_ w = false ->
     A = [] /\ ReplayWindow.highest_seq_ w = 0) /\
  (ReplayWindow.initialized_ w = true ->
     In (ReplayWindow.highest_seq_ w) A /\
     (forall a, In a A -> a <= ReplayWindow.highest_seq_ w) /\
     (forall c,
        ReplayWindow.highest_seq_ w - 64 < c < ReplayWindow.highest_seq_ w ->
        (Z.testbit (ReplayWindow.bitmap_ w)
                   (ReplayWindow.highest_seq_ w - c - 1) = true
         <-> In c A))).

(** The arrival time of the oldest buffered entry: the smallest timestamp
    among the entries, whatever their sequence numbers. *)
Definition oldest_arrival (b : ReorderBuffer.t) : option Z :=
  match map (fun e => ReorderBuffer.timestamp_ms (snd e))
            (ReorderBuffer.buffer_ b) with
  | [] => None
  | t :: ts => Some (fold_right Z.min t ts)
  end.

(** [reorder_ordered b]: the keys of the buffer are strictly ascending,
    none is below [next_expected_], and the sequence numbers stay below
    the largest [uint64_t], so that [next_expected_] does not wrap. *)
Definition reorder_ordered (b : ReorderBuffer.t) : Prop :=
  StronglySorted Z.lt (OrdMap.keys (ReorderBuffer.buffer_ b)) /\
  0 <= ReorderBuffer.next_expected_ b < two64 /\
  Forall (fun k => ReorderBuffer.next_expected_ b <= k < two64 - 1)
         (OrdMap.keys (ReorderBuffer.buffer_ b)).

(** Calls [calls] deliver strictly ascending sequences within [lo, hi). *)
Definition reorder_span (lo hi : Z) (calls : list ReorderBuffer.Delivery)
  : Prop :=
  lo <= hi /\
  StronglySorted Z.lt (map fst calls) /\
  Forall (fun s => lo <= s < hi) (map fst calls).

(** An [insert] call whose sequence number is below the largest
    [uint64_t]. *)
Definition reorder_call_ok (c : ReorderBuffer.Call) : Prop :=
  match c with
  | ReorderBuffer.CInsert seq _ _ => 0 <= seq < two64 - 1
  | _ => True
  end.

(** [reorder_within b]: the entries and the payload bytes held are within
    the configured limits, and the byte counter is not below the bytes
    held. *)
Definition reorder_within (b : ReorderBuffer.t) : Prop :=
  size (ReorderBuffer.buffer_ b)
    <= ReorderBuffer.max_buffered_packets (ReorderBuffer.config_ b) /\
  ReorderBuffer.held_bytes b <= ReorderBuffer.buffered_bytes_ b /\
  ReorderBuffer.buffered_bytes_ b
    <= ReorderBuffer.max_buffered_bytes (ReorderBuffer.config_ b).

(** An [insert] call whose payload size added to the byte limit stays in
    [size_t]. *)
Definition reorder_call_fits (cfg : ReorderBuffer.ReorderBufferConfig)
           (c : ReorderBuffer.Call) : Prop :=
  match c with
  | ReorderBuffer.CInsert _ payload _ =>
      size payload + ReorderBuffer.max_buffered_bytes cfg < two64
  | _ => True
  end.

(** [sacked ack_number bitmap k]: the selective acknowledgement
    [(ack_number, bitmap)] covers sequence [k]: [k] is at most
    [ack_number], or [k] is [ack_number + 1 + i] for a set bit [i]. *)
Definition sacked (ack_number bitmap k : Z) : Prop :=
  k <= ack_number \/
  exists i, 0 <= i < 64 /\ Z.testbit bitmap i = true /\
            k = wrap64 (ack_number + 1 + i).

(** [rtx_accurate m]: the keys of the store are strictly ascending and
    the byte counter is the number of bytes stored, as a [size_t]. *)
Definition rtx_accurate (m : RetransmissionManager.t) : Prop :=
  StronglySorted Z.lt (OrdMap.keys (RetransmissionManager.unacked_ m)) /\
  RetransmissionManager.unacked_bytes_ m
  = wrap64 (RetransmissionManager.stored (RetransmissionManager.unacked_ m)).

(** [rate_within r]: both buckets hold at most their burst size. *)
Definition rate_within (r : RateLimiter.t) : Prop :=
  0 <= RateLimiter.packet_tokens_ r
    <= RateLimiter.burst_packets (RateLimiter.config_ r) /\
  0 <= RateLimiter.byte_tokens_ r
    <= RateLimiter.burst_bytes (RateLimiter.config_ r).

(** A call whose argument is a [size_t] or [uint64_t] value. *)
Definition rate_call_ok (c : RateLimiter.Call) : Prop :=
  match c with
  | RateLimiter.CTryConsume n => is_u64 n
  | RateLimiter.CConsume n => is_u64 n
  | RateLimiter.CRefill ms => is_u64 ms
  end.

Definition sum_sizes (l : list Z) : Z := fold_right Z.add 0 l.

(** [assembling total chunks got m]: the pending message [m] of [total]
    fragments holds, under the indices [got], the pieces of [chunks] with
    these indices, and nothing else. *)
Definition assembling (total : Z) (chunks : list bytes) (got : list Z)
           (m : FragmentAssembler.PendingMessage) : Prop :=
  FragmentAssembler.total_fragments m = total /\
  size (FragmentAssembler.fragments m) = size got /\
  (forall k, In k got ->
     OrdMap.find k (FragmentAssembler.fragments m)
     = Some (nth (Z.to_nat k) chunks [])) /\
  (forall k, ~ In k got ->
     OrdMap.find k (FragmentAssembler.fragments m) = None).

(** [assembler_holds cfg others id chunks got held a]: besides the
    pending messages [others], the assembler [a] holds the pieces [got]
    of message [id], [held] bytes in all. *)
Definition assembler_holds (cfg : FragmentAssembler.FragmentAssemblerConfig)
           (others : OrdMap.t FragmentAssembler.PendingMessage) (id : Z)
           (chunks : list bytes) (got : list Z) (held : Z)
           (a : FragmentAssembler.t) : Prop :=
  FragmentAssembler.config_ a = cfg /\
  FragmentAssembler.callback_ a = true /\
  match got with
  | [] => FragmentAssembler.pending_ a = others /\ held = 0
  | _ =>
      exists m,
        FragmentAssembler.pending_ a = OrdMap.insert id m others /\
        assembling (size chunks) chunks got m /\
        FragmentAssembler.total_bytes m = held
  end.

(** The FRAGMENT frame with index [k] of message [id] cut into
    [chunks]. *)
Definition fragment_of (id : Z) (chunks : list bytes) (k : Z)
  : packet.Frame :=
  packet.FragmentFrame id k (size chunks) (nth (Z.to_nat k) chunks []).

(** The packet counters that consecutive [send_packet_internal] calls
    give to the frames [fs], starting at counter [q]. *)
Fixpoint numbered (q : Z) (fs : list packet.Frame)
  : list (Z * packet.Frame) :=
  match fs with
  | [] => []
  | f :: fs' => (q, f) :: numbered (q + 1) fs'
  end.

Section Carrying.
Context {sodium : Sodium}.

(** [carries sid key nonce_base cf d]: the datagram [d] has the session
    id [sid] and the counter [fst cf] in its header, and opens under
    [key] and [nonce_base] to the one frame [snd cf]. *)
Definition carries (sid : Z) (key nonce_base : bytes)
           (cf : Z * packet.Frame) (d : bytes) : Prop :=
  packet.parse_packet_header d = Some (packet.mkPacketHeader sid (fst cf)) /\
  forall p,
    packet.parse (packet.set_decryption_key p key nonce_base) d
    = (Some (packet.mkParsed sid (fst cf) [snd cf]), packet.SUCCESS).

End Carrying.

(** * Proofs *)

(** ** Machine integer facts *)

Lemma wrap64_small (z : Z) : 0 <= z < two64 -> wrap64 z = z.
Proof. intros H. unfold wrap64. now apply Z.mod_small. Qed.

Lemma wrap64_over (z : Z) : two64 <= z < 2 * two64 -> wrap64 z = z - two64.
Proof.
  intros H. unfold wrap64.
  symmetry. apply Z.mod_unique with (q := 1); unfold two64 in *; lia.
Qed.

Lemma wrap64_range (z : Z) : is_u64 (wrap64 z).
Proof. unfold is_u64, wrap64. apply Z.mod_pos_bound. reflexivity. Qed.

Lemma two64_pow : two64 = 2 ^ 64.
Proof. reflexivity. Qed.

Lemma testbit_wrap64_low (z n : Z) :
  0 <= n < 64 -> Z.testbit (wrap64 z) n = Z.testbit z n.
Proof.
  intros H. unfold wrap64. rewrite two64_pow.
  apply Z.mod_pow2_bits_low. lia.
Qed.

Lemma land_one_bit (a d : Z) :
  0 <= d -> (Z.land a (Z.shiftl 1 d) =? 0) = negb (Z.testbit a d).
Proof.
  intros Hd.
  assert (E : Z.land a (Z.shiftl 1 d) = Z.shiftl (Z.b2z (Z.testbit a d)) d).
  { apply Z.bits_inj'. intros n Hn.
    rewrite Z.land_spec, !Z.shiftl_spec by assumption.
    destruct (Z.eq_dec n d) as [->|Hne].
    - rewrite Z.sub_diag. simpl (Z.testbit 1 0).
      rewrite andb_true_r. now rewrite Z.b2z_bit0.
    - destruct (Z.lt_ge_cases n d) as [Hlt|Hge].
      + rewrite !(Z.testbit_neg_r _ (n - d)) by lia. apply andb_false_r.
      + assert (Hpos : 0 < n - d) by lia.
        replace (Z.testbit 1 (n - d)) with false.
        2:{ symmetry. apply Z.bits_above_log2; simpl; lia. }
        rewrite andb_false_r.
        destruct (Z.testbit a d); simpl (Z.b2z _).
        * symmetry. apply Z.bits_above_log2; simpl; lia.
        * symmetry. apply Z.bits_0. }
  rewrite E. destruct (Z.testbit a d); simpl (Z.b2z _).
  - rewrite Z.shiftl_1_l. simpl negb. apply Z.eqb_neq.
    pose proof (Z.pow_pos_nonneg 2 d). lia.
  - now rewrite Z.shiftl_0_l.
Qed.

Lemma testbit_shiftl_one (d n : Z) :
  0 <= d -> 0 <= n -> Z.testbit (Z.shiftl 1 d) n = (n =? d).
Proof.
  intros Hd Hn. rewrite Z.shiftl_spec by assumption.
  destruct (Z.eqb_spec n d) as [->|Hne].
  - now rewrite Z.sub_diag.
  - destruct (Z.lt_ge_cases n d).
    + apply Z.testbit_neg_r. lia.
    + apply Z.bits_above_log2; simpl; lia.
Qed.

(** ** Replay window *)

Section ReplayWindowFacts.
Import ReplayWindow.

(** On counters that stay clear of the 64-bit wrap, [check] is the
    acceptance rule of the data model. *)
Lemma check_accepts_iff (w : t) (c : Z) :
  wf w -> initialized_ w = true -> 0 <= c -> c + WINDOW_SIZE < two64 ->
  check w c = true <->
  (highest_seq_ w < c \/
   (1 <= highest_seq_ w - c <= 63 /\
    Z.testbit (bitmap_ w) (highest_seq_ w - c - 1) = false)).
Proof.
  intros [[Hh0 Hh1] _] Hi Hc0 Hc1. unfold check, WINDOW_SIZE in *.
  rewrite Hi. simpl negb. cbv iota.
  rewrite (wrap64_small (c + 64)) by lia.
  destruct (Z.leb_spec (c + 64) (highest_seq_ w)).
  { split; [discriminate | lia]. }
  destruct (Z.ltb_spec (highest_seq_ w) c).
  { split; auto. }
  destruct (Z.eqb_spec c (highest_seq_ w)).
  { split; [discriminate | lia]. }
  cbv zeta. rewrite (wrap64_small (highest_seq_ w - c - 1)) by lia.
  destruct (Z.ltb_spec (highest_seq_ w - c - 1) 64); [|lia].
  rewrite land_one_bit by lia.
  split.
  - intros E. right. split; [lia|].
    now destruct (Z.testbit (bitmap_ w) (highest_seq_ w - c - 1)).
  - intros [?|[_ E]]; [lia|]. now rewrite E.
Qed.

(** Any counter at least 64 behind the highest one is rejected. *)
Lemma check_rejects_too_old (w : t) (c : Z) :
  wf w -> initialized_ w = true -> 0 <= c ->
  64 <= highest_seq_ w - c -> check w c = false.
Proof.
  intros [[Hh0 Hh1] _] Hi Hc0 Hold. unfold check, WINDOW_SIZE.
  rewrite Hi. simpl negb. cbv iota.
  rewrite (wrap64_small (c + 64)) by lia.
  destruct (Z.leb_spec (c + 64) (highest_seq_ w)); [reflexivity | lia].
Qed.

Lemma update_records (w : t) (c : Z) :
  is_u64 (highest_seq_ w) -> is_u64 c ->
  check w c = true -> seen (update w c) c.
Proof.
  intros Hh Hc Hchk. unfold is_u64 in *.
  unfold check in Hchk. unfold update, seen, check, WINDOW_SIZE in *.
  destruct (initialized_ w); simpl negb in *; cbv iota in *.
  2:{ simpl. repeat split; try lia.
      destruct (wrap64 (c + 64) <=? c); [reflexivity|].
      rewrite Z.ltb_irrefl, Z.eqb_refl. reflexivity. }
  destruct (Z.leb_spec (wrap64 (c + 64)) (highest_seq_ w)) as [|Hw];
    [discriminate|].
  destruct (Z.ltb_spec (highest_seq_ w) c) as [Hlt|Hge].
  - assert (Hnew : forall b, initialized_ (mk c b true) = true /\
             (0 <= highest_seq_ (mk c b true) < two64) /\
             c <= highest_seq_ (mk c b true) /\
             (if negb (initialized_ (mk c b true)) then true
              else if wrap64 (c + 64) <=? highest_seq_ (mk c b true) then false
              else if highest_seq_ (mk c b true) <? c then true
              else if c =? highest_seq_ (mk c b true) then false
              else
                let diff := wrap64 (highest_seq_ (mk c b true) - c - 1) in
                if diff <? 64
                then Z.land (bitmap_ (mk c b true)) (Z.shiftl 1 diff) =? 0
                else false) = false).
    { intros b. simpl. repeat split; try lia.
      destruct (wrap64 (c + 64) <=? c); [reflexivity|].
      rewrite Z.ltb_irrefl, Z.eqb_refl. reflexivity. }
    destruct (64 <=? wrap64 (c - highest_seq_ w)); apply Hnew.
  - destruct (Z.eqb_spec c (highest_seq_ w)) as [|Hne]; [discriminate|].
    cbv zeta in Hchk.
    destruct (Z.ltb_spec c (highest_seq_ w)) as [Hlt|]; [|lia].
    cbv zeta.
    destruct (Z.ltb_spec (wrap64 (highest_seq_ w - c - 1)) 64) as [Hd|];
      [|discriminate].
    simpl. repeat split; try lia.
    destruct (wrap64 (c + 64) <=? highest_seq_ w); [reflexivity|].
    destruct (Z.ltb_spec (highest_seq_ w) c); [lia|].
    destruct (Z.eqb_spec c (highest_seq_ w)); [reflexivity|].
    destruct (Z.ltb_spec (wrap64 (highest_seq_ w - c - 1)) 64); [|reflexivity].
    pose proof (wrap64_range (highest_seq_ w - c - 1)) as [Hr0 _].
    rewrite land_one_bit by assumption.
    rewrite Z.lor_spec, testbit_shiftl_one by assumption.
    rewrite Z.eqb_refl, orb_true_r. reflexivity.
Qed.


Lemma check_and_update_keeps_seen (w : t) (c d : Z) :
  is_u64 c -> is_u64 d -> seen w c -> seen (snd (check_and_update w d)) c.
Proof.
  intros Hc Hd (Hi & Hh & Hle & Hchk). unfold is_u64 in *.
  unfold check_and_update.
  destruct (check w d) eqn:Hd_ok; simpl negb; cbv iota; simpl snd.
  2:{ repeat split; assumption || lia. }
  unfold check in Hd_ok, Hchk. rewrite Hi in Hd_ok, Hchk.
  simpl negb in Hd_ok, Hchk. cbv iota in Hd_ok, Hchk.
  unfold update, seen, check, WINDOW_SIZE in *. rewrite Hi.
  simpl negb. cbv iota.
  destruct (Z.leb_spec (wrap64 (d + 64)) (highest_seq_ w)) as [|Hdw];
    [discriminate|].
  destruct (Z.ltb_spec (highest_seq_ w) d) as [Hlt|Hge].
  - (* a new highest counter: the bitmap shifts *)
    rewrite (wrap64_small (d - highest_seq_ w)) by lia.
    assert (Hold : c + 64 <= d -> wrap64 (c + 64) <= d).
    { intros. rewrite wrap64_small; lia. }
    destruct (Z.leb_spec 64 (d - highest_seq_ w)) as [Hfar|Hnear]; simpl.
    + repeat split; try lia.
      destruct (Z.leb_spec (wrap64 (c + 64)) d); [reflexivity | lia].
    + repeat split; try lia.
      destruct (Z.leb_spec (wrap64 (c + 64)) d) as [|Hcw]; [reflexivity|].
      destruct (Z.ltb_spec d c); [lia|].
      destruct (Z.eqb_spec c d); [reflexivity|].
      assert (Hin : d - c - 1 < 64) by lia.
      rewrite (wrap64_small (d - c - 1)) by lia.
      destruct (Z.ltb_spec (d - c - 1) 64); [|reflexivity].
      rewrite land_one_bit by lia.
      rewrite Z.lor_spec, testbit_shiftl_one by lia.
      rewrite testbit_wrap64_low by lia.
      rewrite Z.shiftl_spec by lia.
      destruct (Z.eqb_spec (d - c - 1) (d - highest_seq_ w - 1));
        [now rewrite orb_true_r|].
      rewrite orb_false_r.
      (* [c] was below the old highest counter, hence marked in the bitmap *)
      destruct (Z.leb_spec (wrap64 (c + 64)) (highest_seq_ w)) as [Hcw'|Hcw'].
      { destruct (Z_lt_ge_dec (c + 64) two64).
        - rewrite wrap64_small in Hcw', Hcw by lia. lia.
        - rewrite wrap64_over in Hcw', Hcw by (unfold two64 in *; lia). lia. }
      destruct (Z.ltb_spec (highest_seq_ w) c); [lia|].
      destruct (Z.eqb_spec c (highest_seq_ w)); [lia|].
      cbv zeta in Hchk.
      rewrite (wrap64_small (highest_seq_ w - c - 1)) in Hchk by lia.
      destruct (Z.ltb_spec (highest_seq_ w - c - 1) 64); [|lia].
      rewrite land_one_bit in Hchk by lia.
      replace (d - c - 1 - (d - highest_seq_ w)) with (highest_seq_ w - c - 1)
        by lia.
      now destruct (Z.testbit (bitmap_ w) (highest_seq_ w - c - 1)).
  - (* a counter inside the window: one more bit is set *)
    destruct (Z.eqb_spec d (highest_seq_ w)); [discriminate|].
    destruct (Z.ltb_spec d (highest_seq_ w)); [|lia].
    cbv zeta in Hd_ok |- *.
    destruct (Z.ltb_spec (wrap64 (highest_seq_ w - d - 1)) 64);
      [|discriminate].
    simpl. repeat split; try lia.
    destruct (wrap64 (c + 64) <=? highest_seq_ w); [reflexivity|].
    destruct (highest_seq_ w <? c); [discriminate|].
    destruct (c =? highest_seq_ w); [reflexivity|].
    cbv zeta in Hchk.
    destruct (Z.ltb_spec (wrap64 (highest_seq_ w - c - 1)) 64); [|reflexivity].
    pose proof (wrap64_range (highest_seq_ w - c - 1)) as [Hr0 _].
    pose proof (wrap64_range (highest_seq_ w - d - 1)) as [Hr1 _].
    rewrite land_one_bit in Hchk |- * by assumption.
    rewrite Z.lor_spec.
    destruct (Z.testbit (bitmap_ w) (wrap64 (highest_seq_ w - c - 1)));
      [reflexivity | discriminate].
Qed.

Lemma feed_keeps_seen (cs : list Z) (w : t) (c : Z) :
  is_u64 c -> Forall is_u64 cs -> seen w c -> seen (feed w cs) c.
Proof.
  intros Hc Hcs. revert w. induction Hcs as [|d cs Hd _ IH]; intros w Hs.
  - exact Hs.
  - unfold feed. simpl. apply IH.
    now apply check_and_update_keeps_seen.
Qed.

(** Replay window law: a counter that was accepted is refused by every
    later check, whatever was received in between. *)
Lemma accepted_counter_never_again (w : t) (c : Z) (cs : list Z) :
  wf w -> is_u64 c -> Forall is_u64 cs ->
  fst (check_and_update w c) = true ->
  check (feed (snd (check_and_update w c)) cs) c = false.
Proof.
  intros [Hh _] Hc Hcs Hacc.
  unfold check_and_update in *.
  destruct (check w c) eqn:E; simpl in Hacc; [|discriminate].
  simpl snd.
  apply (feed_keeps_seen cs (update w c) c Hc Hcs).
  now apply update_records.
Qed.

(** Claim C3 (the code departs from it).  The window that has accepted
    counter 100 is initialized with [highest = 100]; the counter
    [2^64 - 1] is larger than [highest], so the acceptance rule admits it,
    but [seq + WINDOW_SIZE] wraps around to 63 in [check], the "too old"
    test [63 <= 100] succeeds and [check_and_update] refuses the counter.
    The same happens for every counter [c >= 2^64 - 64] once
    [highest >= c + 64 - 2^64]. *)
Theorem C3_check_wraps_and_refuses_newer_counter :
  let w := feed fresh [100] in
  initialized_ w = true /\
  highest_seq_ w = 100 /\
  highest_seq_ w < two64 - 1 /\
  is_u64 (two64 - 1) /\
  wrap64 (two64 - 1 + WINDOW_SIZE) = 63 /\
  fst (check_and_update w (two64 - 1)) = false.
Proof. vm_compute. repeat split; try reflexivity; discriminate. Qed.

End ReplayWindowFacts.

(** ** Ordered map *)

Section OrdMapFacts.
Context {V : Type}.

Lemma erase_absent (k : Z) (m : OrdMap.t V) :
  OrdMap.find k m = None -> OrdMap.erase k m = m.
Proof.
  induction m as [|[k' v] m IH]; simpl; [reflexivity|].
  destruct (k' =? k); [discriminate|].
  intros H. now rewrite IH.
Qed.

Lemma keys_erase_length (k : Z) (m : OrdMap.t V) :
  (length (OrdMap.erase k m) <= length m)%nat.
Proof.
  induction m as [|[k' v] m IH]; simpl; [lia|].
  destruct (k' =? k); simpl; lia.
Qed.

End OrdMapFacts.

(** ** Ack bitmap *)

(** The absorbing loop of [mark_received] really exits within its 64
    rounds: the bitmap it leaves has bit 0 clear. *)
Lemma absorb_exits (n : nat) (ack bm : Z) :
  0 <= bm < 2 ^ Z.of_nat n ->
  Z.land (snd (AckBitmap.absorb n ack bm)) 1 = 0.
Proof.
  revert ack bm. induction n as [|n IH]; intros ack bm Hbm.
  - simpl in *. assert (bm = 0) by lia. now subst.
  - cbn [AckBitmap.absorb].
    destruct (Z.eqb_spec (Z.land bm 1) 0) as [E|E]; [exact E|].
    apply IH. rewrite Z.shiftr_div_pow2 by lia.
    rewrite Nat2Z.inj_succ, Z.pow_succ_r in Hbm by lia.
    change (2 ^ 1) with 2. split.
    + apply Z.div_pos; lia.
    + apply Z.div_lt_upper_bound; lia.
Qed.

Lemma mark_received_absorbs (a : AckBitmap.t) (s : Z) :
  0 <= AckBitmap.bitmap_ a < two64 ->
  AckBitmap.initialized_ a = true ->
  AckBitmap.ack_number_ a < s ->
  s = wrap64 (AckBitmap.ack_number_ a + 1) ->
  Z.land (AckBitmap.bitmap_ (AckBitmap.mark_received a s)) 1 = 0.
Proof.
  intros Hbm Hi Hlt Hs. unfold AckBitmap.mark_received.
  rewrite Hi. cbv beta iota delta [negb].
  destruct (Z.leb_spec s (AckBitmap.ack_number_ a)); [lia|].
  rewrite <- Hs, Z.eqb_refl.
  assert (H1 : Z.land (snd (AckBitmap.absorb 64 s
                              (Z.shiftr (AckBitmap.bitmap_ a) 1))) 1 = 0).
  { apply absorb_exits.
    rewrite Z.shiftr_div_pow2 by lia. change (2 ^ 1) with 2.
    change (2 ^ Z.of_nat 64) with two64.
    unfold two64 in *. split.
    - apply Z.div_pos; lia.
    - apply Z.div_lt_upper_bound; lia. }
  destruct (AckBitmap.absorb 64 s (Z.shiftr (AckBitmap.bitmap_ a) 1))
    as [ack bm].
  exact H1.
Qed.

(** ** Retransmission manager *)

Section RetransmissionFacts.
Import RetransmissionManager.

Lemma unacked_update_rtt (m : t) (r : Z) :
  unacked_ (update_rtt m r) = unacked_ m.
Proof.
  unfold update_rtt.
  destruct (negb (rtt_initialized_ m)); reflexivity.
Qed.

Lemma unacked_ack_entry (m : t) (seq : Z) (p : UnackedPacket) (ts : Z) :
  unacked_ (ack_entry m seq p ts) = OrdMap.erase seq (unacked_ m).
Proof.
  unfold ack_entry.
  destruct (retransmit_count p =? 0); simpl;
    now rewrite ?unacked_update_rtt.
Qed.

Lemma unacked_ack_packet (m : t) (seq ts : Z) :
  unacked_ (ack_packet m seq ts) = OrdMap.erase seq (unacked_ m).
Proof.
  unfold ack_packet.
  destruct (OrdMap.find seq (unacked_ m)) eqn:E.
  - apply unacked_ack_entry.
  - symmetry. now apply erase_absent.
Qed.

(** The entries left by [process_sack] depend on the keys only: the
    cumulative loop erases every key up to [ack_number], the bitmap loop
    erases [ack_number + 1 + i] for every set bit [i]. *)
Lemma unacked_process_sack (m : t) (ack_number bitmap ts : Z) :
  unacked_ (process_sack m ack_number bitmap ts) =
  fold_left
    (fun u i => if negb (Z.land bitmap (Z.shiftl 1 i) =? 0)
                then OrdMap.erase (wrap64 (ack_number + 1 + i)) u else u)
    (map Z.of_nat (seq 0 64))
    (fold_left
       (fun u e => if fst e <=? ack_number
                   then OrdMap.erase (fst e) u else u)
       (unacked_ m) (unacked_ m)).
Proof.
  unfold process_sack.
  set (l := unacked_ m) at 1 3.
  set (idx := map Z.of_nat (seq 0 64)).
  assert (H1 : forall es a,
    unacked_ (fold_left
      (fun a e => if fst e <=? ack_number
                  then ack_entry a (fst e) (snd e) ts else a) es a) =
    fold_left (fun u e => if fst e <=? ack_number
                          then OrdMap.erase (fst e) u else u)
              es (unacked_ a)).
  { induction es as [|e es IH]; intros a; simpl; [reflexivity|].
    rewrite IH. destruct (fst e <=? ack_number); [|reflexivity].
    now rewrite unacked_ack_entry. }
  assert (H2 : forall js a,
    unacked_ (fold_left
      (fun a i => if negb (Z.land bitmap (Z.shiftl 1 i) =? 0)
                  then ack_packet a (wrap64 (ack_number + 1 + i)) ts
                  else a) js a) =
    fold_left
      (fun u i => if negb (Z.land bitmap (Z.shiftl 1 i) =? 0)
                  then OrdMap.erase (wrap64 (ack_number + 1 + i)) u else u)
      js (unacked_ a)).
  { induction js as [|j js IH]; intros a; simpl; [reflexivity|].
    rewrite IH.
    destruct (negb (Z.land bitmap (Z.shiftl 1 j) =? 0)); [|reflexivity].
    now rewrite unacked_ack_packet. }
  now rewrite H2, H1.
Qed.

(** [retransmit_expired] on a store holding one expired entry that still
    has retries left. *)
Lemma retransmit_expired_single (m : t) (seq : Z) (p : UnackedPacket)
      (now : Z) :
  unacked_ m = [(seq, p)] ->
  rto_ms_ m <= wrap64 (now - last_sent_ms p) ->
  retransmit_count p < max_retries (config_ m) ->
  retransmit_expired m now =
  (mk (config_ m)
      [(seq, mkPacket (data p) (send_time_ms p) now
                      (wrap32 (retransmit_count p + 1)))]
      (unacked_bytes_ m) (srtt_ms_ m) (rttvar_ms_ m)
      (Z.min (wrap64 (rto_ms_ m * 2)) (max_rto_ms (config_ m)))
      (rtt_initialized_ m) (wrap64 (total_retransmits_ m + 1))
      (total_drops_ m) (retransmit_callback_ m) (drop_callback_ m),
   if retransmit_callback_ m then [Retransmit seq (data p)] else [],
   1).
Proof.
  intros Hu Hexp Hretry. unfold retransmit_expired. rewrite Hu.
  cbn [fold_left scan_entry s_rto].
  destruct (Z.ltb_spec (wrap64 (now - last_sent_ms p)) (rto_ms_ m)); [lia|].
  destruct (Z.leb_spec (max_retries (config_ m)) (retransmit_count p));
    [lia|].
  reflexivity.
Qed.

(** ... and on one expired entry whose retries are used up. *)
Lemma retransmit_expired_single_drop (m : t) (seq : Z) (p : UnackedPacket)
      (now : Z) :
  unacked_ m = [(seq, p)] ->
  rto_ms_ m <= wrap64 (now - last_sent_ms p) ->
  max_retries (config_ m) <= retransmit_count p ->
  retransmit_expired m now =
  (mk (config_ m) [] (wrap64 (unacked_bytes_ m - size (data p)))
      (srtt_ms_ m) (rttvar_ms_ m) (rto_ms_ m) (rtt_initialized_ m)
      (total_retransmits_ m) (wrap64 (total_drops_ m + 1))
      (retransmit_callback_ m) (drop_callback_ m),
   if drop_callback_ m then [Drop seq] else [],
   0).
Proof.
  intros Hu Hexp Hretry. unfold retransmit_expired. rewrite Hu.
  cbn [fold_left scan_entry s_rto].
  destruct (Z.ltb_spec (wrap64 (now - last_sent_ms p)) (rto_ms_ m)); [lia|].
  destruct (Z.leb_spec (max_retries (config_ m)) (retransmit_count p));
    [|lia].
  simpl. rewrite Z.eqb_refl. reflexivity.
Qed.

End RetransmissionFacts.

(** ** Scenario S5: retransmission with exponential backoff (claim C5) *)

Section ScenarioS5.
Import RetransmissionManager.

Variable cfg : RetransmissionConfig.
Variable payload : bytes.

Local Abbreviation s5_start := (s5_start cfg).
Local Abbreviation s5_registered := (s5_registered cfg payload).
Local Abbreviation s5_at_100 := (s5_at_100 cfg payload).
Local Abbreviation s5_at_300 := (s5_at_300 cfg payload).
Local Abbreviation s5_at_700 := (s5_at_700 cfg payload).
Local Abbreviation s5_at_1500 := (s5_at_1500 cfg payload).

Hypothesis initial_rto_100 : initial_rto_ms cfg = 100.
Hypothesis max_retries_3 : max_retries cfg = 3.
Hypothesis max_rto_u64 : is_u64 (max_rto_ms cfg).
Hypothesis room_for_one : 0 < max_unacked_packets cfg.
Hypothesis room_for_payload :
  size payload <= max_unacked_bytes cfg /\ size payload < two64.

Let r1 : Z := Z.min 200 (max_rto_ms cfg).
Let r2 : Z := Z.min (2 * r1) (max_rto_ms cfg).
Let r3 : Z := Z.min (2 * r2) (max_rto_ms cfg).

Let entry (last n : Z) : OrdMap.t UnackedPacket :=
  [(1, mkPacket payload 0 last n)].

Let state (u : OrdMap.t UnackedPacket) (nbytes rto total drops : Z) : t :=
  mk cfg u nbytes 0 0 rto false total drops true true.

Lemma s5_registered_eq :
  s5_registered = (true, state (entry 0 0) (size payload) 100 0 0).
Proof.
  unfold s5_registered, register_packet, s5_start, state, entry.
  simpl. unfold size at 1. simpl.
  destruct (Z.leb_spec (max_unacked_packets cfg) 0); [lia|].
  rewrite (wrap64_small (size payload))
    by (unfold size in *; lia).
  destruct (Z.ltb_spec (max_unacked_bytes cfg) (size payload)); [lia|].
  unfold with_unacked. simpl. now rewrite initial_rto_100.
Qed.

Lemma s5_at_100_eq :
  s5_at_100 =
  (state (entry 100 1) (size payload) r1 1 0, [Retransmit 1 payload], 1).
Proof.
  unfold s5_at_100. rewrite s5_registered_eq. simpl snd.
  rewrite (retransmit_expired_single _ 1 (mkPacket payload 0 0 0));
    [reflexivity | reflexivity | | ].
  - simpl. rewrite wrap64_small by (unfold two64; lia). lia.
  - simpl. lia.
Qed.

Lemma s5_at_300_eq :
  s5_at_300 =
  (state (entry 300 2) (size payload) r2 2 0, [Retransmit 1 payload], 1).
Proof.
  unfold s5_at_300. rewrite s5_at_100_eq. simpl fst.
  rewrite (retransmit_expired_single _ 1 (mkPacket payload 0 100 1)).
  - simpl. unfold state, entry. do 2 f_equal. f_equal.
    subst r2. f_equal.
    rewrite wrap64_small; subst r1; unfold is_u64, two64 in *; lia.
  - reflexivity.
  - simpl. rewrite wrap64_small by (unfold two64; lia). subst r1. lia.
  - simpl. lia.
Qed.

Lemma s5_at_700_eq :
  s5_at_700 =
  (state (entry 700 3) (size payload) r3 3 0, [Retransmit 1 payload], 1).
Proof.
  unfold s5_at_700. rewrite s5_at_300_eq. simpl fst.
  rewrite (retransmit_expired_single _ 1 (mkPacket payload 0 300 2)).
  - simpl. unfold state, entry. do 2 f_equal. f_equal.
    subst r3. f_equal.
    rewrite wrap64_small; subst r2 r1; unfold is_u64, two64 in *; lia.
  - reflexivity.
  - simpl. rewrite wrap64_small by (unfold two64; lia). subst r2 r1. lia.
  - simpl. lia.
Qed.

Lemma s5_at_1500_eq :
  s5_at_1500 = (state [] 0 r3 3 1, [Drop 1], 0).
Proof.
  unfold s5_at_1500. rewrite s5_at_700_eq. simpl fst.
  rewrite (retransmit_expired_single_drop _ 1 (mkPacket payload 0 700 3)).
  - simpl. unfold state. do 2 f_equal. f_equal.
    rewrite Z.sub_diag. reflexivity.
  - reflexivity.
  - simpl. rewrite wrap64_small by (unfold two64; lia).
    subst r3 r2 r1. lia.
  - simpl. lia.
Qed.

(** Claim C5.  With [initial_rto = 100] and [max_retries = 3] (any
    [max_rto], any payload the in-flight caps admit), after
    [register_packet(1, payload, 0)] and no acknowledgement, the calls of
    [retransmit_expired] at 100, 300 and 700 each make exactly one
    retransmit callback with the stored bytes, the timeout doubling after
    each one and capped at [max_rto]; the call at 1500 makes no retransmit
    but one drop callback and removes the entry, its retry count having
    reached [max_retries]; the RTT estimator is uninitialized at every
    step. *)
Theorem C5_retransmit_three_times_then_drop :
  fst s5_registered = true /\
  snd (fst s5_at_100) = [Retransmit 1 payload] /\
  snd (fst s5_at_300) = [Retransmit 1 payload] /\
  snd (fst s5_at_700) = [Retransmit 1 payload] /\
  snd (fst s5_at_1500) = [Drop 1] /\
  (snd s5_at_100, snd s5_at_300, snd s5_at_700, snd s5_at_1500)
    = (1, 1, 1, 0) /\
  rto_ms_ (fst (fst s5_at_100)) = Z.min (2 * 100) (max_rto_ms cfg) /\
  rto_ms_ (fst (fst s5_at_300)) =
    Z.min (2 * rto_ms_ (fst (fst s5_at_100))) (max_rto_ms cfg) /\
  rto_ms_ (fst (fst s5_at_700)) =
    Z.min (2 * rto_ms_ (fst (fst s5_at_300))) (max_rto_ms cfg) /\
  OrdMap.find 1 (unacked_ (fst (fst s5_at_700)))
    = Some (mkPacket payload 0 700 (max_retries cfg)) /\
  unacked_ (fst (fst s5_at_1500)) = [] /\
  total_retransmits_ (fst (fst s5_at_1500)) = 3 /\
  total_drops_ (fst (fst s5_at_1500)) = 1 /\
  map rtt_initialized_
      [s5_start; snd s5_registered; fst (fst s5_at_100);
       fst (fst s5_at_300); fst (fst s5_at_700); fst (fst s5_at_1500)]
    = [false; false; false; false; false; false].
Proof.
  rewrite s5_registered_eq, s5_at_100_eq, s5_at_300_eq, s5_at_700_eq,
    s5_at_1500_eq, max_retries_3.
  repeat split; reflexivity.
Qed.

End ScenarioS5.

Lemma C5_witness :
  RetransmissionManager.total_drops_
    (fst (fst (RetransmissionManager.s5_at_1500
      (RetransmissionManager.mkConfig 100 50 1000 3 16 65536 (1 # 8) (1 # 4))
      [1]))) = 1.
Proof.
  apply (C5_retransmit_three_times_then_drop
           (RetransmissionManager.mkConfig 100 50 1000 3 16 65536
                                           (1 # 8) (1 # 4)) [1]);
    vm_compute; try reflexivity; repeat split; discriminate.
Defined.

(** ** Scenario S6: selective acknowledgement round trip (claim C6) *)

(** Claim C6.  An ack tracker that marks 1, 2, 4, 5, 7 in this order
    reports [ack_number = 2] and a bitmap whose set bits are exactly 1, 2
    and 4; a sender whose unacked store holds exactly the sequences 1..7
    (whatever their bytes, times and retry counts) and processes that SACK
    is left with exactly 3 and 6. *)
Theorem C6_selective_ack_round_trip
        (m : RetransmissionManager.t) (ack_time : Z) :
  OrdMap.keys (RetransmissionManager.unacked_ m) = [1; 2; 3; 4; 5; 6; 7] ->
  let a := AckBitmap.mark_all AckBitmap.fresh [1; 2; 4; 5; 7] in
  AckBitmap.get_ack_number a = 2 /\
  AckBitmap.bits_set (AckBitmap.get_bitmap a) = [1; 2; 4] /\
  OrdMap.keys
    (RetransmissionManager.unacked_
       (RetransmissionManager.process_sack
          m (AckBitmap.get_ack_number a) (AckBitmap.get_bitmap a) ack_time))
    = [3; 6].
Proof.
  intros Hkeys a.
  assert (Ha : a = AckBitmap.mk 2 22 true) by (vm_compute; reflexivity).
  rewrite Ha. split; [reflexivity|]. split; [vm_compute; reflexivity|].
  rewrite unacked_process_sack.
  unfold AckBitmap.get_ack_number, AckBitmap.get_bitmap. simpl AckBitmap.ack_number_.
  simpl AckBitmap.bitmap_.
  destruct (RetransmissionManager.unacked_ m)
    as [|[k1 p1] [|[k2 p2] [|[k3 p3] [|[k4 p4] [|[k5 p5] [|[k6 p6]
        [|[k7 p7] [|? ?]]]]]]]]; try discriminate Hkeys.
  injection Hkeys as -> -> -> -> -> -> ->.
  vm_compute. reflexivity.
Qed.

Lemma C6_witness :
  OrdMap.keys
    (RetransmissionManager.unacked_
       (RetransmissionManager.process_sack
          (RetransmissionManager.with_unacked
             (RetransmissionManager.create RetransmissionManager.default_config)
             (map (fun k => (k, RetransmissionManager.mkPacket [k] 0 0 0))
                  [1; 2; 3; 4; 5; 6; 7]) 7)
          2 22 50))
    = [3; 6].
Proof.
  apply (C6_selective_ack_round_trip
           (RetransmissionManager.with_unacked
              (RetransmissionManager.create RetransmissionManager.default_config)
              (map (fun k => (k, RetransmissionManager.mkPacket [k] 0 0 0))
                   [1; 2; 3; 4; 5; 6; 7]) 7)
           50).
  reflexivity.
Defined.

(** ** Reorder buffer *)

Lemma wrap64_idem (z : Z) : wrap64 (wrap64 z) = wrap64 z.
Proof. unfold wrap64. apply Z.mod_mod. unfold two64. lia. Qed.

Lemma wrap64_add_l (a b : Z) : wrap64 (wrap64 a + b) = wrap64 (a + b).
Proof. unfold wrap64. apply Z.add_mod_idemp_l. unfold two64. lia. Qed.

Lemma wrap64_add_r (a b : Z) : wrap64 (a + wrap64 b) = wrap64 (a + b).
Proof. unfold wrap64. apply Z.add_mod_idemp_r. unfold two64. lia. Qed.

Lemma wrap64_sub_l (a b : Z) : wrap64 (wrap64 a - b) = wrap64 (a - b).
Proof. unfold wrap64. apply Zminus_mod_idemp_l. Qed.

Section ReorderBufferFacts.
Import ReorderBuffer.

Lemma find_consecutive_below (ps : list BufferedPacket) (k k' : Z) :
  k' < k -> OrdMap.find k' (consecutive k ps) = None.
Proof.
  revert k. induction ps as [|p ps IH]; intros k Hlt; simpl; [reflexivity|].
  destruct (Z.eqb_spec k k'); [lia|]. apply IH. lia.
Qed.

Lemma length_consecutive (ps : list BufferedPacket) (k : Z) :
  length (consecutive k ps) = length ps.
Proof.
  revert k. induction ps as [|p ps IH]; intros k; simpl; [reflexivity|].
  now rewrite IH.
Qed.

Lemma keys_consecutive (ps : list BufferedPacket) (k : Z) :
  map fst (calls_of (consecutive k ps)) =
  map (fun i => k + Z.of_nat i) (seq 0 (length ps)).
Proof.
  revert k. induction ps as [|p ps IH]; intros k; [reflexivity|].
  cbn [consecutive calls_of map length seq fst].
  f_equal; [lia|].
  fold (calls_of (consecutive (k + 1) ps)). rewrite IH.
  rewrite <- seq_shift, map_map.
  apply map_ext. intros i. lia.
Qed.

Lemma size_cons {A : Type} (x : A) (l : list A) : size (x :: l) = size l + 1.
Proof. unfold size. cbn [length]. lia. Qed.

Lemma size_nonneg {A : Type} (l : list A) : 0 <= size l.
Proof. unfold size. lia. Qed.

(** The loop of [deliver] on a run of consecutive sequences starting at
    [next_expected_], with a callback installed. *)
Lemma deliver_loop_consecutive (cfg : ReorderBufferConfig)
      (ps : list BufferedPacket) :
  forall (fuel : nat) (k nb : Z) (p : BufferedPacket),
    (length (p :: ps) <= fuel)%nat ->
    0 <= k -> k + size (p :: ps) <= two64 ->
    deliver_loop fuel (mk cfg (consecutive k (p :: ps)) k nb true) =
    (mk cfg [] (wrap64 (k + size (p :: ps))) (wrap64 nb) true,
     calls_of (consecutive k (p :: ps)),
     wrap64 (size (p :: ps))).
Proof.
  induction ps as [|q ps IH]; intros fuel k nb p Hfuel Hk Hfit.
  - destruct fuel as [|fuel]; [simpl in Hfuel; lia|].
    cbn [deliver_loop consecutive next_expected_ buffer_ OrdMap.find].
    rewrite Z.eqb_refl.
    cbn [deliver_one hand_over callback_ next_expected_ buffer_ config_
         buffered_bytes_ OrdMap.erase].
    rewrite Z.eqb_refl.
    assert (E : forall b', buffer_ b' = [] ->
               deliver_loop fuel b' = (b', [], 0)).
    { intros b' Hb. destruct fuel; [reflexivity|].
      cbn [deliver_loop]. rewrite Hb. reflexivity. }
    rewrite E by reflexivity.
    change (size (@nil Z)) with 0. rewrite Z.sub_0_r.
    reflexivity.
  - destruct fuel as [|fuel]; [simpl in Hfuel; lia|].
    rewrite !size_cons in Hfit. pose proof (size_nonneg ps).
    cbn [deliver_loop consecutive next_expected_ buffer_ OrdMap.find].
    rewrite Z.eqb_refl.
    cbn [deliver_one hand_over callback_ next_expected_ buffer_ config_
         buffered_bytes_ OrdMap.erase].
    rewrite Z.eqb_refl.
    rewrite (wrap64_small (k + 1)) by lia.
    change ((k + 1, q) :: consecutive (k + 1 + 1) ps)
      with (consecutive (k + 1) (q :: ps)).
    rewrite IH; [| simpl in *; lia | lia | rewrite size_cons; lia].
    change (size (@nil Z)) with 0. rewrite Z.sub_0_r, wrap64_idem.
    rewrite wrap64_add_l.
    rewrite !size_cons.
    replace (k + 1 + (size ps + 1)) with (k + (size ps + 1 + 1)) by lia.
    reflexivity.
Qed.

Lemma deliver_nothing (b : t) :
  OrdMap.find (next_expected_ b) (buffer_ b) = None ->
  deliver b = (b, [], 0).
Proof.
  intros H. unfold deliver. destruct (length (buffer_ b)); [reflexivity|].
  cbn [deliver_loop]. now rewrite H.
Qed.

Lemma deliver_exhausts (fuel : nat) :
  forall b, (length (buffer_ b) <= fuel)%nat ->
    has_deliverable (fst (fst (deliver_loop fuel b))) = false.
Proof.
  induction fuel as [|fuel IH]; intros b Hlen.
  - destruct (buffer_ b) eqn:E; [|simpl in Hlen; lia].
    simpl. unfold has_deliverable, OrdMap.count. now rewrite E.
  - cbn [deliver_loop].
    destruct (OrdMap.find (next_expected_ b) (buffer_ b)) as [p|] eqn:E.
    + destruct (deliver_one b p) as [b1 calls] eqn:E1.
      specialize (IH b1).
      destruct (deliver_loop fuel b1) as [[b2 calls'] n].
      simpl. apply IH.
      unfold deliver_one in E1.
      destruct (hand_over b (next_expected_ b) p).
      injection E1 as <- _. cbn [buffer_].
      assert (length (OrdMap.erase (next_expected_ b) (buffer_ b))
              < length (buffer_ b))%nat; [|lia].
      clear -E. induction (buffer_ b) as [|[k v] m IHm];
        simpl in *; [discriminate|].
      destruct (k =? next_expected_ b); simpl; [lia|].
      specialize (IHm E). lia.
    + simpl. unfold has_deliverable, OrdMap.count. now rewrite E.
Qed.

(** [deliver] runs its loop to the end: afterwards nothing is
    deliverable. *)
Lemma deliver_complete (b : t) :
  has_deliverable (fst (fst (deliver b))) = false.
Proof. apply deliver_exhausts. lia. Qed.

End ReorderBufferFacts.

Section ReorderBufferClaims.
Import ReorderBuffer.

Lemma flush_loop_empty (fuel : nat) (now : Z) (b : t) :
  buffer_ b = [] -> flush_loop fuel now b = (b, [], 0).
Proof.
  intros H. destruct fuel; [reflexivity|].
  cbn [flush_loop]. now rewrite H.
Qed.

(** [flush] on a run of consecutive sequences that sits behind a gap,
    when the first buffered entry has waited [max_delay_ms]. *)
Lemma flush_consecutive_after_gap (cfg : ReorderBufferConfig)
      (k ne nb now : Z) (p : BufferedPacket) (ps : list BufferedPacket) :
  0 <= k -> k + size (p :: ps) <= two64 ->
  ne < k ->
  max_delay_ms cfg <= wrap64 (now - timestamp_ms p) ->
  flush (mk cfg (consecutive k (p :: ps)) ne nb true) now =
  (mk cfg [] (wrap64 (k + size (p :: ps))) (wrap64 nb) true,
   calls_of (consecutive k (p :: ps)),
   wrap64 (size (p :: ps))).
Proof.
  intros Hk Hfit Hgap Hold. unfold flush.
  rewrite deliver_nothing
    by (cbn [next_expected_ buffer_]; now apply find_consecutive_below).
  cbn [buffer_ consecutive length flush_loop OrdMap.first config_].
  destruct (Z.ltb_spec (wrap64 (now - timestamp_ms p)) (max_delay_ms cfg));
    [lia|].
  cbn [flush_one hand_over callback_ buffer_ config_ buffered_bytes_
       OrdMap.erase].
  rewrite Z.eqb_refl. change (size (@nil Z)) with 0. rewrite Z.sub_0_r.
  rewrite size_cons in *. pose proof (size_nonneg ps).
  destruct ps as [|q ps].
  - cbn [consecutive]. unfold deliver. cbn [buffer_ length deliver_loop].
    rewrite flush_loop_empty by reflexivity.
    change (size (@nil BufferedPacket)) with 0.
    reflexivity.
  - rewrite size_cons in *. pose proof (size_nonneg ps).
    rewrite (wrap64_small (k + 1)) by lia.
    unfold deliver. cbn [buffer_].
    rewrite deliver_loop_consecutive;
      [| rewrite (length_consecutive (q :: ps)); lia | lia
       | rewrite size_cons; lia].
    rewrite flush_loop_empty by reflexivity.
    rewrite size_cons, app_nil_r. cbn [app].
    repeat rewrite ?wrap64_add_r, ?wrap64_add_l, ?wrap64_idem,
      ?Z.add_0_r, ?Z.add_0_l.
    f_equal; [f_equal|]; [f_equal|]; f_equal; lia.
Qed.

(** Claim C8 (amended).  Let the buffer hold exactly the consecutive
    sequences [k, ..., k+n] (the entries [p :: ps], [n = length ps]), any
    payloads and arrival times, with a deliver callback installed.
    (a) With [next_expected = k], [deliver()] calls the callback exactly
    [n+1] times, with sequences [k, k+1, ..., k+n] in this order and their
    payloads, and empties the buffer.
    (b) With [next_expected < k] (a gap before the buffered entries) and
    the entry with the lowest sequence number, [buffer_.begin()], aged at
    least [max_delay_ms], [flush(now)] makes the same [n+1] calls in the
    same order and leaves [next_expected = k+n+1], past the skipped
    sequences.  The age that counts is the one of the lowest sequence, not
    the one of the entry that arrived first. *)
Theorem C8_reorder_delivers_in_order_and_flushes_gap
        (cfg : ReorderBufferConfig) (k nb : Z)
        (p : BufferedPacket) (ps : list BufferedPacket) :
  0 <= k -> k + size (p :: ps) <= two64 ->
  (let r := deliver (mk cfg (consecutive k (p :: ps)) k nb true) in
   snd (fst r) = calls_of (consecutive k (p :: ps)) /\
   map fst (snd (fst r)) =
     map (fun i => k + Z.of_nat i) (seq 0 (S (length ps))) /\
   length (snd (fst r)) = S (length ps) /\
   buffer_ (fst (fst r)) = [] /\
   next_expected_ (fst (fst r)) = wrap64 (k + size (p :: ps))) /\
  (forall ne now : Z,
     ne < k ->
     max_delay_ms cfg <= wrap64 (now - timestamp_ms p) ->
     let r := flush (mk cfg (consecutive k (p :: ps)) ne nb true) now in
     snd (fst r) = calls_of (consecutive k (p :: ps)) /\
     map fst (snd (fst r)) =
       map (fun i => k + Z.of_nat i) (seq 0 (S (length ps))) /\
     buffer_ (fst (fst r)) = [] /\
     next_expected_ (fst (fst r)) = wrap64 (k + size (p :: ps))).
Proof.
  intros Hk Hfit. split.
  - unfold deliver. cbn [buffer_].
    rewrite deliver_loop_consecutive;
      [| rewrite (length_consecutive (p :: ps)); lia | lia | assumption].
    cbv zeta. cbn [fst snd buffer_ next_expected_].
    repeat split.
    + apply (keys_consecutive (p :: ps)).
    + unfold calls_of. now rewrite length_map, length_consecutive.
  - intros ne now Hgap Hold.
    rewrite flush_consecutive_after_gap by assumption.
    cbv zeta. cbn [fst snd buffer_ next_expected_].
    repeat split. apply (keys_consecutive (p :: ps)).
Qed.

(** *** The byte counter *)

Lemma held_insert (k : Z) (v : BufferedPacket) (m : OrdMap.t BufferedPacket) :
  OrdMap.find k m = None ->
  held (OrdMap.insert k v m) = held m + size (data v).
Proof.
  induction m as [|[k' v'] m IH]; simpl; intros H; [lia|].
  destruct (Z.eqb_spec k' k) as [->|Hne]; [discriminate|].
  destruct (k <? k'); [simpl; lia|].
  destruct (Z.eqb_spec k k'); [lia|].
  simpl. rewrite IH by assumption. lia.
Qed.

Lemma held_erase (k : Z) (v : BufferedPacket) (m : OrdMap.t BufferedPacket) :
  OrdMap.find k m = Some v ->
  held (OrdMap.erase k m) = held m - size (data v).
Proof.
  induction m as [|[k' v'] m IH]; simpl; intros H; [discriminate|].
  destruct (k' =? k).
  - injection H as ->. lia.
  - simpl. rewrite IH by assumption. lia.
Qed.

Lemma insert_accurate (b : t) (s : Z) (payload : bytes) (ts : Z) :
  bytes_accurate b -> bytes_accurate (snd (insert b s payload ts)).
Proof.
  unfold bytes_accurate, held_bytes, insert. intros H.
  destruct (s <? next_expected_ b); [exact H|]. cbn [orb].
  unfold OrdMap.count.
  destruct (OrdMap.find s (buffer_ b)) eqn:E; [exact H|].
  change (0 <? 0) with false. cbv iota.
  destruct (max_buffered_packets (config_ b) <=? size (buffer_ b));
    [exact H|].
  destruct (max_buffered_bytes (config_ b)
            <? wrap64 (buffered_bytes_ b + size payload)); [exact H|].
  cbn [snd buffer_ buffered_bytes_].
  rewrite held_insert by assumption. cbn [data].
  now rewrite H, wrap64_add_l.
Qed.

Lemma deliver_loop_accurate (fuel : nat) :
  forall b, callback_ b = false -> bytes_accurate b ->
    callback_ (fst (fst (deliver_loop fuel b))) = false /\
    bytes_accurate (fst (fst (deliver_loop fuel b))).
Proof.
  induction fuel as [|fuel IH]; intros b Hcb H; [now split|].
  cbn [deliver_loop].
  destruct (OrdMap.find (next_expected_ b) (buffer_ b)) as [p|] eqn:E;
    [|now split].
  unfold deliver_one, hand_over. rewrite Hcb.
  match goal with
  | |- context [deliver_loop fuel ?b1] =>
      specialize (IH b1); destruct (deliver_loop fuel b1) as [[b2 c] n]
  end.
  cbn [fst]. apply IH; [reflexivity|].
  unfold bytes_accurate, held_bytes in *. cbn [buffer_ buffered_bytes_].
  rewrite (held_erase _ p) by assumption.
  now rewrite H, wrap64_sub_l.
Qed.

Lemma flush_loop_accurate (fuel : nat) (now : Z) :
  forall b, callback_ b = false -> bytes_accurate b ->
    callback_ (fst (fst (flush_loop fuel now b))) = false /\
    bytes_accurate (fst (fst (flush_loop fuel now b))).
Proof.
  induction fuel as [|fuel IH]; intros b Hcb H; [now split|].
  cbn [flush_loop].
  destruct (buffer_ b) as [|[s p] m] eqn:E; [now split|].
  cbn [OrdMap.first].
  destruct (wrap64 (now - timestamp_ms p) <? max_delay_ms (config_ b));
    [now split|].
  unfold flush_one, hand_over. rewrite Hcb.
  match goal with
  | |- context [deliver ?b1] =>
      pose proof (deliver_loop_accurate (length (buffer_ b1)) b1) as Hd;
      unfold deliver; destruct (deliver_loop (length (buffer_ b1)) b1)
        as [[b2 c2] n2]
  end.
  cbn [fst] in Hd.
  destruct Hd as [Hcb2 H2]; [reflexivity | |].
  { unfold bytes_accurate, held_bytes in *. cbn [buffer_ buffered_bytes_].
    rewrite E.
    rewrite (held_erase s p) by (simpl; now rewrite Z.eqb_refl).
    rewrite <- E. now rewrite H, wrap64_sub_l. }
  specialize (IH b2 Hcb2 H2).
  destruct (flush_loop fuel now b2) as [[b3 c3] n3].
  exact IH.
Qed.

Lemma step_accurate (b : t) (c : Call) :
  callback_ b = false -> bytes_accurate b ->
  callback_ (step b c) = false /\ bytes_accurate (step b c).
Proof.
  intros Hcb H. destruct c as [s payload ts| |now]; cbn [step].
  - split; [|now apply insert_accurate].
    unfold insert.
    repeat match goal with
           | |- context [if ?c then _ else _] => destruct c
           end; exact Hcb.
  - now apply deliver_loop_accurate.
  - unfold flush.
    destruct (deliver_loop_accurate (length (buffer_ b)) b Hcb H)
      as [Hcb1 H1].
    unfold deliver.
    destruct (deliver_loop (length (buffer_ b)) b) as [[b1 c1] n1].
    cbn [fst] in *.
    pose proof (flush_loop_accurate (length (buffer_ b1)) now b1 Hcb1 H1)
      as H2.
    destruct (flush_loop (length (buffer_ b1)) now b1) as [[b2 c2] n2].
    exact H2.
Qed.

(** Without a callback installed nothing is moved out of the entries, and
    every call of the interface keeps the byte counter accurate. *)
Lemma byte_counter_accurate_without_callback (cs : list Call) :
  forall b, callback_ b = false -> bytes_accurate b ->
    bytes_accurate (run b cs).
Proof.
  induction cs as [|c cs IH]; intros b Hb H; [exact H|].
  cbn [run fold_left].
  destruct (step_accurate b c Hb H) as [Hb' H'].
  now apply IH.
Qed.

Lemma C8_witness :
  snd (fst (deliver
    (mk default_config
        (consecutive 3 [mkPacket [1] 0; mkPacket [2] 500; mkPacket [3] 900])
        3 3 true)))
  = [(3, [1]); (4, [2]); (5, [3])] /\
  1 < 3 /\
  max_delay_ms default_config
    <= wrap64 (1000 - timestamp_ms (mkPacket [1] 0)) /\
  snd (fst (flush
    (mk default_config
        (consecutive 3 [mkPacket [1] 0; mkPacket [2] 500; mkPacket [3] 900])
        1 3 true) 1000))
  = [(3, [1]); (4, [2]); (5, [3])] /\
  next_expected_ (fst (fst (flush
    (mk default_config
        (consecutive 3 [mkPacket [1] 0; mkPacket [2] 500; mkPacket [3] 900])
        1 3 true) 1000)))
  = 6.
Proof.
  assert (Hgap : 1 < 3) by lia.
  assert (Hold : max_delay_ms default_config
                 <= wrap64 (1000 - timestamp_ms (mkPacket [1] 0)))
    by (vm_compute; discriminate).
  destruct (C8_reorder_delivers_in_order_and_flushes_gap
              default_config 3 3 (mkPacket [1] 0)
              [mkPacket [2] 500; mkPacket [3] 900])
    as [(Ha & _) Hb].
  - lia.
  - vm_compute. discriminate.
  - destruct (Hb 1 1000 Hgap Hold) as (Hcalls & _ & _ & Hnext).
    split; [exact Ha|]. split; [exact Hgap|]. split; [exact Hold|].
    split; [exact Hcalls|exact Hnext].
Defined.

(** Claim C8 as worded fails.  Sequence 4 arrives at time 0 and sequence 3
    at time 900, while 1 and 2 are missing.  At time 1000 the oldest entry,
    the one that arrived at 0, has waited [max_delay_ms = 1000], but
    [flush(1000)] tests the first entry in sequence order, which arrived at
    900: nothing is delivered and [next_expected] stays 1. *)
Lemma C8_counterexample :
  let b0 := set_deliver_callback (create default_config) in
  let b1 := snd (insert b0 4 [4] 0) in
  let b2 := snd (insert b1 3 [3] 900) in
  buffer_ b2 = [(3, mkPacket [3] 900); (4, mkPacket [4] 0)] /\
  next_expected_ b2 = 1 /\
  oldest_arrival b2 = Some 0 /\
  max_delay_ms (config_ b2) <= wrap64 (1000 - 0) /\
  snd (fst (flush b2 1000)) = [] /\
  buffer_ (fst (fst (flush b2 1000))) = buffer_ b2 /\
  next_expected_ (fst (fst (flush b2 1000))) = 1.
Proof. vm_compute. repeat split; discriminate. Qed.

(** Claim C10 (the code departs from it).  With a deliver callback
    installed, as the transport session always has, [deliver()] hands the
    payload to the callback by move and then subtracts the size of the
    emptied vector: the three bytes of the delivered entry stay charged in
    [buffered_bytes()] although nothing is buffered, and an [insert] that
    would fit the empty buffer is refused by the byte cap. *)
Theorem C10_delivered_bytes_stay_charged :
  let b0 := set_deliver_callback (create (mkConfig 16 4 1000)) in
  let b1 := snd (insert b0 1 [7; 7; 7] 0) in
  let b2 := fst (fst (deliver b1)) in
  fst (insert b0 1 [7; 7; 7] 0) = true /\
  snd (fst (deliver b1)) = [(1, [7; 7; 7])] /\
  buffer_ b2 = [] /\
  held_bytes b2 = 0 /\
  buffered_bytes b2 = 3 /\
  fst (insert b2 2 [8; 8] 10) = false.
Proof. vm_compute. repeat split; reflexivity. Qed.

End ReorderBufferClaims.

(** *** The loops of [deliver] and [flush] end by their own exit tests *)

Section ReorderLoops.
Import ReorderBuffer.

Lemma length_erase_le (k : Z) (m : OrdMap.t BufferedPacket) :
  (length (OrdMap.erase k m) <= length m)%nat.
Proof. apply keys_erase_length. Qed.

Lemma deliver_loop_shrinks (fuel : nat) :
  forall b,
    (length (buffer_ (fst (fst (deliver_loop fuel b)))) <= length (buffer_ b))%nat
    /\ config_ (fst (fst (deliver_loop fuel b))) = config_ b.
Proof.
  induction fuel as [|fuel IH]; intros b; [split; reflexivity|].
  cbn [deliver_loop].
  destruct (OrdMap.find (next_expected_ b) (buffer_ b)) as [p|];
    [|split; reflexivity].
  unfold deliver_one. destruct (hand_over b (next_expected_ b) p) as [c r].
  match goal with
  | |- context [deliver_loop fuel ?b1] =>
      specialize (IH b1); destruct (deliver_loop fuel b1) as [[b2 c2] n2]
  end.
  cbn [fst buffer_ config_] in *.
  pose proof (length_erase_le (next_expected_ b) (buffer_ b)).
  destruct IH as [IH1 IH2]. split; [lia | exact IH2].
Qed.

(** After [flush(now)] the buffer is empty or its first entry has waited
    less than [max_delay_ms]. *)
Lemma flush_loop_exhausts (fuel : nat) (now : Z) :
  forall b, (length (buffer_ b) <= fuel)%nat ->
    match OrdMap.first (buffer_ (fst (fst (flush_loop fuel now b)))) with
    | None => True
    | Some (_, p) =>
        (wrap64 (now - timestamp_ms p) <? max_delay_ms (config_ b)) = true
    end.
Proof.
  induction fuel as [|fuel IH]; intros b Hlen.
  - destruct (buffer_ b) eqn:E; [|simpl in Hlen; lia].
    cbn [flush_loop fst]. now rewrite E.
  - cbn [flush_loop].
    destruct (buffer_ b) as [|[s p] m] eqn:E.
    { cbn [OrdMap.first fst]. now rewrite E. }
    cbn [OrdMap.first].
    destruct (wrap64 (now - timestamp_ms p) <? max_delay_ms (config_ b)) eqn:T.
    { cbn [fst]. rewrite E. cbn [OrdMap.first]. exact T. }
    unfold flush_one. destruct (hand_over b s p) as [c r].
    match goal with
    | |- context [deliver ?b1] =>
        pose proof (deliver_loop_shrinks (length (buffer_ b1)) b1) as [Hs Hc];
        unfold deliver;
        destruct (deliver_loop (length (buffer_ b1)) b1) as [[b2 c2] n2]
    end.
    cbn [fst buffer_ config_] in Hs, Hc.
    specialize (IH b2).
    destruct (flush_loop fuel now b2) as [[b3 c3] n3].
    cbn [fst] in *. rewrite Hc in IH. apply IH.
    rewrite E in Hs. cbn [OrdMap.erase] in Hs. rewrite Z.eqb_refl in Hs.
    simpl in Hlen. lia.
Qed.

End ReorderLoops.

(** ** Byte strings *)

Lemma lor_shiftl8 (a b : Z) :
  0 <= a -> 0 <= b < 256 -> Z.lor (Z.shiftl a 8) b = a * 256 + b.
Proof.
  intros Ha Hb.
  assert (Hland : Z.land (Z.shiftl a 8) b = 0).
  { apply Z.bits_inj'. intros n Hn.
    rewrite Z.land_spec, Z.bits_0, Z.shiftl_spec by assumption.
    destruct (Z.lt_ge_cases n 8).
    - rewrite (Z.testbit_neg_r a) by lia. reflexivity.
    - destruct (Z.eq_dec b 0) as [->|]; [now rewrite Z.bits_0, andb_false_r|].
      rewrite (Z.bits_above_log2 b n); [apply andb_false_r | lia |].
      apply Z.log2_lt_pow2; [lia|].
      apply Z.lt_le_trans with (2 ^ 8); [simpl; lia|].
      apply Z.pow_le_mono_r; lia. }
  pose proof (Z.add_lor_land (Z.shiftl a 8) b) as H.
  rewrite Hland in H. rewrite Z.shiftl_mul_pow2 in H |- * by lia.
  change (2 ^ 8) with 256 in *. lia.
Qed.

Lemma wrap8_range (z : Z) : 0 <= wrap8 z < 256.
Proof. unfold wrap8. apply Z.mod_pos_bound. lia. Qed.

Lemma length_write_u64 (v : Z) : length (write_u64 v) = 8%nat.
Proof. reflexivity. Qed.

Lemma be_value_lower (ds : bytes) (acc : Z) :
  Forall is_byte ds -> 0 <= acc ->
  acc <= fold_left (fun a b => a * 256 + b) ds acc.
Proof.
  intros Hds. revert acc.
  induction Hds as [|b ds Hb _ IH]; intros acc Hacc; simpl; [lia|].
  unfold is_byte in Hb. specialize (IH (acc * 256 + b)). lia.
Qed.

(** Reading big-endian digits is positional notation, as long as the value
    fits the integer type. *)
Lemma read_be_value (M : Z) (wrap : Z -> Z) (ds : bytes) :
  (forall z, 0 <= z < M -> wrap z = z) ->
  forall acc,
    Forall is_byte ds -> 0 <= acc ->
    fold_left (fun a b => a * 256 + b) ds acc < M ->
    fold_left (fun value b => wrap (Z.lor (Z.shiftl value 8) b)) ds acc =
    fold_left (fun a b => a * 256 + b) ds acc.
Proof.
  intros Hwrap acc Hds. revert acc.
  induction Hds as [|b ds Hb Hds IH]; intros acc Hacc Hlt;
    cbn [fold_left] in *; [reflexivity|].
  unfold is_byte in Hb.
  rewrite lor_shiftl8 by assumption.
  pose proof (be_value_lower ds (acc * 256 + b) Hds).
  rewrite Hwrap by lia. apply IH; lia.
Qed.

Lemma read_write_u64 (v : Z) (rest : bytes) :
  is_u64 v -> read_u64 (write_u64 v ++ rest) = v.
Proof.
  unfold is_u64, two64. intros Hv.
  unfold read_u64, read_be, write_u64.
  cbn [map app firstn].
  rewrite !Z.shiftr_div_pow2 by lia. unfold wrap8.
  simpl Z.mul. simpl Z.pow.
  rewrite (read_be_value two64).
  - cbn [fold_left]. Z.div_mod_to_equations. lia.
  - intros z Hz. now apply wrap64_small.
  - repeat constructor; apply Z.mod_pos_bound; lia.
  - lia.
  - cbn [fold_left]. unfold two64. Z.div_mod_to_equations. lia.
Qed.

Lemma read_write_u32 (v : Z) (rest : bytes) :
  is_u32 v -> read_u32 (write_u32 v ++ rest) = v.
Proof.
  unfold is_u32. intros Hv.
  unfold read_u32, read_be, write_u32.
  cbn [map app firstn].
  rewrite !Z.shiftr_div_pow2 by lia. unfold wrap8.
  simpl Z.mul. simpl Z.pow.
  rewrite (read_be_value 4294967296).
  - cbn [fold_left]. Z.div_mod_to_equations. lia.
  - intros z Hz. unfold wrap32. now apply Z.mod_small.
  - repeat constructor; apply Z.mod_pos_bound; lia.
  - lia.
  - cbn [fold_left]. Z.div_mod_to_equations. lia.
Qed.

Lemma read_write_u16 (v : Z) (rest : bytes) :
  is_u16 v -> read_u16 (write_u16 v ++ rest) = v.
Proof.
  unfold is_u16. intros Hv.
  unfold read_u16, write_u16. cbn [app nth].
  rewrite Z.shiftr_div_pow2 by lia. change (2 ^ 8) with 256.
  replace (Z.land v 255) with (v mod 256).
  2:{ change 255 with (Z.ones 8). rewrite Z.land_ones by lia. reflexivity. }
  unfold wrap8. rewrite lor_shiftl8.
  - unfold wrap16. rewrite Z.mod_small; Z.div_mod_to_equations; lia.
  - apply Z.mod_pos_bound. lia.
  - apply Z.mod_pos_bound. lia.
Qed.

(** ** Packet codec *)

Lemma read_u64_firstn (d : bytes) : read_u64 (firstn 8 d) = read_u64 d.
Proof. unfold read_u64, read_be. now rewrite firstn_firstn. Qed.

Lemma skipn_app_exact {A : Type} (l r : list A) (n : nat) :
  length l = n -> skipn n (l ++ r) = r.
Proof.
  intros <-. rewrite skipn_app, skipn_all, Nat.sub_diag. reflexivity.
Qed.

Lemma firstn_app_exact {A : Type} (l r : list A) (n : nat) :
  length l = n -> firstn n (l ++ r) = l.
Proof.
  intros <-. rewrite firstn_app, firstn_all, Nat.sub_diag, firstn_O.
  apply app_nil_r.
Qed.

Section PacketLayer.
Import packet.
Context {sodium : Sodium}.

(** The two facts about ChaCha20-Poly1305 that the codec relies on. *)
Hypothesis aead_open_seal : forall m ad n k,
  crypto_aead_decrypt (crypto_aead_encrypt m ad n k) ad n k = Some m.
Hypothesis aead_seal_length : forall m ad n k,
  length (crypto_aead_encrypt m ad n k) = (length m + 16)%nat.

(** Parsing what [build] emitted, with the same key and nonce base,
    recovers the header fields and decodes the builder's frame buffer. *)
Lemma parse_of_build (b : PacketBuilder) (counter : Z) :
  payload_buffer_ b <> [] -> has_key_ b = true ->
  is_u64 (session_id_ b) -> is_u64 counter ->
  exists pkt,
    build b counter = (Built pkt, b) /\
    parse (set_decryption_key new_parser (key_ b) (nonce_base_ b)) pkt =
    match parse_frames (length (payload_buffer_ b)) (payload_buffer_ b) with
    | None => (None, INVALID_FRAME)
    | Some fs => (Some (mkParsed (session_id_ b) counter fs), SUCCESS)
    end.
Proof.
  intros Hbuf Hkey Hsid Hctr. unfold build. rewrite Hkey.
  destruct (payload_buffer_ b) as [|x buf] eqn:E; [contradiction|].
  cbn [negb]. eexists. split; [reflexivity|].
  set (hdr := write_u64 (session_id_ b) ++ write_u64 counter).
  set (enc := crypto.encrypt _ _ _ _).
  assert (Hhdr : length hdr = 16%nat) by reflexivity.
  assert (Henc : length enc = (length (x :: buf) + 16)%nat)
    by apply aead_seal_length.
  unfold parse.
  assert (Hsize : size (hdr ++ enc) = 32 + size (x :: buf)).
  { unfold size. rewrite length_app, Hhdr, Henc. lia. }
  rewrite Hsize. pose proof (size_nonneg (x :: buf)).
  unfold PACKET_HEADER_SIZE, crypto.POLY1305_TAG_SIZE.
  destruct (Z.ltb_spec (32 + size (x :: buf)) (16 + 16)); [lia|].
  unfold parse_packet_header, PACKET_HEADER_SIZE. rewrite Hsize.
  destruct (Z.ltb_spec (32 + size (x :: buf)) 16); [lia|].
  assert (Rsid : read_u64 (subspan (hdr ++ enc) 0 8) = session_id_ b).
  { unfold subspan. cbn [Z.to_nat Pos.to_nat Pos.iter_op Nat.add skipn].
    rewrite read_u64_firstn. subst hdr. rewrite <- !app_assoc.
    now apply read_write_u64. }
  assert (Rctr : read_u64 (subspan (hdr ++ enc) 8 8) = counter).
  { unfold subspan. change (Z.to_nat 8) with 8%nat.
    rewrite read_u64_firstn. subst hdr. rewrite <- !app_assoc.
    rewrite skipn_app_exact by reflexivity.
    now apply read_write_u64. }
  rewrite Rsid, Rctr. cbn [p_has_key_ set_decryption_key negb p_key_
                       p_nonce_base_ ph_packet_counter ph_session_id].
  unfold subspan_from. change (Z.to_nat 16) with 16%nat.
  rewrite skipn_app_exact, firstn_app_exact by assumption.
  unfold crypto.decrypt, crypto.POLY1305_TAG_SIZE.
  assert (Hs : size enc = size (x :: buf) + 16).
  { unfold size. rewrite Henc. lia. }
  rewrite Hs.
  destruct (Z.ltb_spec (size (x :: buf) + 16) 16); [lia|].
  subst enc. unfold crypto.encrypt. rewrite aead_open_seal.
  reflexivity.
Qed.

End PacketLayer.

Section BuilderFacts.
Import packet.
Context {sodium : Sodium}.

(** Claim C9, as the code has it.  With at least one buffered frame and a
    key configured, [build(counter)] returns the complete datagram: the
    16 header bytes (session id and counter, big-endian) followed by the
    AEAD seal of the frame buffer under the nonce of the counter, with the
    header as additional data.  It leaves the frame buffer as it was, so
    [remaining_capacity()] is unchanged; the buffer is emptied by
    [reset()], after which [remaining_capacity()] is [MTU - 32] (for an
    MTU of at least 32).  [build] returns an empty vector when the frame
    buffer is empty, and throws when frames are buffered and no key is
    configured. *)
Theorem C9_build_emits_datagram_and_keeps_buffer
        (b : PacketBuilder) (counter : Z) :
  (payload_buffer_ b <> [] -> has_key_ b = true ->
     let header := write_u64 (session_id_ b) ++ write_u64 counter in
     length header = 16%nat /\
     build b counter =
       (Built (header ++
               crypto.encrypt (key_ b)
                              (crypto.make_nonce (nonce_base_ b) counter)
                              (payload_buffer_ b) header),
        b) /\
     payload_buffer_ (snd (build b counter)) = payload_buffer_ b /\
     remaining_capacity (snd (build b counter)) = remaining_capacity b) /\
  (payload_buffer_ (reset (snd (build b counter))) = [] /\
   (32 <= mtu_ b < two64 ->
    remaining_capacity (reset (snd (build b counter))) = mtu_ b - 32)) /\
  (payload_buffer_ b = [] -> fst (build b counter) = Built []) /\
  (payload_buffer_ b <> [] -> has_key_ b = false ->
     fst (build b counter) = Threw).
Proof.
  assert (Hsame : snd (build b counter) = b).
  { unfold build. destruct (payload_buffer_ b); [reflexivity|].
    destruct (has_key_ b); reflexivity. }
  split; [|split; [|split]].
  - intros Hbuf Hkey header. split; [reflexivity|].
    split; [|now rewrite Hsame].
    unfold build. destruct (payload_buffer_ b) as [|x buf] eqn:E;
      [contradiction|].
    rewrite Hkey. reflexivity.
  - split; [reflexivity|]. intros Hmtu.
    rewrite Hsame. unfold remaining_capacity, reset. cbn [mtu_ payload_buffer_].
    change (size (@nil Z)) with 0.
    unfold PACKET_HEADER_SIZE, crypto.POLY1305_TAG_SIZE.
    rewrite wrap64_small by (unfold two64; lia).
    destruct (Z.leb_spec (mtu_ b) (16 + 16 + 0)).
    + lia.
    + rewrite wrap64_small; lia.
  - intros E. unfold build. now rewrite E.
  - intros E Hk. unfold build.
    destruct (payload_buffer_ b); [contradiction|]. now rewrite Hk.
Qed.

End BuilderFacts.

(** The builder of the scenarios: MTU 1400, a key, one DATA frame added. *)
Lemma C9_witness :
  let b := snd (packet.add_frame
                  (packet.set_encryption_key (packet.new_builder 1400)
                                             (repeat 1 32) (repeat 2 12))
                  (packet.DataFrame 1 [72; 105])) in
  packet.remaining_capacity
    (snd (packet.build (sodium := Toy.sodium) b 1))
  = packet.remaining_capacity b.
Proof.
  intros b.
  destruct (C9_build_emits_datagram_and_keeps_buffer
              (sodium := Toy.sodium) b 1) as [H _].
  destruct H as (_ & _ & _ & H).
  - vm_compute. discriminate.
  - reflexivity.
  - exact H.
Defined.

(** Claim C9 as stated fails: after [build] the frame buffer still holds
    the 14 bytes of the frame and [remaining_capacity()] is not
    [MTU - 32]. *)
Lemma C9_counterexample :
  let b := snd (packet.add_frame
                  (packet.set_encryption_key (packet.new_builder 1400)
                                             (repeat 1 32) (repeat 2 12))
                  (packet.DataFrame 1 [72; 105])) in
  packet.payload_buffer_ b <> [] /\
  packet.has_key_ b = true /\
  (exists pkt, fst (packet.build (sodium := Toy.sodium) b 1) = packet.Built pkt
               /\ pkt <> []) /\
  packet.payload_buffer_ (snd (packet.build (sodium := Toy.sodium) b 1)) <> [] /\
  packet.remaining_capacity (snd (packet.build (sodium := Toy.sodium) b 1))
    = 1400 - 32 - 14 /\
  packet.remaining_capacity (snd (packet.build (sodium := Toy.sodium) b 1))
    <> 1400 - 32.
Proof.
  vm_compute. repeat split; try discriminate.
  eexists. split; [reflexivity | discriminate].
Qed.

Section FrameCodec.
Import packet.

Lemma size_app {A : Type} (l r : list A) : size (l ++ r) = size l + size r.
Proof. unfold size. rewrite length_app. lia. Qed.

Lemma header_length_round (n : Z) :
  0 <= n < 65536 ->
  wrap16 (Z.lor (Z.shiftl (wrap8 (Z.shiftr n 8)) 8) (wrap8 (Z.land n 255)))
  = n.
Proof.
  intros Hn. exact (read_write_u16 n [] Hn).
Qed.

(** The header of a serialized frame is read back and delimits exactly
    the payload. *)
Lemma parse_frame_serialized (ty : Z) (pl rest : bytes) :
  size pl < 65536 ->
  parse_frame
    (serialize_header (mkFrameHeader ty 0 (wrap16 (size pl))) ++ pl ++ rest)
  = frame_of_payload (wrap8 ty) pl (FRAME_HEADER_SIZE + size pl).
Proof.
  intros Hpl. pose proof (size_nonneg pl) as H0.
  pose proof (size_nonneg rest) as H1.
  unfold parse_frame, parse_header, serialize_header.
  cbn [fh_type fh_flags fh_length].
  assert (Hw : wrap16 (size pl) = size pl)
    by (unfold wrap16; apply Z.mod_small; lia).
  rewrite Hw.
  set (hdr := [wrap8 ty; 0; wrap8 (Z.shiftr (size pl) 8);
               wrap8 (Z.land (size pl) 255)]).
  assert (Hs : size (hdr ++ pl ++ rest) = 4 + size pl + size rest).
  { rewrite !size_app. unfold size at 1. simpl length. lia. }
  rewrite Hs. unfold FRAME_HEADER_SIZE.
  destruct (Z.ltb_spec (4 + size pl + size rest) 4); [lia|].
  cbn [fh_type fh_length].
  replace (nth 0 (hdr ++ pl ++ rest) 0) with (wrap8 ty) by reflexivity.
  replace (nth 2 (hdr ++ pl ++ rest) 0)
    with (wrap8 (Z.shiftr (size pl) 8)) by reflexivity.
  replace (nth 3 (hdr ++ pl ++ rest) 0)
    with (wrap8 (Z.land (size pl) 255)) by reflexivity.
  rewrite header_length_round by lia.
  destruct (Z.ltb_spec (4 + size pl + size rest) (4 + size pl)); [lia|].
  f_equal. unfold subspan. change (Z.to_nat 4) with 4%nat.
  rewrite skipn_app_exact by reflexivity.
  apply firstn_app_exact. unfold size. lia.
Qed.

Lemma wrap8_small (z : Z) : 0 <= z < 256 -> wrap8 z = z.
Proof. intros H. unfold wrap8. now apply Z.mod_small. Qed.

Lemma fit_exact (n : nat) (l : bytes) : length l = n -> fit n l = l.
Proof. intros H. unfold fit. now apply firstn_app_exact. Qed.

(** The switch of [parse_frame] inverts [frame_payload]. *)
Lemma frame_of_payload_inverts (f : Frame) (n : Z) :
  frame_wf f ->
  frame_of_payload (wrap8 (get_frame_type f)) (frame_payload f) n
  = Some (f, n).
Proof.
  intros Hwf.
  destruct f as [s p|a b w|t ts d|m i k p|s p|id a];
    unfold frame_of_payload; cbn [get_frame_type frame_payload frame_wf] in *.
  - change (wrap8 DATA =? DATA) with true. cbv iota.
    rewrite size_app. pose proof (size_nonneg p).
    change (size (write_u64 s)) with 8.
    destruct (Z.ltb_spec (8 + size p) 8); [lia|].
    rewrite read_write_u64 by assumption.
    now rewrite skipn_app_exact by reflexivity.
  - destruct Hwf as (Ha & Hb & Hw).
    change (wrap8 ACK =? DATA) with false.
    change (wrap8 ACK =? ACK) with true. cbv iota.
    change (size (write_u64 a ++ write_u64 b ++ write_u32 w) <? 20)
      with false. cbv iota.
    unfold subspan_from.
    change (Z.to_nat 8) with 8%nat. change (Z.to_nat 16) with 16%nat.
    rewrite read_write_u64 by assumption.
    rewrite skipn_app_exact by reflexivity.
    rewrite read_write_u64 by assumption.
    rewrite app_assoc, skipn_app_exact by reflexivity.
    rewrite <- (app_nil_r (write_u32 w)).
    now rewrite read_write_u32.
  - destruct Hwf as (Ht & Hts).
    change (wrap8 CONTROL =? DATA) with false.
    change (wrap8 CONTROL =? ACK) with false.
    change (wrap8 CONTROL =? CONTROL) with true. cbv iota.
    rewrite !size_app. pose proof (size_nonneg d).
    change (size [wrap8 t]) with 1. change (size (write_u64 ts)) with 8.
    destruct (Z.ltb_spec (1 + (8 + size d)) 9); [lia|].
    cbn [app nth]. rewrite wrap8_small by assumption.
    unfold subspan_from. change (Z.to_nat 1) with 1%nat. cbn [skipn].
    rewrite read_write_u64 by assumption.
    change (Some (ControlFrame t ts (skipn 8 (write_u64 ts ++ d)), n)
            = Some (ControlFrame t ts d, n)).
    now rewrite skipn_app_exact by reflexivity.
  - destruct Hwf as (Hm & Hi & Hk).
    change (wrap8 FRAGMENT =? DATA) with false.
    change (wrap8 FRAGMENT =? ACK) with false.
    change (wrap8 FRAGMENT =? CONTROL) with false.
    change (wrap8 FRAGMENT =? FRAGMENT) with true. cbv iota.
    rewrite !size_app. pose proof (size_nonneg p).
    change (size (write_u32 m)) with 4. change (size (write_u16 i)) with 2.
    change (size (write_u16 k)) with 2.
    destruct (Z.ltb_spec (4 + (2 + (2 + size p))) 8); [lia|].
    rewrite read_write_u32 by assumption.
    unfold subspan_from.
    change (Z.to_nat 4) with 4%nat. change (Z.to_nat 6) with 6%nat.
    rewrite skipn_app_exact by reflexivity.
    rewrite read_write_u16 by assumption.
    rewrite (app_assoc (write_u32 m)), skipn_app_exact by reflexivity.
    rewrite read_write_u16 by assumption.
    rewrite app_assoc.
    now rewrite skipn_app_exact by reflexivity.
  - change (wrap8 HANDSHAKE =? DATA) with false.
    change (wrap8 HANDSHAKE =? ACK) with false.
    change (wrap8 HANDSHAKE =? CONTROL) with false.
    change (wrap8 HANDSHAKE =? FRAGMENT) with false.
    change (wrap8 HANDSHAKE =? HANDSHAKE) with true. cbv iota.
    cbn [app]. now rewrite wrap8_small by assumption.
  - destruct Hwf as (Hid & Ha).
    change (wrap8 SESSION_ROTATE =? DATA) with false.
    change (wrap8 SESSION_ROTATE =? ACK) with false.
    change (wrap8 SESSION_ROTATE =? CONTROL) with false.
    change (wrap8 SESSION_ROTATE =? FRAGMENT) with false.
    change (wrap8 SESSION_ROTATE =? HANDSHAKE) with false.
    change (wrap8 SESSION_ROTATE =? SESSION_ROTATE) with true. cbv iota.
    rewrite fit_exact by assumption.
    rewrite size_app. unfold size at 1. rewrite Hid.
    change (size (write_u64 a)) with 8.
    change (Z.of_nat 32 + 8 <? 40) with false. cbv iota.
    rewrite firstn_app_exact by assumption.
    unfold subspan_from. change (Z.to_nat 32) with 32%nat.
    rewrite skipn_app_exact by assumption.
    rewrite <- (app_nil_r (write_u64 a)).
    now rewrite read_write_u64.
Qed.

Lemma size_serialize_frame (f : Frame) :
  size (serialize_frame f) = FRAME_HEADER_SIZE + size (frame_payload f).
Proof.
  unfold serialize_frame. rewrite size_app. reflexivity.
Qed.

(** One frame: [parse_frame] inverts [serialize_frame] and reports the
    bytes it took. *)
Lemma parse_serialize_frame (f : Frame) (rest : bytes) :
  frame_wf f -> size (frame_payload f) < 65536 ->
  parse_frame (serialize_frame f ++ rest)
  = Some (f, size (serialize_frame f)).
Proof.
  intros Hwf Hsz. unfold serialize_frame at 1.
  rewrite <- app_assoc, parse_frame_serialized by assumption.
  rewrite frame_of_payload_inverts by assumption.
  now rewrite size_serialize_frame.
Qed.

(** A frame stream: the decoding loop inverts the concatenation of the
    serialized frames. *)
Lemma parse_frames_stream (fs : list Frame) :
  forall fuel : nat,
    (length fs <= fuel)%nat ->
    Forall frame_wf fs ->
    Forall (fun f => size (frame_payload f) < 65536) fs ->
    parse_frames fuel (stream_bytes fs) = Some fs.
Proof.
  induction fs as [|f fs IH]; intros fuel Hfuel Hwf Hsz.
  - destruct fuel; reflexivity.
  - destruct fuel as [|fuel]; [simpl in Hfuel; lia|].
    inversion Hwf as [|? ? Hf Hfs]; subst.
    inversion Hsz as [|? ? Hp Hps]; subst.
    unfold stream_bytes. cbn [map concat].
    fold (stream_bytes fs).
    assert (Hne : exists x l, serialize_frame f ++ stream_bytes fs = x :: l).
    { unfold serialize_frame, serialize_header. cbn [app]. eauto. }
    destruct Hne as (x & l & Hxl).
    cbn [parse_frames]. rewrite Hxl. rewrite <- Hxl.
    rewrite parse_serialize_frame by assumption.
    unfold subspan_from.
    rewrite skipn_app_exact.
    + rewrite IH; [reflexivity | simpl in Hfuel; lia | assumption
                   | assumption].
    + unfold size. now rewrite Nat2Z.id.
Qed.

End FrameCodec.

(** *** The decoding loop ends by its own exit test *)

Section ParseLoop.
Import packet.

Lemma frame_of_payload_total (ty : Z) (pl : bytes) (n : Z) (f : Frame) (c : Z) :
  frame_of_payload ty pl n = Some (f, c) -> c = n.
Proof.
  unfold frame_of_payload.
  repeat match goal with
         | |- context [if ?b then _ else _] => destruct b
         | |- context [match ?l with [] => _ | _ :: _ => _ end] => destruct l
         end; intros E; try discriminate; now injection E.
Qed.

Lemma parse_frame_consumes (data : bytes) (f : Frame) (c : Z) :
  parse_frame data = Some (f, c) -> 4 <= c.
Proof.
  unfold parse_frame, parse_header.
  destruct (size data <? FRAME_HEADER_SIZE); [discriminate|].
  cbn [fh_length fh_type].
  destruct (size data <? _); [discriminate|].
  intros E. apply frame_of_payload_total in E. subst c.
  unfold FRAME_HEADER_SIZE, wrap16.
  pose proof (Z.mod_pos_bound
                (Z.lor (Z.shiftl (nth 2 data 0) 8) (nth 3 data 0)) 65536).
  lia.
Qed.

(** More fuel than the length of the payload changes nothing. *)
Lemma parse_frames_fuel (f1 : nat) :
  forall (f2 : nat) (payload : bytes),
    (length payload <= f1)%nat -> (length payload <= f2)%nat ->
    parse_frames f1 payload = parse_frames f2 payload.
Proof.
  induction f1 as [|f1 IH]; intros f2 payload H1 H2.
  - destruct payload; [|simpl in H1; lia]. now destruct f2.
  - destruct payload as [|x l]; [now destruct f2|].
    destruct f2 as [|f2]; [simpl in H2; lia|].
    cbn [parse_frames].
    destruct (parse_frame (x :: l)) as [[f c]|] eqn:E; [|reflexivity].
    apply parse_frame_consumes in E.
    assert (Hlen : (length (subspan_from (x :: l) c) <= length l)%nat).
    { unfold subspan_from. rewrite length_skipn. simpl length. lia. }
    simpl in H1, H2.
    rewrite (IH f2); [reflexivity | lia | lia].
Qed.

End ParseLoop.

Section BuilderStream.
Import packet.

Lemma add_frames_accepted (fs : list Frame) :
  forall b, all_accepted b fs = true ->
    add_frames b fs =
    mkBuilder (mtu_ b) (session_id_ b) (key_ b) (nonce_base_ b) (has_key_ b)
              (payload_buffer_ b ++ stream_bytes fs).
Proof.
  induction fs as [|f fs IH]; intros b Hacc.
  - unfold stream_bytes. cbn. rewrite app_nil_r. now destruct b.
  - cbn [all_accepted] in Hacc. apply andb_prop in Hacc as [Hf Hfs].
    unfold add_frames. cbn [fold_left]. fold (add_frames (snd (add_frame b f)) fs).
    rewrite IH by assumption.
    unfold add_frame in *.
    destruct (remaining_capacity b
              <? wrap64 (size (payload_buffer_ b) + size (serialize_frame f)));
      [discriminate|].
    cbn [snd mtu_ session_id_ key_ nonce_base_ has_key_ payload_buffer_].
    unfold stream_bytes. cbn [map concat]. now rewrite <- app_assoc.
Qed.

(** A single frame that fits an empty builder is accepted. *)
Lemma single_frame_accepted (b : PacketBuilder) (f : Frame) :
  payload_buffer_ b = [] -> mtu_ b < two64 ->
  size (serialize_frame f) <= mtu_ b - 32 ->
  all_accepted b [f] = true.
Proof.
  intros Hb Hmtu Hfit. cbn [all_accepted]. rewrite andb_true_r.
  unfold add_frame, remaining_capacity. rewrite Hb.
  change (size (@nil Z)) with 0.
  unfold PACKET_HEADER_SIZE, crypto.POLY1305_TAG_SIZE.
  pose proof (size_nonneg (serialize_frame f)).
  rewrite (wrap64_small (16 + 16 + 0)) by (unfold two64; lia).
  rewrite (wrap64_small (0 + _)) by lia.
  destruct (Z.leb_spec (mtu_ b) (16 + 16 + 0)).
  - assert (E : size (serialize_frame f) = 4 + size (frame_payload f))
      by apply size_serialize_frame.
    pose proof (size_nonneg (frame_payload f)). lia.
  - rewrite wrap64_small by lia.
    destruct (Z.ltb_spec (mtu_ b - (16 + 16) - 0)
                         (0 + size (serialize_frame f))); [lia|].
    reflexivity.
Qed.

Lemma stream_frames_bounded (fs : list Frame) (bound : Z) :
  size (stream_bytes fs) <= bound ->
  Forall (fun f => size (frame_payload f) <= bound - 4) fs /\
  (4 * Z.of_nat (length fs) <= size (stream_bytes fs)).
Proof.
  revert bound. induction fs as [|f fs IH]; intros bound H.
  - split; [constructor | unfold stream_bytes, size; simpl; lia].
  - unfold stream_bytes in *. cbn [map concat] in *.
    rewrite size_app, size_serialize_frame in *.
    unfold FRAME_HEADER_SIZE in *.
    pose proof (size_nonneg (frame_payload f)).
    pose proof (size_nonneg (concat (map serialize_frame fs))).
    destruct (IH (size (concat (map serialize_frame fs))) (Z.le_refl _))
      as [Hall Hlen].
    split.
    + constructor; [lia|].
      eapply Forall_impl; [|exact Hall]. cbv beta. intros; lia.
    + cbn [length]. lia.
Qed.

End BuilderStream.

Section PacketRoundTrip.
Import packet.
Context {sodium : Sodium}.

Hypothesis aead_open_seal : forall m ad n k,
  crypto_aead_decrypt (crypto_aead_encrypt m ad n k) ad n k = Some m.
Hypothesis aead_seal_length : forall m ad n k,
  length (crypto_aead_encrypt m ad n k) = (length m + 16)%nat.

Variables (mtu session counter : Z) (key nonce_base : bytes).

Let c4_builder : PacketBuilder :=
  configured_builder mtu session key nonce_base.

(** The round trip of the streams the builder takes in.  For an MTU of at
    most 65535, every non-empty stream [fs] of frames whose fields are
    within their wire types, whose serialization fits in [MTU - 32] and
    whose frames [add_frame] accepts one after the other: [build(counter)]
    returns a datagram whose parse under the same key and nonce base
    succeeds, yields exactly [fs] in order and recovers the session id and
    the counter. *)
Lemma accepted_stream_round_trip (fs : list Frame) :
  fs <> [] ->
  Forall frame_wf fs ->
  mtu <= 65535 ->
  size (stream_bytes fs) <= mtu - 32 ->
  all_accepted c4_builder fs = true ->
  is_u64 session -> is_u64 counter ->
  exists pkt,
    fst (build (add_frames c4_builder fs) counter) = Built pkt /\
    parse (set_decryption_key new_parser key nonce_base) pkt
    = (Some (mkParsed session counter fs), SUCCESS).
Proof.
  intros Hne Hwf Hmtu Hfit Hacc Hsid Hctr.
  rewrite add_frames_accepted by assumption.
  cbn [c4_builder configured_builder set_session_id set_encryption_key
       new_builder mtu_ session_id_ key_ nonce_base_ has_key_
       payload_buffer_ app].
  set (b := mkBuilder mtu session key nonce_base true (stream_bytes fs)).
  destruct (stream_frames_bounded fs (mtu - 32) Hfit) as [Hall Hlen].
  assert (Hbuf : payload_buffer_ b <> []).
  { cbn [b payload_buffer_]. destruct fs as [|f fs']; [contradiction|].
    unfold stream_bytes, serialize_frame, serialize_header. cbn.
    discriminate. }
  destruct (parse_of_build aead_open_seal aead_seal_length b counter
              Hbuf eq_refl Hsid Hctr) as (pkt & Hbuild & Hparse).
  exists pkt. split; [now rewrite Hbuild|].
  cbn [b key_ nonce_base_ payload_buffer_ session_id_] in Hparse.
  rewrite Hparse, parse_frames_stream; [reflexivity | | assumption |].
  - unfold size in Hlen. lia.
  - eapply Forall_impl; [|exact Hall]. cbv beta. intros; lia.
Qed.

End PacketRoundTrip.

Section BuilderDoubleCount.
Import packet.
Context {sodium : Sodium}.

Hypothesis aead_open_seal : forall m ad n k,
  crypto_aead_decrypt (crypto_aead_encrypt m ad n k) ad n k = Some m.
Hypothesis aead_seal_length : forall m ad n k,
  length (crypto_aead_encrypt m ad n k) = (length m + 16)%nat.

Variables (counter : Z) (key nonce_base : bytes).

(** Claim C4 (the code departs from it).  Two DATA frames of 200 payload
    bytes each, for an MTU of 576: the stream serialises to 424 bytes and
    fits the 544 bytes that [MTU - 32] leaves.  After the first frame
    [remaining_capacity()] is 332, enough for the 212 bytes of the second,
    but [add_frame] adds the buffered size to the frame size once more
    before comparing with it and refuses the frame.  [build(counter)] then
    returns a datagram that parses, under the same key and nonce base, to
    the first frame alone. *)
Theorem C4_add_frame_refuses_a_stream_that_fits :
  is_u64 counter ->
  let b0 := configured_builder 576 7 key nonce_base in
  let f1 := DataFrame 1 (repeat 65 200) in
  let f2 := DataFrame 2 (repeat 66 200) in
  size (stream_bytes [f1; f2]) = 424 /\
  size (stream_bytes [f1; f2]) <= 576 - 32 /\
  fst (add_frame b0 f1) = true /\
  remaining_capacity (snd (add_frame b0 f1)) = 332 /\
  size (serialize_frame f2) = 212 /\
  fst (add_frame (snd (add_frame b0 f1)) f2) = false /\
  exists pkt,
    fst (build (add_frames b0 [f1; f2]) counter) = Built pkt /\
    parse (set_decryption_key new_parser key nonce_base) pkt
    = (Some (mkParsed 7 counter [f1]), SUCCESS).
Proof.
  intros Hctr b0 f1 f2.
  split; [reflexivity|]. split; [vm_compute; discriminate|].
  split; [reflexivity|]. split; [reflexivity|]. split; [reflexivity|].
  split; [reflexivity|].
  assert (E : add_frames b0 [f1; f2] = add_frames b0 [f1]) by reflexivity.
  rewrite E.
  apply (accepted_stream_round_trip aead_open_seal aead_seal_length
           576 7 counter key nonce_base [f1]).
  - discriminate.
  - repeat constructor; vm_compute; discriminate.
  - lia.
  - vm_compute. discriminate.
  - reflexivity.
  - vm_compute. split; [discriminate | reflexivity].
  - exact Hctr.
Qed.

End BuilderDoubleCount.

(** *** The stand-in primitives satisfy the AEAD laws *)

Lemma bytes_eqb_refl (a : bytes) : bytes_eqb a a = true.
Proof.
  induction a as [|x a IH]; [reflexivity|].
  simpl. now rewrite Z.eqb_refl, IH.
Qed.

Lemma toy_tag_length (m ad n k : bytes) : length (Toy.tag m ad n k) = 16%nat.
Proof. reflexivity. Qed.

Lemma toy_open_seal (m ad n k : bytes) :
  Toy.aead_decrypt (Toy.aead_encrypt m ad n k) ad n k = Some m.
Proof.
  unfold Toy.aead_decrypt, Toy.aead_encrypt.
  rewrite length_app, toy_tag_length.
  replace (length m + 16 - 16)%nat with (length m) by lia.
  rewrite firstn_app_exact, skipn_app_exact by reflexivity.
  now rewrite bytes_eqb_refl.
Qed.

Lemma toy_seal_length (m ad n k : bytes) :
  length (Toy.aead_encrypt m ad n k) = (length m + 16)%nat.
Proof.
  unfold Toy.aead_encrypt. now rewrite length_app, toy_tag_length.
Qed.

Lemma C4_witness :
  is_u64 9 /\
  fst (packet.add_frame
         (snd (packet.add_frame
                 (packet.configured_builder 576 7 (repeat 1 32) (repeat 2 12))
                 (packet.DataFrame 1 (repeat 65 200))))
         (packet.DataFrame 2 (repeat 66 200))) = false /\
  exists pkt,
    fst (packet.build (sodium := Toy.sodium)
           (packet.add_frames
              (packet.configured_builder 576 7 (repeat 1 32) (repeat 2 12))
              [packet.DataFrame 1 (repeat 65 200);
               packet.DataFrame 2 (repeat 66 200)]) 9)
    = packet.Built pkt /\
    packet.parse (sodium := Toy.sodium)
      (packet.set_decryption_key packet.new_parser (repeat 1 32) (repeat 2 12))
      pkt
    = (Some (packet.mkParsed 7 9 [packet.DataFrame 1 (repeat 65 200)]),
       packet.SUCCESS).
Proof.
  assert (H9 : is_u64 9) by (vm_compute; split; [discriminate | reflexivity]).
  split; [exact H9|].
  destruct (C4_add_frame_refuses_a_stream_that_fits (sodium := Toy.sodium)
              toy_open_seal toy_seal_length 9 (repeat 1 32) (repeat 2 12) H9)
    as (_ & _ & _ & _ & _ & Hrefused & Hparse).
  split; [exact Hrefused | exact Hparse].
Defined.

(** ** Handshake *)

Lemma length_fit (n : nat) (l : bytes) : length (fit n l) = n.
Proof.
  unfold fit. rewrite length_firstn, length_app, repeat_length. lia.
Qed.

Lemma constant_time_compare_refl (a : bytes) :
  crypto.constant_time_compare a a = true.
Proof.
  unfold crypto.constant_time_compare.
  now rewrite Z.eqb_refl, bytes_eqb_refl.
Qed.

Section HandshakeFacts.
Import handshake.
Context {sodium : Sodium}.

Lemma length_hmac_sha256 (key data : bytes) :
  length (crypto.hmac_sha256 key data) = 32%nat.
Proof. apply length_fit. Qed.

(** An endpoint that receives an envelope sealed under its own PSK
  compares the timestamp with its clock; within the tolerance it appends
  the message to the transcript and dispatches on the message type. *)
Lemma process_envelope_cases (h : Handshake) (type ts : Z) (payload : bytes)
    (clock : Z) :
  is_u8 type -> is_u64 ts -> size payload < 65536 ->
  is_u64 (get_current_time h clock) ->
  let msg := envelope (psk (config_ h)) type ts payload in
  process_message h msg clock =
  if timestamp_tolerance_sec (config_ h)
     <? Z.abs (ts - get_current_time h clock)
  then (false, with_error h TIMESTAMP_OUT_OF_RANGE, [])
  else dispatch (with_transcript h (transcript_ h ++ msg)) type payload clock.
Proof.
  intros Hty Hts Hpl Hnow msg.
  pose proof (size_nonneg payload) as Hp0.
  set (body := [wrap8 type] ++ write_u64 ts
               ++ write_u16 (wrap16 (size payload)) ++ payload).
  set (tag := crypto.hmac_sha256 (psk (config_ h)) body).
  assert (Hmsg : msg = body ++ tag) by reflexivity.
  assert (Hbody : size body = 11 + size payload).
  { unfold body. rewrite !size_app.
  change (size [wrap8 type]) with 1. change (size (write_u64 ts)) with 8.
  change (size (write_u16 (wrap16 (size payload)))) with 2. lia. }
  assert (Htag : length tag = 32%nat) by apply length_hmac_sha256.
  assert (Hsize : size msg = 11 + size payload + 32).
  { rewrite Hmsg, size_app, Hbody. unfold size at 2. rewrite Htag. lia. }
  assert (Hw16 : wrap16 (size payload) = size payload)
  by (unfold wrap16; apply Z.mod_small; lia).
  assert (Htype : nth 0 msg 0 = type).
  { change (nth 0 msg 0) with (wrap8 type). now apply wrap8_small. }
  assert (Hrts : read_u64 (subspan_from msg 1) = ts).
  { unfold subspan_from. change (Z.to_nat 1) with 1%nat.
  rewrite Hmsg. unfold body. cbn [app skipn].
  rewrite <- !app_assoc. now apply read_write_u64. }
  assert (Hrlen : read_u16 (subspan_from msg 9) = size payload).
  { unfold subspan_from. change (Z.to_nat 9) with 9%nat.
  rewrite Hmsg. unfold body.
  rewrite (app_assoc [wrap8 type]), <- !app_assoc.
  rewrite (app_assoc [wrap8 type]).
  rewrite skipn_app_exact by reflexivity.
  rewrite read_write_u16; [exact Hw16|]. rewrite Hw16.
  unfold is_u16. lia. }
  unfold process_message. rewrite Hsize, Htype, Hrts, Hrlen.
  unfold MSG_HEADER_SIZE, MSG_HMAC_SIZE.
  destruct (Z.ltb_spec (11 + size payload + 32) (1 + 8 + 2 + 32)); [lia|].
  rewrite Z.eqb_refl. cbn [negb].
  assert (Hdiff :
  (if get_current_time h clock <? ts
   then wrap64 (ts - get_current_time h clock)
   else wrap64 (get_current_time h clock - ts))
  = Z.abs (ts - get_current_time h clock)).
  { unfold is_u64 in *.
  destruct (Z.ltb_spec (get_current_time h clock) ts);
    rewrite wrap64_small; lia. }
  cbv zeta. rewrite Hdiff.
  destruct (timestamp_tolerance_sec (config_ h)
            <? Z.abs (ts - get_current_time h clock)); [reflexivity|].
  assert (Hl : length body = Z.to_nat (1 + 8 + 2 + size payload)).
  { unfold size in Hbody |- *. lia. }
  unfold verify_hmac, compute_hmac, subspan.
  change (Z.to_nat 0) with 0%nat. cbn [skipn].
  rewrite Hmsg.
  rewrite firstn_app_exact by exact Hl.
  rewrite skipn_app_exact by exact Hl.
  change (Z.to_nat 32) with 32%nat.
  rewrite <- Htag, firstn_all. fold tag.
  rewrite constant_time_compare_refl. cbn [negb].
  f_equal.
  (* the payload sits behind the 11 header bytes *)
  change (Z.to_nat (1 + 8 + 2)) with 11%nat.
  unfold body.
  rewrite (app_assoc [wrap8 type]), (app_assoc ([wrap8 type] ++ write_u64 ts)).
  rewrite <- app_assoc.
  rewrite skipn_app_exact by reflexivity.
  apply firstn_app_exact. unfold size. lia.
Qed.


Lemma process_envelope (h : Handshake) (type ts : Z) (payload : bytes)
    (clock : Z) :
  is_u8 type -> is_u64 ts -> size payload < 65536 ->
  is_u64 (get_current_time h clock) ->
  Z.abs (ts - get_current_time h clock)
  <= timestamp_tolerance_sec (config_ h) ->
  let msg := envelope (psk (config_ h)) type ts payload in
  process_message h msg clock =
  dispatch (with_transcript h (transcript_ h ++ msg)) type payload clock.
Proof.
  intros Hty Hts Hpl Hnow Htol msg. unfold msg.
  rewrite process_envelope_cases by assumption.
  destruct (Z.ltb_spec (timestamp_tolerance_sec (config_ h))
                       (Z.abs (ts - get_current_time h clock))); [lia|].
  reflexivity.
Qed.

End HandshakeFacts.

Section HandshakeExchange.
Import handshake.
Context {sodium : Sodium}.

Variables (cfgA cfgB : HandshakeConfig) (kpA kpB : crypto.X25519KeyPair).
Variables (ta1 tb1 ta2 tb2 : Z) (zA zB : bytes).

Let skA : bytes := fit 32 (crypto.secret_key kpA).
Let pkA : bytes := fit 32 (crypto.public_key kpA).
Let skB : bytes := fit 32 (crypto.secret_key kpB).
Let pkB : bytes := fit 32 (crypto.public_key kpB).

Let m1 : bytes := envelope (psk cfgA) MSG_INIT ta1 pkA.
Let m2 : bytes := envelope (psk cfgB) MSG_RESPONSE tb1 pkB.
Let m3 : bytes := envelope (psk cfgA) MSG_FINISH ta2 [].
Let transcript : bytes := (([] ++ m1) ++ m2) ++ m3.

Hypothesis same_psk : psk cfgA = psk cfgB.
Hypothesis clocks :
  is_u64 ta1 /\ is_u64 tb1 /\ is_u64 ta2 /\ is_u64 tb2.
Hypothesis init_in_time :
  Z.abs (ta1 - tb1) <= timestamp_tolerance_sec cfgB.
Hypothesis response_in_time :
  Z.abs (tb1 - ta2) <= timestamp_tolerance_sec cfgA.
Hypothesis finish_in_time :
  Z.abs (ta2 - tb2) <= timestamp_tolerance_sec cfgB.
Hypothesis responder_exchange : crypto.key_exchange skB pkA = Some zB.
Hypothesis initiator_exchange : crypto.key_exchange skA pkB = Some zA.

Let a : Handshake := endpoint cfgA kpA.
Let b : Handshake := endpoint cfgB kpB.

Let a1 : Handshake :=
  mk cfgA INIT_SENT NONE true (crypto.mkKeyPair skA pkA) (repeat 0 32) None
     (repeat 0 32) ([] ++ m1) 0.
Let b1 : Handshake :=
  mk cfgB RESPONSE_SENT NONE true (crypto.mkKeyPair skB pkB) pkA (Some zB)
     (repeat 0 32) (([] ++ m1) ++ m2) 0.
Let a2 : Handshake :=
  mk cfgA COMPLETE NONE true (crypto.mkKeyPair skA pkA) pkB (Some zA)
     (crypto.hmac_sha256 (psk cfgA) transcript) transcript 0.
Let b2 : Handshake :=
  mk cfgB COMPLETE NONE true (crypto.mkKeyPair skB pkB) pkA (Some zB)
     (crypto.hmac_sha256 (psk cfgB) transcript) transcript 0.

Lemma step_initiate : initiate a ta1 = (true, a1, [m1]).
Proof. reflexivity. Qed.

Lemma size_pkA : size pkA = 32.
Proof. unfold size, pkA. now rewrite length_fit. Qed.

Lemma size_pkB : size pkB = 32.
Proof. unfold size, pkB. now rewrite length_fit. Qed.

Ltac project :=
  cbn [with_peer with_transcript with_state with_shared with_error
       with_session_id our_keypair_ peer_public_key_ shared_secret_
       session_id_ transcript_ current_time_ state_ config_ last_error_
       send_callback_ crypto.secret_key crypto.public_key state_eqb negb].

Lemma step_init_received : process_message b m1 tb1 = (false, b1, [m2]).
Proof.
  destruct clocks as (H1 & H2 & H3 & H4).
  assert (E : m1 = envelope (psk (config_ b)) MSG_INIT ta1 pkA)
    by (unfold m1, b; cbn; now rewrite same_psk).
  rewrite E, process_envelope.
  - rewrite <- E. unfold dispatch.
    change (MSG_INIT =? MSG_INIT) with true. cbv iota.
    unfold handle_init, b, endpoint, set_send_callback, create. project.
    rewrite size_pkA.
    change (32 =? crypto.X25519_PUBLIC_KEY_SIZE) with true. project.
    fold skB. rewrite responder_exchange.
    unfold build_message, get_current_time, emit. project.
    reflexivity.
  - unfold is_u8, MSG_INIT. lia.
  - exact H1.
  - rewrite size_pkA. lia.
  - exact H2.
  - exact init_in_time.
Qed.

Lemma step_response_received :
  process_message a1 m2 ta2 = (true, a2, [m3]).
Proof.
  destruct clocks as (H1 & H2 & H3 & H4).
  assert (E : m2 = envelope (psk (config_ a1)) MSG_RESPONSE tb1 pkB)
    by (unfold m2, a1; cbn; now rewrite same_psk).
  rewrite E, process_envelope.
  - rewrite <- E. unfold dispatch.
    change (MSG_RESPONSE =? MSG_INIT) with false.
    change (MSG_RESPONSE =? MSG_RESPONSE) with true. cbv iota.
    unfold handle_response, a1. project.
    rewrite size_pkB.
    change (32 =? crypto.X25519_PUBLIC_KEY_SIZE) with true. project.
    rewrite initiator_exchange.
    unfold build_message, derive_session_id, get_current_time, emit. project.
    reflexivity.
  - unfold is_u8, MSG_RESPONSE. lia.
  - exact H2.
  - rewrite size_pkB. lia.
  - exact H3.
  - exact response_in_time.
Qed.

Lemma step_finish_received : process_message b1 m3 tb2 = (true, b2, []).
Proof.
  destruct clocks as (H1 & H2 & H3 & H4).
  assert (E : m3 = envelope (psk (config_ b1)) MSG_FINISH ta2 [])
    by (unfold m3, b1; cbn; now rewrite same_psk).
  rewrite E, process_envelope.
  - rewrite <- E. unfold dispatch.
    change (MSG_FINISH =? MSG_INIT) with false.
    change (MSG_FINISH =? MSG_RESPONSE) with false.
    change (MSG_FINISH =? MSG_FINISH) with true. cbv iota.
    unfold handle_finish, derive_session_id, b1. project.
    reflexivity.
  - unfold is_u8, MSG_FINISH. lia.
  - exact H3.
  - change (size (@nil Z)) with 0. lia.
  - exact H4.
  - exact finish_in_time.
Qed.

(** Under the same PSK, timestamps within tolerance and successful key
    exchanges, the three messages bring both endpoints to COMPLETE with the
    same transcript. *)
Lemma exchange_completes :
  exchange a b ta1 tb1 ta2 tb2 = mkExchange a2 b2 true true [m1; m2; m3].
Proof.
  unfold exchange. rewrite step_initiate.
  cbn [first_message]. rewrite step_init_received.
  cbn [first_message]. rewrite step_response_received.
  cbn [first_message]. rewrite step_finish_received.
  reflexivity.
Qed.

Lemma results_of_exchange :
  let x := exchange a b ta1 tb1 ta2 tb2 in
  result (initiator x) =
    Some (mkResult
            (crypto.derive_session_keys
               zA (crypto.hmac_sha256 (psk cfgA) transcript)
               (memcmp_lt pkA pkB))
            (crypto.hmac_sha256 (psk cfgA) transcript)
            (memcmp_lt pkA pkB)) /\
  result (responder x) =
    Some (mkResult
            (crypto.derive_session_keys
               zB (crypto.hmac_sha256 (psk cfgB) transcript)
               (memcmp_lt pkB pkA))
            (crypto.hmac_sha256 (psk cfgB) transcript)
            (memcmp_lt pkB pkA)).
Proof. rewrite exchange_completes. split; reflexivity. Qed.

(** Claim C1 (the code departs from it).  In every completed exchange the
    endpoint that emitted INIT reaches COMPLETE from INIT_SENT, but the
    role in its [result()] is [memcmp(our_public, peer_public) < 0]:
    whenever the initiator's ephemeral public key is not below the
    responder's, the initiator reports [is_initiator = false], and the
    responder reports [true] when its key is the smaller one. *)
Theorem C1_initiator_role_follows_key_order :
  memcmp_lt pkA pkB = false ->
  let x := exchange a b ta1 tb1 ta2 tb2 in
  fst (fst (initiate a ta1)) = true /\
  state_ (snd (fst (initiate a ta1))) = INIT_SENT /\
  initiator_done x = true /\
  state_ (initiator x) = COMPLETE /\
  state_ (responder x) = COMPLETE /\
  option_map is_initiator (result (initiator x)) = Some false /\
  option_map is_initiator (result (responder x)) = Some (memcmp_lt pkB pkA).
Proof.
  intros Horder x.
  destruct results_of_exchange as [Ra Rb]. fold x in Ra, Rb.
  rewrite Ra, Rb, Horder. unfold x. rewrite exchange_completes.
  repeat split.
Qed.

Lemma memcmp_lt_antisym (u v : bytes) :
  length u = length v -> u <> v -> memcmp_lt u v = negb (memcmp_lt v u).
Proof.
  revert v. induction u as [|c u IH]; intros [|d v] Hlen Hne;
    try discriminate; [contradiction|].
  simpl. destruct (Z.ltb_spec c d), (Z.ltb_spec d c); try reflexivity; try lia.
  assert (c = d) by lia. subst d.
  apply IH; [simpl in Hlen; lia|]. intros ->. now apply Hne.
Qed.

(** Two endpoints with the same PSK and clocks within tolerance, whose
    ephemeral public keys differ and whose Diffie-Hellman secrets agree,
    complete the exchange in three messages with mirrored keys and nonce
    bases and the same 32-byte session id. *)
Lemma mirrored_keys_of_exchange :
  pkA <> pkB -> zA = zB ->
  let x := exchange a b ta1 tb1 ta2 tb2 in
  initiator_done x = true /\ responder_done x = true /\
  length (wire x) = 3%nat /\
  exists ra rb,
    result (initiator x) = Some ra /\ result (responder x) = Some rb /\
    crypto.send_key (session_keys ra) = crypto.recv_key (session_keys rb) /\
    crypto.recv_key (session_keys ra) = crypto.send_key (session_keys rb) /\
    crypto.send_nonce_base (session_keys ra)
      = crypto.recv_nonce_base (session_keys rb) /\
    crypto.recv_nonce_base (session_keys ra)
      = crypto.send_nonce_base (session_keys rb) /\
    session_id ra = crypto.hmac_sha256 (psk cfgA) (concat (wire x)) /\
    session_id rb = crypto.hmac_sha256 (psk cfgB) (concat (wire x)) /\
    session_id ra = session_id rb /\
    length (session_id ra) = 32%nat.
Proof.
  intros Hpk Hz x.
  destruct results_of_exchange as [Ra Rb]. fold x in Ra, Rb.
  rewrite <- Hz in Rb.
  rewrite (memcmp_lt_antisym pkB pkA) in Rb.
  2:{ unfold pkA, pkB. now rewrite !length_fit. }
  2:{ intros E. now apply Hpk. }
  assert (Hwire : concat (wire x) = transcript).
  { unfold x. rewrite exchange_completes. unfold transcript.
    cbn [wire concat app]. now rewrite app_nil_r, app_assoc. }
  rewrite Hwire.
  unfold x at 1 2 3. rewrite exchange_completes.
  split; [reflexivity|]. split; [reflexivity|]. split; [reflexivity|].
  eexists. eexists. split; [exact Ra|]. split; [exact Rb|].
  cbn [session_id session_keys]. rewrite <- same_psk.
  unfold crypto.derive_session_keys.
  assert (Hlen : length (crypto.hmac_sha256 (psk cfgA) transcript) = 32%nat)
    by (unfold crypto.hmac_sha256; now rewrite length_fit).
  destruct (memcmp_lt pkA pkB);
    cbn [negb crypto.send_key crypto.recv_key crypto.send_nonce_base
         crypto.recv_nonce_base];
    repeat split; assumption.
Qed.

End HandshakeExchange.

(** *** What a completed exchange needs *)

Section HandshakeCompletion.
Import handshake.
Context {sodium : Sodium}.

Variables (cfgA cfgB : HandshakeConfig) (kpA kpB : crypto.X25519KeyPair).
Variables (ta1 tb1 ta2 tb2 : Z).

Let skA : bytes := fit 32 (crypto.secret_key kpA).
Let pkA : bytes := fit 32 (crypto.public_key kpA).
Let skB : bytes := fit 32 (crypto.secret_key kpB).
Let pkB : bytes := fit 32 (crypto.public_key kpB).

Let m1 : bytes := envelope (psk cfgA) MSG_INIT ta1 pkA.
Let m2 : bytes := envelope (psk cfgB) MSG_RESPONSE tb1 pkB.
Let m3 : bytes := envelope (psk cfgA) MSG_FINISH ta2 [].

Hypothesis same_psk : psk cfgA = psk cfgB.
Hypothesis clocks :
  is_u64 ta1 /\ is_u64 tb1 /\ is_u64 ta2 /\ is_u64 tb2.

Let a : Handshake := endpoint cfgA kpA.
Let b : Handshake := endpoint cfgB kpB.

Let a1 : Handshake :=
  mk cfgA INIT_SENT NONE true (crypto.mkKeyPair skA pkA) (repeat 0 32) None
     (repeat 0 32) ([] ++ m1) 0.
Let b1 (zB : bytes) : Handshake :=
  mk cfgB RESPONSE_SENT NONE true (crypto.mkKeyPair skB pkB) pkA (Some zB)
     (repeat 0 32) (([] ++ m1) ++ m2) 0.

Lemma process_empty (h : Handshake) (clock : Z) :
  process_message h [] clock = (false, with_error h INVALID_MESSAGE, []).
Proof. reflexivity. Qed.

(** The flags of an exchange are what the second [process_message] of
    each endpoint returns. *)
Lemma exchange_flags (u v : Handshake) :
  let r1 := initiate u ta1 in
  let r2 := process_message v (first_message (snd r1)) tb1 in
  let r3 := process_message (snd (fst r1)) (first_message (snd r2)) ta2 in
  let r4 := process_message (snd (fst r2)) (first_message (snd r3)) tb2 in
  initiator_done (exchange u v ta1 tb1 ta2 tb2) = fst (fst r3) /\
  responder_done (exchange u v ta1 tb1 ta2 tb2) = fst (fst r4).
Proof.
  cbv zeta. unfold exchange.
  destruct (initiate u ta1) as [[i1 u1] out1]. cbn [fst snd].
  destruct (process_message v (first_message out1) tb1) as [[i2 v1] out2].
  cbn [fst snd].
  destruct (process_message u1 (first_message out2) ta2) as [[i3 u2] out3].
  cbn [fst snd].
  destruct (process_message v1 (first_message out3) tb2) as [[i4 v2] out4].
  split; reflexivity.
Qed.

Ltac project :=
  cbn [with_peer with_transcript with_state with_shared with_error
       with_session_id our_keypair_ peer_public_key_ shared_secret_
       session_id_ transcript_ current_time_ state_ config_ last_error_
       send_callback_ crypto.secret_key crypto.public_key state_eqb negb].

(** The responder takes INIT only within its tolerance and with a key
    exchange that succeeds; otherwise it sends nothing. *)
Lemma init_answered_or_ignored :
  (Z.abs (ta1 - tb1) <= timestamp_tolerance_sec cfgB /\
   exists zB, crypto.key_exchange skB pkA = Some zB /\
              process_message b m1 tb1 = (false, b1 zB, [m2])) \/
  (exists h, process_message b m1 tb1 = (false, h, [])).
Proof.
  destruct clocks as (H1 & H2 & H3 & H4).
  destruct (Z.ltb_spec (timestamp_tolerance_sec cfgB) (Z.abs (ta1 - tb1)))
    as [Hlate|Hin].
  - right.
    assert (E : m1 = envelope (psk (config_ b)) MSG_INIT ta1 pkA)
      by (unfold m1, b; cbn; now rewrite same_psk).
    rewrite E, process_envelope_cases.
    + change (get_current_time b tb1) with tb1.
      change (timestamp_tolerance_sec (config_ b))
        with (timestamp_tolerance_sec cfgB).
      destruct (Z.ltb_spec (timestamp_tolerance_sec cfgB)
                           (Z.abs (ta1 - tb1))); [|lia].
      eexists. reflexivity.
    + unfold is_u8, MSG_INIT. lia.
    + exact H1.
    + unfold pkA, size. rewrite length_fit. lia.
    + exact H2.
  - destruct (crypto.key_exchange skB pkA) as [zB|] eqn:EB.
    + left. split; [exact Hin|]. exists zB. split; [reflexivity|].
      exact (step_init_received cfgA cfgB kpA kpB ta1 tb1 ta2 tb2 zB
               same_psk clocks Hin EB).
    + right.
      assert (E : m1 = envelope (psk (config_ b)) MSG_INIT ta1 pkA)
        by (unfold m1, b; cbn; now rewrite same_psk).
      rewrite E, process_envelope.
      * rewrite <- E. unfold dispatch.
        change (MSG_INIT =? MSG_INIT) with true. cbv iota.
        unfold handle_init, b, endpoint, set_send_callback, create. project.
        replace (size pkA) with 32
          by (unfold pkA, size; now rewrite length_fit).
        change (32 =? crypto.X25519_PUBLIC_KEY_SIZE) with true. project.
        fold skB. rewrite EB. eexists. reflexivity.
      * unfold is_u8, MSG_INIT. lia.
      * exact H1.
      * unfold pkA, size. rewrite length_fit. lia.
      * exact H2.
      * exact Hin.
Qed.

(** The initiator takes RESPONSE only within its tolerance and with a
    key exchange that succeeds. *)
Lemma response_confirmed_or_refused :
  (Z.abs (tb1 - ta2) <= timestamp_tolerance_sec cfgA /\
   exists zA h, crypto.key_exchange skA pkB = Some zA /\
                process_message a1 m2 ta2 = (true, h, [m3])) \/
  (exists h, process_message a1 m2 ta2 = (false, h, [])).
Proof.
  destruct clocks as (H1 & H2 & H3 & H4).
  assert (E : m2 = envelope (psk (config_ a1)) MSG_RESPONSE tb1 pkB)
    by (unfold m2, a1; cbn; now rewrite same_psk).
  destruct (Z.ltb_spec (timestamp_tolerance_sec cfgA) (Z.abs (tb1 - ta2)))
    as [Hlate|Hin].
  - right. rewrite E, process_envelope_cases.
    + change (get_current_time a1 ta2) with ta2.
      change (timestamp_tolerance_sec (config_ a1))
        with (timestamp_tolerance_sec cfgA).
      destruct (Z.ltb_spec (timestamp_tolerance_sec cfgA)
                           (Z.abs (tb1 - ta2))); [|lia].
      eexists. reflexivity.
    + unfold is_u8, MSG_RESPONSE. lia.
    + exact H2.
    + unfold pkB, size. rewrite length_fit. lia.
    + exact H3.
  - destruct (crypto.key_exchange skA pkB) as [zA|] eqn:EA.
    + left. split; [exact Hin|]. exists zA. eexists. split; [reflexivity|].
      exact (step_response_received cfgA cfgB kpA kpB ta1 tb1 ta2 tb2 zA
               same_psk clocks Hin EA).
    + right. rewrite E, process_envelope.
      * rewrite <- E. unfold dispatch.
        change (MSG_RESPONSE =? MSG_INIT) with false.
        change (MSG_RESPONSE =? MSG_RESPONSE) with true. cbv iota.
        unfold handle_response, a1. project.
        replace (size pkB) with 32
          by (unfold pkB, size; now rewrite length_fit).
        change (32 =? crypto.X25519_PUBLIC_KEY_SIZE) with true. project.
        rewrite EA. eexists. reflexivity.
      * unfold is_u8, MSG_RESPONSE. lia.
      * exact H2.
      * unfold pkB, size. rewrite length_fit. lia.
      * exact H3.
      * exact Hin.
Qed.

(** The responder takes FINISH only within its tolerance. *)
Lemma finish_taken_or_refused (zB : bytes) :
  Z.abs (ta2 - tb2) <= timestamp_tolerance_sec cfgB \/
  (exists h, process_message (b1 zB) m3 tb2 = (false, h, [])).
Proof.
  destruct clocks as (H1 & H2 & H3 & H4).
  destruct (Z.ltb_spec (timestamp_tolerance_sec cfgB) (Z.abs (ta2 - tb2)))
    as [Hlate|Hin]; [right | now left].
  assert (E : m3 = envelope (psk (config_ (b1 zB))) MSG_FINISH ta2 [])
    by (unfold m3, b1; cbn; now rewrite same_psk).
  rewrite E, process_envelope_cases.
  - change (get_current_time (b1 zB) tb2) with tb2.
    change (timestamp_tolerance_sec (config_ (b1 zB)))
      with (timestamp_tolerance_sec cfgB).
    destruct (Z.ltb_spec (timestamp_tolerance_sec cfgB)
                         (Z.abs (ta2 - tb2))); [|lia].
    eexists. reflexivity.
  - unfold is_u8, MSG_FINISH. lia.
  - exact H3.
  - change (size (@nil Z)) with 0. lia.
  - exact H4.
Qed.

(** An exchange in which both endpoints report completion had every
    timestamp within the tolerance of its receiver and a key exchange
    that succeeded on both sides. *)
Lemma completion_needs :
  initiator_done (exchange a b ta1 tb1 ta2 tb2) = true ->
  responder_done (exchange a b ta1 tb1 ta2 tb2) = true ->
  Z.abs (ta1 - tb1) <= timestamp_tolerance_sec cfgB /\
  Z.abs (tb1 - ta2) <= timestamp_tolerance_sec cfgA /\
  Z.abs (ta2 - tb2) <= timestamp_tolerance_sec cfgB /\
  (exists zB, crypto.key_exchange skB pkA = Some zB) /\
  (exists zA, crypto.key_exchange skA pkB = Some zA).
Proof.
  intros Ha Hb.
  destruct (exchange_flags a b) as [Fa Fb]. cbv zeta in Fa, Fb.
  rewrite Fa in Ha. rewrite Fb in Hb. clear Fa Fb.
  change (initiate a ta1) with (true, a1, [m1]) in Ha, Hb.
  cbn [fst snd first_message] in Ha, Hb.
  destruct init_answered_or_ignored as [(Hin1 & zB & EB & E2) | (h & E2)];
    rewrite E2 in Ha, Hb; cbn [fst snd first_message] in Ha, Hb.
  2:{ rewrite process_empty in Ha. discriminate Ha. }
  destruct response_confirmed_or_refused
    as [(Hin2 & zA & h & EA & E3) | (h & E3)];
    rewrite E3 in Ha, Hb; cbn [fst snd first_message] in Ha, Hb.
  2:{ discriminate Ha. }
  destruct (finish_taken_or_refused zB) as [Hin3 | (h' & E4)].
  2:{ rewrite E4 in Hb. discriminate Hb. }
  split; [exact Hin1|]. split; [exact Hin2|]. split; [exact Hin3|].
  split; [now exists zB | now exists zA].
Qed.

(** Claim C2.  Take any run of the three-message exchange between two
    endpoints with the same PSK in which both endpoints report
    completion.  With ephemeral public keys that differ and a
    Diffie-Hellman function that gives both sides the same secret, the
    initiator's send key is the responder's receive key and the
    initiator's receive key is the responder's send key, likewise for the
    two nonce bases, and both endpoints hold the same 32-byte session id,
    [HMAC-SHA256(PSK, transcript)] over the concatenated bytes of the
    three messages. *)
Theorem C2_completed_handshake_mirrors_keys :
  pkA <> pkB ->
  crypto.key_exchange skA pkB = crypto.key_exchange skB pkA ->
  let x := exchange a b ta1 tb1 ta2 tb2 in
  initiator_done x = true -> responder_done x = true ->
  length (wire x) = 3%nat /\
  exists ra rb,
    result (initiator x) = Some ra /\ result (responder x) = Some rb /\
    crypto.send_key (session_keys ra) = crypto.recv_key (session_keys rb) /\
    crypto.recv_key (session_keys ra) = crypto.send_key (session_keys rb) /\
    crypto.send_nonce_base (session_keys ra)
      = crypto.recv_nonce_base (session_keys rb) /\
    crypto.recv_nonce_base (session_keys ra)
      = crypto.send_nonce_base (session_keys rb) /\
    session_id ra = crypto.hmac_sha256 (psk cfgA) (concat (wire x)) /\
    session_id rb = crypto.hmac_sha256 (psk cfgB) (concat (wire x)) /\
    session_id ra = session_id rb /\
    length (session_id ra) = 32%nat.
Proof.
  intros Hpk Hdh x Ha Hb.
  destruct (completion_needs Ha Hb)
    as (Hin1 & Hin2 & Hin3 & (zB & EB) & (zA & EA)).
  assert (Hz : zA = zB).
  { unfold skA, skB, pkA, pkB in *. rewrite EA, EB in Hdh.
    now injection Hdh. }
  destruct (mirrored_keys_of_exchange cfgA cfgB kpA kpB ta1 tb1 ta2 tb2
              zA zB same_psk clocks Hin1 Hin2 Hin3 EB EA Hpk Hz)
    as (_ & _ & Hlen & H).
  split; [exact Hlen | exact H].
Qed.

End HandshakeCompletion.

(** ** Transport session: the send path *)

Section SendPath.
Import transport.
Context {sodium : Sodium}.

Lemma serialize_frame_nonempty (f : packet.Frame) :
  packet.serialize_frame f <> [].
Proof. unfold packet.serialize_frame, packet.serialize_header. discriminate. Qed.

(** Frames other than DATA never reach the retransmission manager. *)
Lemma other_frames_not_registered (s : TransportSession) (f : packet.Frame)
      (now : Z) (ok : bool) (s' : TransportSession) :
  packet.holds_data_frame f = false ->
  send_packet_internal s f now = Some (ok, s') ->
  retransmission_ s' = retransmission_ s.
Proof.
  intros Hf. unfold send_packet_internal.
  destruct (RateLimiter.try_consume _ _) as [admitted limiter].
  destruct admitted; cbn [negb].
  2:{ intros E. injection E as _ <-. reflexivity. }
  destruct (packet.add_frame _ f) as [added builder].
  destruct added; cbn [negb].
  2:{ intros E. injection E as _ <-. reflexivity. }
  destruct (packet.build builder (send_sequence_ s)) as [[pkt|] builder'];
    [|discriminate].
  rewrite Hf. intros E. injection E as _ <-. reflexivity.
Qed.

(** A DATA frame is registered under the packet counter of its packet
    and with the sealed packet bytes, or not at all. *)
Lemma data_frame_registration (s : TransportSession) (seq : Z)
      (payload : bytes) (now : Z) (ok : bool) (s' : TransportSession) :
  send_packet_internal s (packet.DataFrame seq payload) now = Some (ok, s') ->
  RetransmissionManager.unacked_ (retransmission_ s')
    = RetransmissionManager.unacked_ (retransmission_ s)
  \/
  (RetransmissionManager.unacked_ (retransmission_ s')
     = OrdMap.insert (send_sequence_ s)
         (RetransmissionManager.mkPacket
            (sealed_packet s (packet.DataFrame seq payload)) now now 0)
         (RetransmissionManager.unacked_ (retransmission_ s))
   /\ OrdMap.find (send_sequence_ s)
        (RetransmissionManager.unacked_ (retransmission_ s)) = None
   /\ datagrams_ s'
        = datagrams_ s ++ [sealed_packet s (packet.DataFrame seq payload)]).
Proof.
  unfold send_packet_internal.
  destruct (RateLimiter.try_consume _ _) as [admitted limiter].
  destruct admitted; cbn [negb].
  2:{ intros E. injection E as _ <-. now left. }
  unfold packet.add_frame.
  match goal with
  | |- context [if ?c then (false, ?b) else _] => destruct c
  end; cbn [negb].
  { intros E. injection E as _ <-. now left. }
  unfold packet.build.
  cbn [packet.payload_buffer_ packet.reset packet.set_session_id
       packet.set_encryption_key packet.has_key_ packet.key_
       packet.nonce_base_ packet.session_id_ packet.mtu_ app negb].
  destruct (packet.serialize_frame (packet.DataFrame seq payload))
    as [|x l] eqn:Eser.
  { now destruct (serialize_frame_nonempty (packet.DataFrame seq payload)). }
  rewrite <- Eser. cbn [packet.holds_data_frame].
  fold (sealed_packet s (packet.DataFrame seq payload)).
  unfold RetransmissionManager.register_packet.
  destruct (_ <=? _).
  { intros E. injection E as _ <-. now left. }
  destruct (_ <? _).
  { intros E. injection E as _ <-. now left. }
  unfold OrdMap.count.
  destruct (OrdMap.find (send_sequence_ s)
              (RetransmissionManager.unacked_ (retransmission_ s))) eqn:Ef.
  { change (0 <? 1) with true. cbv iota.
    intros E. injection E as _ <-. now left. }
  change (0 <? 0) with false. cbv iota.
  intros E. injection E as _ <-. right. cbn. auto.
Qed.

(** A payload that needs no fragmentation is always sent to completion:
    [send_packet_internal] sets the key before it builds, so [build] does
    not throw. *)
Lemma send_single_frame_returns (s : TransportSession) (data : bytes)
      (now : Z) :
  is_connected s = true ->
  size data <= max_payload s ->
  exists ok s', send s data now = Some (ok, s').
Proof.
  intros Hconn Hsize. unfold send. rewrite Hconn. cbn [negb].
  destruct (Z.leb_spec (size data) (max_payload s)); [|lia].
  cbn [data_frame_of]. unfold send_packet_internal.
  destruct (RateLimiter.try_consume _ _) as [admitted limiter].
  destruct admitted; cbn [negb]; [|eauto].
  unfold packet.add_frame.
  match goal with
  | |- context [if ?c then (false, ?b) else _] => destruct c
  end; cbn [negb]; [eauto|].
  unfold packet.build.
  cbn [packet.payload_buffer_ packet.reset packet.set_session_id
       packet.set_encryption_key packet.has_key_ app negb].
  destruct (packet.serialize_frame _); eauto.
Qed.

(** Claim C7 (the code departs from it).  For a payload that needs no
    fragmentation, [send] writes the current [send_sequence_] into the DATA
    frame and increments it before the packet is built, so whenever the
    call creates an unacked entry, the entry (which stores the sealed
    packet handed to the socket) is keyed by the sequence number carried in
    the frame plus one. *)
Theorem C7_unacked_key_is_frame_sequence_plus_one
        (s : TransportSession) (data : bytes) (now : Z)
        (ok : bool) (s' : TransportSession) :
  is_connected s = true ->
  size data <= max_payload s ->
  send s data now = Some (ok, s') ->
  let frame := packet.DataFrame (send_sequence_ s) data in
  let key := wrap64 (send_sequence_ s + 1) in
  let stored := sealed_packet (snd (data_frame_of s data)) frame in
  RetransmissionManager.unacked_ (retransmission_ s')
    = RetransmissionManager.unacked_ (retransmission_ s)
  \/
  (RetransmissionManager.unacked_ (retransmission_ s')
     = OrdMap.insert key
         (RetransmissionManager.mkPacket stored now now 0)
         (RetransmissionManager.unacked_ (retransmission_ s))
   /\ OrdMap.find key (RetransmissionManager.unacked_ (retransmission_ s))
      = None
   /\ datagrams_ s' = datagrams_ s ++ [stored]).
Proof.
  intros Hconn Hsize. unfold send. rewrite Hconn. cbn [negb].
  destruct (Z.leb_spec (size data) (max_payload s)); [|lia].
  cbn [data_frame_of]. intros Hsend.
  apply data_frame_registration in Hsend.
  cbn [retransmission_ send_sequence_ datagrams_] in Hsend.
  exact Hsend.
Qed.

End SendPath.

(** ** The scenarios on concrete inputs *)

(** An exchange where the initiator holds the larger public key. *)
Lemma C1_witness :
  let x :=
    handshake.exchange (sodium := Toy.sodium)
      (handshake.endpoint s1_config
         (crypto.mkKeyPair (repeat 200 32) (repeat 200 32)))
      (handshake.endpoint s1_config
         (crypto.mkKeyPair (repeat 100 32) (repeat 100 32)))
      s1_now s1_now s1_now s1_now in
  handshake.state_ (handshake.initiator x) = handshake.COMPLETE /\
  option_map handshake.is_initiator
    (handshake.result (sodium := Toy.sodium) (handshake.initiator x))
  = Some false.
Proof.
  destruct (C1_initiator_role_follows_key_order (sodium := Toy.sodium)
              s1_config s1_config
              (crypto.mkKeyPair (repeat 200 32) (repeat 200 32))
              (crypto.mkKeyPair (repeat 100 32) (repeat 100 32))
              s1_now s1_now s1_now s1_now (repeat 44 32) (repeat 44 32))
    as (_ & _ & _ & Hstate & _ & Hrole & _).
  - reflexivity.
  - vm_compute. repeat split; discriminate.
  - vm_compute. discriminate.
  - vm_compute. discriminate.
  - vm_compute. discriminate.
  - vm_compute. reflexivity.
  - vm_compute. reflexivity.
  - vm_compute. reflexivity.
  - split; [exact Hstate | exact Hrole].
Defined.

(** An exchange between two endpoints with different key pairs. *)
Lemma C2_witness :
  let x :=
    handshake.exchange (sodium := Toy.sodium)
      (handshake.endpoint s1_config
         (crypto.mkKeyPair (repeat 200 32) (repeat 200 32)))
      (handshake.endpoint s1_config
         (crypto.mkKeyPair (repeat 100 32) (repeat 100 32)))
      s1_now s1_now s1_now s1_now in
  exists ra rb,
    handshake.result (sodium := Toy.sodium) (handshake.initiator x) = Some ra /\
    handshake.result (sodium := Toy.sodium) (handshake.responder x) = Some rb /\
    crypto.send_key (handshake.session_keys ra)
      = crypto.recv_key (handshake.session_keys rb) /\
    crypto.send_nonce_base (handshake.session_keys ra)
      = crypto.recv_nonce_base (handshake.session_keys rb) /\
    handshake.session_id ra = handshake.session_id rb /\
    handshake.session_id ra
      = crypto.hmac_sha256 (sodium := Toy.sodium)
          (handshake.psk s1_config) (concat (handshake.wire x)).
Proof.
  intros x.
  destruct (C2_completed_handshake_mirrors_keys (sodium := Toy.sodium)
              s1_config s1_config
              (crypto.mkKeyPair (repeat 200 32) (repeat 200 32))
              (crypto.mkKeyPair (repeat 100 32) (repeat 100 32))
              s1_now s1_now s1_now s1_now)
    as (_ & ra & rb & Ha & Hb & Hk & _ & Hn & _ & Sa & _ & Sab & _).
  - reflexivity.
  - vm_compute. repeat split; discriminate.
  - vm_compute. discriminate.
  - vm_compute. reflexivity.
  - vm_compute. reflexivity.
  - vm_compute. reflexivity.
  - exists ra, rb. split; [exact Ha|]. split; [exact Hb|].
    split; [exact Hk|]. split; [exact Hn|]. split; [exact Sab | exact Sa].
Defined.

(** The first [send] of the session that the handshake over the
    transport connected as initiator: INIT and FINISH have taken the
    counters 1 and 2, the DATA frame carries sequence 3 and the unacked
    entry is stored under 4. *)
Lemma C7_witness :
  transport.send_sequence_ (transport.session s10_initiator) = 3 /\
  OrdMap.keys
    (RetransmissionManager.unacked_ (transport.retransmission_ s10_first_sent))
  = [4].
Proof.
  split; [vm_compute; reflexivity|].
  destruct (C7_unacked_key_is_frame_sequence_plus_one (sodium := Toy.sodium)
              (transport.session s10_initiator) s1_hello 5 true
              s10_first_sent)
    as [H | (H & _)].
  - vm_compute. reflexivity.
  - vm_compute. discriminate.
  - vm_compute. reflexivity.
  - vm_compute in H. discriminate H.
  - rewrite H. reflexivity.
Defined.

(** * Further properties of the code *)

(** ** Replay window: the set of accepted counters *)

Section ReplayWindowSet.
Import ReplayWindow.

Lemma replay_tracks_fresh : replay_tracks fresh [].
Proof.
  unfold replay_tracks, fresh. cbn. repeat split; try (unfold two64; lia);
    discriminate.
Qed.

Lemma replay_tracks_check (w : t) (A : list Z) (c : Z) :
  replay_tracks w A -> 0 <= c < two64 - 64 ->
  (check w c = true <-> (~ In c A /\ highest_seq_ w < c + 64)).
Proof.
  intros (Hh & Hun & Hin) Hc. unfold check, WINDOW_SIZE.
  destruct (initialized_ w) eqn:Hi; cbn [negb].
  2:{ destruct (Hun eq_refl) as [-> ->]. split; [|reflexivity].
      intros _. split; [intros []|lia]. }
  destruct (Hin eq_refl) as (Hmax & Hle & Hbits).
  rewrite (wrap64_small (c + 64)) by lia.
  destruct (Z.leb_spec (c + 64) (highest_seq_ w)).
  { split; [discriminate | lia]. }
  destruct (Z.ltb_spec (highest_seq_ w) c).
  { split; [|reflexivity]. intros _. split; [|lia].
    intros Hc'. apply Hle in Hc'. lia. }
  destruct (Z.eqb_spec c (highest_seq_ w)) as [->|Hne].
  { split; [discriminate|]. intros [Hn _]. now destruct Hn. }
  cbv zeta. rewrite (wrap64_small (highest_seq_ w - c - 1)) by lia.
  destruct (Z.ltb_spec (highest_seq_ w - c - 1) 64); [|lia].
  rewrite land_one_bit by lia.
  specialize (Hbits c ltac:(lia)).
  destruct (Z.testbit (bitmap_ w) (highest_seq_ w - c - 1)); cbn [negb].
  - split; [discriminate|]. intros [Hn _]. destruct Hn. now apply Hbits.
  - split; [|reflexivity]. intros _. split; [|lia].
    intros Hc'. apply Hbits in Hc'. discriminate.
Qed.

Lemma replay_tracks_step (w : t) (A : list Z) (d : Z) :
  replay_tracks w A -> 0 <= d < two64 - 64 ->
  replay_tracks (snd (check_and_update w d))
                (A ++ (if fst (check_and_update w d) then [d] else [])).
Proof.
  intros Hw Hd.
  pose proof (replay_tracks_check w A d Hw Hd) as Hchk.
  destruct Hw as (Hh & Hun & Hin).
  unfold check_and_update.
  destruct (check w d) eqn:Hok; cbn [negb fst snd].
  2:{ rewrite app_nil_r. exact (conj Hh (conj Hun Hin)). }
  destruct (proj1 Hchk eq_refl) as [Hnew Hnear]. clear Hchk.
  unfold update, WINDOW_SIZE.
  destruct (initialized_ w) eqn:Hi; cbn [negb].
  2:{ destruct (Hun eq_refl) as [-> _]. cbn [app].
      unfold replay_tracks. cbn [highest_seq_ bitmap_ initialized_].
      split; [lia|]. split; [discriminate|]. intros _.
      split; [now left|]. split.
      - intros a [<-|[]]. lia.
      - intros c Hc. rewrite Z.bits_0. split; [discriminate|].
        intros [<-|[]]. lia. }
  destruct (Hin eq_refl) as (Hmax & Hle & Hbits).
  destruct (Z.ltb_spec (highest_seq_ w) d) as [Hlt|Hge].
  - (* a new highest counter *)
    rewrite (wrap64_small (d - highest_seq_ w)) by lia.
    destruct (Z.leb_spec 64 (d - highest_seq_ w)) as [Hfar|Hnear'];
      unfold replay_tracks; cbn [highest_seq_ bitmap_ initialized_];
      (split; [lia|]); (split; [discriminate|]); intros _;
      (split; [apply in_or_app; right; now left|]);
      (split; [intros a Ha; apply in_app_or in Ha;
               destruct Ha as [Ha|[<-|[]]]; [apply Hle in Ha|]; lia|]).
    + intros c Hc. rewrite Z.bits_0. split; [discriminate|].
      intros Ha. apply in_app_or in Ha.
      destruct Ha as [Ha|[<-|[]]]; [apply Hle in Ha|]; lia.
    + intros c Hc.
      rewrite Z.lor_spec, testbit_shiftl_one by lia.
      rewrite testbit_wrap64_low by lia.
      rewrite Z.shiftl_spec by lia.
      destruct (Z.eqb_spec (d - c - 1) (d - highest_seq_ w - 1)) as [E|E].
      * rewrite orb_true_r. split; [|reflexivity]. intros _.
        apply in_or_app. left. replace c with (highest_seq_ w) by lia.
        exact Hmax.
      * rewrite orb_false_r.
        destruct (Z.lt_ge_cases c (highest_seq_ w)) as [Hc'|Hc'].
        -- replace (d - c - 1 - (d - highest_seq_ w))
             with (highest_seq_ w - c - 1) by lia.
           rewrite (Hbits c) by lia.
           split; [intros Ha; apply in_or_app; now left|].
           intros Ha. apply in_app_or in Ha.
           destruct Ha as [Ha|[<-|[]]]; [exact Ha | lia].
        -- rewrite Z.testbit_neg_r by lia. split; [discriminate|].
           intros Ha. apply in_app_or in Ha.
           destruct Ha as [Ha|[<-|[]]]; [apply Hle in Ha|]; lia.
  - (* a counter inside the window *)
    assert (Hne : d <> highest_seq_ w) by (intros ->; now apply Hnew).
    destruct (Z.ltb_spec d (highest_seq_ w)); [|lia].
    cbv zeta. rewrite (wrap64_small (highest_seq_ w - d - 1)) by lia.
    destruct (Z.ltb_spec (highest_seq_ w - d - 1) 64); [|lia].
    unfold replay_tracks; cbn [highest_seq_ bitmap_ initialized_].
    split; [lia|]. split; [discriminate|]. intros _.
    split; [apply in_or_app; now left|].
    split.
    + intros a Ha. apply in_app_or in Ha.
      destruct Ha as [Ha|[<-|[]]]; [now apply Hle | lia].
    + intros c Hc.
      rewrite Z.lor_spec, testbit_shiftl_one by lia.
      destruct (Z.eqb_spec (highest_seq_ w - c - 1) (highest_seq_ w - d - 1))
        as [E|E].
      * rewrite orb_true_r. split; [|reflexivity]. intros _.
        apply in_or_app. right. left. lia.
      * rewrite orb_false_r, (Hbits c) by lia.
        split; [intros Ha; apply in_or_app; now left|].
        intros Ha. apply in_app_or in Ha.
        destruct Ha as [Ha|[<-|[]]]; [exact Ha | lia].
Qed.

Lemma replay_tracks_feed (cs : list Z) (w : t) (A : list Z) :
  replay_tracks w A ->
  Forall (fun c => 0 <= c < two64 - 64) cs ->
  replay_tracks (feed w cs) (A ++ accepted w cs).
Proof.
  intros Hw Hcs. revert w A Hw.
  induction Hcs as [|d cs Hd _ IH]; intros w A Hw.
  - cbn. now rewrite app_nil_r.
  - cbn [accepted]. rewrite app_assoc. unfold feed. cbn [fold_left].
    apply IH. now apply replay_tracks_step.
Qed.

(** X1.  Counters below [2^64 - 64] pass the replay window exactly once
    while they are less than 64 behind the highest accepted one: after any
    sequence [cs] of such counters was presented to a fresh window, the
    window accepts [c] if and only if [c] was not accepted before and
    [c] is less than 64 below the highest counter seen. *)
Theorem X1_replay_window_accepts_fresh_counters_once
        (cs : list Z) (c : Z) :
  Forall (fun x => 0 <= x < two64 - 64) cs ->
  0 <= c < two64 - 64 ->
  (fst (check_and_update (feed fresh cs) c) = true <->
   (~ In c (accepted fresh cs) /\ highest_seq_ (feed fresh cs) < c + 64)).
Proof.
  intros Hcs Hc.
  pose proof (replay_tracks_feed cs fresh [] replay_tracks_fresh Hcs) as Hw.
  cbn [app] in Hw.
  rewrite <- (replay_tracks_check _ _ c Hw Hc).
  unfold check_and_update. destruct (check (feed fresh cs) c); cbn; tauto.
Qed.

(** X2.  Replay law on the whole [uint64_t] range: a counter that
    [check_and_update] accepted is refused by every later check, whatever
    counters were presented in between. *)
Theorem X2_replay_window_never_accepts_twice
        (w : t) (c : Z) (cs : list Z) :
  wf w -> is_u64 c -> Forall is_u64 cs ->
  fst (check_and_update w c) = true ->
  fst (check_and_update (feed (snd (check_and_update w c)) cs) c) = false.
Proof.
  intros Hw Hc Hcs Hacc.
  pose proof (accepted_counter_never_again w c cs Hw Hc Hcs Hacc) as H.
  unfold check_and_update at 1. now rewrite H.
Qed.

End ReplayWindowSet.

Lemma X1_witness :
  fst (ReplayWindow.check_and_update
         (ReplayWindow.feed ReplayWindow.fresh [70; 68; 70; 5]) 69) = true.
Proof.
  apply (X1_replay_window_accepts_fresh_counters_once [70; 68; 70; 5] 69).
  - repeat constructor; unfold two64; lia.
  - unfold two64; lia.
  - split.
    + vm_compute. intros [H|[H|H]]; try discriminate H. exact H.
    + vm_compute. reflexivity.
Defined.

Lemma X2_witness :
  fst (ReplayWindow.check_and_update
         (ReplayWindow.feed
            (snd (ReplayWindow.check_and_update ReplayWindow.fresh 7))
            [9; 8; 200])
         7) = false.
Proof.
  apply (X2_replay_window_never_accepts_twice ReplayWindow.fresh 7 [9; 8; 200]).
  - vm_compute. repeat split; discriminate.
  - vm_compute. split; [discriminate | reflexivity].
  - repeat constructor; vm_compute; discriminate.
  - reflexivity.
Defined.

(** ** Ack bitmap: the set of received sequences *)

Section AckBitmapSet.
Import AckBitmap.

Lemma in_below (n : nat) (i : Z) :
  In i (map Z.of_nat (seq 0 n)) <-> 0 <= i < Z.of_nat n.
Proof.
  rewrite in_map_iff. split.
  - intros (k & <- & Hk). apply in_seq in Hk. lia.
  - intros Hi. exists (Z.to_nat i). split; [lia|]. apply in_seq. lia.
Qed.

Lemma testbit_above (bm k : Z) :
  0 <= bm < two64 -> 64 <= k -> Z.testbit bm k = false.
Proof.
  intros Hbm Hk. destruct (Z.eq_dec bm 0) as [->|Hne].
  - apply Z.bits_0.
  - apply Z.bits_above_log2; [lia|].
    assert (Z.log2 bm < 64); [|lia].
    apply Z.log2_lt_pow2; [lia|]. rewrite <- two64_pow. lia.
Qed.

Lemma shiftr_u64 (bm : Z) : 0 <= bm < two64 -> 0 <= Z.shiftr bm 1 < two64.
Proof.
  intros H. rewrite Z.shiftr_div_pow2 by lia. change (2 ^ 1) with 2.
  unfold two64 in *. split.
  - apply Z.div_pos; lia.
  - apply Z.div_lt_upper_bound; lia.
Qed.

Lemma lor_bit_u64 (bm k : Z) :
  0 <= bm < two64 -> 0 <= k < 64 -> 0 <= Z.lor bm (Z.shiftl 1 k) < two64.
Proof.
  intros Hbm Hk.
  assert (H1 : 0 <= Z.shiftl 1 k).
  { rewrite Z.shiftl_1_l. apply Z.pow_nonneg. lia. }
  split; [apply Z.lor_nonneg; lia|].
  destruct (Z.eq_dec (Z.lor bm (Z.shiftl 1 k)) 0) as [->|Hne];
    [unfold two64; lia|].
  rewrite two64_pow. apply Z.log2_lt_pow2.
  - assert (0 <= Z.lor bm (Z.shiftl 1 k)) by (apply Z.lor_nonneg; lia). lia.
  - rewrite Z.log2_lor by lia. rewrite Z.log2_shiftl by lia.
    change (Z.log2 1) with 0.
    destruct (Z.eq_dec bm 0) as [->|Hbm0].
    + change (Z.log2 0) with 0. lia.
    + assert (Z.log2 bm < 64)
        by (apply Z.log2_lt_pow2; [lia | rewrite <- two64_pow; lia]).
      lia.
Qed.

(** The received set as the fields encode it. *)
Lemma is_received_bits (a : t) (c : Z) :
  initialized_ a = true -> 0 <= bitmap_ a < two64 ->
  is_u64 (ack_number_ a) -> is_u64 c ->
  is_received a c =
  (c <=? ack_number_ a) || Z.testbit (bitmap_ a) (c - ack_number_ a - 1).
Proof.
  intros Hi Hbm Ha Hc. unfold is_u64 in *. unfold is_received, BITMAP_SIZE.
  rewrite Hi. cbn [negb].
  destruct (Z.leb_spec c (ack_number_ a)); [reflexivity|]. cbn [orb].
  rewrite wrap64_small by lia.
  destruct (Z.ltb_spec (c - ack_number_ a - 1) 64).
  - rewrite land_one_bit by lia. now rewrite negb_involutive.
  - symmetry. now apply testbit_above.
Qed.

(** The absorbing loop moves the cumulative ack over set bits without
    changing the set encoded. *)
Lemma absorb_keeps_set (n : nat) :
  forall ack bm : Z,
    0 <= ack -> ack + Z.of_nat n < two64 -> 0 <= bm < two64 ->
    let r := absorb n ack bm in
    ack <= fst r <= ack + Z.of_nat n /\
    0 <= snd r < two64 /\
    forall c, (c <=? fst r) || Z.testbit (snd r) (c - fst r - 1)
              = (c <=? ack) || Z.testbit bm (c - ack - 1).
Proof.
  induction n as [|n IH]; intros ack bm Hack Hfit Hbm.
  - cbn. repeat split; lia.
  - cbn [absorb].
    destruct (Z.eqb_spec (Z.land bm 1) 0) as [E|E];
      [cbn; repeat split; lia|].
    assert (Hb0 : Z.testbit bm 0 = true).
    { change 1 with (Z.shiftl 1 0) in E.
      pose proof (land_one_bit bm 0 (Z.le_refl 0)) as H.
      destruct (Z.eqb_spec (Z.land bm (Z.shiftl 1 0)) 0); [contradiction|].
      now destruct (Z.testbit bm 0). }
    rewrite wrap64_small by lia.
    destruct (IH (ack + 1) (Z.shiftr bm 1) ltac:(lia) ltac:(lia)
                 (shiftr_u64 bm Hbm)) as (Hr & Hu & Hset).
    cbv zeta. split; [lia|]. split; [exact Hu|].
    intros c. rewrite Hset.
    destruct (Z.leb_spec c ack).
    + destruct (Z.leb_spec c (ack + 1)); [reflexivity | lia].
    + cbn [orb]. destruct (Z.leb_spec c (ack + 1)).
      * replace (c - ack - 1) with 0 by lia. now rewrite Hb0.
      * cbn [orb]. rewrite Z.shiftr_spec by lia. f_equal. lia.
Qed.

(** X3.  [mark_received] adds exactly the marked sequence to the set that
    [is_received] reports, provided it is at most 64 above the cumulative
    ack (a sequence further ahead is not tracked and the state is
    unchanged); the cumulative ack never decreases and the tracker stays
    initialized with a 64-bit bitmap. *)
Theorem X3_mark_received_adds_one_sequence (a : t) (s : Z) :
  initialized_ a = true ->
  0 <= bitmap_ a < two64 ->
  0 <= ack_number_ a -> ack_number_ a + 65 < two64 ->
  is_u64 s ->
  let a' := mark_received a s in
  initialized_ a' = true /\
  0 <= bitmap_ a' < two64 /\
  ack_number_ a <= ack_number_ a' /\
  forall c, is_u64 c ->
    is_received a' c
    = is_received a c || ((c =? s) && (s <=? ack_number_ a + 64)).
Proof.
  intros Hi Hbm Ha0 Ha1 Hs a'. unfold is_u64 in *.
  assert (Hrec : forall c, 0 <= c < two64 ->
            is_received a c =
            (c <=? ack_number_ a) || Z.testbit (bitmap_ a) (c - ack_number_ a - 1)).
  { intros c Hc. apply is_received_bits; unfold is_u64; auto; lia. }
  subst a'. unfold mark_received, BITMAP_SIZE. rewrite Hi. cbn [negb].
  destruct (Z.leb_spec s (ack_number_ a)) as [Hold|Hnew].
  { repeat split; try assumption; try lia.
    intros c Hc. destruct (Z.eqb_spec c s) as [->|]; cbn [andb].
    - rewrite (Hrec s) by lia.
      destruct (Z.leb_spec s (ack_number_ a)); [reflexivity | lia].
    - now rewrite orb_false_r. }
  rewrite (wrap64_small (ack_number_ a + 1)) by lia.
  destruct (Z.eqb_spec s (ack_number_ a + 1)) as [->|Hgap].
  - destruct (absorb_keeps_set 64 (ack_number_ a + 1)
                (Z.shiftr (bitmap_ a) 1) ltac:(lia) ltac:(simpl; lia)
                (shiftr_u64 _ Hbm)) as (Hr & Hu & Hset).
    destruct (absorb 64 (ack_number_ a + 1) (Z.shiftr (bitmap_ a) 1))
      as [ack bm] eqn:E.
    cbn [fst snd] in Hr, Hu, Hset. cbn [initialized_ bitmap_ ack_number_].
    split; [reflexivity|]. split; [exact Hu|]. split; [simpl in Hr; lia|].
    intros c Hc.
    rewrite (is_received_bits (mk ack bm true) c); unfold is_u64;
      cbn [initialized_ bitmap_ ack_number_]; auto; [|simpl in Hr; lia].
    rewrite Hset, (Hrec c Hc).
    destruct (Z.leb_spec (ack_number_ a + 1) (ack_number_ a + 64)); [|lia].
    rewrite andb_true_r.
    destruct (Z.leb_spec c (ack_number_ a)).
    + destruct (Z.leb_spec c (ack_number_ a + 1)); [reflexivity | lia].
    + cbn [orb]. destruct (Z.eqb_spec c (ack_number_ a + 1)) as [->|Hne].
      * rewrite Z.leb_refl. now rewrite orb_true_r.
      * destruct (Z.leb_spec c (ack_number_ a + 1)); [lia|]. cbn [orb].
        rewrite orb_false_r. rewrite Z.shiftr_spec by lia. f_equal. lia.
  - rewrite (wrap64_small (s - ack_number_ a - 1)) by lia.
    destruct (Z.ltb_spec (s - ack_number_ a - 1) 64) as [Hin|Hout].
    + cbn [initialized_ bitmap_ ack_number_].
      split; [reflexivity|].
      split; [apply lor_bit_u64; [assumption | lia]|].
      split; [lia|].
      intros c Hc.
      rewrite (is_received_bits (mk _ _ true) c); unfold is_u64;
        cbn [initialized_ bitmap_ ack_number_]; auto;
        [| apply lor_bit_u64; [assumption | lia] | lia].
      rewrite (Hrec c Hc).
      destruct (Z.leb_spec s (ack_number_ a + 64)); [|lia].
      rewrite andb_true_r.
      destruct (Z.leb_spec c (ack_number_ a)); [reflexivity|]. cbn [orb].
      rewrite Z.lor_spec, testbit_shiftl_one by lia. f_equal.
      destruct (Z.eqb_spec (c - ack_number_ a - 1) (s - ack_number_ a - 1)),
               (Z.eqb_spec c s); try reflexivity; lia.
    + split; [assumption|]. split; [assumption|]. split; [lia|].
      intros c Hc.
      destruct (Z.leb_spec s (ack_number_ a + 64)); [lia|].
      now rewrite andb_false_r, orb_false_r.
Qed.

(** X4.  The SACK pair that a tracker reports decodes to what it tracked:
    [process_ack] applied to [get_ack_number()] and [get_bitmap()] lists
    exactly the sequences from 1 on that [is_received] reports. *)
Theorem X4_process_ack_lists_the_received_set (a : t) :
  initialized_ a = true ->
  0 <= bitmap_ a < two64 ->
  0 <= ack_number_ a -> ack_number_ a + 65 < two64 ->
  exists acked,
    process_ack (get_ack_number a) (get_bitmap a) = Some acked /\
    forall c, is_u64 c ->
      (In c acked <-> (1 <= c /\ is_received a c = true)).
Proof.
  intros Hi Hbm Ha0 Ha1. unfold process_ack, get_ack_number, get_bitmap.
  destruct (Z.eqb_spec (ack_number_ a) (two64 - 1)); [lia|].
  eexists. split; [reflexivity|].
  intros c Hc. rewrite (is_received_bits a c Hi Hbm); [|unfold is_u64; lia|exact Hc].
  unfold is_u64 in Hc.
  rewrite in_app_iff, !in_map_iff. split.
  - intros [(k & <- & Hk)|(i & <- & Hi')].
    + apply in_seq in Hk. split; [lia|].
      destruct (Z.leb_spec (Z.of_nat k) (ack_number_ a)); [reflexivity | lia].
    + apply filter_In in Hi'. destruct Hi' as [Hr Hbit].
      apply in_below in Hr. change (Z.of_nat 64) with 64 in Hr.
      rewrite wrap64_small by lia. split; [lia|].
      rewrite land_one_bit, negb_involutive in Hbit by lia.
      replace (ack_number_ a + 1 + i - ack_number_ a - 1) with i by lia.
      rewrite Hbit. apply orb_true_r.
  - intros [H1 Hrec].
    destruct (Z.leb_spec c (ack_number_ a)).
    + left. exists (Z.to_nat c). split; [lia|]. apply in_seq. lia.
    + cbn [orb] in Hrec. right. exists (c - ack_number_ a - 1).
      assert (Hlt : c - ack_number_ a - 1 < 64).
      { destruct (Z.lt_ge_cases (c - ack_number_ a - 1) 64); [assumption|].
        rewrite testbit_above in Hrec by (assumption || lia). discriminate. }
      split; [rewrite wrap64_small; lia|].
      apply filter_In. split.
      * apply in_below. change (Z.of_nat 64) with 64. lia.
      * rewrite land_one_bit, negb_involutive by lia. exact Hrec.
Qed.

End AckBitmapSet.

Lemma X3_witness :
  AckBitmap.is_received
    (AckBitmap.mark_received
       (AckBitmap.mark_all AckBitmap.fresh [1; 2; 4; 5; 7]) 3) 5 = true.
Proof.
  destruct (X3_mark_received_adds_one_sequence
              (AckBitmap.mark_all AckBitmap.fresh [1; 2; 4; 5; 7]) 3)
    as (_ & _ & _ & H).
  - reflexivity.
  - vm_compute. split; [discriminate | reflexivity].
  - vm_compute. discriminate.
  - vm_compute. reflexivity.
  - vm_compute. split; [discriminate | reflexivity].
  - rewrite H; [reflexivity|]. vm_compute. split; [discriminate | reflexivity].
Defined.

Lemma X4_witness :
  exists acked,
    AckBitmap.process_ack 2 22 = Some acked /\ In 7 acked.
Proof.
  destruct (X4_process_ack_lists_the_received_set
              (AckBitmap.mark_all AckBitmap.fresh [1; 2; 4; 5; 7]))
    as (acked & Hp & H).
  - reflexivity.
  - vm_compute. split; [discriminate | reflexivity].
  - vm_compute. discriminate.
  - vm_compute. reflexivity.
  - exists acked. split; [exact Hp|].
    apply H; [vm_compute; split; [discriminate | reflexivity]|].
    split; [lia | reflexivity].
Defined.

(** ** Ordered map: keys and entries *)

Section OrdMapKeys.
Context {V : Type}.

Lemma keys_insert_in (k : Z) (v : V) (m : OrdMap.t V) (k' : Z) :
  In k' (OrdMap.keys (OrdMap.insert k v m))
  <-> k' = k \/ In k' (OrdMap.keys m).
Proof.
  unfold OrdMap.keys. induction m as [|[k0 v0] m IH]; simpl.
  - intuition lia.
  - destruct (Z.ltb_spec k k0); simpl; [intuition lia|].
    destruct (Z.eqb_spec k k0); simpl; [intuition lia|].
    rewrite IH. intuition lia.
Qed.

Lemma entries_insert_in (k : Z) (v : V) (m : OrdMap.t V) (e : Z * V) :
  In e (OrdMap.insert k v m) -> e = (k, v) \/ In e m.
Proof.
  induction m as [|[k0 v0] m IH]; simpl.
  - intuition.
  - destruct (k <? k0); simpl; [intuition|].
    destruct (k =? k0); simpl; intuition.
Qed.

Lemma entries_erase_in (k : Z) (m : OrdMap.t V) (e : Z * V) :
  In e (OrdMap.erase k m) -> In e m.
Proof.
  induction m as [|[k0 v0] m IH]; simpl; [auto|].
  destruct (k0 =? k); simpl; intuition.
Qed.

Lemma keys_erase_incl (k : Z) (m : OrdMap.t V) (k' : Z) :
  In k' (OrdMap.keys (OrdMap.erase k m)) -> In k' (OrdMap.keys m).
Proof.
  unfold OrdMap.keys. rewrite !in_map_iff.
  intros (e & He & Hin). exists e. split; [exact He|].
  now apply entries_erase_in in Hin.
Qed.

Lemma keys_insert_sorted (k : Z) (v : V) (m : OrdMap.t V) :
  StronglySorted Z.lt (OrdMap.keys m) ->
  StronglySorted Z.lt (OrdMap.keys (OrdMap.insert k v m)).
Proof.
  induction m as [|[k0 v0] m IH]; intros Hs.
  - simpl. repeat constructor.
  - change (OrdMap.keys ((k0, v0) :: m)) with (k0 :: OrdMap.keys m) in Hs.
    apply StronglySorted_inv in Hs. destruct Hs as [Hs Hall].
    cbn [OrdMap.insert].
    destruct (Z.ltb_spec k k0).
    + change (StronglySorted Z.lt (k :: k0 :: OrdMap.keys m)).
      constructor; [now constructor|].
      constructor; [assumption|].
      eapply Forall_impl; [|exact Hall]. cbv beta. intros; lia.
    + destruct (Z.eqb_spec k k0) as [->|Hne].
      * change (StronglySorted Z.lt (k0 :: OrdMap.keys m)).
        now constructor.
      * change (StronglySorted Z.lt
                  (k0 :: OrdMap.keys (OrdMap.insert k v m))).
        constructor; [now apply IH|].
        apply Forall_forall. intros x Hx.
        apply keys_insert_in in Hx. destruct Hx as [->|Hx]; [lia|].
        rewrite Forall_forall in Hall. now apply Hall.
Qed.

Lemma keys_erase_sorted (k : Z) (m : OrdMap.t V) :
  StronglySorted Z.lt (OrdMap.keys m) ->
  StronglySorted Z.lt (OrdMap.keys (OrdMap.erase k m)).
Proof.
  induction m as [|[k0 v0] m IH]; intros Hs; [exact Hs|].
  change (OrdMap.keys ((k0, v0) :: m)) with (k0 :: OrdMap.keys m) in Hs.
  apply StronglySorted_inv in Hs. destruct Hs as [Hs Hall].
  cbn [OrdMap.erase]. destruct (k0 =? k); [exact Hs|].
  change (StronglySorted Z.lt (k0 :: OrdMap.keys (OrdMap.erase k m))).
  constructor; [now apply IH|].
  apply Forall_forall. intros x Hx. apply keys_erase_incl in Hx.
  rewrite Forall_forall in Hall. now apply Hall.
Qed.

Lemma keys_erase_other (k : Z) (m : OrdMap.t V) (k' : Z) :
  StronglySorted Z.lt (OrdMap.keys m) ->
  In k' (OrdMap.keys (OrdMap.erase k m)) -> k' <> k.
Proof.
  induction m as [|[k0 v0] m IH]; intros Hs Hin; [destruct Hin|].
  change (OrdMap.keys ((k0, v0) :: m)) with (k0 :: OrdMap.keys m) in Hs.
  apply StronglySorted_inv in Hs. destruct Hs as [Hs Hall].
  rewrite Forall_forall in Hall.
  cbn [OrdMap.erase] in Hin. destruct (Z.eqb_spec k0 k) as [->|Hne].
  - apply Hall in Hin. lia.
  - destruct Hin as [<-|Hin]; [assumption|]. now apply IH.
Qed.

Lemma find_some_entry (k : Z) (m : OrdMap.t V) (v : V) :
  OrdMap.find k m = Some v -> In (k, v) m.
Proof.
  induction m as [|[k0 v0] m IH]; simpl; [discriminate|].
  destruct (Z.eqb_spec k0 k) as [->|].
  - intros E. injection E as ->. now left.
  - intros E. right. now apply IH.
Qed.

Lemma find_some_key (k : Z) (m : OrdMap.t V) (v : V) :
  OrdMap.find k m = Some v -> In k (OrdMap.keys m).
Proof.
  intros E. apply find_some_entry in E.
  unfold OrdMap.keys. apply in_map_iff. now exists (k, v).
Qed.

Lemma find_none_key (k : Z) (m : OrdMap.t V) :
  OrdMap.find k m = None -> ~ In k (OrdMap.keys m).
Proof.
  induction m as [|[k0 v0] m IH]; simpl; [tauto|].
  destruct (Z.eqb_spec k0 k); [discriminate|].
  intros E [H|H]; [contradiction | now apply IH].
Qed.

Lemma length_erase_found (k : Z) (m : OrdMap.t V) (v : V) :
  OrdMap.find k m = Some v ->
  S (length (OrdMap.erase k m)) = length m.
Proof.
  induction m as [|[k0 v0] m IH]; simpl; [discriminate|].
  destruct (k0 =? k); [reflexivity|].
  intros E. simpl. now rewrite IH.
Qed.

Lemma length_insert_new (k : Z) (v : V) (m : OrdMap.t V) :
  OrdMap.find k m = None ->
  length (OrdMap.insert k v m) = S (length m).
Proof.
  induction m as [|[k0 v0] m IH]; simpl; [reflexivity|].
  destruct (Z.eqb_spec k0 k) as [->|Hne]; [discriminate|].
  intros E. destruct (k <? k0); [reflexivity|].
  destruct (Z.eqb_spec k k0); [lia|]. simpl. now rewrite IH.
Qed.

End OrdMapKeys.

Lemma sorted_app (l1 l2 : list Z) :
  StronglySorted Z.lt l1 -> StronglySorted Z.lt l2 ->
  (forall x y, In x l1 -> In y l2 -> x < y) ->
  StronglySorted Z.lt (l1 ++ l2).
Proof.
  induction l1 as [|a l1 IH]; intros H1 H2 H; [exact H2|].
  apply StronglySorted_inv in H1. destruct H1 as [H1 Ha].
  simpl. constructor.
  - apply IH; auto. intros x y Hx Hy. apply H; [now right | exact Hy].
  - apply Forall_app. split; [exact Ha|].
    apply Forall_forall. intros y Hy. apply H; [now left | exact Hy].
Qed.

(** ** Reorder buffer: delivery order *)

Section ReorderOrder.
Import ReorderBuffer.

Lemma span_nil (lo hi : Z) : lo <= hi -> reorder_span lo hi [].
Proof. intros H. repeat split; [exact H | constructor | constructor]. Qed.

Lemma span_app (lo mid hi : Z) (c1 c2 : list Delivery) :
  reorder_span lo mid c1 -> reorder_span mid hi c2 ->
  reorder_span lo hi (c1 ++ c2).
Proof.
  intros (H1 & S1 & F1) (H2 & S2 & F2). rewrite Forall_forall in F1, F2.
  split; [lia|]. rewrite map_app. split.
  - apply sorted_app; auto. intros x y Hx Hy.
    apply F1 in Hx. apply F2 in Hy. lia.
  - apply Forall_app. split; apply Forall_forall; intros x Hx;
      [apply F1 in Hx | apply F2 in Hx]; lia.
Qed.

Lemma span_from_below (lo lo' hi : Z) (c : list Delivery) :
  lo' <= lo -> reorder_span lo hi c -> reorder_span lo' hi c.
Proof.
  intros H (H1 & S1 & F1). split; [lia|]. split; [exact S1|].
  eapply Forall_impl; [|exact F1]. cbv beta. intros; lia.
Qed.

Lemma span_hand_over (b : t) (s : Z) (p : BufferedPacket) :
  reorder_span s (s + 1) (fst (hand_over b s p)).
Proof.
  unfold hand_over. destruct (callback_ b); cbn [fst].
  - split; [lia|]. cbn [map fst]. split; repeat constructor; lia.
  - apply span_nil. lia.
Qed.

Lemma hand_over_offered (b : t) (s : Z) (p : BufferedPacket) :
  incl (fst (hand_over b s p)) [(s, data p)].
Proof.
  unfold hand_over. destruct (callback_ b); cbn [fst];
    [apply incl_refl | apply incl_nil_l].
Qed.

(** The loop of [deliver]: ascending calls from [next_expected_] on, each
    handing over an entry of the buffer. *)
Lemma deliver_loop_ordered (fuel : nat) :
  forall b, reorder_ordered b ->
    let r := deliver_loop fuel b in
    reorder_ordered (fst (fst r)) /\
    reorder_span (next_expected_ b) (next_expected_ (fst (fst r)))
                 (snd (fst r)) /\
    incl (snd (fst r)) (calls_of (buffer_ b)) /\
    incl (buffer_ (fst (fst r))) (buffer_ b).
Proof.
  induction fuel as [|fuel IH]; intros b Hb.
  - cbn. split; [exact Hb|]. split; [apply span_nil; lia|].
    split; [apply incl_nil_l | apply incl_refl].
  - cbn [deliver_loop].
    destruct (OrdMap.find (next_expected_ b) (buffer_ b)) as [p|] eqn:E.
    2:{ cbn. split; [exact Hb|]. split; [apply span_nil; lia|].
        split; [apply incl_nil_l | apply incl_refl]. }
    destruct Hb as (Hs & Hne & Hall).
    pose proof (find_some_key _ _ _ E) as Hk.
    pose proof Hall as Hall'. rewrite Forall_forall in Hall'.
    pose proof (Hall' _ Hk) as Hkb.
    unfold deliver_one.
    pose proof (span_hand_over b (next_expected_ b) p) as Hsp.
    pose proof (hand_over_offered b (next_expected_ b) p) as Hof.
    destruct (hand_over b (next_expected_ b) p) as [calls rest].
    cbn [fst] in Hsp, Hof.
    match goal with
    | |- context [deliver_loop fuel ?x] => set (b1 := x)
    end.
    assert (Hb1 : reorder_ordered b1).
    { unfold reorder_ordered, b1. cbn [buffer_ next_expected_].
      rewrite wrap64_small by lia.
      split; [now apply keys_erase_sorted|]. split; [lia|].
      apply Forall_forall. intros k Hin.
      pose proof (keys_erase_other _ _ _ Hs Hin).
      apply keys_erase_incl in Hin. apply Hall' in Hin. lia. }
    specialize (IH b1 Hb1). cbv zeta in IH.
    destruct (deliver_loop fuel b1) as [[b2 calls'] n].
    cbn [fst snd] in IH |- *.
    destruct IH as (Hb2 & Hsp2 & Hin2 & Hbuf2).
    assert (Hne1 : next_expected_ b1 = next_expected_ b + 1).
    { unfold b1. cbn [next_expected_]. apply wrap64_small. lia. }
    rewrite Hne1 in Hsp2.
    split; [exact Hb2|]. split; [eapply span_app; eassumption|].
    split.
    + apply incl_app.
      * intros x Hx. apply Hof in Hx. destruct Hx as [<-|[]].
        unfold calls_of. apply in_map_iff.
        exists (next_expected_ b, p). split; [reflexivity|].
        now apply find_some_entry.
      * intros x Hx. apply Hin2 in Hx. unfold calls_of in *.
        apply in_map_iff in Hx. destruct Hx as (e & He & Hin).
        apply in_map_iff. exists e. split; [exact He|].
        unfold b1 in Hin. cbn [buffer_] in Hin.
        now apply entries_erase_in in Hin.
    + intros e He. apply Hbuf2 in He. unfold b1 in He. cbn [buffer_] in He.
      now apply entries_erase_in in He.
Qed.

Lemma deliver_ordered (b : t) :
  reorder_ordered b ->
  let r := deliver b in
  reorder_ordered (fst (fst r)) /\
  reorder_span (next_expected_ b) (next_expected_ (fst (fst r)))
               (snd (fst r)) /\
  incl (snd (fst r)) (calls_of (buffer_ b)) /\
  incl (buffer_ (fst (fst r))) (buffer_ b).
Proof. apply deliver_loop_ordered. Qed.

Lemma flush_loop_ordered (fuel : nat) (now : Z) :
  forall b, reorder_ordered b ->
    let r := flush_loop fuel now b in
    reorder_ordered (fst (fst r)) /\
    reorder_span (next_expected_ b) (next_expected_ (fst (fst r)))
                 (snd (fst r)) /\
    incl (snd (fst r)) (calls_of (buffer_ b)) /\
    incl (buffer_ (fst (fst r))) (buffer_ b).
Proof.
  induction fuel as [|fuel IH]; intros b Hb.
  - cbn. split; [exact Hb|]. split; [apply span_nil; lia|].
    split; [apply incl_nil_l | apply incl_refl].
  - cbn [flush_loop].
    destruct (buffer_ b) as [|[s p] m] eqn:E.
    { cbn. split; [exact Hb|]. split; [apply span_nil; lia|].
      split; [apply incl_nil_l | rewrite E; apply incl_refl]. }
    cbn [OrdMap.first].
    destruct (wrap64 (now - timestamp_ms p) <? max_delay_ms (config_ b)).
    { cbn. split; [exact Hb|]. split; [apply span_nil; lia|].
      split; [apply incl_nil_l | rewrite E; apply incl_refl]. }
    destruct Hb as (Hs & Hne & Hall). rewrite E in Hs, Hall.
    change (OrdMap.keys ((s, p) :: m)) with (s :: OrdMap.keys m) in Hs, Hall.
    apply StronglySorted_inv in Hs. destruct Hs as [Hs Hgt].
    apply Forall_cons_iff in Hall. destruct Hall as [Hsb Hall].
    unfold flush_one.
    pose proof (span_hand_over b s p) as Hsp.
    pose proof (hand_over_offered b s p) as Hof.
    destruct (hand_over b s p) as [calls rest]. cbn [fst] in Hsp, Hof.
    rewrite E. cbn [OrdMap.erase]. rewrite Z.eqb_refl.
    match goal with
    | |- context [deliver ?x] => set (b1 := x)
    end.
    assert (Hb1 : reorder_ordered b1).
    { unfold reorder_ordered, b1. cbn [buffer_ next_expected_].
      rewrite wrap64_small by lia.
      split; [exact Hs|]. split; [lia|].
      rewrite Forall_forall in Hgt, Hall |- *. intros k Hin.
      pose proof (Hgt _ Hin). pose proof (Hall _ Hin). lia. }
    assert (Hne1 : next_expected_ b1 = s + 1).
    { unfold b1. cbn [next_expected_]. apply wrap64_small. lia. }
    pose proof (deliver_ordered b1 Hb1) as Hd. cbv zeta in Hd.
    destruct (deliver b1) as [[b2 calls2] n2]. cbn [fst snd] in Hd.
    destruct Hd as (Hb2 & Hsp2 & Hin2 & Hbuf2).
    specialize (IH b2 Hb2). cbv zeta in IH.
    destruct (flush_loop fuel now b2) as [[b3 calls3] n3].
    cbn [fst snd] in IH |- *.
    destruct IH as (Hb3 & Hsp3 & Hin3 & Hbuf3).
    rewrite Hne1 in Hsp2.
    assert (Hm : incl m ((s, p) :: m)) by (intros x Hx; now right).
    unfold b1 in Hin2, Hbuf2. cbn [buffer_] in Hin2, Hbuf2.
    split; [exact Hb3|]. split.
    + apply (span_from_below s); [lia|].
      apply (span_app _ (s + 1)); [exact Hsp|].
      eapply span_app; eassumption.
    + split.
      * apply incl_app; [|apply incl_app].
        -- intros x Hx. apply Hof in Hx. destruct Hx as [<-|[]]. now left.
        -- intros x Hx. apply Hin2 in Hx. unfold calls_of in *.
           apply in_map_iff in Hx. destruct Hx as (e & He & Hin).
           apply in_map_iff. exists e. split; [exact He | now right].
        -- intros x Hx. apply Hin3 in Hx. unfold calls_of in *.
           apply in_map_iff in Hx. destruct Hx as (e & He & Hin).
           apply in_map_iff. exists e. split; [exact He|].
           right. now apply Hbuf2.
      * intros e He. right. apply Hbuf2. now apply Hbuf3.
Qed.

Lemma flush_ordered (b : t) (now : Z) :
  reorder_ordered b ->
  let r := flush b now in
  reorder_ordered (fst (fst r)) /\
  reorder_span (next_expected_ b) (next_expected_ (fst (fst r)))
               (snd (fst r)) /\
  incl (snd (fst r)) (calls_of (buffer_ b)) /\
  incl (buffer_ (fst (fst r))) (buffer_ b).
Proof.
  intros Hb. unfold flush.
  pose proof (deliver_ordered b Hb) as Hd. cbv zeta in Hd.
  destruct (deliver b) as [[b1 calls1] n1]. cbn [fst snd] in Hd.
  destruct Hd as (Hb1 & Hsp1 & Hin1 & Hbuf1).
  pose proof (flush_loop_ordered (length (buffer_ b1)) now b1 Hb1) as Hf.
  cbv zeta in Hf.
  destruct (flush_loop (length (buffer_ b1)) now b1) as [[b2 calls2] n2].
  cbn [fst snd] in Hf |- *.
  destruct Hf as (Hb2 & Hsp2 & Hin2 & Hbuf2).
  split; [exact Hb2|]. split; [eapply span_app; eassumption|].
  split.
  - apply incl_app; [exact Hin1|].
    intros x Hx. apply Hin2 in Hx. unfold calls_of in *.
    apply in_map_iff in Hx. destruct Hx as (e & He & Hin).
    apply in_map_iff. exists e. split; [exact He | now apply Hbuf1].
  - intros e He. apply Hbuf1. now apply Hbuf2.
Qed.

Lemma insert_ordered (b : t) (s : Z) (payload : bytes) (ts : Z) :
  reorder_ordered b -> 0 <= s < two64 - 1 ->
  reorder_ordered (snd (insert b s payload ts)) /\
  next_expected_ (snd (insert b s payload ts)) = next_expected_ b /\
  incl (calls_of (buffer_ (snd (insert b s payload ts))))
       ((s, payload) :: calls_of (buffer_ b)).
Proof.
  intros Hb Hs. unfold insert.
  destruct (Z.ltb_spec s (next_expected_ b)); cbn [orb].
  { split; [exact Hb|]. split; [reflexivity|]. now apply incl_tl, incl_refl. }
  repeat match goal with
         | |- context [if ?c then (false, b) else _] => destruct c
         end;
    try (split; [exact Hb|]; split; [reflexivity|];
         now apply incl_tl, incl_refl).
  unfold reorder_ordered in *. cbn [snd buffer_ next_expected_].
  destruct Hb as (Hsort & Hne & Hall).
  split; [|split; [reflexivity|]].
  - split; [now apply keys_insert_sorted|]. split; [exact Hne|].
    apply Forall_forall. intros k Hk. apply keys_insert_in in Hk.
    destruct Hk as [->|Hk]; [lia|].
    rewrite Forall_forall in Hall. now apply Hall.
  - intros x Hx. unfold calls_of in Hx. apply in_map_iff in Hx.
    destruct Hx as (e & <- & Hin). apply entries_insert_in in Hin.
    destruct Hin as [->|Hin]; [now left|].
    right. unfold calls_of. apply in_map_iff. now exists e.
Qed.

(** One call of the interface. *)
Lemma step_ordered (b : t) (c : Call) :
  reorder_ordered b -> reorder_call_ok c ->
  reorder_ordered (step b c) /\
  reorder_span (next_expected_ b) (next_expected_ (step b c))
               (calls_made b c) /\
  incl (calls_made b c) (calls_of (buffer_ b)) /\
  incl (calls_of (buffer_ (step b c))) (offered [c] ++ calls_of (buffer_ b)).
Proof.
  intros Hb Hc. destruct c as [s payload ts| |now];
    cbn [step calls_made offered app].
  - destruct (insert_ordered b s payload ts Hb Hc) as (H1 & H2 & H3).
    split; [exact H1|]. rewrite H2.
    split; [apply span_nil; lia|]. split; [apply incl_nil_l | exact H3].
  - destruct (deliver_ordered b Hb) as (H1 & H2 & H3 & H4).
    split; [exact H1|]. split; [exact H2|]. split; [exact H3|].
    intros x Hx. unfold calls_of in *. apply in_map_iff in Hx.
    destruct Hx as (e & He & Hin). apply in_map_iff. exists e.
    split; [exact He | now apply H4].
  - destruct (flush_ordered b now Hb) as (H1 & H2 & H3 & H4).
    split; [exact H1|]. split; [exact H2|]. split; [exact H3|].
    intros x Hx. unfold calls_of in *. apply in_map_iff in Hx.
    destruct Hx as (e & He & Hin). apply in_map_iff. exists e.
    split; [exact He | now apply H4].
Qed.

Lemma offered_app (c : Call) (cs : list Call) :
  offered (c :: cs) = offered [c] ++ offered cs.
Proof. destruct c; reflexivity. Qed.

Lemma run_ordered (cs : list Call) :
  forall b, reorder_ordered b -> Forall reorder_call_ok cs ->
    reorder_span (next_expected_ b) (next_expected_ (run b cs)) (log b cs) /\
    incl (log b cs) (calls_of (buffer_ b) ++ offered cs).
Proof.
  induction cs as [|c cs IH]; intros b Hb Hcs.
  - cbn. split; [apply span_nil; lia | apply incl_nil_l].
  - apply Forall_cons_iff in Hcs. destruct Hcs as [Hc Hcs].
    destruct (step_ordered b c Hb Hc) as (Hb1 & Hsp & Hin & Hbuf).
    destruct (IH (step b c) Hb1 Hcs) as [Hsp' Hin'].
    cbn [log run fold_left]. split; [eapply span_app; eassumption|].
    rewrite offered_app.
    apply incl_app.
    + intros x Hx. apply in_or_app. left. now apply Hin.
    + intros x Hx. apply Hin' in Hx. apply in_app_or in Hx.
      destruct Hx as [Hx|Hx].
      * apply Hbuf in Hx. apply in_app_or in Hx.
        destruct Hx as [Hx|Hx]; apply in_or_app;
          [right; apply in_or_app; now left | now left].
      * apply in_or_app. right. apply in_or_app. now right.
Qed.

(** X5.  In-order, at-most-once delivery.  Whatever [insert], [deliver]
    and [flush] calls are made on a new buffer with a deliver callback
    (sequence numbers below [2^64 - 1]), the sequence numbers handed to the
    callback are strictly ascending over the whole run, start at 1 or
    above and stay below the final [next_expected_]; and every call hands
    over a sequence number with the payload that an [insert] call gave
    for it. *)
Theorem X5_reorder_buffer_delivers_ascending
        (cfg : ReorderBufferConfig) (cs : list Call) :
  Forall reorder_call_ok cs ->
  let b0 := set_deliver_callback (create cfg) in
  StronglySorted Z.lt (map fst (log b0 cs)) /\
  Forall (fun s => 1 <= s < next_expected_ (run b0 cs)) (map fst (log b0 cs)) /\
  incl (log b0 cs) (offered cs).
Proof.
  intros Hcs b0.
  assert (Hb0 : reorder_ordered b0).
  { unfold reorder_ordered, b0. cbn. repeat split; try constructor.
    unfold two64. lia. }
  destruct (run_ordered cs b0 Hb0 Hcs) as [(_ & Hs & Hf) Hin].
  split; [exact Hs|]. split; [exact Hf | exact Hin].
Qed.

End ReorderOrder.

Lemma X5_witness :
  let cs :=
    [ReorderBuffer.CInsert 3 [30] 0; ReorderBuffer.CInsert 1 [10] 5;
     ReorderBuffer.CDeliver; ReorderBuffer.CInsert 1 [11] 6;
     ReorderBuffer.CInsert 5 [50] 7; ReorderBuffer.CFlush 2000;
     ReorderBuffer.CInsert 4 [40] 2001; ReorderBuffer.CFlush 5000] in
  let l :=
    ReorderBuffer.log
      (ReorderBuffer.set_deliver_callback
         (ReorderBuffer.create ReorderBuffer.default_config)) cs in
  l = [(1, [10]); (3, [30]); (5, [50])] /\
  StronglySorted Z.lt (map fst l) /\
  incl l (ReorderBuffer.offered cs).
Proof.
  intros cs l.
  destruct (X5_reorder_buffer_delivers_ascending
              ReorderBuffer.default_config cs) as (Hs & _ & Hin).
  - repeat constructor; unfold two64; lia.
  - split; [reflexivity|]. split; [exact Hs | exact Hin].
Defined.

(** ** Reorder buffer: limits, byte counter, loop results *)

Section ReorderBounds.
Import ReorderBuffer.

Lemma held_nonneg (m : OrdMap.t BufferedPacket) : 0 <= held m.
Proof.
  induction m as [|[k v] m IH]; simpl; [lia|].
  pose proof (size_nonneg (data v)). lia.
Qed.

Lemma size_erase_le (k : Z) (m : OrdMap.t BufferedPacket) :
  size (OrdMap.erase k m) <= size m.
Proof. unfold size. pose proof (length_erase_le k m). lia. Qed.

Lemma hand_over_rest (b : t) (s : Z) (p : BufferedPacket) :
  0 <= size (snd (hand_over b s p)) <= size (data p).
Proof.
  unfold hand_over. pose proof (size_nonneg (data p)).
  destruct (callback_ b); cbn [snd]; [change (size (@nil Z)) with 0|]; lia.
Qed.

Lemma deliver_loop_within (fuel : nat) :
  forall b, reorder_within b ->
    max_buffered_bytes (config_ b) < two64 ->
    reorder_within (fst (fst (deliver_loop fuel b))) /\
    config_ (fst (fst (deliver_loop fuel b))) = config_ b.
Proof.
  induction fuel as [|fuel IH]; intros b Hb Hmax; [now split|].
  cbn [deliver_loop].
  destruct (OrdMap.find (next_expected_ b) (buffer_ b)) as [p|] eqn:E;
    [|now split].
  unfold deliver_one.
  pose proof (hand_over_rest b (next_expected_ b) p) as Hr.
  destruct (hand_over b (next_expected_ b) p) as [calls rest].
  cbn [snd] in Hr.
  match goal with
  | |- context [deliver_loop fuel ?x] => set (b1 := x)
  end.
  assert (Hb1 : reorder_within b1).
  { destruct Hb as (Hn & Hh & Hc). unfold reorder_within, held_bytes in *.
    unfold b1. cbn [buffer_ config_ buffered_bytes_].
    pose proof (size_erase_le (next_expected_ b) (buffer_ b)).
    rewrite (held_erase _ p) by assumption.
    pose proof (held_nonneg (OrdMap.erase (next_expected_ b) (buffer_ b)))
      as H0.
    rewrite (held_erase _ p) in H0 by assumption.
    rewrite wrap64_small by lia. lia. }
  destruct (IH b1 Hb1 Hmax) as [H1 H2].
  destruct (deliver_loop fuel b1) as [[b2 c2] n2]. cbn [fst] in *.
  split; [exact H1 | exact H2].
Qed.

Lemma flush_loop_within (fuel : nat) (now : Z) :
  forall b, reorder_within b ->
    max_buffered_bytes (config_ b) < two64 ->
    reorder_within (fst (fst (flush_loop fuel now b))) /\
    config_ (fst (fst (flush_loop fuel now b))) = config_ b.
Proof.
  induction fuel as [|fuel IH]; intros b Hb Hmax; [now split|].
  cbn [flush_loop].
  destruct (buffer_ b) as [|[s p] m] eqn:E; [now split|].
  cbn [OrdMap.first].
  destruct (wrap64 (now - timestamp_ms p) <? max_delay_ms (config_ b));
    [now split|].
  unfold flush_one.
  pose proof (hand_over_rest b s p) as Hr.
  destruct (hand_over b s p) as [calls rest]. cbn [snd] in Hr.
  rewrite E. cbn [OrdMap.erase]. rewrite Z.eqb_refl.
  match goal with
  | |- context [deliver ?x] => set (b1 := x)
  end.
  assert (Hb1 : reorder_within b1).
  { destruct Hb as (Hn & Hh & Hc). unfold reorder_within, held_bytes in *.
    unfold b1. cbn [buffer_ config_ buffered_bytes_].
    rewrite E in Hn, Hh. rewrite size_cons in Hn. cbn [held fold_right] in Hh.
    cbn [snd] in Hh. fold (held m) in Hh.
    pose proof (held_nonneg m). pose proof (size_nonneg m).
    rewrite wrap64_small by lia. lia. }
  destruct (deliver_loop_within (length (buffer_ b1)) b1 Hb1 Hmax)
    as [H1 H2].
  unfold deliver.
  destruct (deliver_loop (length (buffer_ b1)) b1) as [[b2 c2] n2].
  cbn [fst] in H1, H2.
  assert (Hc2 : config_ b2 = config_ b) by (rewrite H2; reflexivity).
  destruct (IH b2 H1 ltac:(rewrite Hc2; exact Hmax)) as [H3 H4].
  destruct (flush_loop fuel now b2) as [[b3 c3] n3]. cbn [fst] in *.
  split; [exact H3 | congruence].
Qed.

Lemma step_within (b : t) (c : Call) :
  reorder_within b ->
  0 <= max_buffered_bytes (config_ b) < two64 ->
  reorder_call_fits (config_ b) c ->
  reorder_within (step b c) /\ config_ (step b c) = config_ b.
Proof.
  intros Hb Hmax Hc. destruct c as [s payload ts| |now]; cbn [step].
  - unfold insert.
    repeat match goal with
           | |- context [if ?c then (false, b) else _] =>
               let E := fresh "E" in destruct c eqn:E
           end; try (split; [exact Hb | reflexivity]).
    cbn [snd]. split; [|reflexivity].
    destruct Hb as (Hn & Hh & Hcnt). cbn [reorder_call_fits] in Hc.
    pose proof (size_nonneg payload). pose proof (held_nonneg (buffer_ b)).
    unfold reorder_within, held_bytes in *.
    cbn [buffer_ config_ buffered_bytes_].
    apply orb_false_iff in E. destruct E as [_ E].
    unfold OrdMap.count in E.
    destruct (OrdMap.find s (buffer_ b)) eqn:Ef; [discriminate|].
    unfold size at 1. rewrite length_insert_new by assumption.
    rewrite held_insert by assumption. cbn [data].
    apply Z.leb_gt in E0. apply Z.ltb_ge in E1.
    rewrite wrap64_small in * by lia.
    unfold size in *. lia.
  - apply deliver_loop_within; [exact Hb | lia].
  - unfold flush.
    destruct (deliver_loop_within (length (buffer_ b)) b Hb ltac:(lia))
      as [H1 H2].
    unfold deliver.
    destruct (deliver_loop (length (buffer_ b)) b) as [[b1 c1] n1].
    cbn [fst] in H1, H2.
    destruct (flush_loop_within (length (buffer_ b1)) now b1 H1
                ltac:(rewrite H2; lia)) as [H3 H4].
    destruct (flush_loop (length (buffer_ b1)) now b1) as [[b2 c2] n2].
    cbn [fst] in *. split; [exact H3 | congruence].
Qed.

Lemma run_within (cs : list Call) :
  forall b, reorder_within b ->
    0 <= max_buffered_bytes (config_ b) < two64 ->
    Forall (reorder_call_fits (config_ b)) cs ->
    reorder_within (run b cs) /\ config_ (run b cs) = config_ b.
Proof.
  induction cs as [|c cs IH]; intros b Hb Hmax Hcs; [now split|].
  apply Forall_cons_iff in Hcs. destruct Hcs as [Hc Hcs].
  destruct (step_within b c Hb Hmax Hc) as [H1 H2].
  cbn [run fold_left].
  destruct (IH (step b c) H1) as [H3 H4]; [now rewrite H2..|].
  fold (run (step b c) cs). split; [exact H3 | congruence].
Qed.

(** X6.  The limits hold: whatever calls are made on a new buffer, with
    or without a deliver callback, it never holds more than
    [max_buffered_packets] entries nor more than [max_buffered_bytes]
    bytes of payload (payload sizes being such that the byte counter does
    not wrap), and [buffered_bytes()] is never below the bytes held nor
    above the limit. *)
Theorem X6_reorder_buffer_stays_within_limits
        (cfg : ReorderBufferConfig) (cs : list Call) (with_callback : bool) :
  0 <= max_buffered_packets cfg ->
  0 <= max_buffered_bytes cfg < two64 ->
  Forall (reorder_call_fits cfg) cs ->
  let b0 := if with_callback then set_deliver_callback (create cfg)
            else create cfg in
  let b := run b0 cs in
  buffered_count b <= max_buffered_packets cfg /\
  held_bytes b <= buffered_bytes b <= max_buffered_bytes cfg.
Proof.
  intros Hp Hb Hcs b0 b.
  assert (H0 : reorder_within b0 /\ config_ b0 = cfg).
  { unfold b0. destruct with_callback; (split; [|reflexivity]);
      unfold reorder_within, held_bytes; cbn; lia. }
  destruct H0 as [Hw Hcfg].
  destruct (run_within cs b0 Hw) as [(H1 & H2 & H3) H4];
    [rewrite Hcfg; assumption..|].
  fold b in H1, H2, H3, H4. rewrite H4, Hcfg in *.
  unfold buffered_count, buffered_bytes. lia.
Qed.

(** X7.  Without a deliver callback the byte counter is exact: after any
    calls on a new buffer, [buffered_bytes()] is the sum of the payload
    sizes of the entries held (as a [size_t]). *)
Theorem X7_byte_counter_exact_without_callback
        (cfg : ReorderBufferConfig) (cs : list Call) :
  buffered_bytes (run (create cfg) cs)
  = wrap64 (held_bytes (run (create cfg) cs)).
Proof.
  apply (byte_counter_accurate_without_callback cs (create cfg));
    reflexivity.
Qed.

Lemma deliver_one_eq (b : t) (p : BufferedPacket) :
  deliver_one b p =
  (mk (config_ b) (OrdMap.erase (next_expected_ b) (buffer_ b))
      (wrap64 (next_expected_ b + 1))
      (wrap64 (buffered_bytes_ b
               - size (if callback_ b then [] else data p)))
      (callback_ b),
   if callback_ b then [(next_expected_ b, data p)] else []).
Proof. unfold deliver_one, hand_over. now destruct (callback_ b). Qed.

Lemma flush_one_eq (b : t) (s : Z) (p : BufferedPacket) :
  flush_one b s p =
  (mk (config_ b) (OrdMap.erase s (buffer_ b)) (wrap64 (s + 1))
      (wrap64 (buffered_bytes_ b
               - size (if callback_ b then [] else data p)))
      (callback_ b),
   if callback_ b then [(s, data p)] else []).
Proof. unfold flush_one, hand_over. now destruct (callback_ b). Qed.

(** The loop of [deliver], run with the fuel that [deliver] gives it. *)
Lemma deliver_loop_counts (fuel : nat) :
  forall b, (length (buffer_ b) <= fuel)%nat -> size (buffer_ b) < two64 ->
    is_u64 (next_expected_ b) ->
    let r := deliver_loop fuel b in
    snd r = size (buffer_ b) - size (buffer_ (fst (fst r))) /\
    (callback_ b = true -> size (snd (fst r)) = snd r) /\
    next_expected_ (fst (fst r)) = wrap64 (next_expected_ b + snd r) /\
    callback_ (fst (fst r)) = callback_ b /\
    config_ (fst (fst r)) = config_ b.
Proof.
  induction fuel as [|fuel IH]; intros b Hlen Hsz Hne.
  - cbn. rewrite Z.add_0_r, wrap64_small by exact Hne.
    repeat split; lia.
  - cbn [deliver_loop].
    destruct (OrdMap.find (next_expected_ b) (buffer_ b)) as [p|] eqn:E.
    2:{ cbn. rewrite Z.add_0_r, wrap64_small by exact Hne.
        repeat split; lia. }
    rewrite deliver_one_eq. cbv beta iota.
    match goal with
    | |- context [deliver_loop fuel ?x] => set (b1 := x)
    end.
    pose proof (length_erase_found _ _ _ E) as Hl.
    assert (Hs1 : size (buffer_ b1) = size (buffer_ b) - 1)
      by (unfold b1, size; cbn [buffer_]; lia).
    specialize (IH b1). cbv zeta in IH.
    destruct IH as (In1 & Ic1 & Ie1 & Ik1 & Ig1);
      [unfold size in Hs1; lia | lia | apply wrap64_range|].
    pose proof (deliver_loop_shrinks fuel b1) as [Hsh _].
    destruct (deliver_loop fuel b1) as [[b2 calls'] n'].
    cbn [fst snd] in *.
    pose proof (size_nonneg (buffer_ b2)).
    assert (Hle : size (buffer_ b2) <= size (buffer_ b1))
      by (unfold size; lia).
    assert (Hn : wrap64 (n' + 1) = n' + 1) by (apply wrap64_small; lia).
    rewrite Hn, Ie1. unfold b1 at 1. cbn [next_expected_].
    rewrite wrap64_add_l, <- Z.add_assoc, (Z.add_comm 1 n').
    split; [lia|]. split; [|repeat split; assumption].
    intros Hcb. rewrite Hcb. rewrite size_app, Ic1 by exact Hcb.
    unfold size in *. cbn [length]. lia.
Qed.

Lemma flush_loop_shrinks (fuel : nat) (now : Z) :
  forall b,
    (length (buffer_ (fst (fst (flush_loop fuel now b))))
     <= length (buffer_ b))%nat.
Proof.
  induction fuel as [|fuel IH]; intros b; [reflexivity|].
  cbn [flush_loop].
  destruct (buffer_ b) as [|[s p] m] eqn:E.
  { cbn [OrdMap.first fst]. now rewrite E. }
  cbn [OrdMap.first].
  destruct (wrap64 (now - timestamp_ms p) <? max_delay_ms (config_ b)).
  { cbn [fst]. now rewrite E. }
  rewrite flush_one_eq. cbv beta iota. rewrite E.
  cbn [OrdMap.erase]. rewrite Z.eqb_refl.
  match goal with
  | |- context [deliver ?x] => set (b1 := x)
  end.
  pose proof (deliver_loop_shrinks (length (buffer_ b1)) b1) as [Hsh _].
  fold (deliver b1) in Hsh.
  destruct (deliver b1) as [[b2 calls2] n2]. cbn [fst] in Hsh.
  specialize (IH b2).
  destruct (flush_loop fuel now b2) as [[b3 calls3] n3]. cbn [fst] in *.
  unfold b1 in Hsh. cbn [buffer_] in Hsh. cbn [length]. lia.
Qed.

Lemma flush_loop_counts (fuel : nat) (now : Z) :
  forall b, (length (buffer_ b) <= fuel)%nat -> size (buffer_ b) < two64 ->
    is_u64 (next_expected_ b) ->
    let r := flush_loop fuel now b in
    snd r = size (buffer_ b) - size (buffer_ (fst (fst r))) /\
    (callback_ b = true -> size (snd (fst r)) = snd r).
Proof.
  induction fuel as [|fuel IH]; intros b Hlen Hsz Hne.
  - cbn. split; [lia | reflexivity].
  - cbn [flush_loop].
    destruct (buffer_ b) as [|[s p] m] eqn:E.
    { cbn [OrdMap.first]. cbv zeta. cbn [fst snd]. rewrite ?E.
      split; [lia | reflexivity]. }
    cbn [OrdMap.first].
    destruct (wrap64 (now - timestamp_ms p) <? max_delay_ms (config_ b)).
    { cbn [OrdMap.first]. cbv zeta. cbn [fst snd]. rewrite ?E.
      split; [lia | reflexivity]. }
    rewrite flush_one_eq. cbv beta iota. rewrite E.
    cbn [OrdMap.erase]. rewrite Z.eqb_refl.
    rewrite size_cons in Hsz. cbn [length] in Hlen.
    pose proof (size_nonneg m) as Hm0.
    match goal with
    | |- context [deliver ?x] => set (b1 := x)
    end.
    pose proof (deliver_loop_counts (length (buffer_ b1)) b1 (le_n _)) as Hd.
    pose proof (deliver_loop_shrinks (length (buffer_ b1)) b1) as [Hsh _].
    cbv zeta in Hd. fold (deliver b1) in Hd, Hsh.
    destruct Hd as (Dn & Dc & De & Dk & _);
      [unfold b1; cbn [buffer_]; lia | apply wrap64_range|].
    destruct (deliver b1) as [[b2 calls2] n2]. cbn [fst snd] in *.
    specialize (IH b2). cbv zeta in IH.
    destruct IH as (Fn & Fc);
      [unfold b1 in Hsh; cbn [buffer_] in Hsh; lia
      | unfold b1, size in *; cbn [buffer_] in *; lia
      | rewrite De; apply wrap64_range|].
    pose proof (flush_loop_shrinks fuel now b2) as Hsh3.
    destruct (flush_loop fuel now b2) as [[b3 calls3] n3].
    cbn [fst snd] in *.
    pose proof (size_nonneg (buffer_ b2)).
    pose proof (size_nonneg (buffer_ b3)).
    unfold b1 in Dn, Hsh. cbn [buffer_] in Dn, Hsh.
    assert (Hle2 : size (buffer_ b2) <= size m) by (unfold size; lia).
    assert (Hle3 : size (buffer_ b3) <= size (buffer_ b2))
      by (unfold size; lia).
    rewrite size_cons.
    rewrite (wrap64_small (1 + n2)) by lia.
    rewrite wrap64_small by lia.
    split; [lia|].
    intros Hcb. rewrite Hcb. rewrite !size_app.
    rewrite Dc, Fc by (rewrite ?Dk; unfold b1; cbn [callback_]; exact Hcb).
    unfold size in *. cbn [length]. lia.
Qed.

Lemma flush_loop_nothing_deliverable (fuel : nat) (now : Z) :
  forall b, has_deliverable b = false ->
    has_deliverable (fst (fst (flush_loop fuel now b))) = false.
Proof.
  induction fuel as [|fuel IH]; intros b Hb; [exact Hb|].
  cbn [flush_loop].
  destruct (OrdMap.first (buffer_ b)) as [[s p]|]; [|exact Hb].
  destruct (wrap64 (now - timestamp_ms p) <? max_delay_ms (config_ b));
    [exact Hb|].
  destruct (flush_one b s p) as [b1 calls1].
  pose proof (deliver_complete b1) as Hd.
  destruct (deliver b1) as [[b2 calls2] n2]. cbn [fst] in Hd.
  specialize (IH b2 Hd).
  destruct (flush_loop fuel now b2) as [[b3 calls3] n3]. exact IH.
Qed.

(** X8.  [deliver] and [flush] run their loops to the end and report
    what they did.  After [deliver()] nothing is deliverable; after
    [flush(now)] nothing is deliverable and the buffer is empty or its
    first entry has waited less than [max_delay_ms].  The number returned
    is the number of entries removed, with a callback installed it is the
    number of callback calls, and [deliver] advances [next_expected_] by
    it. *)
Theorem X8_deliver_and_flush_run_to_completion (b : t) (now : Z) :
  size (buffer_ b) < two64 ->
  is_u64 (next_expected_ b) ->
  (let r := deliver b in
   has_deliverable (fst (fst r)) = false /\
   snd r = size (buffer_ b) - size (buffer_ (fst (fst r))) /\
   (callback_ b = true -> size (snd (fst r)) = snd r) /\
   next_expected_ (fst (fst r)) = wrap64 (next_expected_ b + snd r)) /\
  (let r := flush b now in
   has_deliverable (fst (fst r)) = false /\
   match OrdMap.first (buffer_ (fst (fst r))) with
   | None => True
   | Some (_, p) =>
       wrap64 (now - timestamp_ms p) < max_delay_ms (config_ b)
   end /\
   snd r = size (buffer_ b) - size (buffer_ (fst (fst r))) /\
   (callback_ b = true -> size (snd (fst r)) = snd r)).
Proof.
  intros Hsz Hne.
  pose proof (deliver_loop_counts (length (buffer_ b)) b (le_n _) Hsz Hne)
    as Hd.
  pose proof (deliver_complete b) as Hc.
  pose proof (deliver_loop_shrinks (length (buffer_ b)) b) as [Hsh _].
  cbv zeta in Hd. fold (deliver b) in Hd, Hsh.
  destruct Hd as (Dn & Dc & De & Dk & Dg).
  split; [cbv zeta; repeat split; assumption|].
  unfold flush. destruct (deliver b) as [[b1 calls1] n1].
  cbn [fst snd] in *.
  pose proof (flush_loop_counts (length (buffer_ b1)) now b1 (le_n _)) as Hf.
  pose proof (flush_loop_nothing_deliverable (length (buffer_ b1)) now b1 Hc)
    as Hn.
  pose proof (flush_loop_exhausts (length (buffer_ b1)) now b1 (le_n _))
    as Hx.
  cbv zeta in Hf.
  destruct Hf as (Fn & Fc);
    [unfold size in *; lia | rewrite De; apply wrap64_range|].
  pose proof (flush_loop_shrinks (length (buffer_ b1)) now b1) as Hsh2.
  destruct (flush_loop (length (buffer_ b1)) now b1) as [[b2 calls2] n2].
  cbn [fst snd] in *.
  pose proof (size_nonneg (buffer_ b1)). pose proof (size_nonneg (buffer_ b2)).
  split; [exact Hn|]. split.
  - destruct (OrdMap.first (buffer_ b2)) as [[s p]|]; [|exact I].
    rewrite Dg in Hx. now apply Z.ltb_lt.
  - rewrite wrap64_small by (unfold size in *; lia).
    split; [lia|]. intros Hcb. rewrite size_app.
    rewrite Dc, Fc by congruence. reflexivity.
Qed.

End ReorderBounds.

Lemma X6_witness :
  ReorderBuffer.held_bytes
    (ReorderBuffer.run
       (ReorderBuffer.set_deliver_callback
          (ReorderBuffer.create (ReorderBuffer.mkConfig 2 4 1000)))
       [ReorderBuffer.CInsert 1 [7; 7; 7] 0; ReorderBuffer.CDeliver;
        ReorderBuffer.CInsert 3 [8] 1; ReorderBuffer.CInsert 4 [9] 2])
  <= 4.
Proof.
  apply (X6_reorder_buffer_stays_within_limits
           (ReorderBuffer.mkConfig 2 4 1000)
           [ReorderBuffer.CInsert 1 [7; 7; 7] 0; ReorderBuffer.CDeliver;
            ReorderBuffer.CInsert 3 [8] 1; ReorderBuffer.CInsert 4 [9] 2]
           true).
  - cbn. lia.
  - cbn. unfold two64. lia.
  - repeat constructor; vm_compute; reflexivity.
Defined.

Lemma X8_witness :
  snd (ReorderBuffer.flush
         (snd (ReorderBuffer.insert
                 (snd (ReorderBuffer.insert
                         (ReorderBuffer.set_deliver_callback
                            (ReorderBuffer.create ReorderBuffer.default_config))
                         3 [30] 0))
                 4 [40] 1))
         1500) = 2.
Proof.
  destruct (X8_deliver_and_flush_run_to_completion
              (snd (ReorderBuffer.insert
                      (snd (ReorderBuffer.insert
                              (ReorderBuffer.set_deliver_callback
                                 (ReorderBuffer.create
                                    ReorderBuffer.default_config))
                              3 [30] 0))
                      4 [40] 1))
              1500) as [_ (_ & _ & H & _)].
  - vm_compute. reflexivity.
  - vm_compute. split; [discriminate | reflexivity].
  - rewrite H. reflexivity.
Defined.

(** ** Retransmission manager: what an acknowledgement removes *)

Section OrdMapEntries.
Context {V : Type}.

Lemma sorted_keys_cons (k : Z) (v : V) (m : OrdMap.t V) :
  StronglySorted Z.lt (OrdMap.keys ((k, v) :: m)) ->
  StronglySorted Z.lt (OrdMap.keys m) /\
  forall e, In e m -> k < fst e.
Proof.
  change (OrdMap.keys ((k, v) :: m)) with (k :: OrdMap.keys m).
  intros H. apply StronglySorted_inv in H. destruct H as [Hs Hall].
  split; [exact Hs|]. intros e He. rewrite Forall_forall in Hall.
  apply Hall. unfold OrdMap.keys. now apply in_map.
Qed.

(** With distinct keys [erase] removes the entries of that key. *)
Lemma erase_entries (k : Z) (m : OrdMap.t V) (e : Z * V) :
  StronglySorted Z.lt (OrdMap.keys m) ->
  (In e (OrdMap.erase k m) <-> In e m /\ fst e <> k).
Proof.
  induction m as [|[k0 v0] m IH]; intros Hs; [simpl; tauto|].
  apply sorted_keys_cons in Hs. destruct Hs as [Hs Hgt].
  cbn [OrdMap.erase]. destruct (Z.eqb_spec k0 k) as [->|Hne].
  - split.
    + intros He. split; [now right|]. apply Hgt in He. lia.
    + intros [[<-|He] Hk]; [now destruct Hk | exact He].
  - cbn [In]. rewrite (IH Hs). split.
    + intros [<-|[He Hk]]; [split; [now left | exact Hne]|].
      split; [now right | exact Hk].
    + intros [[<-|He] Hk]; [now left | right; now split].
Qed.

Lemma find_in_sorted (k : Z) (v : V) (m : OrdMap.t V) :
  StronglySorted Z.lt (OrdMap.keys m) ->
  In (k, v) m -> OrdMap.find k m = Some v.
Proof.
  induction m as [|[k0 v0] m IH]; intros Hs Hin; [destruct Hin|].
  apply sorted_keys_cons in Hs. destruct Hs as [Hs Hgt].
  cbn [OrdMap.find]. destruct Hin as [E|Hin].
  - injection E as -> ->. now rewrite Z.eqb_refl.
  - pose proof (Hgt _ Hin) as Hlt. cbn [fst] in Hlt.
    destruct (Z.eqb_spec k0 k); [lia|]. now apply IH.
Qed.

End OrdMapEntries.

Section SackRemoval.
Import RetransmissionManager.

Lemma cumulative_loop (ack_number : Z) (es : OrdMap.t UnackedPacket) :
  forall u, StronglySorted Z.lt (OrdMap.keys u) ->
    let u' := fold_left
                (fun (u : OrdMap.t UnackedPacket) e =>
                   if fst e <=? ack_number
                   then OrdMap.erase (fst e) u else u) es u in
    StronglySorted Z.lt (OrdMap.keys u') /\
    forall e, In e u' <->
      In e u /\ ~ (In (fst e) (map fst es) /\ fst e <= ack_number).
Proof.
  induction es as [|e0 es IH]; intros u Hs.
  - cbn. split; [exact Hs|]. intros e. tauto.
  - cbn [fold_left map].
    destruct (Z.leb_spec (fst e0) ack_number) as [Hle|Hgt].
    + destruct (IH (OrdMap.erase (fst e0) u) (keys_erase_sorted _ _ Hs))
        as [Hs' Hin].
      split; [exact Hs'|]. intros e. rewrite Hin, (erase_entries _ _ _ Hs).
      cbn [In]. split.
      * intros [[He Hk] Hn]. split; [exact He|].
        intros [[Hx|Hx] Hy]; [congruence | tauto].
      * intros [He Hn]. split; [split; [exact He|]|].
        -- intros Hk. apply Hn. split; [left; congruence | lia].
        -- intros [Hx Hy]. apply Hn. split; [now right | exact Hy].
    + destruct (IH u Hs) as [Hs' Hin].
      split; [exact Hs'|]. intros e. rewrite Hin. cbn [In]. split.
      * intros [He Hn]. split; [exact He|].
        intros [[Hx|Hx] Hy]; [lia | tauto].
      * intros [He Hn]. split; [exact He|].
        intros [Hx Hy]. apply Hn. split; [now right | exact Hy].
Qed.

Lemma bitmap_loop (ack_number bitmap : Z) (js : list Z) :
  forall u, StronglySorted Z.lt (OrdMap.keys u) ->
    let u' := fold_left
                (fun (u : OrdMap.t UnackedPacket) i =>
                   if negb (Z.land bitmap (Z.shiftl 1 i) =? 0)
                   then OrdMap.erase (wrap64 (ack_number + 1 + i)) u else u)
                js u in
    StronglySorted Z.lt (OrdMap.keys u') /\
    forall e, In e u' <->
      In e u /\
      ~ exists i, In i js /\
                  negb (Z.land bitmap (Z.shiftl 1 i) =? 0) = true /\
                  fst e = wrap64 (ack_number + 1 + i).
Proof.
  induction js as [|j js IH]; intros u Hs.
  - cbn. split; [exact Hs|]. intros e. split; [|tauto].
    intros He. split; [exact He|]. intros (i & [] & _).
  - cbn [fold_left].
    destruct (negb (Z.land bitmap (Z.shiftl 1 j) =? 0)) eqn:Hb.
    + destruct (IH (OrdMap.erase (wrap64 (ack_number + 1 + j)) u)
                   (keys_erase_sorted _ _ Hs)) as [Hs' Hin].
      split; [exact Hs'|]. intros e. rewrite Hin, (erase_entries _ _ _ Hs).
      split.
      * intros [[He Hk] Hn]. split; [exact He|].
        intros (i & [<-|Hi] & Hbit & Hkey); [contradiction|].
        apply Hn. now exists i.
      * intros [He Hn]. split; [split; [exact He|]|].
        -- intros Hk. apply Hn. exists j. repeat split; auto. now left.
        -- intros (i & Hi & Hbit & Hkey). apply Hn. exists i.
           repeat split; auto. now right.
    + destruct (IH u Hs) as [Hs' Hin].
      split; [exact Hs'|]. intros e. rewrite Hin. split.
      * intros [He Hn]. split; [exact He|].
        intros (i & [<-|Hi] & Hbit & Hkey); [congruence|].
        apply Hn. now exists i.
      * intros [He Hn]. split; [exact He|].
        intros (i & Hi & Hbit & Hkey). apply Hn. exists i.
        repeat split; auto. now right.
Qed.

(** X9.  [process_sack] removes exactly the acknowledged entries: an
    entry is in the store afterwards if and only if it was there before
    and its sequence number is neither at most [ack_number] nor
    [ack_number + 1 + i] for a set bit [i] of the bitmap; the entries
    that stay are unchanged and in order. *)
Theorem X9_process_sack_removes_exactly_the_acknowledged
        (m : t) (ack_number bitmap ack_time : Z) :
  StronglySorted Z.lt (OrdMap.keys (unacked_ m)) ->
  let m' := process_sack m ack_number bitmap ack_time in
  StronglySorted Z.lt (OrdMap.keys (unacked_ m')) /\
  forall e, In e (unacked_ m') <->
            In e (unacked_ m) /\ ~ sacked ack_number bitmap (fst e).
Proof.
  intros Hs m'. subst m'. rewrite unacked_process_sack.
  destruct (cumulative_loop ack_number (unacked_ m) (unacked_ m) Hs)
    as [Hs1 H1].
  destruct (bitmap_loop ack_number bitmap (map Z.of_nat (seq 0 64)) _ Hs1)
    as [Hs2 H2].
  split; [exact Hs2|]. intros e. rewrite H2, H1. unfold sacked. split.
  - intros [[He Hc] Hb]. split; [exact He|].
    intros [Hle|(i & Hi & Hbit & Hk)].
    + apply Hc. split; [now apply in_map | exact Hle].
    + apply Hb. exists i. split; [now apply in_below|].
      split; [|exact Hk].
      rewrite land_one_bit by lia. now rewrite Hbit.
  - intros [He Hn]. split; [split; [exact He|]|].
    + intros [_ Hle]. apply Hn. now left.
    + intros (i & Hi & Hbit & Hk). apply Hn. right.
      apply in_below in Hi. change (Z.of_nat 64) with 64 in Hi.
      exists i. split; [exact Hi|]. split; [|exact Hk].
      rewrite land_one_bit in Hbit by lia.
      now destruct (Z.testbit bitmap i).
Qed.

End SackRemoval.

Lemma X9_witness :
  let m :=
    RetransmissionManager.with_unacked
      (RetransmissionManager.create RetransmissionManager.default_config)
      (map (fun k => (k, RetransmissionManager.mkPacket [k] 0 0 0))
           [1; 2; 3; 4; 5; 6; 7]) 7 in
  In (6, RetransmissionManager.mkPacket [6] 0 0 0)
     (RetransmissionManager.unacked_
        (RetransmissionManager.process_sack m 2 22 50)).
Proof.
  intros m.
  destruct (X9_process_sack_removes_exactly_the_acknowledged m 2 22 50)
    as [_ H].
  - repeat constructor; lia.
  - apply H. split.
    + cbn. tauto.
    + intros [Hle|(i & Hi & Hbit & Hk)]; [cbn in Hle; lia|].
      cbn [fst] in Hk.
      assert (Hi' : i = 0 \/ i = 1 \/ i = 2 \/ i = 3 \/ i = 4 \/ 5 <= i)
        by lia.
      rewrite wrap64_small in Hk by (unfold two64; lia).
      destruct Hi' as [->|[->|[->|[->|[->|Hi']]]]];
        try discriminate Hbit; lia.
Defined.

(** ** Retransmission manager: byte counter, timeout bounds, Karn's rule *)

Section RetransmissionInvariants.
Import RetransmissionManager.

Lemma stored_erase (k : Z) (p : UnackedPacket) (u : OrdMap.t UnackedPacket) :
  OrdMap.find k u = Some p ->
  stored (OrdMap.erase k u) = stored u - size (data p).
Proof.
  induction u as [|[k' v'] u IH]; simpl; intros H; [discriminate|].
  destruct (k' =? k).
  - injection H as ->. lia.
  - simpl. rewrite IH by assumption. lia.
Qed.

Lemma stored_insert (k : Z) (v : UnackedPacket) (u : OrdMap.t UnackedPacket) :
  OrdMap.find k u = None ->
  stored (OrdMap.insert k v u) = stored u + size (data v).
Proof.
  induction u as [|[k' v'] u IH]; simpl; intros H; [lia|].
  destruct (Z.eqb_spec k' k) as [->|Hne]; [discriminate|].
  destruct (k <? k'); [simpl; lia|].
  destruct (Z.eqb_spec k k'); [lia|].
  simpl. rewrite IH by assumption. lia.
Qed.

Lemma stored_app (u v : OrdMap.t UnackedPacket) :
  stored (u ++ v) = stored u + stored v.
Proof. induction u as [|e u IH]; simpl; [reflexivity | rewrite IH; lia]. Qed.

Lemma update_rtt_keeps (m : t) (r : Z) :
  unacked_ (update_rtt m r) = unacked_ m /\
  unacked_bytes_ (update_rtt m r) = unacked_bytes_ m /\
  config_ (update_rtt m r) = config_ m.
Proof.
  unfold update_rtt. destruct (negb (rtt_initialized_ m)); repeat split.
Qed.

Lemma ack_entry_accurate (m : t) (seq : Z) (p : UnackedPacket) (ts : Z) :
  rtx_accurate m -> OrdMap.find seq (unacked_ m) = Some p ->
  rtx_accurate (ack_entry m seq p ts).
Proof.
  intros [Hs Hb] Hf. unfold rtx_accurate, ack_entry.
  cbn [with_unacked unacked_ unacked_bytes_].
  assert (H : unacked_ (if retransmit_count p =? 0
                        then update_rtt m (wrap64 (ts - send_time_ms p))
                        else m) = unacked_ m /\
              unacked_bytes_ (if retransmit_count p =? 0
                              then update_rtt m (wrap64 (ts - send_time_ms p))
                              else m) = unacked_bytes_ m).
  { destruct (retransmit_count p =? 0); [|now split].
    destruct (update_rtt_keeps m (wrap64 (ts - send_time_ms p)))
      as (H1 & H2 & _). now split. }
  destruct H as [-> ->].
  split; [now apply keys_erase_sorted|].
  rewrite (stored_erase _ p) by assumption.
  now rewrite Hb, wrap64_sub_l.
Qed.

Lemma ack_packet_accurate (m : t) (seq ts : Z) :
  rtx_accurate m -> rtx_accurate (ack_packet m seq ts).
Proof.
  intros H. unfold ack_packet.
  destruct (OrdMap.find seq (unacked_ m)) as [p|] eqn:E; [|exact H].
  now apply ack_entry_accurate.
Qed.

Lemma process_sack_accurate (m : t) (ack_number bitmap ts : Z) :
  rtx_accurate m -> rtx_accurate (process_sack m ack_number bitmap ts).
Proof.
  intros Hm. unfold process_sack.
  assert (H1 : forall es a,
            rtx_accurate a ->
            StronglySorted Z.lt (map fst es) ->
            (forall e, In e es -> In e (unacked_ a)) ->
            rtx_accurate
              (fold_left
                 (fun a e => if fst e <=? ack_number
                             then ack_entry a (fst e) (snd e) ts else a)
                 es a)).
  { induction es as [|e0 es IH]; intros a Ha Hs Hin; [exact Ha|].
    cbn [fold_left]. cbn [map] in Hs.
    apply StronglySorted_inv in Hs. destruct Hs as [Hs Hgt].
    rewrite Forall_forall in Hgt.
    destruct (fst e0 <=? ack_number).
    - apply IH; [|exact Hs|].
      + apply ack_entry_accurate; [exact Ha|].
        apply find_in_sorted; [apply Ha|].
        rewrite <- surjective_pairing. apply Hin. now left.
      + intros e He. rewrite unacked_ack_entry.
        apply erase_entries; [apply Ha|].
        split; [apply Hin; now right|].
        assert (fst e0 < fst e) by (apply Hgt; now apply in_map). lia.
    - apply IH; [exact Ha | exact Hs|].
      intros e He. apply Hin. now right. }
  assert (H2 : forall js a,
            rtx_accurate a ->
            rtx_accurate
              (fold_left
                 (fun a i => if negb (Z.land bitmap (Z.shiftl 1 i) =? 0)
                             then ack_packet a (wrap64 (ack_number + 1 + i)) ts
                             else a)
                 js a)).
  { induction js as [|j js IH]; intros a Ha; [exact Ha|].
    cbn [fold_left]. apply IH.
    destruct (negb (Z.land bitmap (Z.shiftl 1 j) =? 0)); [|exact Ha].
    now apply ack_packet_accurate. }
  apply H2. apply H1; [exact Hm | apply Hm | auto].
Qed.

Lemma register_accurate (m : t) (seq : Z) (payload : bytes) (ts : Z) :
  rtx_accurate m -> rtx_accurate (snd (register_packet m seq payload ts)).
Proof.
  intros [Hs Hb]. unfold register_packet.
  destruct (max_unacked_packets (config_ m) <=? size (unacked_ m));
    [now split|].
  destruct (max_unacked_bytes (config_ m)
            <? wrap64 (unacked_bytes_ m + size payload)); [now split|].
  unfold OrdMap.count.
  destruct (OrdMap.find seq (unacked_ m)) eqn:E; [now split|].
  change (0 <? 0) with false. cbv iota.
  unfold rtx_accurate. cbn [snd with_unacked unacked_ unacked_bytes_].
  split; [now apply keys_insert_sorted|].
  rewrite stored_insert by assumption. cbn [data].
  now rewrite Hb, wrap64_add_l.
Qed.

(** The first loop of [retransmit_expired] rewrites the entries in place:
    same keys, same payloads. *)
Lemma scan_keeps_entries (cfg : RetransmissionConfig) (cb : bool) (now : Z)
      (es : OrdMap.t UnackedPacket) :
  forall s,
    let s' := fold_left (scan_entry cfg cb now) es s in
    OrdMap.keys (s_entries s') = OrdMap.keys (s_entries s) ++ OrdMap.keys es /\
    stored (s_entries s') = stored (s_entries s) + stored es.
Proof.
  induction es as [|[k p] es IH]; intros s.
  - cbn. rewrite app_nil_r. split; [reflexivity | lia].
  - cbn [fold_left]. destruct (IH (scan_entry cfg cb now s (k, p)))
      as [H1 H2].
    cbv zeta. rewrite H1, H2. unfold scan_entry.
    destruct (wrap64 (now - last_sent_ms p) <? s_rto s);
      [|destruct (max_retries cfg <=? retransmit_count p)];
      cbn [s_entries]; unfold OrdMap.keys; rewrite map_app, stored_app;
      cbn [map fst stored fold_right snd data]; rewrite <- app_assoc;
      (split; [reflexivity | unfold stored; cbn [fold_right]; lia]).
Qed.

Lemma drop_loop_accurate (ds : list Z) :
  forall a evs, rtx_accurate a ->
    rtx_accurate (fst (fold_left drop_entry ds (a, evs))).
Proof.
  induction ds as [|d ds IH]; intros a evs Ha; [exact Ha|].
  cbn [fold_left]. unfold drop_entry at 2.
  destruct (OrdMap.find d (unacked_ a)) as [p|] eqn:E.
  - apply IH. destruct Ha as [Hs Hb]. unfold rtx_accurate.
    cbn [with_unacked unacked_ unacked_bytes_].
    split; [now apply keys_erase_sorted|].
    rewrite (stored_erase _ p) by assumption.
    now rewrite Hb, wrap64_sub_l.
  - apply IH. exact Ha.
Qed.

Lemma retransmit_expired_accurate (m : t) (now : Z) :
  rtx_accurate m -> rtx_accurate (fst (fst (retransmit_expired m now))).
Proof.
  intros [Hs Hb]. unfold retransmit_expired.
  destruct (scan_keeps_entries (config_ m) (retransmit_callback_ m) now
              (unacked_ m) (mkScan [] (rto_ms_ m) (total_retransmits_ m)
                                   0 [] [])) as [H1 H2].
  cbv zeta in H1, H2. cbn [s_entries app stored fold_right] in H1, H2.
  match goal with
  | |- context [fold_left drop_entry ?ds (?a, ?evs)] =>
      pose proof (drop_loop_accurate ds a evs) as Hd;
      destruct (fold_left drop_entry ds (a, evs)) as [m2 evs2]
  end.
  cbn [fst] in *. apply Hd. unfold rtx_accurate.
  cbn [unacked_ unacked_bytes_]. rewrite H1, H2. now split.
Qed.

Lemma step_rtx_accurate (m : t) (c : Call) :
  rtx_accurate m -> rtx_accurate (step m c).
Proof.
  intros H. destruct c; cbn [step].
  - now apply register_accurate.
  - now apply ack_packet_accurate.
  - now apply process_sack_accurate.
  - now apply retransmit_expired_accurate.
Qed.

(** X10.  The in-flight byte counter is exact: after any sequence of
    [register_packet], [ack_packet], [process_sack] and
    [retransmit_expired] calls on a new manager, [unacked_bytes()] is the
    sum of the sizes of the packets stored (as a [size_t]), and the keys
    of the store are distinct and in order. *)
Theorem X10_unacked_bytes_counts_the_stored_packets
        (cfg : RetransmissionConfig) (cs : list Call) :
  let m := run (create cfg) cs in
  unacked_bytes_ m = wrap64 (stored (unacked_ m)) /\
  StronglySorted Z.lt (OrdMap.keys (unacked_ m)).
Proof.
  cbv zeta.
  assert (H : forall cs m, rtx_accurate m -> rtx_accurate (run m cs)).
  { clear. induction cs as [|c cs IH]; intros m Hm; [exact Hm|].
    cbn [run fold_left]. apply IH. now apply step_rtx_accurate. }
  destruct (H cs (create cfg)) as [Hs Hb]; [|now split].
  unfold rtx_accurate. cbn. split; [constructor | reflexivity].
Qed.

(** *** The retransmission timeout stays within its bounds *)

Lemma update_rtt_rto (m : t) (r : Z) :
  min_rto_ms (config_ m) <= max_rto_ms (config_ m) ->
  min_rto_ms (config_ m) <= rto_ms_ (update_rtt m r) <= max_rto_ms (config_ m).
Proof.
  intros H. unfold update_rtt.
  destruct (negb (rtt_initialized_ m)); cbn [with_rtt rto_ms_]; lia.
Qed.

Lemma ack_entry_rto (m : t) (seq : Z) (p : UnackedPacket) (ts lo : Z) :
  min_rto_ms (config_ m) <= max_rto_ms (config_ m) ->
  lo <= min_rto_ms (config_ m) ->
  lo <= rto_ms_ m <= max_rto_ms (config_ m) ->
  config_ (ack_entry m seq p ts) = config_ m /\
  lo <= rto_ms_ (ack_entry m seq p ts) <= max_rto_ms (config_ m).
Proof.
  intros Hc Hlo Hr. unfold ack_entry. cbn [with_unacked config_ rto_ms_].
  destruct (retransmit_count p =? 0); [|now split].
  destruct (update_rtt_keeps m (wrap64 (ts - send_time_ms p)))
    as (_ & _ & Hcfg).
  pose proof (update_rtt_rto m (wrap64 (ts - send_time_ms p)) Hc).
  split; [exact Hcfg | lia].
Qed.

Lemma ack_packet_rto (m : t) (seq ts lo : Z) :
  min_rto_ms (config_ m) <= max_rto_ms (config_ m) ->
  lo <= min_rto_ms (config_ m) ->
  lo <= rto_ms_ m <= max_rto_ms (config_ m) ->
  config_ (ack_packet m seq ts) = config_ m /\
  lo <= rto_ms_ (ack_packet m seq ts) <= max_rto_ms (config_ m).
Proof.
  intros Hc Hlo Hr. unfold ack_packet.
  destruct (OrdMap.find seq (unacked_ m)); [|now split].
  now apply ack_entry_rto.
Qed.

Lemma process_sack_rto (m : t) (ack_number bitmap ts lo : Z) :
  min_rto_ms (config_ m) <= max_rto_ms (config_ m) ->
  lo <= min_rto_ms (config_ m) ->
  lo <= rto_ms_ m <= max_rto_ms (config_ m) ->
  config_ (process_sack m ack_number bitmap ts) = config_ m /\
  lo <= rto_ms_ (process_sack m ack_number bitmap ts)
     <= max_rto_ms (config_ m).
Proof.
  intros Hc Hlo Hr. unfold process_sack.
  set (P := fun a : t => config_ a = config_ m /\
                         lo <= rto_ms_ a <= max_rto_ms (config_ m)).
  assert (H1 : forall (es : OrdMap.t UnackedPacket) a, P a ->
            P (fold_left
                 (fun a e => if fst e <=? ack_number
                             then ack_entry a (fst e) (snd e) ts else a)
                 es a)).
  { induction es as [|e es IH]; intros a Ha; [exact Ha|].
    cbn [fold_left]. apply IH. destruct (fst e <=? ack_number); [|exact Ha].
    destruct Ha as [Hcfg Hb]. unfold P.
    destruct (ack_entry_rto a (fst e) (snd e) ts lo) as [E1 E2];
      rewrite ?Hcfg; auto.
    rewrite E1, Hcfg in *. now split. }
  assert (H2 : forall (js : list Z) a, P a ->
            P (fold_left
                 (fun a i => if negb (Z.land bitmap (Z.shiftl 1 i) =? 0)
                             then ack_packet a (wrap64 (ack_number + 1 + i)) ts
                             else a)
                 js a)).
  { induction js as [|j js IH]; intros a Ha; [exact Ha|].
    cbn [fold_left]. apply IH.
    destruct (negb (Z.land bitmap (Z.shiftl 1 j) =? 0)); [|exact Ha].
    destruct Ha as [Hcfg Hb]. unfold P.
    destruct (ack_packet_rto a (wrap64 (ack_number + 1 + j)) ts lo)
      as [E1 E2]; rewrite ?Hcfg; auto.
    rewrite E1, Hcfg in *. now split. }
  apply H2, H1. now split.
Qed.

Lemma scan_rto (cfg : RetransmissionConfig) (cb : bool) (now lo : Z)
      (es : OrdMap.t UnackedPacket) :
  0 <= lo -> 2 * max_rto_ms cfg < two64 ->
  forall s, lo <= s_rto s <= max_rto_ms cfg ->
    s_rto s <= s_rto (fold_left (scan_entry cfg cb now) es s)
            <= max_rto_ms cfg.
Proof.
  intros Hlo Hmax. induction es as [|[k p] es IH]; intros s Hs; [cbn; lia|].
  cbn [fold_left].
  assert (H : s_rto s <= s_rto (scan_entry cfg cb now s (k, p))
                      <= max_rto_ms cfg).
  { unfold scan_entry.
    destruct (wrap64 (now - last_sent_ms p) <? s_rto s); [cbn; lia|].
    destruct (max_retries cfg <=? retransmit_count p); [cbn; lia|].
    cbn [s_rto]. rewrite wrap64_small; [lia|].
    unfold two64 in *. lia. }
  specialize (IH (scan_entry cfg cb now s (k, p)) ltac:(lia)). lia.
Qed.

Lemma drop_entry_keeps (a : t) (evs : list Event) (d : Z) :
  let r := drop_entry (a, evs) d in
  config_ (fst r) = config_ a /\ rto_ms_ (fst r) = rto_ms_ a /\
  srtt_ms_ (fst r) = srtt_ms_ a /\ rttvar_ms_ (fst r) = rttvar_ms_ a /\
  rtt_initialized_ (fst r) = rtt_initialized_ a /\
  drop_callback_ (fst r) = drop_callback_ a /\
  snd r = evs ++ (if drop_callback_ a then [Drop d] else []).
Proof.
  unfold drop_entry. destruct (OrdMap.find d (unacked_ a)); cbn;
    repeat split.
Qed.

Lemma drop_loop_keeps (ds : list Z) :
  forall a evs,
    let r := fold_left drop_entry ds (a, evs) in
    config_ (fst r) = config_ a /\ rto_ms_ (fst r) = rto_ms_ a /\
    srtt_ms_ (fst r) = srtt_ms_ a /\ rttvar_ms_ (fst r) = rttvar_ms_ a /\
    rtt_initialized_ (fst r) = rtt_initialized_ a /\
    drop_callback_ (fst r) = drop_callback_ a /\
    snd r = evs ++ (if drop_callback_ a then map Drop ds else []).
Proof.
  induction ds as [|d ds IH]; intros a evs.
  - cbn. destruct (drop_callback_ a); rewrite app_nil_r; repeat split.
  - cbn [fold_left].
    pose proof (drop_entry_keeps a evs d) as Hd. cbv zeta in Hd.
    destruct (drop_entry (a, evs) d) as [a1 e1]. cbn [fst snd] in Hd.
    destruct Hd as (D1 & D2 & D3 & D4 & D5 & D6 & D7).
    specialize (IH a1 e1). cbv zeta in IH |- *.
    destruct IH as (I1 & I2 & I3 & I4 & I5 & I6 & I7).
    rewrite I1, I2, I3, I4, I5, I6, I7, D1, D2, D3, D4, D5, D6, D7.
    repeat split.
    destruct (drop_callback_ a); cbn [map]; now rewrite <- app_assoc.
Qed.

Lemma retransmit_expired_rto (m : t) (now lo : Z) :
  0 <= lo -> 2 * max_rto_ms (config_ m) < two64 ->
  lo <= rto_ms_ m <= max_rto_ms (config_ m) ->
  config_ (fst (fst (retransmit_expired m now))) = config_ m /\
  lo <= rto_ms_ (fst (fst (retransmit_expired m now)))
     <= max_rto_ms (config_ m).
Proof.
  intros Hlo Hmax Hr. unfold retransmit_expired.
  pose proof (scan_rto (config_ m) (retransmit_callback_ m) now lo
                (unacked_ m) Hlo Hmax
                (mkScan [] (rto_ms_ m) (total_retransmits_ m) 0 [] [])
                Hr) as Hs.
  cbn [s_rto] in Hs.
  match goal with
  | |- context [fold_left drop_entry ?ds (?a, ?evs)] =>
      pose proof (drop_loop_keeps ds a evs) as Hd;
      destruct (fold_left drop_entry ds (a, evs)) as [m2 evs2]
  end.
  cbv zeta in Hd. cbn [fst snd config_ rto_ms_] in Hd |- *.
  destruct Hd as (D1 & D2 & _). rewrite D1, D2. split; [reflexivity | lia].
Qed.

(** X11.  The retransmission timeout stays within its bounds: for a
    configuration with [min_rto <= max_rto < 2^63] and
    [initial_rto <= max_rto], after any sequence of calls on a new
    manager the timeout is at most [max_rto_ms] and at least the smaller
    of [initial_rto_ms] and [min_rto_ms]. *)
Theorem X11_rto_stays_within_bounds
        (cfg : RetransmissionConfig) (cs : list Call) :
  0 <= min_rto_ms cfg <= max_rto_ms cfg ->
  0 <= initial_rto_ms cfg <= max_rto_ms cfg ->
  2 * max_rto_ms cfg < two64 ->
  Z.min (initial_rto_ms cfg) (min_rto_ms cfg)
    <= rto_ms_ (run (create cfg) cs) <= max_rto_ms cfg.
Proof.
  intros Hmin Hinit Hmax.
  set (lo := Z.min (initial_rto_ms cfg) (min_rto_ms cfg)).
  assert (H : forall cs m,
            config_ m = cfg -> lo <= rto_ms_ m <= max_rto_ms cfg ->
            config_ (run m cs) = cfg /\
            lo <= rto_ms_ (run m cs) <= max_rto_ms cfg).
  { clear cs. induction cs as [|c cs IH]; intros m Hc Hr; [now split|].
    cbn [run fold_left].
    assert (Hs : config_ (step m c) = cfg /\
                 lo <= rto_ms_ (step m c) <= max_rto_ms cfg).
    { destruct c; cbn [step].
      - unfold register_packet.
        repeat match goal with
               | |- context [if ?c then (false, m) else _] => destruct c
               end; now split.
      - destruct (ack_packet_rto m seq ack_time lo) as [E1 E2];
          rewrite ?Hc; try lia. rewrite E1, Hc in *. now split.
      - destruct (process_sack_rto m ack_number bitmap ack_time lo)
          as [E1 E2]; rewrite ?Hc; try lia. rewrite E1, Hc in *. now split.
      - destruct (retransmit_expired_rto m now lo) as [E1 E2];
          rewrite ?Hc; try lia. rewrite E1, Hc in *. now split. }
    destruct Hs as [Hs1 Hs2]. now apply IH. }
  apply H; [reflexivity|]. cbn. lia.
Qed.

(** *** Karn's rule *)

Lemma ack_entry_no_sample (m : t) (seq : Z) (p : UnackedPacket) (ts : Z) :
  retransmit_count p <> 0 ->
  ack_entry m seq p ts =
  with_unacked m (OrdMap.erase seq (unacked_ m))
               (wrap64 (unacked_bytes_ m - size (data p))).
Proof.
  intros H. unfold ack_entry.
  destruct (Z.eqb_spec (retransmit_count p) 0); [contradiction | reflexivity].
Qed.

(** X12.  Karn's rule: acknowledging retransmitted packets takes no RTT
    sample.  If every stored entry has been retransmitted at least once,
    [ack_packet] and [process_sack] leave the smoothed RTT, the RTT
    variance, the timeout and the initialized flag of the estimator as
    they were. *)
Theorem X12_no_rtt_sample_from_retransmitted_packets
        (m : t) (seq ack_number bitmap ack_time : Z) :
  (forall e, In e (unacked_ m) -> retransmit_count (snd e) <> 0) ->
  let estimator (x : t) :=
    (srtt_ms_ x, rttvar_ms_ x, rto_ms_ x, rtt_initialized_ x) in
  estimator (ack_packet m seq ack_time) = estimator m /\
  estimator (process_sack m ack_number bitmap ack_time) = estimator m.
Proof.
  intros Hall estimator.
  assert (Hack : forall a s,
            (forall e, In e (unacked_ a) -> retransmit_count (snd e) <> 0) ->
            estimator (ack_packet a s ack_time) = estimator a /\
            (forall e, In e (unacked_ (ack_packet a s ack_time)) ->
                       retransmit_count (snd e) <> 0)).
  { intros a s Ha. split.
    - unfold ack_packet.
      destruct (OrdMap.find s (unacked_ a)) as [p|] eqn:E; [|reflexivity].
      rewrite ack_entry_no_sample; [reflexivity|].
      apply find_some_entry in E. exact (Ha _ E).
    - intros e He. rewrite unacked_ack_packet in He.
      apply entries_erase_in in He. now apply Ha. }
  split; [apply Hack, Hall|].
  unfold process_sack.
  assert (H1 : forall (es : OrdMap.t UnackedPacket) a,
            (forall e, In e es -> retransmit_count (snd e) <> 0) ->
            (forall e, In e (unacked_ a) -> retransmit_count (snd e) <> 0) ->
            let a' := fold_left
                        (fun a e => if fst e <=? ack_number
                                    then ack_entry a (fst e) (snd e) ack_time
                                    else a) es a in
            estimator a' = estimator a /\
            (forall e, In e (unacked_ a') -> retransmit_count (snd e) <> 0)).
  { induction es as [|e0 es IH]; intros a Hes Ha; [now split|].
    cbn [fold_left].
    destruct (fst e0 <=? ack_number).
    - destruct (IH (ack_entry a (fst e0) (snd e0) ack_time)) as [E1 E2].
      + intros e He. apply Hes. now right.
      + intros e He. rewrite unacked_ack_entry in He.
        apply entries_erase_in in He. now apply Ha.
      + cbv zeta. split; [|exact E2]. rewrite E1.
        rewrite ack_entry_no_sample; [reflexivity|]. apply Hes. now left.
    - apply IH; [|exact Ha]. intros e He. apply Hes. now right. }
  assert (H2 : forall (js : list Z) a,
            (forall e, In e (unacked_ a) -> retransmit_count (snd e) <> 0) ->
            estimator
              (fold_left
                 (fun a i => if negb (Z.land bitmap (Z.shiftl 1 i) =? 0)
                             then ack_packet a (wrap64 (ack_number + 1 + i))
                                             ack_time
                             else a) js a)
            = estimator a).
  { induction js as [|j js IH]; intros a Ha; [reflexivity|].
    cbn [fold_left].
    destruct (negb (Z.land bitmap (Z.shiftl 1 j) =? 0)); [|now apply IH].
    destruct (Hack a (wrap64 (ack_number + 1 + j)) Ha) as [E1 E2].
    rewrite IH by exact E2. exact E1. }
  destruct (H1 (unacked_ m) m Hall Hall) as [E1 E2].
  cbv zeta in E1, E2. rewrite H2 by exact E2. exact E1.
Qed.

End RetransmissionInvariants.

Lemma X11_witness :
  RetransmissionManager.rto_ms_
    (RetransmissionManager.run
       (RetransmissionManager.create RetransmissionManager.default_config)
       [RetransmissionManager.CRegister 1 [1; 2; 3] 0;
        RetransmissionManager.CExpire 200;
        RetransmissionManager.CRegister 2 [4] 210;
        RetransmissionManager.CAck 2 250;
        RetransmissionManager.CExpire 100000])
  <= 10000.
Proof.
  apply (X11_rto_stays_within_bounds
           RetransmissionManager.default_config
           [RetransmissionManager.CRegister 1 [1; 2; 3] 0;
            RetransmissionManager.CExpire 200;
            RetransmissionManager.CRegister 2 [4] 210;
            RetransmissionManager.CAck 2 250;
            RetransmissionManager.CExpire 100000]).
  - cbn. lia.
  - cbn. lia.
  - cbn. unfold two64. lia.
Defined.

Lemma X12_witness :
  let m :=
    fst (fst (RetransmissionManager.retransmit_expired
                (snd (RetransmissionManager.register_packet
                        (RetransmissionManager.create
                           RetransmissionManager.default_config)
                        1 [1; 2; 3] 0))
                200)) in
  RetransmissionManager.rtt_initialized_
    (RetransmissionManager.process_sack m 1 0 230) = false.
Proof.
  intros m.
  destruct (X12_no_rtt_sample_from_retransmitted_packets m 1 1 0 230)
    as [_ H].
  - intros e [<-|[]]. cbn. discriminate.
  - pose proof (f_equal snd H) as H'. cbv beta in H'. cbn [snd] in H'.
    rewrite H'. reflexivity.
Defined.

(** ** Retransmission manager: what [retransmit_expired] acts on *)

Section RetransmitExpired.
Import RetransmissionManager.

Variables (cfg : RetransmissionConfig) (cb : bool) (now rto0 : Z).
Hypothesis rto0_nonneg : 0 <= rto0.
Hypothesis max_rto_doubles : 2 * max_rto_ms cfg < two64.

(** A retransmit callback for a timed-out entry of [es] with retries
    left; a dropped sequence of a timed-out entry of [es] without. *)
Let retransmit_of (es : OrdMap.t UnackedPacket) (ev : Event) : Prop :=
  exists p, In (event_seq ev, p) es /\
            rto0 <= wrap64 (now - last_sent_ms p) /\
            retransmit_count p < max_retries cfg /\
            ev = Retransmit (event_seq ev) (data p).

Let drop_of (es : OrdMap.t UnackedPacket) (d : Z) : Prop :=
  exists p, In (d, p) es /\
            rto0 <= wrap64 (now - last_sent_ms p) /\
            max_retries cfg <= retransmit_count p.

Lemma retransmit_of_incl (es es' : OrdMap.t UnackedPacket)
      (evs : list Event) :
  incl es es' -> Forall (retransmit_of es) evs ->
  Forall (retransmit_of es') evs.
Proof.
  intros Hi H. eapply Forall_impl; [|exact H]. cbv beta.
  intros ev (p & Hp & Hr). exists p. split; [now apply Hi | exact Hr].
Qed.

Lemma drop_of_incl (es es' : OrdMap.t UnackedPacket) (ds : list Z) :
  incl es es' -> Forall (drop_of es) ds -> Forall (drop_of es') ds.
Proof.
  intros Hi H. eapply Forall_impl; [|exact H]. cbv beta.
  intros d (p & Hp & Hr). exists p. split; [now apply Hi | exact Hr].
Qed.

Lemma scan_entry_step (s : Scan) (k : Z) (p : UnackedPacket) :
  rto0 <= s_rto s <= max_rto_ms cfg ->
  let s1 := scan_entry cfg cb now s (k, p) in
  rto0 <= s_rto s1 <= max_rto_ms cfg /\
  exists evs ds,
    s_events s1 = s_events s ++ evs /\
    s_to_drop s1 = s_to_drop s ++ ds /\
    Forall (retransmit_of [(k, p)]) evs /\
    Forall (drop_of [(k, p)]) ds.
Proof.
  intros Hs. unfold scan_entry.
  destruct (Z.ltb_spec (wrap64 (now - last_sent_ms p)) (s_rto s)) as [|Hexp].
  { cbn. split; [exact Hs|]. exists [], []. rewrite !app_nil_r.
    repeat split; constructor. }
  destruct (Z.leb_spec (max_retries cfg) (retransmit_count p))
    as [Hmaxed|Hleft].
  { cbn. split; [exact Hs|]. exists [], [k]. rewrite app_nil_r.
    repeat split; [constructor|]. constructor; [|constructor].
    exists p. split; [now left|]. split; [lia | exact Hmaxed]. }
  cbn [s_rto s_events s_to_drop]. cbv zeta.
  split; [rewrite wrap64_small by lia; lia|].
  exists (if cb then [Retransmit k (data p)] else []), [].
  rewrite app_nil_r. repeat split; [|constructor].
  destruct cb; constructor; [|constructor].
  exists p. cbn [event_seq]. split; [now left|].
  split; [lia|]. split; [exact Hleft | reflexivity].
Qed.

Lemma scan_events (es : OrdMap.t UnackedPacket) :
  forall s, rto0 <= s_rto s <= max_rto_ms cfg ->
    let s' := fold_left (scan_entry cfg cb now) es s in
    exists evs ds,
      s_events s' = s_events s ++ evs /\
      s_to_drop s' = s_to_drop s ++ ds /\
      Forall (retransmit_of es) evs /\
      Forall (drop_of es) ds.
Proof.
  induction es as [|[k p] es IH]; intros s Hs.
  - exists [], []. cbn. rewrite !app_nil_r. repeat split; constructor.
  - cbn [fold_left].
    destruct (scan_entry_step s k p Hs)
      as (Hs1 & evs1 & ds1 & E1 & E2 & F1 & F2).
    cbv zeta in Hs1, E1, E2.
    destruct (IH _ Hs1) as (evs & ds & E3 & E4 & F3 & F4).
    cbv zeta in E3, E4 |- *.
    exists (evs1 ++ evs), (ds1 ++ ds).
    rewrite E3, E4, E1, E2, <- !app_assoc.
    split; [reflexivity|]. split; [reflexivity|].
    assert (I1 : incl [(k, p)] ((k, p) :: es))
      by (intros x [<-|[]]; now left).
    assert (I2 : incl es ((k, p) :: es)) by (intros x Hx; now right).
    split; apply Forall_app; split;
      eauto using retransmit_of_incl, drop_of_incl.
Qed.

End RetransmitExpired.

Section RetransmitExpiredEvents.
Import RetransmissionManager.

(** X13.  [retransmit_expired] acts on timed-out entries only and
    respects the retry limit: every retransmit or drop callback is for a
    sequence number that [check_timeouts] lists at that time; a
    retransmit callback hands over the stored bytes of an entry that had
    fewer than [max_retries] retransmissions, and a drop callback is for
    an entry that had used up its [max_retries]. *)
Theorem X13_retransmit_expired_acts_on_timed_out_entries
        (m : t) (now : Z) :
  0 <= rto_ms_ m <= max_rto_ms (config_ m) ->
  2 * max_rto_ms (config_ m) < two64 ->
  forall ev, In ev (snd (fst (retransmit_expired m now))) ->
    In (event_seq ev) (check_timeouts m now) /\
    match ev with
    | Retransmit seq payload =>
        exists p, In (seq, p) (unacked_ m) /\ payload = data p /\
                  retransmit_count p < max_retries (config_ m)
    | Drop seq =>
        exists p, In (seq, p) (unacked_ m) /\
                  max_retries (config_ m) <= retransmit_count p
    end.
Proof.
  intros Hr Hmax ev. unfold retransmit_expired.
  destruct (scan_events (config_ m) (retransmit_callback_ m) now (rto_ms_ m)
              ltac:(lia) Hmax (unacked_ m)
              (mkScan [] (rto_ms_ m) (total_retransmits_ m) 0 [] [])
              ltac:(cbn; lia)) as (evs & ds & E1 & E2 & F1 & F2).
  cbv zeta in E1, E2. cbn [s_events s_to_drop app] in E1, E2.
  match goal with
  | |- context [fold_left drop_entry ?l (?a, ?e)] =>
      pose proof (drop_loop_keeps l a e) as Hd;
      destruct (fold_left drop_entry l (a, e)) as [m2 evs2]
  end.
  cbv zeta in Hd. cbn [fst snd drop_callback_] in Hd |- *.
  destruct Hd as (_ & _ & _ & _ & _ & _ & ->). rewrite E1, E2.
  assert (Hto : forall k p, In (k, p) (unacked_ m) ->
                  rto_ms_ m <= wrap64 (now - last_sent_ms p) ->
                  In k (check_timeouts m now)).
  { intros k p Hin Hexp. unfold check_timeouts. apply in_map_iff.
    exists (k, p). split; [reflexivity|]. apply filter_In.
    split; [exact Hin|]. cbn [snd]. now apply Z.leb_le. }
  rewrite Forall_forall in F1, F2.
  intros Hev. apply in_app_or in Hev. destruct Hev as [Hev|Hev].
  - destruct (F1 _ Hev) as (p & Hin & Hexp & Hcnt & ->).
    cbn [event_seq] in *. split; [now apply (Hto _ p)|].
    exists p. repeat split; assumption.
  - destruct (drop_callback_ m); [|destruct Hev].
    apply in_map_iff in Hev. destruct Hev as (d & <- & Hd).
    destruct (F2 _ Hd) as (p & Hin & Hexp & Hcnt).
    cbn [event_seq]. split; [now apply (Hto _ p)|].
    exists p. split; assumption.
Qed.

End RetransmitExpiredEvents.

Lemma X13_witness :
  Forall (fun ev => RetransmissionManager.event_seq ev = 1)
    (snd (fst (RetransmissionManager.retransmit_expired
                 (snd (RetransmissionManager.register_packet
                         (RetransmissionManager.s5_start
                            RetransmissionManager.default_config)
                         1 [1; 2; 3] 0))
                 200))).
Proof.
  apply Forall_forall. intros ev Hev.
  destruct (X13_retransmit_expired_acts_on_timed_out_entries
              (snd (RetransmissionManager.register_packet
                      (RetransmissionManager.s5_start
                         RetransmissionManager.default_config)
                      1 [1; 2; 3] 0))
              200) with (ev := ev) as [H _].
  - vm_compute. split; discriminate.
  - vm_compute. reflexivity.
  - exact Hev.
  - vm_compute in H. destruct H as [H|[]]. now symmetry.
Defined.

(** ** Frame and packet codec: further properties *)

Section FrameRoundTrip.
Import packet.

(** X14.  The frame codec round-trips and frames itself: for every frame
    whose fields are within their wire types and whose payload is shorter
    than 65536 bytes, [parse_frame] applied to the serialized frame
    followed by any bytes returns the frame and the number of bytes it
    occupies, which is the [frame_size] that the rate limiter is charged
    with. *)
Theorem X14_frame_round_trip (f : Frame) (rest : bytes) :
  frame_wf f -> size (frame_payload f) < 65536 ->
  parse_frame (serialize_frame f ++ rest)
    = Some (f, size (serialize_frame f)) /\
  frame_size f = size (serialize_frame f).
Proof.
  intros Hwf Hlen. split; [now apply parse_serialize_frame|].
  rewrite size_serialize_frame. unfold frame_size, FRAME_HEADER_SIZE.
  assert (E : size (frame_payload f) =
              match f with
              | DataFrame _ p => 8 + size p
              | AckFrame _ _ _ => 20
              | ControlFrame _ _ d => 9 + size d
              | FragmentFrame _ _ _ p => 8 + size p
              | HandshakeFrame _ p => 1 + size p
              | SessionRotateFrame _ _ => 40
              end).
  { destruct f; cbn [frame_payload]; unfold size;
      rewrite ?length_app, ?length_fit;
      cbn [length write_u64 write_u32 write_u16 map]; lia. }
  rewrite <- E. pose proof (size_nonneg (frame_payload f)).
  apply wrap64_small. unfold two64. lia.
Qed.

End FrameRoundTrip.

Section DatagramSize.
Import packet.
Context {sodium : Sodium}.

Hypothesis aead_seal_length : forall m ad n k,
  length (crypto_aead_encrypt m ad n k) = (length m + 16)%nat.

Lemma add_frame_within_mtu (b : PacketBuilder) (f : Frame) :
  2 * mtu_ b < two64 ->
  2 * size (serialize_frame f) < two64 ->
  size (payload_buffer_ b) <= Z.max 0 (mtu_ b - 32) ->
  let b' := snd (add_frame b f) in
  size (payload_buffer_ b') <= Z.max 0 (mtu_ b' - 32) /\
  mtu_ b' = mtu_ b /\ has_key_ b' = has_key_ b.
Proof.
  intros Hmtu Hser Hb. unfold add_frame, remaining_capacity.
  unfold PACKET_HEADER_SIZE, crypto.POLY1305_TAG_SIZE.
  pose proof (size_nonneg (payload_buffer_ b)) as H0.
  pose proof (size_serialize_frame f) as Hs.
  pose proof (size_nonneg (frame_payload f)) as H1.
  unfold FRAME_HEADER_SIZE in Hs.
  assert (H64 : two64 = 18446744073709551616) by reflexivity.
  rewrite (wrap64_small (16 + 16 + size (payload_buffer_ b))) by lia.
  rewrite (wrap64_small (size (payload_buffer_ b) + size (serialize_frame f)))
    by lia.
  destruct (Z.leb_spec (mtu_ b) (16 + 16 + size (payload_buffer_ b))).
  - destruct (Z.ltb_spec 0
                (size (payload_buffer_ b) + size (serialize_frame f)));
      [|lia].
    cbn [snd]. auto.
  - rewrite wrap64_small by lia.
    destruct (Z.ltb_spec (mtu_ b - (16 + 16) - size (payload_buffer_ b))
                (size (payload_buffer_ b) + size (serialize_frame f)));
      cbn [snd payload_buffer_ mtu_ has_key_]; [auto|].
    rewrite size_app. repeat split. lia.
Qed.

Lemma add_frames_within_mtu (fs : list Frame) :
  forall b,
    2 * mtu_ b < two64 ->
    Forall (fun f => 2 * size (serialize_frame f) < two64) fs ->
    size (payload_buffer_ b) <= Z.max 0 (mtu_ b - 32) ->
    size (payload_buffer_ (add_frames b fs)) <= Z.max 0 (mtu_ b - 32) /\
    mtu_ (add_frames b fs) = mtu_ b /\
    has_key_ (add_frames b fs) = has_key_ b.
Proof.
  induction fs as [|f fs IH]; intros b Hmtu Hfs Hb; [auto|].
  apply Forall_cons_iff in Hfs. destruct Hfs as [Hf Hfs].
  destruct (add_frame_within_mtu b f Hmtu Hf Hb) as (H1 & H2 & H3).
  cbv zeta in H1, H2, H3. unfold add_frames. cbn [fold_left].
  fold (add_frames (snd (add_frame b f)) fs).
  destruct (IH (snd (add_frame b f))) as (I1 & I2 & I3);
    [now rewrite H2 | exact Hfs | exact H1|].
  rewrite I2, I3, H2, H3 in *. auto.
Qed.

(** X15.  A built datagram never exceeds the MTU.  Whatever frames are
    offered to a builder with a key, [add_frame] accepting or refusing
    each, [build] returns a vector of at most [mtu] bytes: 16 header
    bytes, the buffered frame bytes and the 16-byte tag when frames were
    accepted, and the empty vector otherwise. *)
Theorem X15_built_datagram_fits_the_mtu
        (mtu session counter : Z) (key nonce_base : bytes)
        (fs : list Frame) :
  0 <= mtu -> 2 * mtu < two64 ->
  Forall (fun f => 2 * size (serialize_frame f) < two64) fs ->
  let b := add_frames (configured_builder mtu session key nonce_base) fs in
  exists pkt,
    fst (build b counter) = Built pkt /\
    size pkt <= mtu /\
    (payload_buffer_ b <> [] -> size pkt = 32 + size (payload_buffer_ b)).
Proof.
  intros H0 Hmtu Hfs b.
  destruct (add_frames_within_mtu fs
              (configured_builder mtu session key nonce_base))
    as (H1 & H2 & H3); [exact Hmtu | exact Hfs | cbn; lia|].
  fold b in H1, H2, H3. cbn [configured_builder set_session_id
    set_encryption_key new_builder mtu_ has_key_] in H1, H2, H3.
  unfold build. rewrite H3. cbn [negb].
  destruct (payload_buffer_ b) as [|x buf] eqn:E.
  - exists []. cbn [fst]. split; [reflexivity|].
    split; [exact H0 | intros []; reflexivity].
  - cbn [fst]. eexists. split; [reflexivity|].
    assert (Hs : forall hdr enc : bytes,
              length hdr = 16%nat ->
              length enc = (length (x :: buf) + 16)%nat ->
              size (hdr ++ enc) = 32 + size (x :: buf)).
    { intros hdr enc Hh He. unfold size. rewrite length_app, Hh, He. lia. }
    rewrite Hs; [| reflexivity | apply aead_seal_length].
    pose proof (size_nonneg buf). rewrite size_cons in *.
    split; [lia | reflexivity].
Qed.

End DatagramSize.

Section ClearHeader.
Import packet.
Context {sodium : Sodium}.

(** X16.  The packet header travels in clear: whatever the AEAD does,
    the first 16 bytes of a built datagram are the session id and the
    packet counter in big-endian, and [parse_header] recovers both
    without any key. *)
Theorem X16_packet_header_is_readable_without_key
        (b : PacketBuilder) (counter : Z) :
  payload_buffer_ b <> [] -> has_key_ b = true ->
  is_u64 (session_id_ b) -> is_u64 counter ->
  exists pkt,
    fst (build b counter) = Built pkt /\
    firstn 16 pkt = write_u64 (session_id_ b) ++ write_u64 counter /\
    parse_packet_header pkt
      = Some (mkPacketHeader (session_id_ b) counter).
Proof.
  intros Hbuf Hkey Hsid Hctr. unfold build. rewrite Hkey.
  destruct (payload_buffer_ b) as [|x buf] eqn:E; [contradiction|].
  cbn [negb fst]. eexists. split; [reflexivity|].
  set (hdr := write_u64 (session_id_ b) ++ write_u64 counter).
  set (enc := crypto.encrypt _ _ _ _).
  assert (Hhdr : length hdr = 16%nat) by reflexivity.
  split; [now apply firstn_app_exact|].
  unfold parse_packet_header, PACKET_HEADER_SIZE.
  assert (Hsize : 16 <= size (hdr ++ enc)).
  { unfold size. rewrite length_app, Hhdr. lia. }
  destruct (Z.ltb_spec (size (hdr ++ enc)) 16); [lia|].
  f_equal. f_equal.
  - unfold subspan. cbn [Z.to_nat Pos.to_nat Pos.iter_op Nat.add skipn].
    rewrite read_u64_firstn. subst hdr. rewrite <- !app_assoc.
    now apply read_write_u64.
  - unfold subspan. change (Z.to_nat 8) with 8%nat.
    rewrite read_u64_firstn. subst hdr. rewrite <- !app_assoc.
    rewrite skipn_app_exact by reflexivity.
    now apply read_write_u64.
Qed.

End ClearHeader.

Lemma X14_witness :
  packet.parse_frame
    (packet.serialize_frame (packet.AckFrame 2 22 256) ++ [9; 9])
  = Some (packet.AckFrame 2 22 256, 24).
Proof.
  destruct (X14_frame_round_trip (packet.AckFrame 2 22 256) [9; 9])
    as [H _].
  - cbn. unfold is_u64, is_u32, two64. lia.
  - vm_compute. reflexivity.
  - exact H.
Defined.

Lemma X15_witness :
  exists pkt,
    fst (packet.build (sodium := Toy.sodium)
           (packet.add_frames
              (packet.configured_builder 100 7 (repeat 1 32) (repeat 2 12))
              [packet.DataFrame 1 (repeat 65 30);
               packet.DataFrame 2 (repeat 66 30);
               packet.AckFrame 1 0 16]) 9)
    = packet.Built pkt /\ size pkt <= 100.
Proof.
  destruct (X15_built_datagram_fits_the_mtu (sodium := Toy.sodium)
              toy_seal_length 100 7 9 (repeat 1 32) (repeat 2 12)
              [packet.DataFrame 1 (repeat 65 30);
               packet.DataFrame 2 (repeat 66 30);
               packet.AckFrame 1 0 16])
    as (pkt & H1 & H2 & _).
  - lia.
  - unfold two64. lia.
  - repeat constructor; vm_compute; reflexivity.
  - exists pkt. split; [exact H1 | exact H2].
Defined.

Lemma X16_witness :
  exists pkt,
    fst (packet.build (sodium := Toy.sodium)
           (snd (packet.add_frame
                   (packet.configured_builder 1400 7 (repeat 1 32)
                                              (repeat 2 12))
                   (packet.DataFrame 1 [72; 105]))) 9)
    = packet.Built pkt /\
    packet.parse_packet_header pkt = Some (packet.mkPacketHeader 7 9).
Proof.
  destruct (X16_packet_header_is_readable_without_key (sodium := Toy.sodium)
              (snd (packet.add_frame
                      (packet.configured_builder 1400 7 (repeat 1 32)
                                                 (repeat 2 12))
                      (packet.DataFrame 1 [72; 105]))) 9)
    as (pkt & H1 & _ & H2).
  - vm_compute. discriminate.
  - reflexivity.
  - vm_compute. split; [discriminate | reflexivity].
  - vm_compute. split; [discriminate | reflexivity].
  - exists pkt. split; [exact H1 | exact H2].
Defined.

(** ** Nonces and key derivation *)

Section Nonces.
Import crypto.

Lemma lxor_cancel_l (a x y : Z) : Z.lxor a x = Z.lxor a y -> x = y.
Proof.
  intros H. apply (f_equal (Z.lxor a)) in H.
  now rewrite <- !Z.lxor_assoc, Z.lxor_nilpotent, !Z.lxor_0_l in H.
Qed.

(** X17.  Packet nonces are unique per counter: [make_nonce] keeps the
    length of the 12-byte base and its first four bytes, and for a fixed
    base two different 64-bit counters never give the same nonce. *)
Theorem X17_make_nonce_is_injective_in_the_counter
        (base : bytes) (c1 c2 : Z) :
  length base = 12%nat -> is_u64 c1 -> is_u64 c2 ->
  length (make_nonce base c1) = 12%nat /\
  firstn 4 (make_nonce base c1) = firstn 4 base /\
  (make_nonce base c1 = make_nonce base c2 -> c1 = c2).
Proof.
  intros Hlen H1 H2.
  destruct base as [|b0 [|b1 [|b2 [|b3 [|b4 [|b5 [|b6 [|b7 [|b8 [|b9
    [|b10 [|b11 [|? ?]]]]]]]]]]]]]; try discriminate Hlen.
  unfold make_nonce. cbn [firstn skipn seq combine map app fst snd length].
  split; [reflexivity|]. split; [reflexivity|].
  intros E. injection E as E0 E1 E2 E3 E4 E5 E6 E7.
  apply lxor_cancel_l in E0, E1, E2, E3, E4, E5, E6, E7.
  unfold wrap8 in *. rewrite !Z.shiftr_div_pow2 in * by lia.
  cbn [Z.of_nat Z.mul Pos.of_succ_nat Pos.succ Pos.mul Pos.add] in *.
  simpl Z.pow in *.
  unfold is_u64, two64 in *.
  Z.div_mod_to_equations. lia.
Qed.

End Nonces.

Section KeyDerivation.
Import crypto.
Context {sodium : Sodium}.

Lemma length_hkdf_blocks (prk info : bytes) (n : nat) :
  forall (i : Z) (t_prev : bytes),
    length (hkdf_blocks prk info n i t_prev) = (HASH_LEN * n)%nat.
Proof.
  induction n as [|n IH]; intros i t_prev; [cbn; lia|].
  cbn [hkdf_blocks]. rewrite length_app, IH.
  unfold hmac_sha256. rewrite length_fit. unfold HASH_LEN. lia.
Qed.

Lemma length_expand (prk info : bytes) (n : nat) :
  (n <= 255 * HASH_LEN)%nat -> length (expand prk info n) = n.
Proof.
  intros Hn. unfold expand, hkdf_expand.
  destruct (Nat.ltb_spec (255 * HASH_LEN) n); [lia|].
  rewrite length_firstn, length_hkdf_blocks. unfold HASH_LEN in *.
  pose proof (Nat.div_mod_eq (n + 32 - 1) 32).
  pose proof (Nat.mod_upper_bound (n + 32 - 1) 32). lia.
Qed.

(** X18.  HKDF-Expand as the code runs it: it fills every byte of an
    output of up to [255 * 32] bytes and throws for a longer one; an
    output of up to 32 bytes is the beginning of
    [HMAC(PRK, info || 0x01)]; and [derive_session_keys] yields two
    32-byte keys and two 12-byte nonce bases. *)
Theorem X18_hkdf_expand_fills_the_output
        (prk info : bytes) (out_len : nat)
        (shared session_id : bytes) (is_initiator : bool) :
  ((out_len <= 255 * 32)%nat ->
     exists out, hkdf_expand prk info out_len = Some out /\
                 length out = out_len) /\
  ((255 * 32 < out_len)%nat -> hkdf_expand prk info out_len = None) /\
  ((out_len <= 32)%nat ->
     hkdf_expand prk info out_len
     = Some (firstn out_len (hmac_sha256 prk (info ++ [1])))) /\
  (let keys := derive_session_keys shared session_id is_initiator in
   length (send_key keys) = 32%nat /\ length (recv_key keys) = 32%nat /\
   length (send_nonce_base keys) = 12%nat /\
   length (recv_nonce_base keys) = 12%nat).
Proof.
  split; [|split; [|split]].
  - intros Hn. pose proof (length_expand prk info out_len) as H.
    unfold expand in H. unfold hkdf_expand in *. unfold HASH_LEN in *.
    destruct (Nat.ltb_spec (255 * 32) out_len); [lia|].
    eexists. split; [reflexivity|]. apply H. lia.
  - intros Hn. unfold hkdf_expand, HASH_LEN.
    destruct (Nat.ltb_spec (255 * 32) out_len); [reflexivity | lia].
  - intros Hn. unfold hkdf_expand, HASH_LEN.
    destruct (Nat.ltb_spec (255 * 32) out_len); [lia|]. f_equal.
    destruct out_len as [|n]; [reflexivity|].
    assert (E : ((S n + 32 - 1) / 32 = 1)%nat).
    { symmetry. apply (Nat.div_unique _ 32 1 n); lia. }
    rewrite E. cbn [hkdf_blocks app]. now rewrite app_nil_r.
  - unfold derive_session_keys.
    destruct is_initiator; cbn [send_key recv_key send_nonce_base
                                recv_nonce_base];
      repeat split; apply length_expand;
      unfold CHACHA20_KEY_SIZE, CHACHA20_NONCE_SIZE, HASH_LEN; lia.
Qed.

End KeyDerivation.

Lemma X17_witness :
  crypto.make_nonce (repeat 7 12) 258 = crypto.make_nonce (repeat 7 12) 258
  /\ length (crypto.make_nonce (repeat 7 12) 258) = 12%nat.
Proof.
  destruct (X17_make_nonce_is_injective_in_the_counter (repeat 7 12) 258 258)
    as (H & _ & _).
  - reflexivity.
  - vm_compute. split; [discriminate | reflexivity].
  - vm_compute. split; [discriminate | reflexivity].
  - split; [reflexivity | exact H].
Defined.

Lemma X18_witness :
  exists out,
    crypto.hkdf_expand (sodium := Toy.sodium) [1; 2] [3] 44 = Some out /\
    length out = 44%nat.
Proof.
  destruct (X18_hkdf_expand_fills_the_output (sodium := Toy.sodium)
              [1; 2] [3] 44 [] [] true) as (H & _).
  apply H. lia.
Defined.

(** ** Handshake: key symmetry and unauthenticated input *)

Lemma memcmp_lt_flip (u v : bytes) :
  length u = length v -> u <> v -> memcmp_lt v u = negb (memcmp_lt u v).
Proof.
  revert v. induction u as [|c u IH]; intros [|d v] Hlen Hne;
    try discriminate; [contradiction|].
  simpl. destruct (Z.ltb_spec c d), (Z.ltb_spec d c); try reflexivity; try lia.
  assert (c = d) by lia. subst d.
  apply IH; [simpl in Hlen; lia|]. intros ->. now apply Hne.
Qed.

Section HandshakeSymmetry.
Import handshake.
Context {sodium : Sodium}.

Variables (cfgA cfgB : HandshakeConfig) (kpA kpB : crypto.X25519KeyPair).
Variables (ta1 tb1 ta2 tb2 : Z) (z : bytes).

Hypothesis same_psk : psk cfgA = psk cfgB.
Hypothesis clocks :
  is_u64 ta1 /\ is_u64 tb1 /\ is_u64 ta2 /\ is_u64 tb2.
Hypothesis init_in_time :
  Z.abs (ta1 - tb1) <= timestamp_tolerance_sec cfgB.
Hypothesis response_in_time :
  Z.abs (tb1 - ta2) <= timestamp_tolerance_sec cfgA.
Hypothesis finish_in_time :
  Z.abs (ta2 - tb2) <= timestamp_tolerance_sec cfgB.
Hypothesis responder_exchange :
  crypto.key_exchange (fit 32 (crypto.secret_key kpB))
                      (fit 32 (crypto.public_key kpA)) = Some z.
Hypothesis initiator_exchange :
  crypto.key_exchange (fit 32 (crypto.secret_key kpA))
                      (fit 32 (crypto.public_key kpB)) = Some z.
Hypothesis distinct_keys :
  fit 32 (crypto.public_key kpA) <> fit 32 (crypto.public_key kpB).

(** X19.  Handshake symmetry.  Two endpoints with the same PSK, clocks
    within tolerance, a Diffie-Hellman secret that agrees and different
    ephemeral public keys complete the three-message exchange; both derive
    the session id [HMAC-SHA256(PSK, INIT || RESPONSE || FINISH)] over the
    bytes sent, exactly one of them takes the initiator's side of the key
    schedule, and each one's send key and nonce base are the other's
    receive key and nonce base. *)
Theorem X19_handshake_keys_mirror_for_distinct_public_keys :
  let x := exchange (endpoint cfgA kpA) (endpoint cfgB kpB)
                    ta1 tb1 ta2 tb2 in
  initiator_done x = true /\ responder_done x = true /\
  length (wire x) = 3%nat /\
  exists ra rb,
    result (initiator x) = Some ra /\ result (responder x) = Some rb /\
    session_id ra = crypto.hmac_sha256 (psk cfgA) (concat (wire x)) /\
    session_id rb = session_id ra /\
    is_initiator ra = negb (is_initiator rb) /\
    crypto.send_key (session_keys ra) = crypto.recv_key (session_keys rb) /\
    crypto.recv_key (session_keys ra) = crypto.send_key (session_keys rb) /\
    crypto.send_nonce_base (session_keys ra)
      = crypto.recv_nonce_base (session_keys rb) /\
    crypto.recv_nonce_base (session_keys ra)
      = crypto.send_nonce_base (session_keys rb).
Proof.
  intros x.
  destruct (results_of_exchange cfgA cfgB kpA kpB ta1 tb1 ta2 tb2 z z
              same_psk clocks init_in_time response_in_time finish_in_time
              responder_exchange initiator_exchange) as [Ra Rb].
  fold x in Ra, Rb.
  pose proof (exchange_completes cfgA cfgB kpA kpB ta1 tb1 ta2 tb2 z z
                same_psk clocks init_in_time response_in_time
                finish_in_time responder_exchange initiator_exchange) as Hx.
  fold x in Hx.
  rewrite <- same_psk in Ra, Rb, Hx.
  rewrite (memcmp_lt_flip (fit 32 (crypto.public_key kpA))
                          (fit 32 (crypto.public_key kpB))) in Rb
    by (rewrite ?length_fit; auto).
  assert (Hwire : concat (wire x) =
                  (([] ++ envelope (psk cfgA) MSG_INIT ta1
                                   (fit 32 (crypto.public_key kpA)))
                   ++ envelope (psk cfgA) MSG_RESPONSE tb1
                               (fit 32 (crypto.public_key kpB)))
                  ++ envelope (psk cfgA) MSG_FINISH ta2 []).
  { rewrite Hx. cbn [wire concat app]. now rewrite app_nil_r, app_assoc. }
  rewrite Hwire. rewrite Hx at 1 2 3.
  split; [reflexivity|]. split; [reflexivity|]. split; [reflexivity|].
  eexists. eexists. split; [exact Ra|]. split; [exact Rb|].
  cbn [session_id session_keys is_initiator].
  unfold crypto.derive_session_keys.
  destruct (memcmp_lt (fit 32 (crypto.public_key kpA))
                      (fit 32 (crypto.public_key kpB)));
    cbn [negb crypto.send_key crypto.recv_key crypto.send_nonce_base
         crypto.recv_nonce_base];
    repeat split; reflexivity.
Qed.

End HandshakeSymmetry.

Section HandshakeAuthentication.
Import handshake.
Context {sodium : Sodium}.

(** X20.  Unauthenticated input has no effect.  Whenever
    [process_message] returns true, hands a message to the send
    callback, or changes the state, the transcript, the peer key, the
    shared secret or the session id, the message was at least 43 bytes
    long, its timestamp was within the tolerance of the endpoint's clock
    and its last 32 bytes were the HMAC-SHA256 under the endpoint's PSK
    of the bytes before them.  In every other case only [last_error]
    is written. *)
Theorem X20_only_authenticated_messages_change_the_handshake
        (h : Handshake) (message : bytes) (clock : Z) :
  let r := process_message h message clock in
  let h' := snd (fst r) in
  (fst (fst r) = true \/ snd r <> [] \/
   state_ h' <> state_ h \/ transcript_ h' <> transcript_ h \/
   peer_public_key_ h' <> peer_public_key_ h \/
   shared_secret_ h' <> shared_secret_ h \/
   session_id_ h' <> session_id_ h) ->
  let timestamp := read_u64 (subspan_from message 1) in
  let now := get_current_time h clock in
  MSG_HEADER_SIZE + MSG_HMAC_SIZE <= size message /\
  (if now <? timestamp then wrap64 (timestamp - now)
   else wrap64 (now - timestamp)) <= timestamp_tolerance_sec (config_ h) /\
  verify_hmac h (subspan message 0 (size message - MSG_HMAC_SIZE))
                (subspan message (size message - MSG_HMAC_SIZE)
                         MSG_HMAC_SIZE) = true.
Proof.
  cbv zeta. unfold process_message.
  assert (Hrej : forall e,
            let r := (false, with_error h e, @nil bytes) in
            (fst (fst r) = true \/ snd r <> [] \/
             state_ (snd (fst r)) <> state_ h \/
             transcript_ (snd (fst r)) <> transcript_ h \/
             peer_public_key_ (snd (fst r)) <> peer_public_key_ h \/
             shared_secret_ (snd (fst r)) <> shared_secret_ h \/
             session_id_ (snd (fst r)) <> session_id_ h) -> False).
  { intros e. cbn. intuition congruence. }
  destruct (Z.ltb_spec (size message) (MSG_HEADER_SIZE + MSG_HMAC_SIZE))
    as [|Hlen]; [intros Hchg; destruct (Hrej _ Hchg)|].
  destruct (Z.eqb_spec (size message)
              (MSG_HEADER_SIZE + read_u16 (subspan_from message 9)
               + MSG_HMAC_SIZE)) as [Hsz|];
    cbn [negb]; [|intros Hchg; destruct (Hrej _ Hchg)].
  match goal with
  | |- context [timestamp_tolerance_sec (config_ h) <? ?d] =>
      destruct (Z.ltb_spec (timestamp_tolerance_sec (config_ h)) d)
        as [|Htol]
  end; [intros Hchg; destruct (Hrej _ Hchg)|].
  replace (size message - MSG_HMAC_SIZE)
    with (MSG_HEADER_SIZE + read_u16 (subspan_from message 9)) by lia.
  destruct (verify_hmac h _ _); cbn [negb];
    [|intros Hchg; destruct (Hrej _ Hchg)].
  intros _. split; [exact Hlen|]. split; [exact Htol | reflexivity].
Qed.

End HandshakeAuthentication.

Lemma X19_witness :
  let x :=
    handshake.exchange (sodium := Toy.sodium)
      (handshake.endpoint s1_config
         (crypto.mkKeyPair (repeat 200 32) (repeat 200 32)))
      (handshake.endpoint s1_config
         (crypto.mkKeyPair (repeat 100 32) (repeat 100 32)))
      s1_now s1_now s1_now s1_now in
  exists ra rb,
    handshake.result (sodium := Toy.sodium) (handshake.initiator x) = Some ra /\
    handshake.result (sodium := Toy.sodium) (handshake.responder x) = Some rb /\
    crypto.send_key (handshake.session_keys ra)
      = crypto.recv_key (handshake.session_keys rb).
Proof.
  intros x.
  destruct (X19_handshake_keys_mirror_for_distinct_public_keys
              (sodium := Toy.sodium) s1_config s1_config
              (crypto.mkKeyPair (repeat 200 32) (repeat 200 32))
              (crypto.mkKeyPair (repeat 100 32) (repeat 100 32))
              s1_now s1_now s1_now s1_now (repeat 44 32))
    as (_ & _ & _ & ra & rb & Ha & Hb & _ & _ & _ & Hk & _).
  - reflexivity.
  - vm_compute. repeat split; discriminate.
  - vm_compute. discriminate.
  - vm_compute. discriminate.
  - vm_compute. discriminate.
  - vm_compute. reflexivity.
  - vm_compute. reflexivity.
  - vm_compute. discriminate.
  - exists ra, rb. split; [exact Ha|]. split; [exact Hb | exact Hk].
Defined.

Lemma X20_witness :
  let b := handshake.endpoint s1_config
             (crypto.mkKeyPair (repeat 100 32) (repeat 100 32)) in
  let a := handshake.endpoint s1_config
             (crypto.mkKeyPair (repeat 200 32) (repeat 200 32)) in
  let m1 := handshake.first_message
              (snd (handshake.initiate (sodium := Toy.sodium) a s1_now)) in
  handshake.verify_hmac (sodium := Toy.sodium) b
    (subspan m1 0 (size m1 - handshake.MSG_HMAC_SIZE))
    (subspan m1 (size m1 - handshake.MSG_HMAC_SIZE) handshake.MSG_HMAC_SIZE)
  = true.
Proof.
  intros b a m1.
  destruct (X20_only_authenticated_messages_change_the_handshake
              (sodium := Toy.sodium) b m1 s1_now) as (_ & _ & H).
  - right. left. vm_compute. discriminate.
  - exact H.
Defined.

(** ** Rate limiter: the token buckets *)

Section RateBuckets.
Import RateLimiter.

Lemma rate_config_step (r : t) (c : Call) : config_ (step r c) = config_ r.
Proof.
  destruct c as [n|n|ms]; cbn [step]; unfold try_consume, consume, refill.
  - destruct (check r n); reflexivity.
  - reflexivity.
  - destruct (ms =? 0); reflexivity.
Qed.

Lemma wrap64_le (x : Z) : 0 <= x -> 0 <= wrap64 x <= x.
Proof.
  intros H. unfold wrap64, two64. split.
  - apply Z.mod_pos_bound. lia.
  - apply Z.mod_le; lia.
Qed.

Lemma rate_consume_within (r : t) (n : Z) :
  is_u64 n -> rate_within r -> rate_within (consume r n).
Proof.
  unfold rate_within, consume, is_u64. cbn [packet_tokens_ byte_tokens_ config_].
  intros Hn [Hp Hb].
  destruct (Z.ltb_spec 0 (packet_tokens_ r));
    destruct (Z.leb_spec n (byte_tokens_ r));
    try pose proof (wrap64_le (packet_tokens_ r - 1) ltac:(lia));
    try pose proof (wrap64_le (byte_tokens_ r - n) ltac:(lia));
    lia.
Qed.

Lemma rate_step_within (r : t) (c : Call) :
  rate_call_ok c -> rate_within r -> rate_within (step r c).
Proof.
  destruct c as [n|n|ms]; cbn [step rate_call_ok]; intros Hc Hr.
  - unfold try_consume. destruct (check r n); cbn [negb snd].
    + now apply rate_consume_within.
    + exact Hr.
  - now apply rate_consume_within.
  - unfold refill. destruct (ms =? 0); [exact Hr|].
    unfold rate_within in *. cbn [packet_tokens_ byte_tokens_ config_].
    match goal with
    | |- context [Z.min (wrap64 ?a) (burst_packets _)] =>
        pose proof (wrap64_range a)
    end.
    match goal with
    | |- context [Z.min (wrap64 ?a) (burst_bytes _)] =>
        pose proof (wrap64_range a)
    end.
    unfold is_u64 in *. lia.
Qed.

Lemma rate_run_within (cs : list Call) (r : t) :
  Forall rate_call_ok cs -> rate_within r ->
  rate_within (run r cs) /\ config_ (run r cs) = config_ r.
Proof.
  revert r. induction cs as [|c cs IH]; intros r Hcs Hr; [now split|].
  inversion Hcs as [|? ? Hc Hcs']; subst.
  unfold run. cbn [fold_left]. fold (run (step r c) cs).
  destruct (IH (step r c) Hcs' (rate_step_within r c Hc Hr)) as [I1 I2].
  split; [exact I1|]. now rewrite I2, rate_config_step.
Qed.

Lemma let_through_accounts (sizes : list Z) (r : t) :
  Forall is_u64 sizes -> rate_within r ->
  burst_packets (config_ r) < two64 -> burst_bytes (config_ r) < two64 ->
  let r' := run r (map CTryConsume sizes) in
  size (let_through r sizes) + packet_tokens_ r' = packet_tokens_ r /\
  sum_sizes (let_through r sizes) + byte_tokens_ r' = byte_tokens_ r.
Proof.
  revert r. induction sizes as [|n sizes IH]; intros r Hs Hr Hbp Hbb.
  - cbn. unfold size. cbn. lia.
  - inversion Hs as [|? ? Hn Hs']; subst.
    cbn [map let_through]. unfold run. cbn [fold_left step].
    fold (run (snd (try_consume r n)) (map CTryConsume sizes)).
    assert (Hr1 : rate_within (snd (try_consume r n)))
      by (apply (rate_step_within r (CTryConsume n)); assumption).
    assert (Hc1 : config_ (snd (try_consume r n)) = config_ r)
      by (apply (rate_config_step r (CTryConsume n))).
    specialize (IH (snd (try_consume r n)) Hs' Hr1).
    rewrite Hc1 in IH. specialize (IH Hbp Hbb). cbv zeta in IH |- *.
    destruct IH as [I1 I2].
    unfold try_consume in *. unfold check in *.
    destruct Hr as [Hp Hb]. unfold is_u64 in Hn.
    destruct (Z.leb_spec 1 (packet_tokens_ r));
      destruct (Z.leb_spec n (byte_tokens_ r));
      cbn [andb negb fst snd app] in *;
      try (split; [exact I1 | exact I2]).
    unfold consume in I1, I2 |- *.
    cbn [packet_tokens_ byte_tokens_] in *.
    destruct (Z.ltb_spec 0 (packet_tokens_ r)); [|lia].
    destruct (Z.leb_spec n (byte_tokens_ r)); [|lia].
    rewrite (wrap64_small (packet_tokens_ r - 1)) in * by lia.
    rewrite (wrap64_small (byte_tokens_ r - n)) in * by lia.
    unfold size in *. cbn [length sum_sizes fold_right] in *.
    fold (sum_sizes (let_through
      (consume r n) sizes)) in *.
    split; [lia|]. unfold sum_sizes in I2. lia.
Qed.

(** X21.  The token buckets never hold more than a burst, and between
    refills they let through no more than they hold.  After any calls of
    [try_consume], [consume] and [refill] on a new limiter both buckets
    are within [0, burst]; a following series of [try_consume] calls lets
    through exactly as many packets and bytes as the buckets lose, hence at
    most [burst_packets] packets and [burst_bytes] bytes. *)
Theorem X21_rate_limiter_lets_through_at_most_a_burst
        (cfg : RateLimiterConfig) (cs : list Call) (sizes : list Z) :
  is_u64 (burst_packets cfg) -> is_u64 (burst_bytes cfg) ->
  Forall rate_call_ok cs -> Forall is_u64 sizes ->
  let r := run (create cfg) cs in
  let r' := run r (map CTryConsume sizes) in
  rate_within r /\
  size (let_through r sizes) + packet_tokens_ r' = packet_tokens_ r /\
  sum_sizes (let_through r sizes) + byte_tokens_ r' = byte_tokens_ r /\
  size (let_through r sizes) <= burst_packets cfg /\
  sum_sizes (let_through r sizes) <= burst_bytes cfg.
Proof.
  intros Hp Hb Hcs Hs r r'.
  assert (H0 : rate_within (create cfg)).
  { unfold rate_within, create, is_u64 in *.
    cbn [packet_tokens_ byte_tokens_ config_]. lia. }
  destruct (rate_run_within cs (create cfg) Hcs H0) as [Hr Hc].
  fold r in Hr, Hc. cbn [create config_] in Hc.
  destruct (let_through_accounts sizes r Hs Hr) as [A1 A2];
    [rewrite Hc; apply Hp | rewrite Hc; apply Hb|].
  fold r' in A1, A2.
  assert (Hs' : Forall rate_call_ok (map CTryConsume sizes)).
  { apply Forall_forall. intros c Hin. apply in_map_iff in Hin.
    destruct Hin as (n & <- & Hin). cbn.
    now apply (proj1 (Forall_forall _ _) Hs). }
  destruct (rate_run_within _ r Hs' Hr) as [[Hp' Hb'] _]. fold r' in Hp', Hb'.
  destruct Hr as [Hrp Hrb]. rewrite Hc in *.
  split; [split; rewrite ?Hc; assumption|].
  split; [exact A1|]. split; [exact A2|]. split; lia.
Qed.

End RateBuckets.

Lemma X21_witness :
  size (RateLimiter.let_through
          (RateLimiter.run
             (RateLimiter.create (RateLimiter.mkConfig 10 1000 2 150))
             [RateLimiter.CTryConsume 100; RateLimiter.CRefill 1000])
          [100; 100; 10]) <= 2.
Proof.
  destruct (X21_rate_limiter_lets_through_at_most_a_burst
              (RateLimiter.mkConfig 10 1000 2 150)
              [RateLimiter.CTryConsume 100; RateLimiter.CRefill 1000]
              [100; 100; 10])
    as (_ & _ & _ & H & _).
  - vm_compute. split; [discriminate | reflexivity].
  - vm_compute. split; [discriminate | reflexivity].
  - repeat constructor; vm_compute; try discriminate; reflexivity.
  - repeat constructor; vm_compute; try discriminate; reflexivity.
  - exact H.
Defined.

(** ** Fragmentation: [fragment_data] and the fragment assembler *)

Section Fragmenting.
Import transport.

Lemma length_chunks (n : nat) (max_fragment : Z) (data : bytes) :
  length (chunks n max_fragment data) = n.
Proof.
  revert data. induction n as [|n IH]; intros data; [reflexivity|].
  cbn [chunks length]. now rewrite IH.
Qed.

Lemma concat_chunks (n : nat) (max_fragment : Z) (data : bytes) :
  0 < max_fragment -> size data <= Z.of_nat n * max_fragment ->
  concat (chunks n max_fragment data) = data.
Proof.
  intros Hmax. revert data. induction n as [|n IH]; intros data Hn.
  - unfold size in Hn. destruct data; [reflexivity|cbn in Hn; lia].
  - cbn [chunks concat]. rewrite IH.
    + apply firstn_skipn.
    + unfold size in *. rewrite length_skipn. lia.
Qed.

Lemma chunks_bounded (n : nat) (max_fragment : Z) (data : bytes) :
  0 <= max_fragment ->
  Forall (fun c => size c <= max_fragment) (chunks n max_fragment data).
Proof.
  intros Hmax. revert data. induction n as [|n IH]; intros data;
    [constructor|].
  cbn [chunks]. constructor; [|apply IH].
  unfold size. rewrite length_firstn. lia.
Qed.

Lemma nth_error_numbered {A : Type} (n k : nat) (cs : list A) (i : nat)
      (a : nat) (c : A) :
  nth_error (combine (seq k n) cs) i = Some (a, c) ->
  a = (k + i)%nat /\ nth_error cs i = Some c.
Proof.
  revert k cs i. induction n as [|n IH]; intros k cs i H.
  - destruct i; discriminate H.
  - destruct cs as [|c0 cs]; [destruct i; discriminate H|].
    destruct i as [|i]; cbn in H.
    + injection H as <- <-. split; [lia | reflexivity].
    + apply IH in H. destruct H as [-> H]. split; [lia | exact H].
Qed.

Lemma map_snd_numbered {A : Type} (cs : list A) (k : nat) :
  map snd (combine (seq k (length cs)) cs) = cs.
Proof.
  revert k. induction cs as [|c cs IH]; intros k; [reflexivity|].
  cbn. now rewrite IH.
Qed.

(** X22.  [fragment_data] cuts a message into numbered pieces that put
    together give the message back.  For an MTU above 44 and a message of
    at most [65535 * (mtu - 44)] bytes it returns
    [ceil(size / (mtu - 44))] FRAGMENT frames; frame number [i] carries
    the message id, the index [i], that total and at most [mtu - 44]
    bytes; the payloads in order concatenate to the message; every frame
    is within its wire types and serializes to at most [mtu - 32] bytes;
    and the message id counter advances by one. *)
Theorem X22_fragments_partition_the_message
        (s : TransportSession) (data : bytes) :
  44 < mtu s < 4294967296 ->
  is_u32 (next_message_id_ s) ->
  size data <= 65535 * (mtu s - 44) ->
  let total := (size data + (mtu s - 44) - 1) / (mtu s - 44) in
  exists frames s',
    fragment_data s data = Some (frames, s') /\
    size frames = total /\
    concat (map fragment_payload frames) = data /\
    (forall i f, nth_error frames i = Some f ->
       exists payload,
         f = packet.FragmentFrame (next_message_id_ s) (Z.of_nat i) total
                                  payload /\
         size payload <= mtu s - 44) /\
    Forall packet.frame_wf frames /\
    Forall (fun f => size (packet.serialize_frame f) <= mtu s - 32) frames /\
    next_message_id_ s' = wrap32 (next_message_id_ s + 1).
Proof.
  intros Hmtu Hid Hsize total.
  pose proof (size_nonneg data) as H0.
  assert (Hmax : max_payload s = mtu s - 44).
  { unfold max_payload, packet.PACKET_HEADER_SIZE, packet.FRAME_HEADER_SIZE,
      crypto.POLY1305_TAG_SIZE.
    rewrite wrap64_small by (unfold two64; lia). lia. }
  assert (Htot : 0 <= total <= 65535 /\
                 size data <= total * (mtu s - 44)).
  { unfold total. split; [split|].
    - apply Z.div_pos; lia.
    - enough ((size data + (mtu s - 44) - 1) / (mtu s - 44) < 65536) by lia.
      apply Z.div_lt_upper_bound; lia.
    - pose proof (Z.div_mod (size data + (mtu s - 44) - 1) (mtu s - 44)
                            ltac:(lia)).
      pose proof (Z.mod_pos_bound (size data + (mtu s - 44) - 1)
                                  (mtu s - 44) ltac:(lia)).
      nia. }
  destruct Htot as [Htot Hcover].
  unfold fragment_data. rewrite Hmax.
  destruct (Z.eqb_spec (mtu s - 44) 0); [lia|].
  rewrite (wrap64_small (size data + (mtu s - 44) - 1))
    by (unfold two64; lia).
  fold total. destruct (Z.ltb_spec 65535 total); [lia|].
  eexists _, _. split; [reflexivity|].
  cbn [next_message_id_].
  assert (Hw : wrap16 total = total)
    by (unfold wrap16; apply Z.mod_small; lia).
  rewrite Hw.
  set (cs := chunks (Z.to_nat total) (mtu s - 44) data).
  assert (Hlen : length cs = Z.to_nat total) by apply length_chunks.
  assert (Hb : Forall (fun c => size c <= mtu s - 44) cs)
    by (apply chunks_bounded; lia).
  assert (Hnth : forall i f,
            nth_error
              (map (fun ic : nat * bytes =>
                      packet.FragmentFrame (next_message_id_ s)
                        (Z.of_nat (fst ic)) total (snd ic))
                   (combine (seq 0 (Z.to_nat total)) cs)) i = Some f ->
            exists payload,
              f = packet.FragmentFrame (next_message_id_ s) (Z.of_nat i)
                                       total payload /\
              size payload <= mtu s - 44 /\ (i < Z.to_nat total)%nat).
  { intros i f Hf. rewrite nth_error_map in Hf.
    destruct (nth_error (combine (seq 0 (Z.to_nat total)) cs) i)
      as [[a c]|] eqn:E; [|discriminate Hf].
    cbn in Hf. injection Hf as <-.
    apply nth_error_numbered in E. destruct E as [-> E].
    exists c. split; [reflexivity|]. split.
    - apply nth_error_In in E.
      now apply (proj1 (Forall_forall _ _) Hb).
    - rewrite <- Hlen. apply nth_error_Some. now rewrite E. }
  split; [|split; [|split; [|split; [|split]]]].
  - unfold size. rewrite length_map, length_combine, length_seq, Hlen. lia.
  - rewrite map_map. cbn [fragment_payload snd].
    rewrite <- (map_map snd (fun c : bytes => c)), map_id.
    rewrite <- Hlen, map_snd_numbered.
    apply concat_chunks; [lia|]. rewrite Z2Nat.id by lia. exact Hcover.
  - intros i f Hf. destruct (Hnth i f Hf) as (p & E & Hp & _).
    exists p. now split.
  - apply Forall_forall. intros f Hin.
    apply In_nth_error in Hin. destruct Hin as [i Hi].
    destruct (Hnth i f Hi) as (p & -> & _ & Hlt).
    cbn [packet.frame_wf]. unfold is_u32, is_u16 in *. lia.
  - apply Forall_forall. intros f Hin.
    apply In_nth_error in Hin. destruct Hin as [i Hi].
    destruct (Hnth i f Hi) as (p & -> & Hp & Hlt).
    rewrite size_serialize_frame. cbn [packet.frame_payload].
    rewrite !size_app. unfold size at 1 2 3.
    cbn [write_u32 write_u16 length map]. unfold packet.FRAME_HEADER_SIZE.
    lia.
  - reflexivity.
Qed.

End Fragmenting.

Section OrdMapUpdates.
Context {V : Type}.

Lemma find_insert_same (k : Z) (v : V) (m : OrdMap.t V) :
  OrdMap.find k (OrdMap.insert k v m) = Some v.
Proof.
  induction m as [|[k0 v0] m IH]; cbn [OrdMap.insert OrdMap.find].
  - now rewrite Z.eqb_refl.
  - destruct (Z.ltb_spec k k0); cbn [OrdMap.find].
    + now rewrite Z.eqb_refl.
    + destruct (Z.eqb_spec k k0); cbn [OrdMap.find].
      * now rewrite Z.eqb_refl.
      * destruct (Z.eqb_spec k0 k); [congruence | exact IH].
Qed.

Lemma find_insert_other (k k' : Z) (v : V) (m : OrdMap.t V) :
  k' <> k -> OrdMap.find k' (OrdMap.insert k v m) = OrdMap.find k' m.
Proof.
  intros Hk. induction m as [|[k0 v0] m IH]; cbn [OrdMap.insert OrdMap.find].
  - destruct (Z.eqb_spec k k'); [congruence | reflexivity].
  - destruct (Z.ltb_spec k k0); cbn [OrdMap.find].
    + destruct (Z.eqb_spec k k'); [congruence | reflexivity].
    + destruct (Z.eqb_spec k k0) as [->|]; cbn [OrdMap.find].
      * destruct (Z.eqb_spec k0 k'); [congruence | reflexivity].
      * destruct (Z.eqb_spec k0 k'); [reflexivity | exact IH].
Qed.

Lemma insert_insert (k : Z) (v1 v2 : V) (m : OrdMap.t V) :
  OrdMap.insert k v2 (OrdMap.insert k v1 m) = OrdMap.insert k v2 m.
Proof.
  induction m as [|[k0 v0] m IH]; cbn [OrdMap.insert].
  - now rewrite Z.ltb_irrefl, Z.eqb_refl.
  - destruct (Z.ltb_spec k k0); cbn [OrdMap.insert].
    + now rewrite Z.ltb_irrefl, Z.eqb_refl.
    + destruct (Z.eqb_spec k k0) as [->|]; cbn [OrdMap.insert].
      * now rewrite Z.ltb_irrefl, Z.eqb_refl.
      * destruct (Z.ltb_spec k k0); [lia|].
        destruct (Z.eqb_spec k k0); [congruence|]. now rewrite IH.
Qed.

Lemma erase_insert_new (k : Z) (v : V) (m : OrdMap.t V) :
  OrdMap.find k m = None -> OrdMap.erase k (OrdMap.insert k v m) = m.
Proof.
  induction m as [|[k0 v0] m IH]; cbn [OrdMap.insert OrdMap.find OrdMap.erase].
  - now rewrite Z.eqb_refl.
  - destruct (Z.eqb_spec k0 k) as [->|Hne]; [discriminate|]. intros Hf.
    destruct (Z.ltb_spec k k0); cbn [OrdMap.erase].
    + now rewrite Z.eqb_refl.
    + destruct (Z.eqb_spec k k0); [congruence|]. cbn [OrdMap.erase].
      destruct (Z.eqb_spec k0 k); [congruence|]. now rewrite IH.
Qed.

End OrdMapUpdates.

Section Assembling.
Import FragmentAssembler.

(** [add_fragment] when the fragment passes every check: [msg] is the
    entry found or emplaced and [pending] the map after that. *)
Lemma add_fragment_stores (a : t) (id i total : Z) (c : bytes) (ts : Z)
      (msg : PendingMessage) (pending : OrdMap.t PendingMessage) :
  total <> 0 -> i < total -> total <= max_fragments_per_message (config_ a) ->
  (OrdMap.find id (pending_ a) = Some msg /\ pending = pending_ a) \/
  (OrdMap.find id (pending_ a) = None /\
   size (pending_ a) < max_pending_messages (config_ a) /\
   msg = mkPending total OrdMap.empty ts 0 /\
   pending = OrdMap.insert id msg (pending_ a)) ->
  total_fragments msg = total ->
  OrdMap.find i (fragments msg) = None ->
  wrap64 (total_bytes msg + size c) <= max_message_size (config_ a) ->
  let msg' :=
    mkPending (total_fragments msg) (OrdMap.insert i c (fragments msg))
              (first_fragment_time_ms msg)
              (wrap64 (total_bytes msg + size c)) in
  add_fragment a id i total c ts =
  if size (fragments msg') =? total_fragments msg' then
    (true,
     mk (config_ a) (OrdMap.erase id pending) (callback_ a)
        (wrap64 (total_fragments_ a + 1))
        (wrap64 (messages_assembled_ a + 1)) (messages_expired_ a),
     match try_assemble msg' with
     | Some assembled => if callback_ a then [(id, assembled)] else []
     | None => []
     end)
  else
    (true,
     mk (config_ a) (OrdMap.insert id msg' pending) (callback_ a)
        (wrap64 (total_fragments_ a + 1))
        (messages_assembled_ a) (messages_expired_ a),
     []).
Proof.
  intros H0 Hi Hmax Hfound Htot Hnew Hsize msg'.
  unfold add_fragment. cbv zeta.
  cbn [config_ pending_ callback_ total_fragments_ messages_assembled_
       messages_expired_].
  destruct (Z.eqb_spec total 0); [contradiction|].
  destruct (Z.leb_spec total i); [lia|]. cbn [orb].
  destruct (Z.ltb_spec (max_fragments_per_message (config_ a)) total); [lia|].
  destruct Hfound as [[Hf ->] | (Hf & Hroom & Hmsg & ->)]; rewrite Hf.
  - rewrite Htot, Z.eqb_refl. cbn [negb].
    unfold OrdMap.count. rewrite Hnew. cbn [Z.ltb Z.compare].
    destruct (Z.ltb_spec (max_message_size (config_ a))
                         (wrap64 (total_bytes msg + size c))); [lia|].
    unfold with_pending. cbn [config_ pending_ callback_ total_fragments_
       messages_assembled_ messages_expired_].
    subst msg'. cbn [fragments total_fragments]. rewrite Htot.
    reflexivity.
  - destruct (Z.leb_spec (max_pending_messages (config_ a))
                         (size (pending_ a))); [lia|].
    rewrite <- Hmsg. rewrite Htot, Z.eqb_refl. cbn [negb].
    unfold OrdMap.count. rewrite Hnew. cbn [Z.ltb Z.compare].
    destruct (Z.ltb_spec (max_message_size (config_ a))
                         (wrap64 (total_bytes msg + size c))); [lia|].
    unfold with_pending. cbn [config_ pending_ callback_ total_fragments_
       messages_assembled_ messages_expired_].
    subst msg'. cbn [fragments total_fragments]. rewrite Htot.
    reflexivity.
Qed.

End Assembling.

Section AssemblingMessage.
Import FragmentAssembler.

Variable cfg : FragmentAssemblerConfig.
Variable others : OrdMap.t PendingMessage.
Variable id : Z.
Variable chunks : list bytes.

Hypothesis id_is_new : OrdMap.find id others = None.
Hypothesis room_for_one :
  size others < max_pending_messages cfg.
Hypothesis few_enough : size chunks <= max_fragments_per_message cfg.
Hypothesis small_enough :
  size (concat chunks) <= max_message_size cfg < two64.

Lemma concatenate_all (l : list bytes) (j : Z) (frags : OrdMap.t bytes) :
  (forall k, (k < length l)%nat ->
     OrdMap.find (j + Z.of_nat k) frags = Some (nth k l [])) ->
  concatenate (length l) j frags = Some (concat l).
Proof.
  revert j. induction l as [|c l IH]; intros j H; [reflexivity|].
  cbn [length concatenate concat].
  pose proof (H O ltac:(cbn; lia)) as H0. cbn [nth] in H0.
  replace (j + Z.of_nat 0) with j in H0 by lia. rewrite H0.
  rewrite IH; [reflexivity|].
  intros k Hk. replace (j + 1 + Z.of_nat k) with (j + Z.of_nat (S k)) by lia.
  apply (H (S k)). cbn. lia.
Qed.

Lemma holds_emplaced (got : list Z) (held : Z) (a : t) (ts : Z) :
  assembler_holds cfg others id chunks got held a ->
  exists msg pending,
    ((OrdMap.find id (pending_ a) = Some msg /\ pending = pending_ a) \/
     (OrdMap.find id (pending_ a) = None /\
      size (pending_ a) < max_pending_messages (config_ a) /\
      msg = mkPending (size chunks) OrdMap.empty ts 0 /\
      pending = OrdMap.insert id msg (pending_ a))) /\
    pending = OrdMap.insert id msg others /\
    assembling (size chunks) chunks got msg /\
    total_bytes msg = held.
Proof.
  intros (Hc & _ & H). destruct got as [|g got].
  - destruct H as [Hp ->].
    exists (mkPending (size chunks) OrdMap.empty ts 0), 
           (OrdMap.insert id (mkPending (size chunks) OrdMap.empty ts 0)
                          others).
    rewrite Hp, Hc. split; [right; repeat split; assumption|].
    split; [reflexivity|]. split; [|reflexivity].
    unfold assembling. cbn [total_fragments fragments].
    repeat split; try reflexivity. intros k [].
  - destruct H as (m & Hp & Hm & Hb).
    exists m, (pending_ a). rewrite Hp.
    split; [left; split; [apply find_insert_same | reflexivity]|].
    split; [reflexivity|]. split; [exact Hm | exact Hb].
Qed.

Lemma assembling_insert (got : list Z) (msg : PendingMessage) (i : Z)
      (ts held : Z) :
  assembling (size chunks) chunks got msg -> ~ In i got ->
  assembling (size chunks) chunks (i :: got)
    (mkPending (total_fragments msg)
       (OrdMap.insert i (nth (Z.to_nat i) chunks []) (fragments msg))
       ts held).
Proof.
  intros (Ht & Hs & Hin & Hout) Hi. unfold assembling.
  cbn [total_fragments fragments]. split; [exact Ht|]. split; [|split].
  - unfold size in *. rewrite length_insert_new by (now apply Hout).
    cbn [length]. lia.
  - intros k [<-|Hk]; [apply find_insert_same|].
    destruct (Z.eq_dec k i) as [->|Hne]; [apply find_insert_same|].
    rewrite find_insert_other by exact Hne. now apply Hin.
  - intros k Hk. rewrite find_insert_other.
    + apply Hout. intros Hg. apply Hk. now right.
    + intros ->. apply Hk. now left.
Qed.

(** A piece that is not the last one is stored. *)
Lemma add_fragment_partial (got : list Z) (held : Z) (a : t) (i ts : Z) :
  assembler_holds cfg others id chunks got held a ->
  0 <= i < size chunks -> ~ In i got -> 0 <= held ->
  held + size (nth (Z.to_nat i) chunks []) <= size (concat chunks) ->
  size got + 1 < size chunks ->
  exists a',
    add_fragment a id i (size chunks) (nth (Z.to_nat i) chunks []) ts
    = (true, a', []) /\
    assembler_holds cfg others id chunks (i :: got)
                    (held + size (nth (Z.to_nat i) chunks [])) a' /\
    messages_assembled_ a' = messages_assembled_ a.
Proof.
  intros Hholds Hi Hnew Hheld Hfit Hmore.
  destruct (holds_emplaced got held a ts Hholds)
    as (msg & pending & Hfound & Hpend & Hmsg & Hbytes).
  destruct Hholds as (Hc & Hcb & _).
  pose proof (size_nonneg (nth (Z.to_nat i) chunks [])) as Hc0.
  assert (Hw : wrap64 (total_bytes msg + size (nth (Z.to_nat i) chunks []))
               = held + size (nth (Z.to_nat i) chunks []))
    by (rewrite Hbytes; apply wrap64_small; lia).
  pose proof (add_fragment_stores a id i (size chunks)
                (nth (Z.to_nat i) chunks []) ts msg pending) as E.
  cbv zeta in E. rewrite E; clear E;
    [| lia | lia | rewrite Hc; exact few_enough | exact Hfound
     | apply Hmsg | now apply Hmsg | rewrite Hw, Hc; lia].
  cbn [fragments total_fragments].
  pose proof (assembling_insert got msg i (first_fragment_time_ms msg)
                (wrap64 (total_bytes msg
                         + size (nth (Z.to_nat i) chunks [])))
                Hmsg Hnew) as Hmsg'.
  destruct Hmsg' as (Ht' & Hs' & Hrest). cbn [total_fragments fragments] in *.
  rewrite Hs', Ht'.
  destruct (Z.eqb_spec (size (i :: got)) (size chunks)) as [Heq|_].
  { unfold size in *. cbn [length] in *. lia. }
  eexists. split; [reflexivity|]. split; [|reflexivity].
  unfold assembler_holds. cbn [config_ callback_ pending_].
  split; [exact Hc|]. split; [exact Hcb|].
  eexists. split; [rewrite Hpend; apply insert_insert|].
  split; [|cbn [total_bytes]; exact Hw].
  unfold assembling. cbn [total_fragments fragments].
  split; [rewrite ?Ht'; reflexivity|]. split; [exact Hs' | exact Hrest].
Qed.

(** The last piece completes the message: the callback gets the pieces
    in index order and the entry is erased. *)
Lemma add_fragment_last (got : list Z) (held : Z) (a : t) (i ts : Z) :
  assembler_holds cfg others id chunks got held a ->
  0 <= i < size chunks -> 0 <= held ->
  held + size (nth (Z.to_nat i) chunks []) <= size (concat chunks) ->
  size got + 1 = size chunks ->
  NoDup (i :: got) -> (forall k, In k got -> 0 <= k < size chunks) ->
  exists a',
    add_fragment a id i (size chunks) (nth (Z.to_nat i) chunks []) ts
    = (true, a', [(id, concat chunks)]) /\
    assembler_holds cfg others id chunks [] 0 a' /\
    messages_assembled_ a' = wrap64 (messages_assembled_ a + 1).
Proof.
  intros Hholds Hi Hheld Hfit Hlast Hnd Hrange.
  assert (Hnew : ~ In i got) by (now inversion Hnd).
  destruct (holds_emplaced got held a ts Hholds)
    as (msg & pending & Hfound & Hpend & Hmsg & Hbytes).
  destruct Hholds as (Hc & Hcb & _).
  pose proof (size_nonneg (nth (Z.to_nat i) chunks [])) as Hc0.
  assert (Hw : wrap64 (total_bytes msg + size (nth (Z.to_nat i) chunks []))
               = held + size (nth (Z.to_nat i) chunks []))
    by (rewrite Hbytes; apply wrap64_small; lia).
  pose proof (add_fragment_stores a id i (size chunks)
                (nth (Z.to_nat i) chunks []) ts msg pending) as E.
  cbv zeta in E. rewrite E; clear E;
    [| lia | lia | rewrite Hc; exact few_enough | exact Hfound
     | apply Hmsg | now apply Hmsg | rewrite Hw, Hc; lia].
  cbn [fragments total_fragments].
  pose proof (assembling_insert got msg i (first_fragment_time_ms msg)
                (wrap64 (total_bytes msg
                         + size (nth (Z.to_nat i) chunks [])))
                Hmsg Hnew) as Hmsg'.
  destruct Hmsg' as (Ht' & Hs' & Hin' & _).
  cbn [total_fragments fragments] in *.
  rewrite Hs', Ht'.
  destruct (Z.eqb_spec (size (i :: got)) (size chunks)) as [_|Hne];
    [|unfold size in *; cbn [length] in *; lia].
  assert (Hall : forall k, (k < length chunks)%nat -> In (Z.of_nat k) (i :: got)).
  { intros k Hk.
    apply (NoDup_length_incl Hnd (l' := map Z.of_nat (seq 0 (length chunks)))).
    - rewrite length_map, length_seq. unfold size in *.
      cbn [length] in *. lia.
    - intros x Hx. apply in_map_iff.
      assert (0 <= x < size chunks)
        by (destruct Hx as [<-|Hx]; [exact Hi | now apply Hrange]).
      exists (Z.to_nat x). split; [lia|]. apply in_seq.
      unfold size in *. lia.
    - apply in_map. apply in_seq. lia. }
  unfold try_assemble. cbn [fragments total_fragments].
  rewrite ?Hs', ?Ht'.
  destruct (Z.eqb_spec (size (i :: got)) (size chunks)) as [_|Hne];
    [|unfold size in *; cbn [length] in *; lia].
  cbn [negb].
  replace (Z.to_nat (size chunks)) with (length chunks)
    by (unfold size; now rewrite Nat2Z.id).
  rewrite concatenate_all.
  - rewrite Hcb. eexists. split; [reflexivity|]. split; [|reflexivity].
    unfold assembler_holds. cbn [config_ callback_ pending_].
    split; [exact Hc|]. split; [reflexivity|]. split; [|reflexivity].
    rewrite Hpend. now apply erase_insert_new.
  - intros k Hk. cbn [Z.add]. rewrite (Hin' (Z.of_nat k) (Hall k Hk)).
    now rewrite Nat2Z.id.
Qed.

End AssemblingMessage.

Lemma sum_sizes_app (l1 l2 : list Z) :
  sum_sizes (l1 ++ l2) = sum_sizes l1 + sum_sizes l2.
Proof.
  unfold sum_sizes. induction l1 as [|x l1 IH]; cbn [app fold_right]; lia.
Qed.

Lemma sum_sizes_perm (l1 l2 : list Z) :
  Permutation l1 l2 -> sum_sizes l1 = sum_sizes l2.
Proof.
  unfold sum_sizes.
  induction 1; cbn [fold_right]; lia.
Qed.

Lemma sum_sizes_concat (cs : list bytes) :
  sum_sizes (map size cs) = size (concat cs).
Proof.
  unfold sum_sizes. induction cs as [|c cs IH]; [reflexivity|].
  cbn [map fold_right concat]. rewrite size_app. lia.
Qed.

Lemma map_nth_numbered {A B : Type} (g : A -> B) (d : A) (cs : list A)
      (j : nat) :
  map (fun k => g (nth (k - j) cs d)) (seq j (length cs)) = map g cs.
Proof.
  revert j. induction cs as [|c cs IH]; intros j; [reflexivity|].
  cbn [length seq map]. rewrite Nat.sub_diag. cbn [nth]. f_equal.
  rewrite <- (IH (S j)). apply map_ext_in. intros k Hk.
  apply in_seq in Hk. replace (k - j)%nat with (S (k - S j)) by lia.
  reflexivity.
Qed.

Section Reassembly.
Import transport.
Context {sodium : Sodium}.

Variable cfg : FragmentAssembler.FragmentAssemblerConfig.
Variable others : OrdMap.t FragmentAssembler.PendingMessage.
Variable id : Z.
Variable chunks : list bytes.

Hypothesis id_is_new : OrdMap.find id others = None.
Hypothesis room_for_one :
  size others < FragmentAssembler.max_pending_messages cfg.
Hypothesis few_enough :
  size chunks <= FragmentAssembler.max_fragments_per_message cfg.
Hypothesis small_enough :
  size (concat chunks) <= FragmentAssembler.max_message_size cfg < two64.

Let piece_size (k : Z) : Z := size (nth (Z.to_nat k) chunks []).

Lemma handle_frames_cons (r : Receiver) (f : packet.Frame)
      (fs : list packet.Frame) (clock now : nat -> Z) :
  handle_frames r (f :: fs) clock now
  = match handle_frame r f (clock O) (now O) with
    | None => None
    | Some r1 =>
        handle_frames r1 fs (fun i => clock (S i)) (fun i => now (S i))
    end.
Proof. reflexivity. Qed.

Lemma handle_fragments (ks : list Z) :
  forall (k : Z) (got : list Z) (held : Z) (r : Receiver)
         (clock now : nat -> Z),
  assembler_holds cfg others id chunks got held (fragment_assembler_ r) ->
  data_callback_ r = true ->
  NoDup ((k :: ks) ++ got) ->
  (forall j, In j ((k :: ks) ++ got) -> 0 <= j < size chunks) ->
  size got + size (k :: ks) = size chunks ->
  0 <= held ->
  held + sum_sizes (map piece_size (k :: ks)) <= size (concat chunks) ->
  exists r',
    handle_frames r (map (fragment_of id chunks) (k :: ks)) clock now
    = Some r' /\
    delivered_ r' = delivered_ r ++ [concat chunks] /\
    assembler_holds cfg others id chunks [] 0 (fragment_assembler_ r') /\
    messages_assembled (receive_stats_ r')
    = wrap64 (messages_assembled (receive_stats_ r) + 1) /\
    session r' = session r /\
    reorder_buffer_ r' = reorder_buffer_ r /\
    replay_window_ r' = replay_window_ r.
Proof.
  induction ks as [|k2 ks IH];
    intros k got held r clock now Hholds Hcb Hnd Hrange Hcount Hheld Hfit.
  - cbn [map handle_frames handle_frame fragment_of].
    unfold handle_fragment_frame.
    cbn [app] in Hnd, Hrange.
    unfold sum_sizes in Hfit. cbn [map fold_right] in Hfit.
    unfold piece_size in Hfit.
    destruct (add_fragment_last cfg others id chunks id_is_new room_for_one
                few_enough small_enough got held (fragment_assembler_ r)
                k (now O) Hholds)
      as (a' & E & Hholds' & Hasm);
      [apply Hrange; now left | exact Hheld | lia
      | unfold size in *; cbn [length] in *; lia | exact Hnd
      | intros j Hj; apply Hrange; now right|].
    rewrite E. eexists. split; [reflexivity|].
    cbn [delivered_ fragment_assembler_ receive_stats_ messages_assembled
         session reorder_buffer_ replay_window_].
    unfold hand_to_application, count_calls. rewrite Hcb.
    cbn [map snd fold_left].
    split; [reflexivity|]. split; [exact Hholds'|]. repeat split.
  - change (map (fragment_of id chunks) (k :: k2 :: ks))
      with (fragment_of id chunks k :: map (fragment_of id chunks) (k2 :: ks)).
    rewrite handle_frames_cons. unfold fragment_of at 1.
    cbn [handle_frame]. unfold handle_fragment_frame.
    pose proof (size_nonneg (map piece_size ks)) as Hs0.
    assert (Hin : forall j, In j (k2 :: ks) -> 0 <= piece_size j).
    { intros j _. unfold piece_size. apply size_nonneg. }
    assert (Hsum : 0 <= sum_sizes (map piece_size (k2 :: ks))).
    { clear -Hin. induction (k2 :: ks) as [|x l IHl];
        [unfold sum_sizes; cbn; lia|].
      unfold sum_sizes in *. cbn [map fold_right].
      pose proof (Hin x ltac:(now left)).
      specialize (IHl ltac:(intros j Hj; apply Hin; now right)). lia. }
    change (map piece_size (k :: k2 :: ks))
      with (piece_size k :: map piece_size (k2 :: ks)) in Hfit.
    unfold sum_sizes in Hfit. cbn [fold_right] in Hfit.
    fold (sum_sizes (map piece_size (k2 :: ks))) in Hfit.
    assert (Hk : ~ In k got).
    { inversion Hnd as [|? ? Hn _]; subst. intros Hg. apply Hn.
      change (In k ((k2 :: ks) ++ got)). apply in_app_iff. now right. }
    destruct (add_fragment_partial cfg others id chunks id_is_new
                room_for_one few_enough small_enough got held
                (fragment_assembler_ r) k (now O) Hholds)
      as (a' & E & Hholds' & Hasm);
      [apply Hrange; now left | exact Hk | exact Hheld
      | unfold piece_size in *; lia
      | unfold size in *; cbn [length] in *; lia|].
    rewrite E.
    match goal with
    | |- context [handle_frames ?r1 _ ?c1 ?n1] =>
        destruct (IH k2 (k :: got) (held + piece_size k) r1 c1 n1)
          as (r' & Hr' & Hd & Ha & Hm & Hs & Hb & Hw)
    end.
    + exact Hholds'.
    + exact Hcb.
    + apply (Permutation_NoDup (l := (k :: k2 :: ks) ++ got)); [|exact Hnd].
      cbn [app]. apply (Permutation_middle (k2 :: ks) got k).
    + intros j Hj. apply Hrange.
      apply (Permutation_in (l := (k2 :: ks) ++ k :: got)); [|exact Hj].
      cbn [app]. symmetry. apply (Permutation_middle (k2 :: ks) got k).
    + unfold size in *. cbn [length] in *. lia.
    + unfold piece_size. pose proof (size_nonneg (nth (Z.to_nat k) chunks [])).
      lia.
    + lia.
    + exists r'. split; [exact Hr'|].
      cbn [delivered_ fragment_assembler_ receive_stats_ messages_assembled
           session reorder_buffer_ replay_window_] in Hd, Hm, Hs, Hb, Hw.
      unfold hand_to_application, count_calls in Hd, Hm.
      cbn [map snd fold_left] in Hd, Hm.
      rewrite Hcb, app_nil_r in Hd.
      split; [exact Hd|]. split; [exact Ha|]. split; [exact Hm|].
      split; [exact Hs|]. split; [exact Hb | exact Hw].
Qed.

End Reassembly.

Section FragmentsInAnyOrder.
Import transport.
Context {sodium : Sodium}.

Lemma numbered_as_nth {A B : Type} (G : nat -> A -> B) (d : A)
      (cs : list A) (j : nat) :
  map (fun ic => G (fst ic) (snd ic)) (combine (seq j (length cs)) cs)
  = map (fun k => G k (nth (k - j) cs d)) (seq j (length cs)).
Proof.
  revert j. induction cs as [|c cs IH]; intros j; [reflexivity|].
  cbn [length seq combine map fst snd]. rewrite Nat.sub_diag. cbn [nth].
  f_equal. rewrite IH. apply map_ext_in. intros k Hk.
  apply in_seq in Hk. replace (k - j)%nat with (S (k - S j)) by lia.
  reflexivity.
Qed.

Lemma fragment_data_frames (s : TransportSession) (data : bytes) :
  44 < mtu s < 4294967296 ->
  size data <= 65535 * (mtu s - 44) ->
  let total := (size data + (mtu s - 44) - 1) / (mtu s - 44) in
  let cs := chunks (Z.to_nat total) (mtu s - 44) data in
  exists s',
    fragment_data s data
    = Some (map (fragment_of (next_message_id_ s) cs)
                (map Z.of_nat (seq 0 (length cs))), s') /\
    concat cs = data /\ size cs = total /\
    send_sequence_ s' = send_sequence_ s /\
    session_rotator_ s' = session_rotator_ s /\
    session_keys_ s' = session_keys_ s /\
    datagrams_ s' = datagrams_ s /\
    rate_limiter_ s' = rate_limiter_ s /\ state_ s' = state_ s /\
    mtu s' = mtu s.
Proof.
  intros Hmtu Hsize total cs.
  pose proof (size_nonneg data) as H0.
  assert (Hmax : max_payload s = mtu s - 44).
  { unfold max_payload, packet.PACKET_HEADER_SIZE, packet.FRAME_HEADER_SIZE,
      crypto.POLY1305_TAG_SIZE.
    rewrite wrap64_small by (unfold two64; lia). lia. }
  assert (Htot : 0 <= total <= 65535 /\
                 size data <= total * (mtu s - 44)).
  { unfold total. split; [split|].
    - apply Z.div_pos; lia.
    - enough ((size data + (mtu s - 44) - 1) / (mtu s - 44) < 65536) by lia.
      apply Z.div_lt_upper_bound; lia.
    - pose proof (Z.div_mod (size data + (mtu s - 44) - 1) (mtu s - 44)
                            ltac:(lia)).
      pose proof (Z.mod_pos_bound (size data + (mtu s - 44) - 1)
                                  (mtu s - 44) ltac:(lia)).
      nia. }
  destruct Htot as [Htot Hcover].
  assert (Hlen : length cs = Z.to_nat total) by apply length_chunks.
  assert (Hcs : size cs = total) by (unfold size; rewrite Hlen; lia).
  unfold fragment_data. rewrite Hmax.
  destruct (Z.eqb_spec (mtu s - 44) 0); [lia|].
  rewrite (wrap64_small (size data + (mtu s - 44) - 1))
    by (unfold two64; lia).
  fold total. destruct (Z.ltb_spec 65535 total); [lia|].
  eexists. split.
  { f_equal. f_equal. fold cs. rewrite <- Hlen.
    rewrite (numbered_as_nth
               (fun k c => packet.FragmentFrame (next_message_id_ s)
                             (Z.of_nat k) (wrap16 total) c) []).
    rewrite map_map. apply map_ext. intros k.
    unfold fragment_of. rewrite Nat2Z.id, Nat.sub_0_r, Hcs.
    f_equal. unfold wrap16. apply Z.mod_small. lia. }
  split.
  { apply concat_chunks; [lia|]. rewrite Z2Nat.id by lia. exact Hcover. }
  split; [exact Hcs|]. repeat split.
Qed.

(** X23.  A fragmented message is put together again whatever the order
    of arrival.  When the FRAGMENT frames that [fragment_data] makes of a
    non-empty message reach [handle_frame] in any order, the receiver
    hands the message to the data callback exactly once, on the last
    frame, counts one assembled message and is left with the pending
    messages it had before; this needs room for one more pending message,
    a message id that is not pending, and a message within
    [max_fragments_per_message] and [max_message_size]. *)
Theorem X23_fragments_reassemble_in_any_order
        (s s' : TransportSession) (data : bytes) (r : Receiver)
        (frames arrival : list packet.Frame) (clock now : nat -> Z) :
  44 < mtu s < 4294967296 ->
  0 < size data <= 65535 * (mtu s - 44) ->
  fragment_data s data = Some (frames, s') ->
  Permutation arrival frames ->
  let a := fragment_assembler_ r in
  FragmentAssembler.callback_ a = true ->
  data_callback_ r = true ->
  OrdMap.find (next_message_id_ s) (FragmentAssembler.pending_ a) = None ->
  size (FragmentAssembler.pending_ a)
    < FragmentAssembler.max_pending_messages (FragmentAssembler.config_ a) ->
  size frames
    <= FragmentAssembler.max_fragments_per_message
         (FragmentAssembler.config_ a) ->
  size data
    <= FragmentAssembler.max_message_size (FragmentAssembler.config_ a)
    < two64 ->
  exists r',
    handle_frames r arrival clock now = Some r' /\
    delivered_ r' = delivered_ r ++ [data] /\
    FragmentAssembler.pending_ (fragment_assembler_ r')
    = FragmentAssembler.pending_ a /\
    messages_assembled (receive_stats_ r')
    = wrap64 (messages_assembled (receive_stats_ r) + 1).
Proof.
  intros Hmtu Hsize Hfrag Hperm a Hacb Hdcb Hnew Hroom Hfew Hsmall.
  destruct (fragment_data_frames s data Hmtu ltac:(lia))
    as (s0 & E & Hconcat & Htotal & _).
  set (cs := chunks
               (Z.to_nat ((size data + (mtu s - 44) - 1) / (mtu s - 44)))
               (mtu s - 44) data) in *.
  rewrite E in Hfrag. injection Hfrag as <- <-.
  apply Permutation_map_inv in Hperm. destruct Hperm as (ks & -> & Hks).
  assert (Hidx : forall j, In j ks -> 0 <= j < size cs).
  { intros j Hj. apply (Permutation_in _ (Permutation_sym Hks)) in Hj.
    apply in_map_iff in Hj. destruct Hj as (k & <- & Hk).
    apply in_seq in Hk. unfold size. lia. }
  assert (Hnd : NoDup ks).
  { apply (Permutation_NoDup Hks).
    apply Finite.Injective_map_NoDup; [|apply seq_NoDup].
    intros x y. apply Nat2Z.inj. }
  assert (Hlen : length ks = length cs).
  { rewrite <- (Permutation_length Hks), length_map, length_seq.
    reflexivity. }
  assert (Hsum : sum_sizes (map (fun k => size (nth (Z.to_nat k) cs [])) ks)
                 = size (concat cs)).
  { rewrite <- (sum_sizes_perm _ _
                  (Permutation_map
                     (fun k => size (nth (Z.to_nat k) cs [])) Hks)).
    rewrite map_map, <- sum_sizes_concat.
    rewrite <- (map_nth_numbered size [] cs 0). f_equal.
    apply map_ext. intros k. now rewrite Nat2Z.id, Nat.sub_0_r. }
  assert (Hpos : 0 < size cs).
  { rewrite Htotal. apply Z.div_str_pos. lia. }
  destruct ks as [|k ks]; [unfold size in Hpos; cbn in Hlen; lia|].
  unfold size in Hfew. rewrite !length_map, length_seq in Hfew.
  fold (size cs) in Hfew.
  destruct (handle_fragments (FragmentAssembler.config_ a)
              (FragmentAssembler.pending_ a) (next_message_id_ s) cs
              Hnew Hroom Hfew ltac:(rewrite Hconcat; exact Hsmall)
              ks k [] 0 r clock now)
    as (r' & Hr' & Hd & Ha & Hm & _).
  - unfold assembler_holds. fold a. repeat split; [exact Hacb].
  - exact Hdcb.
  - now rewrite app_nil_r.
  - intros j Hj. rewrite app_nil_r in Hj. now apply Hidx.
  - unfold size in *. cbn [length] in *. lia.
  - lia.
  - rewrite Hsum. lia.
  - exists r'. rewrite <- Hconcat.
    destruct Ha as (_ & _ & Hp & _).
    split; [exact Hr'|]. split; [exact Hd|]. split; [exact Hp | exact Hm].
Qed.

End FragmentsInAnyOrder.

(** ** Transport session: the receive path *)

Section ReceivePath.
Import transport.
Context {sodium : Sodium}.

Lemma read_u64_range (data : bytes) : is_u64 (read_u64 data).
Proof.
  unfold read_u64, read_be.
  assert (H : forall l acc, is_u64 acc ->
            is_u64 (fold_left
                      (fun value b => wrap64 (Z.lor (Z.shiftl value 8) b))
                      l acc)).
  { induction l as [|b l IH]; intros acc Hacc; [exact Hacc|].
    cbn [fold_left]. apply IH. apply wrap64_range. }
  apply H. unfold is_u64, two64. lia.
Qed.

(** [send_packet_internal] leaves the session id, the keys and the state
    alone. *)
Lemma send_packet_internal_keeps (s : TransportSession) (f : packet.Frame)
      (now : Z) (ok : bool) (s' : TransportSession) :
  send_packet_internal s f now = Some (ok, s') ->
  SessionRotator.current_session_id (session_rotator_ s')
  = SessionRotator.current_session_id (session_rotator_ s) /\
  session_keys_ s' = session_keys_ s /\ state_ s' = state_ s /\
  mtu s' = mtu s.
Proof.
  unfold send_packet_internal.
  destruct (RateLimiter.try_consume _ _) as [admitted limiter].
  destruct admitted; cbn [negb].
  2:{ intros E. injection E as _ <-. repeat split. }
  destruct (packet.add_frame _ f) as [added builder].
  destruct added; cbn [negb].
  2:{ intros E. injection E as _ <-. repeat split. }
  destruct (packet.build builder (send_sequence_ s)) as [[pkt|] builder'];
    [|discriminate].
  intros E. injection E as _ <-.
  cbn [session_rotator_ session_keys_ state_ mtu].
  destruct (socket_send_to s pkt); repeat split.
Qed.

Lemma send_handshake_messages_keeps (msgs : list bytes) :
  forall (s : TransportSession) (stage now : Z) (s' : TransportSession),
  send_handshake_messages s stage msgs now = Some s' ->
  SessionRotator.current_session_id (session_rotator_ s')
  = SessionRotator.current_session_id (session_rotator_ s).
Proof.
  induction msgs as [|m msgs IH]; intros s stage now s' E.
  - injection E as <-. reflexivity.
  - cbn [send_handshake_messages] in E.
    destruct (send_packet_internal s _ now) as [[ok s1]|] eqn:E1;
      [|discriminate].
    apply IH in E. apply send_packet_internal_keeps in E1.
    destruct E1 as [E1 _]. congruence.
Qed.

Lemma set_state_keeps (s : TransportSession) (st : SessionState) :
  session_rotator_ (set_state s st) = session_rotator_ s.
Proof. unfold set_state. now destruct (state_eqb _ _). Qed.

(** No frame handler touches the replay window or the session id. *)
Lemma handle_frame_keeps (r : Receiver) (f : packet.Frame) (clock now : Z)
      (r' : Receiver) :
  handle_frame r f clock now = Some r' ->
  replay_window_ r' = replay_window_ r /\
  SessionRotator.current_session_id (session_rotator_ (session r'))
  = SessionRotator.current_session_id (session_rotator_ (session r)).
Proof.
  destruct f as [seq payload|ack bm w|ty ts d|m i n payload|stage payload
                |sid act]; cbn [handle_frame].
  - unfold handle_data_frame.
    destruct (ReorderBuffer.insert _ _ _ _) as [ok buffer].
    destruct (ReorderBuffer.deliver buffer) as [[buffer' calls] n].
    destruct (_ <? _).
    + unfold send_ack. cbn [session ack_bitmap_ reorder_buffer_].
      destruct (send_packet_internal _ _ _) as [[ok' s']|] eqn:E;
        [|discriminate].
      intros H. injection H as <-. cbn [replay_window_ session].
      apply send_packet_internal_keeps in E. now destruct E as [E _].
    + intros H. injection H as <-. now split.
  - intros H. injection H as <-. now split.
  - unfold handle_control_frame.
    destruct (ty =? packet.PING).
    { unfold send_pong. destruct (is_connected (session r)); cbn [negb].
      - destruct (send_packet_internal _ _ _) as [[ok' s']|] eqn:E;
          [|discriminate].
        intros H. injection H as <-. cbn [with_session replay_window_ session].
        apply send_packet_internal_keeps in E. now destruct E as [E _].
      - intros H. injection H as <-. now split. }
    destruct (ty =? packet.PONG); [intros H; injection H as <-; now split|].
    destruct (ty =? CLOSE).
    { intros H. injection H as <-. cbn [with_session replay_window_ session].
      now rewrite set_state_keeps. }
    destruct (ty =? RESET).
    { intros H. injection H as <-. cbn [with_session replay_window_ session].
      now rewrite set_state_keeps. }
    intros H. injection H as <-. now split.
  - intros H. injection H as <-. unfold handle_fragment_frame.
    destruct (FragmentAssembler.add_fragment _ _ _ _ _ _) as [[ok a] calls].
    now split.
  - unfold handle_handshake_frame.
    destruct (handshake_ r) as [hs|]; [|intros H; injection H as <-; now split].
    destruct (handshake.process_message hs payload clock)
      as [[complete hs'] msgs].
    destruct (send_handshake_messages _ _ _ _) as [s1|] eqn:E; [|discriminate].
    apply send_handshake_messages_keeps in E.
    destruct complete.
    + destruct (handshake.result hs') as [res|];
        intros H; injection H as <-;
        cbn [replay_window_ session count_handshake_failure
             with_receive_stats];
        rewrite ?set_state_keeps; cbn [session_rotator_]; now split.
    + destruct (handshake.state_eqb _ _);
        intros H; injection H as <-;
        cbn [replay_window_ session count_handshake_failure
             with_receive_stats]; now split.
  - intros H. injection H as <-. now split.
Qed.

Lemma handle_frames_keeps (fs : list packet.Frame) :
  forall (r : Receiver) (clock now : nat -> Z) (r' : Receiver),
  handle_frames r fs clock now = Some r' ->
  replay_window_ r' = replay_window_ r /\
  SessionRotator.current_session_id (session_rotator_ (session r'))
  = SessionRotator.current_session_id (session_rotator_ (session r)).
Proof.
  induction fs as [|f fs IH]; intros r clock now r' E.
  - injection E as <-. now split.
  - cbn [handle_frames] in E.
    destruct (handle_frame r f (clock O) (now O)) as [r1|] eqn:E1;
      [|discriminate].
    apply IH in E. apply handle_frame_keeps in E1.
    destruct E as [A B], E1 as [A1 B1]. split; congruence.
Qed.

(** What one datagram does to the replay window: one
    [check_and_update] with the counter of its header when the header
    carries the session id, and nothing otherwise. *)
Lemma handle_received_packet_window (r : Receiver) (data : bytes)
      (clock now : nat -> Z) (r' : Receiver) :
  handle_received_packet r data clock now = Some r' ->
  SessionRotator.current_session_id (session_rotator_ (session r'))
  = SessionRotator.current_session_id (session_rotator_ (session r)) /\
  replay_window_ r'
  = match packet.parse_packet_header data with
    | Some header =>
        if packet.ph_session_id header
           =? SessionRotator.current_session_id
                (session_rotator_ (session r))
        then snd (ReplayWindow.check_and_update
                    (replay_window_ r) (packet.ph_packet_counter header))
        else replay_window_ r
    | None => replay_window_ r
    end.
Proof.
  unfold handle_received_packet. cbv zeta.
  destruct (packet.parse_packet_header data) as [header|];
    [|intros H; injection H as <-; now split].
  cbn [with_receive_stats session replay_window_].
  destruct (Z.eqb_spec (packet.ph_session_id header)
              (SessionRotator.current_session_id
                 (session_rotator_ (session r)))) as [Hid|];
    cbn [negb]; [|intros H; injection H as <-; now split].
  destruct (ReplayWindow.check_and_update _ _) as [fresh window] eqn:Ew.
  cbn [snd].
  destruct fresh; cbn [negb]; [|intros H; injection H as <-; now split].
  destruct (packet.parse _ data) as [[parsed|] error].
  - intros H. apply handle_frames_keeps in H. destruct H as [A B].
    cbn [replay_window_ session session_rotator_] in A, B. now split.
  - intros H. injection H as <-. now split.
Qed.

Lemma header_counter_range (data : bytes) (header : packet.PacketHeader) :
  packet.parse_packet_header data = Some header ->
  is_u64 (packet.ph_packet_counter header).
Proof.
  unfold packet.parse_packet_header. destruct (_ <? _); [discriminate|].
  intros H. injection H as <-. apply read_u64_range.
Qed.

Lemma refused_is_seen (w : ReplayWindow.t) (c : Z) :
  is_u64 (ReplayWindow.highest_seq_ w) -> 0 <= c < two64 - 64 ->
  ReplayWindow.check w c = false -> ReplayWindow.seen w c.
Proof.
  intros Hh Hc. unfold ReplayWindow.seen, ReplayWindow.check,
    ReplayWindow.WINDOW_SIZE.
  destruct (ReplayWindow.initialized_ w); cbn [negb]; [|discriminate].
  rewrite (wrap64_small (c + 64)) by lia.
  destruct (Z.leb_spec (c + 64) (ReplayWindow.highest_seq_ w)).
  - intros _. repeat split; try apply Hh; lia.
  - destruct (Z.ltb_spec (ReplayWindow.highest_seq_ w) c); [discriminate|].
    intros E. rewrite E. repeat split; try apply Hh; lia.
Qed.

Lemma receive_keeps_seen (r : Receiver) (a : Arrival) (r' : Receiver)
      (c : Z) :
  is_u64 c -> receive r a = Some r' ->
  ReplayWindow.seen (replay_window_ r) c ->
  ReplayWindow.seen (replay_window_ r') c /\
  SessionRotator.current_session_id (session_rotator_ (session r'))
  = SessionRotator.current_session_id (session_rotator_ (session r)).
Proof.
  intros Hc E Hseen. unfold receive in E.
  apply handle_received_packet_window in E. destruct E as [Hid Hw].
  split; [|exact Hid]. rewrite Hw.
  destruct (packet.parse_packet_header (datagram a)) as [header|] eqn:Eh;
    [|exact Hseen].
  destruct (_ =? _); [|exact Hseen].
  apply check_and_update_keeps_seen; [exact Hc | | exact Hseen].
  now apply (header_counter_range (datagram a)).
Qed.

Lemma receive_all_keeps_seen (arrivals : list Arrival) :
  forall (r r' : Receiver) (c : Z),
  is_u64 c -> receive_all r arrivals = Some r' ->
  ReplayWindow.seen (replay_window_ r) c ->
  ReplayWindow.seen (replay_window_ r') c /\
  SessionRotator.current_session_id (session_rotator_ (session r'))
  = SessionRotator.current_session_id (session_rotator_ (session r)).
Proof.
  induction arrivals as [|a arrivals IH]; intros r r' c Hc E Hseen.
  - injection E as <-. now split.
  - cbn [receive_all] in E.
    destruct (receive r a) as [r1|] eqn:E1; [|discriminate].
    destruct (receive_keeps_seen r a r1 c Hc E1 Hseen) as [S1 I1].
    destruct (IH r1 r' c Hc E S1) as [S2 I2]. split; congruence.
Qed.

(** X24.  A datagram is handled at most once.  After a datagram that
    carries the session id and a counter below [2^64 - 64] has been
    given to [handle_received_packet], every datagram with the same
    16-byte header that arrives later, whatever was received in between,
    is dropped by the replay check before it is decrypted: only
    [packets_received], [bytes_received] and [packets_dropped_replay]
    change. *)
Theorem X24_a_datagram_is_handled_at_most_once
        (r r1 r2 : Receiver) (first again : Arrival)
        (between : list Arrival) (header : packet.PacketHeader) :
  is_u64 (ReplayWindow.highest_seq_ (replay_window_ r)) ->
  packet.parse_packet_header (datagram first) = Some header ->
  packet.parse_packet_header (datagram again) = Some header ->
  packet.ph_session_id header
  = SessionRotator.current_session_id (session_rotator_ (session r)) ->
  packet.ph_packet_counter header < two64 - 64 ->
  receive r first = Some r1 ->
  receive_all r1 between = Some r2 ->
  let st := receive_stats_ r2 in
  receive r2 again
  = Some (with_receive_stats r2
            (mkReceiveStats
               (wrap64 (packets_received st + 1))
               (wrap64 (bytes_received st + size (datagram again)))
               (wrap64 (packets_dropped_replay st + 1))
               (packets_retransmitted st) (messages_assembled st)
               (handshake_failures st) (decryption_failures st))).
Proof.
  intros Hh Hfirst Hagain Hid Hc E1 E2 st.
  pose proof (header_counter_range _ _ Hfirst) as Hu.
  assert (S1 : ReplayWindow.seen (replay_window_ r1)
                                 (packet.ph_packet_counter header) /\
               SessionRotator.current_session_id
                 (session_rotator_ (session r1))
               = SessionRotator.current_session_id
                   (session_rotator_ (session r))).
  { unfold receive in E1. apply handle_received_packet_window in E1.
    destruct E1 as [I1 W1]. split; [|exact I1].
    rewrite W1, Hfirst, Hid, Z.eqb_refl.
    unfold ReplayWindow.check_and_update.
    destruct (ReplayWindow.check (replay_window_ r)
                (packet.ph_packet_counter header)) eqn:Ec; cbn [negb snd].
    - now apply update_records.
    - apply refused_is_seen; [exact Hh | unfold is_u64 in Hu; lia
                             | exact Ec]. }
  destruct S1 as [S1 I1].
  destruct (receive_all_keeps_seen between r1 r2 _ Hu E2 S1) as [S2 I2].
  destruct S2 as (_ & _ & _ & Hchk).
  unfold receive, handle_received_packet. cbv zeta.
  rewrite Hagain. cbn [with_receive_stats session replay_window_].
  rewrite Hid, <- I1, <- I2, Z.eqb_refl. cbn [negb].
  unfold ReplayWindow.check_and_update. rewrite Hchk. cbn [negb].
  reflexivity.
Qed.

(** X27.  The replay window moves before authentication.  Once a
    datagram with the session id and a counter below [2^64 - 64] has
    been given to [handle_received_packet], whether it authenticates or
    not, the window's highest counter is at least that counter, and
    every later datagram whose counter is 64 or more behind it is
    dropped by the replay check: only [packets_received],
    [bytes_received] and [packets_dropped_replay] change. *)
Theorem X27_replay_window_moves_before_authentication
        (r r1 : Receiver) (ahead behind : Arrival)
        (header_a header_b : packet.PacketHeader) :
  is_u64 (ReplayWindow.highest_seq_ (replay_window_ r)) ->
  packet.parse_packet_header (datagram ahead) = Some header_a ->
  packet.parse_packet_header (datagram behind) = Some header_b ->
  packet.ph_session_id header_a
  = SessionRotator.current_session_id (session_rotator_ (session r)) ->
  packet.ph_session_id header_b
  = SessionRotator.current_session_id (session_rotator_ (session r)) ->
  packet.ph_packet_counter header_b + 64
    <= packet.ph_packet_counter header_a < two64 - 64 ->
  receive r ahead = Some r1 ->
  packet.ph_packet_counter header_a
    <= ReplayWindow.highest_seq_ (replay_window_ r1) /\
  let st := receive_stats_ r1 in
  receive r1 behind
  = Some (with_receive_stats r1
            (mkReceiveStats
               (wrap64 (packets_received st + 1))
               (wrap64 (bytes_received st + size (datagram behind)))
               (wrap64 (packets_dropped_replay st + 1))
               (packets_retransmitted st) (messages_assembled st)
               (handshake_failures st) (decryption_failures st))).
Proof.
  intros Hh Ha Hb Hida Hidb Hc E1.
  pose proof (header_counter_range _ _ Ha) as Hua.
  pose proof (header_counter_range _ _ Hb) as Hub.
  unfold receive in E1. apply handle_received_packet_window in E1.
  destruct E1 as [I1 W1].
  rewrite Ha, Hida, Z.eqb_refl in W1.
  assert (S1 : ReplayWindow.seen (replay_window_ r1)
                                 (packet.ph_packet_counter header_a)).
  { rewrite W1. unfold ReplayWindow.check_and_update.
    destruct (ReplayWindow.check (replay_window_ r)
                (packet.ph_packet_counter header_a)) eqn:Ec; cbn [negb snd].
    - now apply update_records.
    - apply refused_is_seen; [exact Hh | unfold is_u64 in Hua; lia
                             | exact Ec]. }
  destruct S1 as (Hinit & Hhigh & Hle & _).
  split; [exact Hle|]. intros st.
  unfold receive, handle_received_packet. cbv zeta.
  rewrite Hb. cbn [with_receive_stats session replay_window_].
  rewrite Hidb, <- I1, Z.eqb_refl. cbn [negb].
  unfold ReplayWindow.check_and_update, ReplayWindow.check,
    ReplayWindow.WINDOW_SIZE.
  rewrite Hinit. cbn [negb].
  unfold is_u64 in *.
  rewrite (wrap64_small (packet.ph_packet_counter header_b + 64)) by lia.
  destruct (Z.leb_spec (packet.ph_packet_counter header_b + 64)
              (ReplayWindow.highest_seq_ (replay_window_ r1))); [|lia].
  reflexivity.
Qed.

End ReceivePath.

Section EndToEnd.
Import transport.
Context {sodium : Sodium}.

Hypothesis aead_open_seal : forall m ad n k,
  crypto_aead_decrypt (crypto_aead_encrypt m ad n k) ad n k = Some m.
Hypothesis aead_seal_length : forall m ad n k,
  length (crypto_aead_encrypt m ad n k) = (length m + 16)%nat.

Lemma parse_header_of_parse (p : packet.PacketParser) (d : bytes)
      (parsed : packet.ParsedPacket) (e : packet.ParseError) :
  packet.parse p d = (Some parsed, e) ->
  packet.parse_packet_header d
  = Some (packet.mkPacketHeader (packet.session_id parsed)
                                (packet.packet_counter parsed)).
Proof.
  unfold packet.parse. destruct (_ <? _); [discriminate|].
  destruct (packet.parse_packet_header d) as [[sid c]|]; [|discriminate].
  destruct (packet.p_has_key_ p); cbn [negb]; [|discriminate].
  destruct (crypto.decrypt _ _ _ _); [|discriminate].
  destruct (packet.parse_frames _ _); [|discriminate].
  intros H. injection H as <- _. reflexivity.
Qed.

(** The datagram of a successful [send_packet_internal] carries the
    session id and the packet counter in its header and opens, under the
    sender's send key, to the one frame sent. *)
Lemma sent_datagram_opens (s s' : TransportSession) (f : packet.Frame)
      (now : Z) :
  send_packet_internal s f now = Some (true, s') ->
  is_u64 (SessionRotator.current_session_id (session_rotator_ s)) ->
  is_u64 (send_sequence_ s) ->
  packet.frame_wf f -> size (packet.frame_payload f) < 65536 ->
  exists d,
    datagrams_ s' = datagrams_ s ++ [d] /\
    send_sequence_ s' = wrap64 (send_sequence_ s + 1) /\
    packet.parse_packet_header d
    = Some (packet.mkPacketHeader
              (SessionRotator.current_session_id (session_rotator_ s))
              (send_sequence_ s)) /\
    forall p,
      packet.parse
        (packet.set_decryption_key p (crypto.send_key (session_keys_ s))
           (crypto.send_nonce_base (session_keys_ s))) d
      = (Some (packet.mkParsed
                 (SessionRotator.current_session_id (session_rotator_ s))
                 (send_sequence_ s) [f]),
         packet.SUCCESS).
Proof.
  intros E Hid Hseq Hwf Hlen. unfold send_packet_internal in E.
  destruct (RateLimiter.try_consume _ _) as [admitted limiter].
  destruct admitted; cbn [negb] in E; [|discriminate E].
  unfold packet.add_frame in E.
  match type of E with
  | context [if ?c then (false, ?b) else _] => destruct c
  end; cbn [negb] in E; [discriminate E|].
  cbn [packet.payload_buffer_ packet.reset packet.set_session_id
       packet.set_encryption_key packet.has_key_ packet.key_
       packet.nonce_base_ packet.session_id_ packet.mtu_ app] in E.
  match type of E with
  | context [packet.build ?b _] =>
      destruct (parse_of_build aead_open_seal aead_seal_length b
                  (send_sequence_ s)) as (pkt & Hb & Hp)
  end.
  { cbn [packet.payload_buffer_]. apply serialize_frame_nonempty. }
  { reflexivity. }
  { exact Hid. }
  { exact Hseq. }
  rewrite Hb in E.
  cbn [packet.payload_buffer_ packet.key_ packet.nonce_base_
       packet.session_id_] in Hp.
  assert (Hfs : packet.parse_frames
                  (length (packet.serialize_frame f))
                  (packet.serialize_frame f) = Some [f]).
  { replace (packet.serialize_frame f) with (packet.stream_bytes [f])
      by (unfold packet.stream_bytes; cbn [map concat]; apply app_nil_r).
    apply parse_frames_stream.
    - unfold packet.stream_bytes. cbn [map concat length].
      rewrite app_nil_r.
      pose proof (serialize_frame_nonempty f).
      destruct (packet.serialize_frame f); [contradiction | cbn; lia].
    - now constructor.
    - now constructor. }
  rewrite Hfs in Hp.
  destruct (socket_send_to s pkt) eqn:Hsent; [|discriminate E].
  injection E as <-. exists pkt.
  cbn [datagrams_ send_sequence_]. split; [reflexivity|].
  split; [reflexivity|]. split.
  - apply parse_header_of_parse in Hp. exact Hp.
  - intros p. exact Hp.
Qed.

(** A datagram that carries the session id, passes the replay check and
    opens under the receive key goes to the frame handlers. *)
Lemma opened_datagram_is_handled (r : Receiver) (d : bytes) (c : Z)
      (fs : list packet.Frame) (clock now : nat -> Z) :
  let sid := SessionRotator.current_session_id
               (session_rotator_ (session r)) in
  let keys := session_keys_ (session r) in
  packet.parse_packet_header d = Some (packet.mkPacketHeader sid c) ->
  packet.parse
    (packet.set_decryption_key (packet_parser_ r) (crypto.recv_key keys)
       (crypto.recv_nonce_base keys)) d
  = (Some (packet.mkParsed sid c fs), packet.SUCCESS) ->
  ReplayWindow.check (replay_window_ r) c = true ->
  handle_received_packet r d clock now
  = handle_frames
      (mkReceiver
         (let s := session r in
          mk (mtu s) (state_ s) (packet_builder_ s) (rate_limiter_ s)
             (retransmission_ s)
             (SessionRotator.on_packet_received (session_rotator_ s)
                                                (size d))
             (send_sequence_ s) (next_message_id_ s) (session_keys_ s)
             (stats_ s) (socket_send_to s) (datagrams_ s))
         (handshake_ r) (handshake_stage_ r)
         (packet.set_decryption_key (packet_parser_ r)
            (crypto.recv_key keys) (crypto.recv_nonce_base keys))
         (ReplayWindow.update (replay_window_ r) c)
         (ack_bitmap_ r) (reorder_buffer_ r) (fragment_assembler_ r)
         (last_ack_sent_ r)
         (let st := receive_stats_ r in
          mkReceiveStats (wrap64 (packets_received st + 1))
                         (wrap64 (bytes_received st + size d))
                         (packets_dropped_replay st)
                         (packets_retransmitted st) (messages_assembled st)
                         (handshake_failures st) (decryption_failures st))
         (data_callback_ r) (delivered_ r))
      fs clock now.
Proof.
  intros sid keys Hh Hp Hc. unfold handle_received_packet. cbv zeta.
  rewrite Hh. cbn [with_receive_stats session replay_window_
                   packet.ph_session_id packet.ph_packet_counter
                   packet_parser_].
  fold sid. rewrite Z.eqb_refl. cbn [negb].
  unfold ReplayWindow.check_and_update. rewrite Hc. cbn [negb].
  fold keys. rewrite Hp. cbn [packet.frames]. reflexivity.
Qed.

(** A message that needs no fragmentation and that [send] reports as
    sent: its datagram has the packet counter [send_sequence_ + 1] and
    opens to the DATA frame with the sequence number [send_sequence_]. *)
Lemma send_single_opens (s s' : TransportSession) (data : bytes) (now : Z) :
  is_connected s = true ->
  size data <= max_payload s -> size data < 65528 ->
  is_u64 (SessionRotator.current_session_id (session_rotator_ s)) ->
  0 <= send_sequence_ s < two64 - 2 ->
  send s data now = Some (true, s') ->
  exists d,
    datagrams_ s' = datagrams_ s ++ [d] /\
    send_sequence_ s' = send_sequence_ s + 2 /\
    packet.parse_packet_header d
    = Some (packet.mkPacketHeader
              (SessionRotator.current_session_id (session_rotator_ s))
              (send_sequence_ s + 1)) /\
    (forall p,
       packet.parse
         (packet.set_decryption_key p (crypto.send_key (session_keys_ s))
            (crypto.send_nonce_base (session_keys_ s))) d
       = (Some (packet.mkParsed
                  (SessionRotator.current_session_id (session_rotator_ s))
                  (send_sequence_ s + 1)
                  [packet.DataFrame (send_sequence_ s) data]),
          packet.SUCCESS)) /\
    SessionRotator.current_session_id (session_rotator_ s')
    = SessionRotator.current_session_id (session_rotator_ s) /\
    session_keys_ s' = session_keys_ s /\
    is_connected s' = true /\ mtu s' = mtu s.
Proof.
  intros Hconn Hfit Hlen Hid Hseq E. unfold send in E.
  rewrite Hconn in E. cbn [negb] in E.
  destruct (Z.leb_spec (size data) (max_payload s)); [|lia].
  cbn [data_frame_of] in E.
  pose proof (size_nonneg data) as H0.
  pose proof (send_packet_internal_keeps _ _ _ _ _ E) as (K1 & K2 & K3 & K4).
  apply sent_datagram_opens in E.
  - destruct E as (d & D1 & D2 & D3 & D4).
    cbn [datagrams_ send_sequence_ session_rotator_ session_keys_
         state_ mtu] in *.
    rewrite (wrap64_small (send_sequence_ s + 1)) in * by lia.
    exists d. split; [exact D1|]. split.
    { rewrite D2. rewrite wrap64_small by lia. lia. }
    split; [exact D3|]. split; [exact D4|]. split; [exact K1|].
    split; [exact K2|]. split; [|exact K4].
    unfold is_connected in *. now rewrite K3.
  - exact Hid.
  - cbn [send_sequence_]. apply wrap64_range.
  - cbn [packet.frame_wf]. unfold is_u64. lia.
  - cbn [packet.frame_payload]. rewrite size_app.
    unfold size at 1. rewrite length_write_u64. lia.
Qed.

(** [send_packet_internal] sets the key before it builds, so [build]
    does not throw and the call returns. *)
Lemma send_packet_internal_returns (s : TransportSession) (f : packet.Frame)
      (now : Z) :
  exists ok s', send_packet_internal s f now = Some (ok, s').
Proof.
  unfold send_packet_internal.
  destruct (RateLimiter.try_consume _ _) as [admitted limiter].
  destruct admitted; cbn [negb]; [|eauto].
  unfold packet.add_frame.
  match goal with
  | |- context [if ?c then (false, ?b) else _] => destruct c
  end; cbn [negb]; [eauto|].
  unfold packet.build.
  cbn [packet.payload_buffer_ packet.reset packet.set_session_id
       packet.set_encryption_key packet.has_key_ app negb].
  destruct (packet.serialize_frame _); eauto.
Qed.

(** What [handle_data_frame] leaves, whether or not it sends an
    acknowledgement: the reorder buffer after [insert] and [deliver], and
    the payloads of the deliver calls handed to the data callback. *)
Lemma handle_data_frame_result (r : Receiver) (seq : Z) (payload : bytes)
      (now : Z) :
  let arrived :=
    ReorderBuffer.deliver
      (snd (ReorderBuffer.insert (reorder_buffer_ r) seq payload now)) in
  exists r',
    handle_data_frame r seq payload now = Some r' /\
    reorder_buffer_ r' = fst (fst arrived) /\
    delivered_ r' = hand_to_application r (map snd (snd (fst arrived))) /\
    data_callback_ r' = data_callback_ r /\
    replay_window_ r' = replay_window_ r /\
    SessionRotator.current_session_id (session_rotator_ (session r'))
    = SessionRotator.current_session_id (session_rotator_ (session r)) /\
    session_keys_ (session r') = session_keys_ (session r).
Proof.
  cbv zeta. unfold handle_data_frame.
  destruct (ReorderBuffer.insert _ _ _ _) as [ok buffer]. cbn [snd].
  destruct (ReorderBuffer.deliver buffer) as [[buffer' calls] n].
  cbn [fst snd].
  destruct (_ <? _).
  - unfold send_ack. cbn [session ack_bitmap_ reorder_buffer_].
    match goal with
    | |- context [send_packet_internal ?s ?f ?t] =>
        destruct (send_packet_internal_returns s f t) as (ok' & s' & E)
    end.
    rewrite E. apply send_packet_internal_keeps in E.
    destruct E as (E1 & E2 & _).
    eexists. split; [reflexivity|].
    cbn [reorder_buffer_ delivered_ data_callback_ replay_window_ session].
    repeat split; assumption.
  - eexists. split; [reflexivity|]. repeat split.
Qed.

(** A datagram that carries the receiver's session id, passes the replay
    check and opens under the receive key to one DATA frame. *)
Lemma data_datagram_received (r : Receiver) (d : bytes) (c seq : Z)
      (payload : bytes) (clock now : nat -> Z) :
  let sid := SessionRotator.current_session_id
               (session_rotator_ (session r)) in
  let keys := session_keys_ (session r) in
  let arrived :=
    ReorderBuffer.deliver
      (snd (ReorderBuffer.insert (reorder_buffer_ r) seq payload (now O))) in
  packet.parse_packet_header d = Some (packet.mkPacketHeader sid c) ->
  packet.parse
    (packet.set_decryption_key (packet_parser_ r) (crypto.recv_key keys)
       (crypto.recv_nonce_base keys)) d
  = (Some (packet.mkParsed sid c [packet.DataFrame seq payload]),
     packet.SUCCESS) ->
  ReplayWindow.check (replay_window_ r) c = true ->
  exists r',
    handle_received_packet r d clock now = Some r' /\
    reorder_buffer_ r' = fst (fst arrived) /\
    delivered_ r' = hand_to_application r (map snd (snd (fst arrived))) /\
    data_callback_ r' = data_callback_ r /\
    replay_window_ r' = ReplayWindow.update (replay_window_ r) c /\
    SessionRotator.current_session_id (session_rotator_ (session r')) = sid /\
    session_keys_ (session r') = keys.
Proof.
  intros sid keys arrived Hh Hp Hc.
  rewrite (opened_datagram_is_handled r d c [packet.DataFrame seq payload]
             clock now Hh Hp Hc).
  cbn [handle_frames handle_frame].
  match goal with
  | |- context [handle_data_frame ?r0 seq payload (now O)] =>
      destruct (handle_data_frame_result r0 seq payload (now O))
        as (r' & E & Hb & Hd & Hcb & Hw & Hi & Hk)
  end.
  rewrite E. exists r'. split; [reflexivity|].
  cbn [reorder_buffer_ delivered_ data_callback_ replay_window_ session
       session_rotator_ session_keys_ hand_to_application
       SessionRotator.on_packet_received SessionRotator.current_session_id
       SessionRotator.current_session_id_] in Hb, Hd, Hcb, Hw, Hi, Hk.
  repeat split; assumption.
Qed.

(** The payloads that [process_timeouts] hands to the data callback are
    those of the calls of [flush]. *)
Lemma process_timeouts_delivers (r : Receiver) (later : Z) :
  delivered_ (process_timeouts r later)
  = hand_to_application r
      (map snd (snd (fst (ReorderBuffer.flush (reorder_buffer_ r) later)))).
Proof.
  unfold process_timeouts.
  destruct (RetransmissionManager.retransmit_expired _ _)
    as [[rtx events] n].
  destruct (ReorderBuffer.flush _ _) as [[buffer calls] m].
  destruct (FragmentAssembler.cleanup_expired _ _) as [cleaned assembler].
  reflexivity.
Qed.

End EndToEnd.

(** *** A DATA frame that arrives at an empty or waiting reorder buffer *)

Section ArrivalInBuffer.
Import ReorderBuffer.

Variable cfg : ReorderBufferConfig.

(** The expected sequence number on an empty buffer: one deliver call. *)
Lemma arrive_expected (seq held : Z) (payload : bytes) (now : Z) :
  0 < max_buffered_packets cfg ->
  wrap64 (held + size payload) <= max_buffered_bytes cfg ->
  deliver (snd (insert (mk cfg [] seq held true) seq payload now))
  = (mk cfg [] (wrap64 (seq + 1))
        (wrap64 (wrap64 (held + size payload) - 0)) true,
     [(seq, payload)], wrap64 (0 + 1)).
Proof.
  intros Hroom Hbytes. unfold insert.
  cbn [next_expected_ buffer_ config_ buffered_bytes_ callback_
       OrdMap.count OrdMap.find].
  rewrite Z.ltb_irrefl. change (0 <? 0) with false. cbn [orb].
  change (size (@nil (Z * BufferedPacket))) with 0.
  destruct (Z.leb_spec (max_buffered_packets cfg) 0); [lia|].
  destruct (Z.ltb_spec (max_buffered_bytes cfg)
                       (wrap64 (held + size payload))); [lia|].
  unfold deliver.
  cbn [snd buffer_ OrdMap.insert length deliver_loop next_expected_
       OrdMap.find].
  rewrite Z.eqb_refl.
  unfold deliver_one, hand_over.
  cbn [callback_ next_expected_ buffer_ config_ buffered_bytes_ data
       OrdMap.erase].
  rewrite Z.eqb_refl. change (size (@nil Z)) with 0. reflexivity.
Qed.

(** A sequence number above the expected one on an empty buffer: the
    frame is stored and nothing is delivered. *)
Lemma arrive_early (expected seq held : Z) (payload : bytes) (now : Z) :
  expected < seq ->
  0 < max_buffered_packets cfg ->
  wrap64 (held + size payload) <= max_buffered_bytes cfg ->
  deliver (snd (insert (mk cfg [] expected held true) seq payload now))
  = (mk cfg [(seq, mkPacket payload now)] expected
        (wrap64 (held + size payload)) true,
     [], 0).
Proof.
  intros Hgap Hroom Hbytes. unfold insert.
  cbn [next_expected_ buffer_ config_ buffered_bytes_ callback_
       OrdMap.count OrdMap.find].
  destruct (Z.ltb_spec seq expected); [lia|].
  change (0 <? 0) with false. cbn [orb].
  change (size (@nil (Z * BufferedPacket))) with 0.
  destruct (Z.leb_spec (max_buffered_packets cfg) 0); [lia|].
  destruct (Z.ltb_spec (max_buffered_bytes cfg)
                       (wrap64 (held + size payload))); [lia|].
  unfold deliver.
  cbn [snd buffer_ OrdMap.insert length deliver_loop next_expected_
       OrdMap.find].
  destruct (Z.eqb_spec seq expected); [lia|]. reflexivity.
Qed.

(** A sequence number below the expected one is refused as a
    duplicate. *)
Lemma arrive_late (expected seq held : Z) (payload : bytes) (now : Z) :
  seq < expected ->
  deliver (snd (insert (mk cfg [] expected held true) seq payload now))
  = (mk cfg [] expected held true, [], 0).
Proof.
  intros Hlate. unfold insert. cbn [next_expected_].
  destruct (Z.ltb_spec seq expected); [|lia]. cbn [orb snd]. reflexivity.
Qed.

(** A second frame above one that waits: both stay in the buffer. *)
Lemma arrive_behind (expected first seq held : Z) (p : BufferedPacket)
      (payload : bytes) (now : Z) :
  expected < first -> first < seq ->
  1 < max_buffered_packets cfg ->
  wrap64 (held + size payload) <= max_buffered_bytes cfg ->
  deliver (snd (insert (mk cfg [(first, p)] expected held true)
                       seq payload now))
  = (mk cfg [(first, p); (seq, mkPacket payload now)] expected
        (wrap64 (held + size payload)) true,
     [], 0).
Proof.
  intros Hgap Hnext Hroom Hbytes. unfold insert.
  cbn [next_expected_ buffer_ config_ buffered_bytes_ callback_
       OrdMap.count OrdMap.find].
  destruct (Z.ltb_spec seq expected); [lia|].
  unfold OrdMap.count. cbn [OrdMap.find].
  destruct (Z.eqb_spec first seq); [lia|].
  change (0 <? 0) with false. cbn [orb].
  change (size [(first, p)]) with 1.
  destruct (Z.leb_spec (max_buffered_packets cfg) 1); [lia|].
  destruct (Z.ltb_spec (max_buffered_bytes cfg)
                       (wrap64 (held + size payload))); [lia|].
  unfold deliver.
  cbn [snd buffer_ OrdMap.insert].
  destruct (Z.ltb_spec seq first); [lia|].
  destruct (Z.eqb_spec seq first); [lia|].
  cbn [length deliver_loop next_expected_ buffer_ OrdMap.find].
  destruct (Z.eqb_spec first expected); [lia|].
  destruct (Z.eqb_spec seq expected); [lia|]. reflexivity.
Qed.

Lemma flush_nothing (expected held later : Z) :
  snd (fst (flush (mk cfg [] expected held true) later)) = [].
Proof. reflexivity. Qed.

(** [flush] with one frame that waits behind a gap. *)
Lemma flush_waiting (expected seq held later : Z) (p : BufferedPacket) :
  expected < seq ->
  snd (fst (flush (mk cfg [(seq, p)] expected held true) later))
  = if wrap64 (later - timestamp_ms p) <? max_delay_ms cfg then []
    else [(seq, data p)].
Proof.
  intros Hgap. unfold flush, deliver.
  cbn [buffer_ length deliver_loop next_expected_ OrdMap.find].
  destruct (Z.eqb_spec seq expected); [lia|].
  cbn [buffer_ length flush_loop OrdMap.first timestamp_ms config_].
  destruct (wrap64 (later - timestamp_ms p) <? max_delay_ms cfg);
    [reflexivity|].
  unfold flush_one, hand_over, deliver.
  cbn [callback_ buffer_ OrdMap.erase data length deliver_loop].
  rewrite Z.eqb_refl. reflexivity.
Qed.

(** [flush] with two frames that wait behind a gap, with a gap between
    them: the test is made on the lower sequence number first. *)
Lemma flush_two_waiting (expected first seq held later : Z)
      (p1 p2 : BufferedPacket) :
  expected < first -> 0 <= first -> first + 1 < seq -> seq < two64 ->
  snd (fst (flush (mk cfg [(first, p1); (seq, p2)] expected held true)
                  later))
  = if wrap64 (later - timestamp_ms p1) <? max_delay_ms cfg then []
    else (first, data p1)
         :: (if wrap64 (later - timestamp_ms p2) <? max_delay_ms cfg
             then [] else [(seq, data p2)]).
Proof.
  intros Hgap H0 Hnext Hmax. unfold flush, deliver.
  cbn [buffer_ length deliver_loop next_expected_ OrdMap.find].
  destruct (Z.eqb_spec first expected); [lia|].
  destruct (Z.eqb_spec seq expected); [lia|].
  cbn [buffer_ length flush_loop OrdMap.first timestamp_ms config_].
  destruct (wrap64 (later - timestamp_ms p1) <? max_delay_ms cfg);
    [reflexivity|].
  unfold flush_one at 1. unfold hand_over at 1. unfold deliver.
  cbn [callback_ buffer_ OrdMap.erase data length deliver_loop
       next_expected_ OrdMap.find config_ buffered_bytes_].
  rewrite Z.eqb_refl.
  cbn [buffer_ length deliver_loop next_expected_ OrdMap.find].
  rewrite (wrap64_small (first + 1)) by lia.
  destruct (Z.eqb_spec seq (first + 1)); [lia|].
  cbn [buffer_ OrdMap.first timestamp_ms config_].
  destruct (wrap64 (later - timestamp_ms p2) <? max_delay_ms cfg);
    [reflexivity|].
  unfold flush_one, hand_over.
  cbn [callback_ buffer_ OrdMap.erase data length deliver_loop].
  rewrite Z.eqb_refl. reflexivity.
Qed.

End ArrivalInBuffer.

(** *** A message from a connected session to its peer *)

Section Messages.
Import transport.
Context {sodium : Sodium}.

Hypothesis aead_open_seal : forall m ad n k,
  crypto_aead_decrypt (crypto_aead_encrypt m ad n k) ad n k = Some m.
Hypothesis aead_seal_length : forall m ad n k,
  length (crypto_aead_encrypt m ad n k) = (length m + 16)%nat.

(** A counter above every counter that the window has taken is accepted
    and becomes the highest one. *)
Lemma replay_accepts_above (w : ReplayWindow.t) (c : Z) :
  ReplayWindow.highest_seq_ w < c -> 0 <= c < two64 - 64 ->
  ReplayWindow.check w c = true /\
  ReplayWindow.highest_seq_ (ReplayWindow.update w c) = c.
Proof.
  intros Habove Hc. unfold ReplayWindow.check, ReplayWindow.update.
  destruct (ReplayWindow.initialized_ w); cbn [negb]; [|now split].
  unfold ReplayWindow.WINDOW_SIZE.
  rewrite (wrap64_small (c + 64)) by lia.
  destruct (Z.leb_spec (c + 64) (ReplayWindow.highest_seq_ w)); [lia|].
  destruct (Z.ltb_spec (ReplayWindow.highest_seq_ w) c); [|lia].
  split; [reflexivity|].
  destruct (64 <=? _); reflexivity.
Qed.

(** The datagram of a message that needs no fragmentation, given to a
    receiver that holds the sender's session id, whose receive key and
    nonce base are the sender's send key and nonce base and whose replay
    window accepts the packet counter [send_sequence_ + 1]: the DATA frame
    with the sequence number [send_sequence_] reaches the reorder
    buffer. *)
Lemma message_reaches_buffer (s s' : TransportSession) (r : Receiver)
      (data : bytes) (now : Z) (clock arrived : nat -> Z) :
  is_connected s = true ->
  size data <= max_payload s -> size data < 65528 ->
  is_u64 (SessionRotator.current_session_id (session_rotator_ s)) ->
  0 <= send_sequence_ s < two64 - 2 ->
  SessionRotator.current_session_id (session_rotator_ (session r))
  = SessionRotator.current_session_id (session_rotator_ s) ->
  crypto.recv_key (session_keys_ (session r))
  = crypto.send_key (session_keys_ s) ->
  crypto.recv_nonce_base (session_keys_ (session r))
  = crypto.send_nonce_base (session_keys_ s) ->
  ReplayWindow.check (replay_window_ r) (send_sequence_ s + 1) = true ->
  send s data now = Some (true, s') ->
  let arrival :=
    ReorderBuffer.deliver
      (snd (ReorderBuffer.insert (reorder_buffer_ r) (send_sequence_ s)
                                 data (arrived O))) in
  exists d r',
    datagrams_ s' = datagrams_ s ++ [d] /\
    handle_received_packet r d clock arrived = Some r' /\
    reorder_buffer_ r' = fst (fst arrival) /\
    delivered_ r' = hand_to_application r (map snd (snd (fst arrival))) /\
    data_callback_ r' = data_callback_ r /\
    replay_window_ r'
    = ReplayWindow.update (replay_window_ r) (send_sequence_ s + 1) /\
    SessionRotator.current_session_id (session_rotator_ (session r'))
    = SessionRotator.current_session_id (session_rotator_ (session r)) /\
    session_keys_ (session r') = session_keys_ (session r) /\
    send_sequence_ s' = send_sequence_ s + 2 /\
    SessionRotator.current_session_id (session_rotator_ s')
    = SessionRotator.current_session_id (session_rotator_ s) /\
    session_keys_ s' = session_keys_ s /\
    is_connected s' = true /\ mtu s' = mtu s.
Proof.
  intros Hconn Hfit Hlen Hid Hseq Hsid Hkey Hnonce Hcheck E arrival.
  destruct (send_single_opens aead_open_seal aead_seal_length
              s s' data now Hconn Hfit Hlen Hid Hseq E)
    as (d & D1 & D2 & D3 & D4 & D5 & D6 & D7 & D8).
  destruct (data_datagram_received r d (send_sequence_ s + 1)
              (send_sequence_ s) data clock arrived)
    as (r' & R1 & R2 & R3 & R4 & R5 & R6 & R7).
  - rewrite Hsid. exact D3.
  - rewrite Hsid, Hkey, Hnonce. apply D4.
  - exact Hcheck.
  - exists d, r'. repeat split; assumption.
Qed.

Section OneMessage.

Variables (s : TransportSession) (r : Receiver).
Variable cfg : ReorderBuffer.ReorderBufferConfig.
Variables (expected held : Z).

Hypothesis sender_connected : is_connected s = true.
Hypothesis session_id_range :
  is_u64 (SessionRotator.current_session_id (session_rotator_ s)).
Hypothesis same_session_id :
  SessionRotator.current_session_id (session_rotator_ (session r))
  = SessionRotator.current_session_id (session_rotator_ s).
Hypothesis mirrored_key :
  crypto.recv_key (session_keys_ (session r))
  = crypto.send_key (session_keys_ s).
Hypothesis mirrored_nonce_base :
  crypto.recv_nonce_base (session_keys_ (session r))
  = crypto.send_nonce_base (session_keys_ s).
Hypothesis callback_set : data_callback_ r = true.
Hypothesis buffer_empty :
  reorder_buffer_ r = ReorderBuffer.mk cfg [] expected held true.

(** X25.  One message between two connected sessions.  A connected
    session, whatever its [send_sequence_], sends a message that fits one
    frame.  The receiver holds the same session id, its receive key and
    nonce base are the sender's send key and nonce base, its replay
    window accepts the packet counter, a data callback is set and its
    reorder buffer is empty with room for the message.  Then the datagram
    is decrypted and the DATA frame, which carries the sender's
    [send_sequence_], meets the number [expected] that the receiver
    waits for:
    equal, the message is handed to the data callback at once;
    above (as after a handshake, whose frames have raised
    [send_sequence_] while the receiver still waits for 1), it is kept in
    the reorder buffer and handed over by the first [process_timeouts]
    that runs [max_delay_ms] or more after the arrival;
    below, it is dropped. *)
Theorem X25_message_is_delivered_buffered_or_dropped
        (data : bytes) (s' : TransportSession) (now : Z)
        (clock arrived : nat -> Z) :
  size data <= max_payload s -> size data < 65528 ->
  0 <= send_sequence_ s < two64 - 2 ->
  ReplayWindow.check (replay_window_ r) (send_sequence_ s + 1) = true ->
  0 < ReorderBuffer.max_buffered_packets cfg ->
  wrap64 (held + size data) <= ReorderBuffer.max_buffered_bytes cfg ->
  send s data now = Some (true, s') ->
  exists d r',
    datagrams_ s' = datagrams_ s ++ [d] /\
    handle_received_packet r d clock arrived = Some r' /\
    (expected = send_sequence_ s ->
     delivered_ r' = delivered_ r ++ [data] /\
     ReorderBuffer.buffer_ (reorder_buffer_ r') = [] /\
     ReorderBuffer.next_expected_ (reorder_buffer_ r')
     = send_sequence_ s + 1 /\
     forall later,
       delivered_ (process_timeouts r' later) = delivered_ r ++ [data]) /\
    (expected < send_sequence_ s ->
     delivered_ r' = delivered_ r /\
     ReorderBuffer.buffer_ (reorder_buffer_ r')
     = [(send_sequence_ s, ReorderBuffer.mkPacket data (arrived O))] /\
     ReorderBuffer.next_expected_ (reorder_buffer_ r') = expected /\
     forall later,
       delivered_ (process_timeouts r' later)
       = delivered_ r
         ++ (if wrap64 (later - arrived O)
                <? ReorderBuffer.max_delay_ms cfg
             then [] else [data])) /\
    (send_sequence_ s < expected ->
     delivered_ r' = delivered_ r /\
     reorder_buffer_ r' = reorder_buffer_ r /\
     forall later, delivered_ (process_timeouts r' later) = delivered_ r).
Proof.
  intros Hfit Hlen Hseq Hcheck Hroom Hbytes E.
  destruct (message_reaches_buffer s s' r data now clock arrived
              sender_connected Hfit Hlen session_id_range Hseq
              same_session_id mirrored_key mirrored_nonce_base Hcheck E)
    as (d & r' & D & R & Hb & Hd & Hcb & _).
  exists d, r'. split; [exact D|]. split; [exact R|].
  rewrite buffer_empty in Hb, Hd.
  unfold hand_to_application in Hd. rewrite callback_set in Hd.
  assert (Hto : forall later,
            delivered_ (process_timeouts r' later)
            = delivered_ r'
              ++ map snd (snd (fst (ReorderBuffer.flush
                                      (reorder_buffer_ r') later)))).
  { intros later. rewrite process_timeouts_delivers.
    unfold hand_to_application. now rewrite Hcb, callback_set. }
  split; [|split].
  - intros Heq. rewrite Heq in Hb, Hd.
    rewrite arrive_expected in Hb, Hd by assumption.
    cbn [fst snd map] in Hb, Hd.
    split; [exact Hd|]. rewrite Hb. cbn [ReorderBuffer.buffer_
      ReorderBuffer.next_expected_].
    split; [reflexivity|]. split; [apply wrap64_small; lia|].
    intros later. rewrite Hto, Hb, flush_nothing, Hd.
    apply app_nil_r.
  - intros Hgap.
    rewrite arrive_early in Hb, Hd by assumption.
    cbn [fst snd map] in Hb, Hd. rewrite app_nil_r in Hd.
    split; [exact Hd|]. rewrite Hb. cbn [ReorderBuffer.buffer_
      ReorderBuffer.next_expected_].
    split; [reflexivity|]. split; [reflexivity|].
    intros later. rewrite Hto, Hb, flush_waiting, Hd by assumption.
    cbn [ReorderBuffer.timestamp_ms ReorderBuffer.data].
    destruct (_ <? _); reflexivity.
  - intros Hlate.
    rewrite arrive_late in Hb, Hd by assumption.
    cbn [fst snd map] in Hb, Hd. rewrite app_nil_r in Hd.
    split; [exact Hd|]. split; [now rewrite Hb, buffer_empty|].
    intros later. rewrite Hto, Hb, flush_nothing, Hd. apply app_nil_r.
Qed.

End OneMessage.

Section TwoMessages.

Variables (s : TransportSession) (r : Receiver).
Variable cfg : ReorderBuffer.ReorderBufferConfig.
Variables (expected held : Z).

Hypothesis sender_connected : is_connected s = true.
Hypothesis session_id_range :
  is_u64 (SessionRotator.current_session_id (session_rotator_ s)).
Hypothesis same_session_id :
  SessionRotator.current_session_id (session_rotator_ (session r))
  = SessionRotator.current_session_id (session_rotator_ s).
Hypothesis mirrored_key :
  crypto.recv_key (session_keys_ (session r))
  = crypto.send_key (session_keys_ s).
Hypothesis mirrored_nonce_base :
  crypto.recv_nonce_base (session_keys_ (session r))
  = crypto.send_nonce_base (session_keys_ s).
Hypothesis callback_set : data_callback_ r = true.
Hypothesis buffer_empty :
  reorder_buffer_ r = ReorderBuffer.mk cfg [] expected held true.
Hypothesis behind : expected < send_sequence_ s.
Hypothesis counters_are_new :
  ReplayWindow.highest_seq_ (replay_window_ r) <= send_sequence_ s.

(** X26.  Messages after a handshake wait for the flush.  [send]
    numbers its DATA frames [q, q + 2, ...] from its [send_sequence_ = q]:
    the packet counter takes the number in between.  Let a connected
    session send two messages that fit one frame each, to a receiver that
    holds the same session id, whose receive key and nonce base are the
    sender's send key and nonce base, that has seen no packet counter
    above [q], has a data callback and an empty reorder buffer with room
    for both messages, and that waits for a sequence number below [q].
    This is the state after a handshake over the transport: the receiver
    waits for 1 and the HANDSHAKE frames have raised [q] to 2 or 3.  Then
    both datagrams are decrypted and neither message is handed to the
    data callback on arrival: they are kept under [q] and [q + 2].
    [process_timeouts] hands the first one over once it has waited
    [max_delay_ms], and the second one in the same call only if it has
    waited that long too; while the first one has not, nothing is handed
    over. *)
Theorem X26_messages_after_a_handshake_wait_for_the_flush
        (data1 data2 : bytes) (s1 s2 : TransportSession)
        (now1 now2 : Z) (clock1 clock2 arrived1 arrived2 : nat -> Z) :
  size data1 <= max_payload s -> size data1 < 65528 ->
  size data2 <= max_payload s -> size data2 < 65528 ->
  0 <= send_sequence_ s < two64 - 67 ->
  1 < ReorderBuffer.max_buffered_packets cfg ->
  wrap64 (held + size data1) <= ReorderBuffer.max_buffered_bytes cfg ->
  wrap64 (wrap64 (held + size data1) + size data2)
    <= ReorderBuffer.max_buffered_bytes cfg ->
  send s data1 now1 = Some (true, s1) ->
  send s1 data2 now2 = Some (true, s2) ->
  exists d1 d2 r1 r2,
    datagrams_ s2 = datagrams_ s ++ [d1; d2] /\
    handle_received_packet r d1 clock1 arrived1 = Some r1 /\
    handle_received_packet r1 d2 clock2 arrived2 = Some r2 /\
    delivered_ r1 = delivered_ r /\
    delivered_ r2 = delivered_ r /\
    ReorderBuffer.next_expected_ (reorder_buffer_ r2) = expected /\
    ReorderBuffer.buffer_ (reorder_buffer_ r2)
    = [(send_sequence_ s, ReorderBuffer.mkPacket data1 (arrived1 O));
       (send_sequence_ s + 2, ReorderBuffer.mkPacket data2 (arrived2 O))] /\
    forall later,
      delivered_ (process_timeouts r2 later)
      = delivered_ r
        ++ (if wrap64 (later - arrived1 O) <? ReorderBuffer.max_delay_ms cfg
            then []
            else data1
                 :: (if wrap64 (later - arrived2 O)
                        <? ReorderBuffer.max_delay_ms cfg
                     then [] else [data2])).
Proof.
  intros Hfit1 Hlen1 Hfit2 Hlen2 Hseq Hroom Hbytes1 Hbytes2 E1 E2.
  destruct (replay_accepts_above (replay_window_ r) (send_sequence_ s + 1))
    as [Hcheck1 Hhighest]; [lia | lia |].
  destruct (message_reaches_buffer s s1 r data1 now1 clock1 arrived1
              sender_connected Hfit1 Hlen1 session_id_range ltac:(lia)
              same_session_id mirrored_key mirrored_nonce_base Hcheck1 E1)
    as (d1 & r1 & D1 & R1 & Hb1 & Hd1 & Hcb1 & Hw1 & Hi1 & Hk1 & Q1 & I1
        & K1 & C1 & M1).
  rewrite buffer_empty in Hb1, Hd1.
  rewrite arrive_early in Hb1, Hd1 by (assumption || lia).
  cbn [fst snd map] in Hb1, Hd1.
  unfold hand_to_application in Hd1.
  rewrite callback_set, app_nil_r in Hd1.
  destruct (replay_accepts_above (replay_window_ r1) (send_sequence_ s1 + 1))
    as [Hcheck2 _]; [rewrite Hw1, Hhighest; lia | lia |].
  destruct (message_reaches_buffer s1 s2 r1 data2 now2 clock2 arrived2)
    as (d2 & r2 & D2 & R2 & Hb2 & Hd2 & Hcb2 & _); try assumption.
  { unfold max_payload in *. now rewrite M1. }
  { now rewrite I1. }
  { lia. }
  { now rewrite Hi1, I1. }
  { now rewrite Hk1, K1. }
  { now rewrite Hk1, K1. }
  rewrite Hb1, Q1 in Hb2, Hd2.
  rewrite arrive_behind in Hb2, Hd2 by (assumption || lia).
  cbn [fst snd map] in Hb2, Hd2.
  unfold hand_to_application in Hd2.
  rewrite Hcb1, callback_set, app_nil_r, Hd1 in Hd2.
  exists d1, d2, r1, r2.
  split; [rewrite D2, D1, <- app_assoc; reflexivity|].
  split; [exact R1|]. split; [exact R2|]. split; [exact Hd1|].
  split; [exact Hd2|]. rewrite Hb2.
  cbn [ReorderBuffer.next_expected_ ReorderBuffer.buffer_].
  split; [reflexivity|]. split; [reflexivity|].
  intros later. rewrite process_timeouts_delivers.
  unfold hand_to_application.
  rewrite Hcb2, Hcb1, callback_set, Hd2, Hb2.
  rewrite flush_two_waiting by lia.
  cbn [ReorderBuffer.timestamp_ms ReorderBuffer.data].
  destruct (_ <? _); [reflexivity|].
  destruct (_ <? _); reflexivity.
Qed.

End TwoMessages.

End Messages.

(** ** A fragmented message from [send] to the data callback *)

Section FragmentsEndToEnd.
Import transport.
Context {sodium : Sodium}.

Hypothesis aead_open_seal : forall m ad n k,
  crypto_aead_decrypt (crypto_aead_encrypt m ad n k) ad n k = Some m.
Hypothesis aead_seal_length : forall m ad n k,
  length (crypto_aead_encrypt m ad n k) = (length m + 16)%nat.

Lemma send_fragments_success (frames : list packet.Frame) :
  forall (s s' : TransportSession) (now : Z) (b : bool),
  send_fragments s frames now b = Some (true, s') -> b = true.
Proof.
  induction frames as [|f fs IH]; intros s s' now b E.
  - cbn in E. now injection E as -> _.
  - cbn [send_fragments] in E.
    destruct (send_packet_internal s f now) as [[ok s1]|]; [|discriminate].
    apply IH in E. now apply andb_prop in E.
Qed.

(** The datagrams of a [send_fragments] run that reports success carry
    the frames under consecutive packet counters. *)
Lemma send_fragments_carry (frames : list packet.Frame) :
  forall (s s' : TransportSession) (now : Z),
  send_fragments s frames now true = Some (true, s') ->
  is_u64 (SessionRotator.current_session_id (session_rotator_ s)) ->
  0 <= send_sequence_ s -> send_sequence_ s + size frames < two64 ->
  Forall packet.frame_wf frames ->
  Forall (fun f => size (packet.frame_payload f) < 65536) frames ->
  exists ds,
    datagrams_ s' = datagrams_ s ++ ds /\
    Forall2 (fun d cf =>
               carries (SessionRotator.current_session_id
                          (session_rotator_ s))
                       (crypto.send_key (session_keys_ s))
                       (crypto.send_nonce_base (session_keys_ s)) cf d)
            ds (numbered (send_sequence_ s) frames).
Proof.
  induction frames as [|f fs IH]; intros s s' now E Hid H0 Hq Hwf Hlen.
  - cbn in E. injection E as <-. exists []. rewrite app_nil_r.
    split; [reflexivity | constructor].
  - cbn [send_fragments] in E.
    destruct (send_packet_internal s f now) as [[ok s1]|] eqn:E1;
      [|discriminate].
    pose proof (send_fragments_success _ _ _ _ _ E) as Hok.
    cbn [andb] in Hok. subst ok. cbn [andb] in E.
    inversion Hwf as [|? ? Hf Hfs]; subst.
    inversion Hlen as [|? ? Hp Hps]; subst.
    pose proof (send_packet_internal_keeps _ _ _ _ _ E1) as (K1 & K2 & _).
    unfold size in Hq. cbn [length] in Hq.
    destruct (sent_datagram_opens aead_open_seal aead_seal_length
                s s1 f now E1 Hid ltac:(unfold is_u64; lia) Hf Hp)
      as (d & D1 & D2 & D3 & D4).
    rewrite wrap64_small in D2 by lia.
    destruct (IH s1 s' now E) as (ds & Hds & Hall).
    + now rewrite K1.
    + lia.
    + rewrite D2. unfold size. lia.
    + exact Hfs.
    + exact Hps.
    + exists (d :: ds). split.
      * rewrite Hds, D1, <- app_assoc. reflexivity.
      * cbn [numbered]. constructor.
        -- split; [exact D3 | exact D4].
        -- rewrite K1, K2, D2 in Hall. exact Hall.
Qed.

Lemma numbered_fragments (id : Z) (cs : list bytes) (n : nat) :
  forall (q : Z) (j : nat),
  numbered q (map (fragment_of id cs) (map Z.of_nat (seq j n)))
  = map (fun k => (q + (k - Z.of_nat j), fragment_of id cs k))
        (map Z.of_nat (seq j n)).
Proof.
  induction n as [|n IH]; intros q j; [reflexivity|].
  cbn [seq map numbered]. f_equal.
  - f_equal. lia.
  - rewrite IH. apply map_ext_in. intros k Hk. f_equal.
    apply in_map_iff in Hk. destruct Hk as (i & <- & Hi).
    apply in_seq in Hi. lia.
Qed.

Lemma accepted_incl (cs : list Z) :
  forall (w : ReplayWindow.t) (x : Z),
  In x (ReplayWindow.accepted w cs) -> In x cs.
Proof.
  induction cs as [|c cs IH]; intros w x H; [destruct H|].
  cbn [ReplayWindow.accepted] in H. apply in_app_iff in H.
  destruct H as [H|H].
  - destruct (fst _); [|destruct H]. destruct H as [<-|[]]. now left.
  - right. now apply (IH _ _ H).
Qed.

Section Receiving.

Variable cfg : FragmentAssembler.FragmentAssemblerConfig.
Variable others : OrdMap.t FragmentAssembler.PendingMessage.
Variable id : Z.
Variable chunks : list bytes.
Variables (sid q : Z) (key nonce_base : bytes).

Hypothesis id_is_new : OrdMap.find id others = None.
Hypothesis room_for_one :
  size others < FragmentAssembler.max_pending_messages cfg.
Hypothesis few_enough :
  size chunks <= FragmentAssembler.max_fragments_per_message cfg.
Hypothesis small_enough :
  size (concat chunks) <= FragmentAssembler.max_message_size cfg < two64.
Hypothesis within_window : size chunks <= 64.
Hypothesis counters_in_range : 0 <= q /\ q + size chunks < two64 - 64.

Let piece_size (k : Z) : Z := size (nth (Z.to_nat k) chunks []).
Let sent (k : Z) : Z * packet.Frame := (q + k, fragment_of id chunks k).

(** One datagram of the message goes through the replay check and the
    AEAD to [handle_fragment_frame]. *)
Lemma receive_fragment_step (k : Z) (a : Arrival) (got seen : list Z)
      (r : Receiver) :
  carries sid key nonce_base (sent k) (datagram a) ->
  SessionRotator.current_session_id (session_rotator_ (session r)) = sid ->
  crypto.recv_key (session_keys_ (session r)) = key ->
  crypto.recv_nonce_base (session_keys_ (session r)) = nonce_base ->
  replay_tracks (replay_window_ r) seen ->
  (forall x, In x seen -> x < q \/ exists j, In j got /\ x = q + j) ->
  0 <= k < size chunks -> ~ In k got ->
  (forall j, In j got -> 0 <= j < size chunks) ->
  exists r_mid,
    receive r a
    = Some (handle_fragment_frame r_mid id k (size chunks)
              (nth (Z.to_nat k) chunks []) (steady_clock a O)) /\
    fragment_assembler_ r_mid = fragment_assembler_ r /\
    delivered_ r_mid = delivered_ r /\
    data_callback_ r_mid = data_callback_ r /\
    messages_assembled (receive_stats_ r_mid)
    = messages_assembled (receive_stats_ r) /\
    SessionRotator.current_session_id (session_rotator_ (session r_mid))
    = sid /\
    crypto.recv_key (session_keys_ (session r_mid)) = key /\
    crypto.recv_nonce_base (session_keys_ (session r_mid)) = nonce_base /\
    replay_tracks (replay_window_ r_mid) (seen ++ [q + k]).
Proof.
  intros [Hhead Hopens] Hsid Hkey Hnonce Htracks Hseen Hk Hnew Hgot.
  cbn [fst snd sent] in Hhead, Hopens.
  destruct counters_in_range as [Hq0 Hq1].
  assert (Hchk : ReplayWindow.check (replay_window_ r) (q + k) = true).
  { apply (replay_tracks_check _ _ _ Htracks); [lia|]. split.
    - intros Hin. destruct (Hseen _ Hin) as [Hlt|(j & Hj & Ej)]; [lia|].
      assert (j = k) by lia. subst j. contradiction.
    - destruct Htracks as (_ & Hun & Hin).
      destruct (ReplayWindow.initialized_ (replay_window_ r)).
      + destruct (Hin eq_refl) as (Hmax & _).
        destruct (Hseen _ Hmax) as [Hlt|(j & Hj & Ej)]; [lia|].
        specialize (Hgot j Hj). lia.
      + destruct (Hun eq_refl) as [_ E0]. rewrite E0. lia. }
  pose proof (opened_datagram_is_handled r (datagram a) (q + k)
                [fragment_of id chunks k]
                (system_clock a) (steady_clock a)) as H.
  cbv zeta in H. rewrite Hsid, Hkey, Hnonce in H.
  specialize (H Hhead (Hopens _) Hchk).
  cbn [handle_frames handle_frame fragment_of] in H.
  unfold receive. rewrite H. eexists. split; [reflexivity|].
  cbn [fragment_assembler_ delivered_ data_callback_ receive_stats_
       messages_assembled session session_rotator_ session_keys_
       replay_window_ SessionRotator.on_packet_received
       SessionRotator.current_session_id
       SessionRotator.current_session_id_].
  repeat (split; [first [reflexivity | assumption]|]).
  pose proof (replay_tracks_step (replay_window_ r) seen (q + k)
                Htracks ltac:(lia)) as Hstep.
  unfold ReplayWindow.check_and_update in Hstep. rewrite Hchk in Hstep.
  exact Hstep.
Qed.

Lemma handle_fragment_frame_keeps (r : Receiver) (m i n : Z)
      (payload : bytes) (now : Z) :
  let r' := handle_fragment_frame r m i n payload now in
  session r' = session r /\ replay_window_ r' = replay_window_ r /\
  data_callback_ r' = data_callback_ r.
Proof.
  unfold handle_fragment_frame.
  destruct (FragmentAssembler.add_fragment _ _ _ _ _ _) as [[ok a] calls].
  cbn. repeat split.
Qed.

(** The receiver takes the datagrams of the pieces [k :: ks] in this
    order, having taken the pieces [got] before. *)
Lemma receive_fragments (ks : list Z) :
  forall (k : Z) (a : Arrival) (arrivals : list Arrival)
         (got : list Z) (held : Z) (seen : list Z) (r : Receiver),
  Forall2 (fun a cf => carries sid key nonce_base cf (datagram a))
          (a :: arrivals) (map sent (k :: ks)) ->
  SessionRotator.current_session_id (session_rotator_ (session r)) = sid ->
  crypto.recv_key (session_keys_ (session r)) = key ->
  crypto.recv_nonce_base (session_keys_ (session r)) = nonce_base ->
  replay_tracks (replay_window_ r) seen ->
  (forall x, In x seen -> x < q \/ exists j, In j got /\ x = q + j) ->
  assembler_holds cfg others id chunks got held (fragment_assembler_ r) ->
  data_callback_ r = true ->
  NoDup ((k :: ks) ++ got) ->
  (forall j, In j ((k :: ks) ++ got) -> 0 <= j < size chunks) ->
  size got + size (k :: ks) = size chunks ->
  0 <= held ->
  held + sum_sizes (map piece_size (k :: ks)) <= size (concat chunks) ->
  exists r',
    receive_all r (a :: arrivals) = Some r' /\
    delivered_ r' = delivered_ r ++ [concat chunks] /\
    FragmentAssembler.pending_ (fragment_assembler_ r') = others /\
    messages_assembled (receive_stats_ r')
    = wrap64 (messages_assembled (receive_stats_ r) + 1).
Proof.
  induction ks as [|k2 ks IH];
    intros k a arrivals got held seen r Hcarry Hsid Hkey Hnonce Htracks
           Hseen Hholds Hcb Hnd Hrange Hcount Hheld Hfit.
  - cbn [map] in Hcarry.
    apply Forall2_cons_iff in Hcarry. destruct Hcarry as [Hhead Hrest].
    destruct arrivals as [|a2 arrivals]; [|inversion Hrest]. clear Hrest.
    cbn [app] in Hnd, Hrange.
    assert (Hk : 0 <= k < size chunks) by (apply Hrange; now left).
    assert (Hnew : ~ In k got) by (now inversion Hnd).
    destruct (receive_fragment_step k a got seen r Hhead Hsid Hkey Hnonce
                Htracks Hseen Hk Hnew)
      as (r_mid & E & Ma & Md & Mc & Mm & _);
      [intros j Hj; apply Hrange; now right|].
    cbn [receive_all]. rewrite E. unfold handle_fragment_frame.
    unfold sum_sizes in Hfit. cbn [map fold_right] in Hfit.
    unfold piece_size in Hfit.
    rewrite <- Ma in Hholds.
    destruct (add_fragment_last cfg others id chunks id_is_new room_for_one
                few_enough small_enough got held (fragment_assembler_ r_mid)
                k (steady_clock a O) Hholds Hk Hheld)
      as (a' & Ea & Hholds' & _);
      [ lia | unfold size in *; cbn [length] in *; lia | exact Hnd
      | intros j Hj; apply Hrange; now right|].
    rewrite Ea. eexists. split; [reflexivity|].
    cbn [delivered_ fragment_assembler_ receive_stats_ messages_assembled].
    unfold hand_to_application, count_calls.
    cbn [map snd fold_left]. rewrite Mc, Hcb, Md, Mm.
    destruct Hholds' as (_ & _ & Hp & _).
    split; [reflexivity|]. split; [exact Hp | reflexivity].
  - change (map sent (k :: k2 :: ks))
      with (sent k :: map sent (k2 :: ks)) in Hcarry.
    apply Forall2_cons_iff in Hcarry. destruct Hcarry as [Hhead Hrest].
    destruct arrivals as [|a2 arrivals]; [inversion Hrest|].
    assert (Hk : 0 <= k < size chunks) by (apply Hrange; now left).
    assert (Hnew : ~ In k got).
    { inversion Hnd as [|? ? Hn _]; subst. intros Hg. apply Hn.
      change (In k ((k2 :: ks) ++ got)). apply in_app_iff. now right. }
    assert (Hgot : forall j, In j got -> 0 <= j < size chunks).
    { intros j Hj. apply Hrange. apply in_app_iff. now right. }
    destruct (receive_fragment_step k a got seen r Hhead Hsid Hkey Hnonce
                Htracks Hseen Hk Hnew Hgot)
      as (r_mid & E & Ma & Md & Mc & Mm & Mi & Mk & Mn & Mt).
    change (receive_all r (a :: a2 :: arrivals))
      with (match receive r a with
            | None => None
            | Some r1 => receive_all r1 (a2 :: arrivals)
            end).
    rewrite E.
    pose proof (handle_fragment_frame_keeps r_mid id k (size chunks)
                  (nth (Z.to_nat k) chunks []) (steady_clock a O))
      as (Ks & Kw & Kc).
    assert (Hsum : 0 <= sum_sizes (map piece_size (k2 :: ks))).
    { generalize (k2 :: ks). intros l. induction l as [|x l IHl];
        [unfold sum_sizes; cbn; lia|].
      unfold sum_sizes in *. cbn [map fold_right].
      pose proof (size_nonneg (nth (Z.to_nat x) chunks [])).
      unfold piece_size at 1. lia. }
    change (map piece_size (k :: k2 :: ks))
      with (piece_size k :: map piece_size (k2 :: ks)) in Hfit.
    unfold sum_sizes in Hfit. cbn [fold_right] in Hfit.
    fold (sum_sizes (map piece_size (k2 :: ks))) in Hfit.
    rewrite <- Ma in Hholds.
    destruct (add_fragment_partial cfg others id chunks id_is_new
                room_for_one few_enough small_enough got held
                (fragment_assembler_ r_mid) k (steady_clock a O) Hholds
                Hk Hnew Hheld)
      as (a' & Ea & Hholds' & _);
      [ unfold piece_size in *; lia
      | unfold size in *; cbn [length] in *; lia |].
    destruct (IH k2 a2 arrivals (k :: got) (held + piece_size k)
                (seen ++ [q + k])
                (handle_fragment_frame r_mid id k (size chunks)
                   (nth (Z.to_nat k) chunks []) (steady_clock a O)))
      as (r' & Hr' & Hd & Hp & Hm).
    + exact Hrest.
    + now rewrite Ks.
    + now rewrite Ks.
    + now rewrite Ks.
    + now rewrite Kw.
    + intros x Hx. apply in_app_iff in Hx. destruct Hx as [Hx|[<-|[]]].
      * destruct (Hseen x Hx) as [Hlt|(j & Hj & Ej)]; [now left|].
        right. exists j. split; [now right | exact Ej].
      * right. exists k. split; [now left | reflexivity].
    + unfold handle_fragment_frame. rewrite Ea.
      cbn [fragment_assembler_]. exact Hholds'.
    + now rewrite Kc, Mc.
    + apply (Permutation_NoDup (l := (k :: k2 :: ks) ++ got)); [|exact Hnd].
      cbn [app]. apply (Permutation_middle (k2 :: ks) got k).
    + intros j Hj. apply Hrange.
      apply (Permutation_in (l := (k2 :: ks) ++ k :: got)); [|exact Hj].
      cbn [app]. symmetry. apply (Permutation_middle (k2 :: ks) got k).
    + unfold size in *. cbn [length] in *. lia.
    + unfold piece_size. pose proof (size_nonneg (nth (Z.to_nat k) chunks [])).
      lia.
    + lia.
    + exists r'. split; [exact Hr'|].
      unfold handle_fragment_frame in Hd, Hm. rewrite Ea in Hd, Hm.
      cbn [delivered_ receive_stats_ messages_assembled] in Hd, Hm.
      unfold hand_to_application, count_calls in Hd, Hm.
      cbn [map snd fold_left] in Hd, Hm.
      rewrite Mc, Hcb, Md, app_nil_r in Hd. rewrite Mm in Hm.
      split; [exact Hd|]. split; [exact Hp | exact Hm].
Qed.

End Receiving.

Lemma Forall2_of_map {A B C : Type} (R : B -> C -> Prop) (g : A -> B)
      (l : list A) :
  forall l', Forall2 R (map g l) l' -> Forall2 (fun a c => R (g a) c) l l'.
Proof.
  induction l as [|a l IH]; intros l' H; inversion H; subst; constructor.
  - assumption.
  - now apply IH.
Qed.

(** X28.  A fragmented message goes through, whatever the order of
    arrival.  A connected session sends a message that needs between 2
    and 64 FRAGMENT frames and [send] reports success.  The datagrams it
    handed to the socket, given in any order to a session with the same
    session id, the mirrored receive key and nonce base, a replay window
    that was only shown counters below the sender's [send_sequence_], and
    an assembler with room for the message, are all accepted and
    decrypted, and the message is handed to the data callback exactly
    once. *)
Theorem X28_fragmented_message_is_delivered_end_to_end
        (s s' : TransportSession) (data : bytes) (now : Z)
        (r : Receiver) (shown : list Z) :
  is_connected s = true ->
  44 < mtu s <= 65535 ->
  mtu s - 44 < size data <= 64 * (mtu s - 44) ->
  is_u64 (SessionRotator.current_session_id (session_rotator_ s)) ->
  is_u32 (next_message_id_ s) ->
  0 <= send_sequence_ s < two64 - 128 ->
  send s data now = Some (true, s') ->
  SessionRotator.current_session_id (session_rotator_ (session r))
  = SessionRotator.current_session_id (session_rotator_ s) ->
  crypto.recv_key (session_keys_ (session r))
  = crypto.send_key (session_keys_ s) ->
  crypto.recv_nonce_base (session_keys_ (session r))
  = crypto.send_nonce_base (session_keys_ s) ->
  replay_window_ r = ReplayWindow.feed ReplayWindow.fresh shown ->
  Forall (fun c => 0 <= c < send_sequence_ s) shown ->
  let a := fragment_assembler_ r in
  FragmentAssembler.callback_ a = true ->
  data_callback_ r = true ->
  OrdMap.find (next_message_id_ s) (FragmentAssembler.pending_ a) = None ->
  size (FragmentAssembler.pending_ a)
    < FragmentAssembler.max_pending_messages (FragmentAssembler.config_ a) ->
  (size data + (mtu s - 44) - 1) / (mtu s - 44)
    <= FragmentAssembler.max_fragments_per_message
         (FragmentAssembler.config_ a) ->
  size data
    <= FragmentAssembler.max_message_size (FragmentAssembler.config_ a)
    < two64 ->
  exists ds,
    datagrams_ s' = datagrams_ s ++ ds /\
    forall arrivals,
      Permutation (map datagram arrivals) ds ->
      exists r',
        receive_all r arrivals = Some r' /\
        delivered_ r' = delivered_ r ++ [data] /\
        FragmentAssembler.pending_ (fragment_assembler_ r')
        = FragmentAssembler.pending_ a /\
        messages_assembled (receive_stats_ r')
        = wrap64 (messages_assembled (receive_stats_ r) + 1).
Proof.
  intros Hconn Hmtu Hsize Hsid Hmid Hseq E Rid Rkey Rnonce Rwin Hshown a
         Hacb Hdcb Hnew Hroom Hfew Hsmall.
  pose proof (size_nonneg data) as H0.
  destruct (fragment_data_frames s data ltac:(lia) ltac:(lia))
    as (s0 & Ef & Hconcat & Htotal & F1 & F2 & F3 & F4 & _).
  set (total := (size data + (mtu s - 44) - 1) / (mtu s - 44)) in *.
  set (cs := chunks (Z.to_nat total) (mtu s - 44) data) in *.
  assert (Hmax : max_payload s = mtu s - 44).
  { unfold max_payload, packet.PACKET_HEADER_SIZE, packet.FRAME_HEADER_SIZE,
      crypto.POLY1305_TAG_SIZE.
    rewrite wrap64_small by (unfold two64; lia). lia. }
  assert (Hn : 1 <= total <= 64).
  { unfold total. split.
    - enough (0 < (size data + (mtu s - 44) - 1) / (mtu s - 44)) by lia.
      apply Z.div_str_pos. lia.
    - enough ((size data + (mtu s - 44) - 1) / (mtu s - 44) < 65) by lia.
      apply Z.div_lt_upper_bound; lia. }
  assert (Hlen : length cs = Z.to_nat total) by apply length_chunks.
  assert (Hb : Forall (fun c => size c <= mtu s - 44) cs)
    by (apply chunks_bounded; lia).
  assert (Hnth : forall k, size (nth k cs []) <= mtu s - 44).
  { intros k. destruct (Nat.lt_ge_cases k (length cs)) as [Hk|Hk].
    - apply (proj1 (Forall_forall _ _) Hb). now apply nth_In.
    - rewrite nth_overflow by exact Hk. unfold size. cbn. lia. }
  unfold send in E. rewrite Hconn in E. cbn [negb] in E.
  destruct (Z.leb_spec (size data) (max_payload s)); [lia|].
  rewrite Ef in E.
  apply send_fragments_carry in E.
  - cbn [datagrams_ send_sequence_ session_rotator_ session_keys_] in E.
    rewrite F1, F2, F3, F4 in E.
    destruct E as (ds & Hds & Hall). exists ds. split; [exact Hds|].
    intros arrivals Hperm.
    rewrite (numbered_fragments _ _ _ _ 0) in Hall.
    rewrite (map_ext _ (fun k => (send_sequence_ s + k,
                                  fragment_of (next_message_id_ s) cs k)))
      in Hall by (intros k; f_equal; cbn; lia).
    destruct (Permutation_Forall2 (Permutation_sym Hperm) Hall)
      as (cfs & Hcfs & Hall').
    apply Forall2_of_map in Hall'.
    apply Permutation_sym, Permutation_map_inv in Hcfs.
    destruct Hcfs as (ks & -> & Hks).
    assert (Hidx : forall j, In j ks -> 0 <= j < size cs).
    { intros j Hj. apply (Permutation_in _ (Permutation_sym Hks)) in Hj.
      apply in_map_iff in Hj. destruct Hj as (k & <- & Hk).
      apply in_seq in Hk. unfold size. lia. }
    assert (Hnd : NoDup ks).
    { apply (Permutation_NoDup Hks).
      apply Finite.Injective_map_NoDup; [|apply seq_NoDup].
      intros x y. apply Nat2Z.inj. }
    assert (Hklen : length ks = length cs).
    { rewrite <- (Permutation_length Hks), length_map, length_seq.
      reflexivity. }
    assert (Hsum : sum_sizes
                     (map (fun k => size (nth (Z.to_nat k) cs [])) ks)
                   = size (concat cs)).
    { rewrite <- (sum_sizes_perm _ _
                    (Permutation_map
                       (fun k => size (nth (Z.to_nat k) cs [])) Hks)).
      rewrite map_map, <- sum_sizes_concat.
      rewrite <- (map_nth_numbered size [] cs 0). f_equal.
      apply map_ext. intros k. now rewrite Nat2Z.id, Nat.sub_0_r. }
    destruct ks as [|k ks]; [cbn in Hklen; lia|].
    destruct arrivals as [|a1 arrivals]; [inversion Hall'|].
    assert (Htracks : replay_tracks (replay_window_ r)
                                    (ReplayWindow.accepted
                                       ReplayWindow.fresh shown)).
    { rewrite Rwin.
      apply (replay_tracks_feed shown ReplayWindow.fresh []
                                replay_tracks_fresh).
      eapply Forall_impl; [|exact Hshown]. cbv beta. intros c Hc. lia. }
    destruct (receive_fragments
                (FragmentAssembler.config_ a) (FragmentAssembler.pending_ a)
                (next_message_id_ s) cs
                (SessionRotator.current_session_id (session_rotator_ s))
                (send_sequence_ s)
                (crypto.send_key (session_keys_ s))
                (crypto.send_nonce_base (session_keys_ s))
                Hnew Hroom ltac:(rewrite Htotal; exact Hfew)
                ltac:(rewrite Hconcat; exact Hsmall)
                ltac:(rewrite Htotal; lia)
                ltac:(rewrite Htotal; lia)
                ks k a1 arrivals [] 0
                (ReplayWindow.accepted ReplayWindow.fresh shown) r)
      as (r' & Hr' & Hd & Hp & Hm).
    + exact Hall'.
    + exact Rid.
    + exact Rkey.
    + exact Rnonce.
    + exact Htracks.
    + intros x Hx. left. apply accepted_incl in Hx.
      apply (proj1 (Forall_forall _ _) Hshown) in Hx. lia.
    + unfold assembler_holds. fold a. repeat split; exact Hacb.
    + exact Hdcb.
    + now rewrite app_nil_r.
    + intros j Hj. rewrite app_nil_r in Hj. now apply Hidx.
    + unfold size in *. cbn [length] in *. lia.
    + lia.
    + rewrite Hsum. lia.
    + exists r'. rewrite <- Hconcat.
      split; [exact Hr'|]. split; [exact Hd|]. split; [exact Hp | exact Hm].
  - cbn [session_rotator_]. rewrite F2. exact Hsid.
  - cbn [send_sequence_]. rewrite F1. lia.
  - cbn [send_sequence_]. rewrite F1. unfold size.
    rewrite !length_map, length_seq, Hlen. unfold two64 in *. lia.
  - apply Forall_forall. intros f Hf. apply in_map_iff in Hf.
    destruct Hf as (k & <- & Hk). apply in_map_iff in Hk.
    destruct Hk as (i & <- & Hi). apply in_seq in Hi.
    unfold fragment_of. cbn [packet.frame_wf].
    unfold is_u32, is_u16, size in *. lia.
  - apply Forall_forall. intros f Hf. apply in_map_iff in Hf.
    destruct Hf as (k & <- & Hk).
    unfold fragment_of. cbn [packet.frame_payload].
    rewrite !size_app. unfold size at 1 2 3.
    cbn [write_u32 write_u16 length map].
    specialize (Hnth (Z.to_nat k)). lia.
Qed.

End FragmentsEndToEnd.

(** ** Instances of the fragmentation and receive-path properties *)

Lemma X22_witness :
  exists frames s',
    transport.fragment_data s6_session s6_message = Some (frames, s') /\
    size frames = 3.
Proof.
  destruct (X22_fragments_partition_the_message s6_session s6_message)
    as (frames & s' & H1 & H2 & _).
  - vm_compute. split; reflexivity.
  - vm_compute. split; [discriminate | reflexivity].
  - vm_compute. discriminate.
  - exists frames, s'. split; [exact H1|].
    rewrite H2. vm_compute. reflexivity.
Defined.

Lemma X23_witness :
  exists r',
    transport.handle_frames (sodium := Toy.sodium) s6_receiver
      (rev (fst s6_fragments)) (fun _ => 0) (fun _ => 0) = Some r' /\
    transport.delivered_ r' = transport.delivered_ s6_receiver ++ [s6_message].
Proof.
  destruct (X23_fragments_reassemble_in_any_order (sodium := Toy.sodium)
              s6_session (snd s6_fragments) s6_message s6_receiver
              (fst s6_fragments) (rev (fst s6_fragments))
              (fun _ => 0) (fun _ => 0))
    as (r' & H1 & H2 & _).
  - vm_compute. split; reflexivity.
  - vm_compute. split; [reflexivity | discriminate].
  - vm_compute. reflexivity.
  - apply Permutation_sym, Permutation_rev.
  - vm_compute. reflexivity.
  - vm_compute. reflexivity.
  - vm_compute. reflexivity.
  - vm_compute. reflexivity.
  - vm_compute. discriminate.
  - vm_compute. split; [discriminate | reflexivity].
  - exists r'. split; [exact H1 | exact H2].
Defined.

Lemma X24_witness :
  exists r,
    transport.receive (sodium := Toy.sodium) s7_after s7_arrival = Some r /\
    transport.packets_dropped_replay (transport.receive_stats_ r) = 1 /\
    transport.decryption_failures (transport.receive_stats_ r) = 1.
Proof.
  pose proof (X24_a_datagram_is_handled_at_most_once (sodium := Toy.sodium)
                s6_receiver s7_after s7_after s7_arrival s7_arrival []
                (packet.mkPacketHeader 7 5)) as H.
  cbv zeta in H. eexists. split.
  - apply H.
    + vm_compute. split; [discriminate | reflexivity].
    + vm_compute. reflexivity.
    + vm_compute. reflexivity.
    + vm_compute. reflexivity.
    + vm_compute. reflexivity.
    + vm_compute. reflexivity.
    + reflexivity.
  - vm_compute. split; reflexivity.
Defined.

(** The two sessions that the handshake over the transport connected:
    the initiator has sent INIT and FINISH, so its first DATA frame
    carries 3, and the responder waits for 1. *)
Lemma X25_witness :
  transport.state_ (transport.session s10_initiator) = transport.CONNECTED /\
  transport.state_ (transport.session s10_responder) = transport.CONNECTED /\
  transport.send_sequence_ (transport.session s10_initiator) = 3 /\
  ReorderBuffer.next_expected_ (transport.reorder_buffer_ s10_responder) = 1 /\
  exists d r',
    transport.datagrams_ s10_first_sent
    = transport.datagrams_ (transport.session s10_initiator) ++ [d] /\
    transport.handle_received_packet (sodium := Toy.sodium) s10_responder d
      (fun _ => 0) (fun _ => 9) = Some r' /\
    transport.delivered_ r' = [] /\
    ReorderBuffer.buffer_ (transport.reorder_buffer_ r')
    = [(3, ReorderBuffer.mkPacket s1_hello 9)] /\
    transport.delivered_ (transport.process_timeouts r' 1008) = [] /\
    transport.delivered_ (transport.process_timeouts r' 1009) = [s1_hello].
Proof.
  assert (E0 : transport.delivered_ s10_responder = [])
    by (vm_compute; reflexivity).
  assert (E1 : transport.send_sequence_ (transport.session s10_initiator) = 3)
    by (vm_compute; reflexivity).
  split; [vm_compute; reflexivity|]. split; [vm_compute; reflexivity|].
  split; [exact E1|]. split; [vm_compute; reflexivity|].
  destruct (X25_message_is_delivered_buffered_or_dropped
              (sodium := Toy.sodium) toy_open_seal toy_seal_length
              (transport.session s10_initiator) s10_responder
              ReorderBuffer.default_config 1 0)
    with (data := s1_hello) (s' := s10_first_sent) (now := 5)
         (clock := fun _ : nat => 0) (arrived := fun _ : nat => 9)
    as (d & r' & H1 & H2 & _ & H3 & _).
  - vm_compute. reflexivity.
  - vm_compute. split; [discriminate | reflexivity].
  - vm_compute. reflexivity.
  - vm_compute. reflexivity.
  - vm_compute. reflexivity.
  - vm_compute. reflexivity.
  - vm_compute. reflexivity.
  - vm_compute. discriminate.
  - vm_compute. reflexivity.
  - vm_compute. split; [discriminate | reflexivity].
  - vm_compute. reflexivity.
  - vm_compute. reflexivity.
  - vm_compute. discriminate.
  - vm_compute. reflexivity.
  - destruct H3 as (Hd & Hb & _ & Hlater); [vm_compute; reflexivity|].
    pose proof (Hlater 1008) as L8. pose proof (Hlater 1009) as L9.
    rewrite E0 in Hd, L8, L9. rewrite E1 in Hb.
    exists d, r'. split; [exact H1|]. split; [exact H2|].
    split; [exact Hd|]. split; [exact Hb|].
    split; [exact L8 | exact L9].
Defined.

Lemma X26_witness :
  exists d1 d2 r1 r2,
    transport.datagrams_ s10_second_sent
    = transport.datagrams_ (transport.session s10_initiator) ++ [d1; d2] /\
    transport.handle_received_packet (sodium := Toy.sodium) s10_responder d1
      (fun _ => 0) (fun _ => 9) = Some r1 /\
    transport.handle_received_packet (sodium := Toy.sodium) r1 d2
      (fun _ => 0) (fun _ => 10) = Some r2 /\
    transport.delivered_ r2 = [] /\
    ReorderBuffer.buffer_ (transport.reorder_buffer_ r2)
    = [(3, ReorderBuffer.mkPacket s1_hello 9);
       (5, ReorderBuffer.mkPacket s8_again 10)] /\
    transport.delivered_ (transport.process_timeouts r2 1008) = [] /\
    transport.delivered_ (transport.process_timeouts r2 1009) = [s1_hello] /\
    transport.delivered_ (transport.process_timeouts r2 1010)
    = [s1_hello; s8_again].
Proof.
  assert (E0 : transport.delivered_ s10_responder = [])
    by (vm_compute; reflexivity).
  assert (E1 : transport.send_sequence_ (transport.session s10_initiator) = 3)
    by (vm_compute; reflexivity).
  destruct (X26_messages_after_a_handshake_wait_for_the_flush
              (sodium := Toy.sodium) toy_open_seal toy_seal_length
              (transport.session s10_initiator) s10_responder
              ReorderBuffer.default_config 1 0)
    with (data1 := s1_hello) (data2 := s8_again)
         (s1 := s10_first_sent) (s2 := s10_second_sent)
         (now1 := 5) (now2 := 6)
         (clock1 := fun _ : nat => 0) (clock2 := fun _ : nat => 0)
         (arrived1 := fun _ : nat => 9) (arrived2 := fun _ : nat => 10)
    as (d1 & d2 & r1 & r2 & H1 & H2 & H3 & _ & H5 & _ & H7 & Hlater).
  - vm_compute. reflexivity.
  - vm_compute. split; [discriminate | reflexivity].
  - vm_compute. reflexivity.
  - vm_compute. reflexivity.
  - vm_compute. reflexivity.
  - vm_compute. reflexivity.
  - vm_compute. reflexivity.
  - vm_compute. reflexivity.
  - vm_compute. discriminate.
  - vm_compute. discriminate.
  - vm_compute. reflexivity.
  - vm_compute. discriminate.
  - vm_compute. reflexivity.
  - vm_compute. split; [discriminate | reflexivity].
  - vm_compute. reflexivity.
  - vm_compute. discriminate.
  - vm_compute. discriminate.
  - vm_compute. reflexivity.
  - vm_compute. reflexivity.
  - pose proof (Hlater 1008) as L8. pose proof (Hlater 1009) as L9.
    pose proof (Hlater 1010) as L10.
    rewrite E0 in H5, L8, L9, L10. rewrite E1 in H7.
    exists d1, d2, r1, r2. split; [exact H1|]. split; [exact H2|].
    split; [exact H3|]. split; [exact H5|]. split; [exact H7|].
    split; [exact L8|]. split; [exact L9 | exact L10].
Defined.

Lemma X27_witness :
  exists r,
    transport.receive (sodium := Toy.sodium) s7_after_ahead s7_arrival
    = Some r /\
    transport.packets_dropped_replay (transport.receive_stats_ r) = 1 /\
    transport.delivered_ r = [].
Proof.
  destruct (X27_replay_window_moves_before_authentication
              (sodium := Toy.sodium)
              s6_receiver s7_after_ahead s7_ahead s7_arrival
              (packet.mkPacketHeader 7 100) (packet.mkPacketHeader 7 5))
    as [_ H].
  - vm_compute. split; [discriminate | reflexivity].
  - vm_compute. reflexivity.
  - vm_compute. reflexivity.
  - vm_compute. reflexivity.
  - vm_compute. reflexivity.
  - vm_compute. split; [discriminate | reflexivity].
  - vm_compute. reflexivity.
  - cbv zeta in H. eexists. split; [exact H|].
    vm_compute. split; reflexivity.
Defined.

Lemma X28_witness :
  exists r',
    transport.receive_all (sodium := Toy.sodium) s6_receiver s9_arrivals
    = Some r' /\
    transport.delivered_ r' = transport.delivered_ s6_receiver ++ [s6_message].
Proof.
  destruct (X28_fragmented_message_is_delivered_end_to_end
              (sodium := Toy.sodium) toy_open_seal toy_seal_length
              s6_session s9_sent s6_message 5 s6_receiver [1; 2])
    as (ds & Hds & H).
  - vm_compute. reflexivity.
  - vm_compute. split; [reflexivity | discriminate].
  - vm_compute. split; [reflexivity | discriminate].
  - vm_compute. split; [discriminate | reflexivity].
  - vm_compute. split; [discriminate | reflexivity].
  - vm_compute. split; [discriminate | reflexivity].
  - vm_compute. reflexivity.
  - vm_compute. reflexivity.
  - vm_compute. reflexivity.
  - vm_compute. reflexivity.
  - vm_compute. reflexivity.
  - assert (E : transport.send_sequence_ s6_session = 3)
      by (vm_compute; reflexivity).
    rewrite E. repeat constructor; lia.
  - vm_compute. reflexivity.
  - vm_compute. reflexivity.
  - vm_compute. reflexivity.
  - vm_compute. reflexivity.
  - vm_compute. discriminate.
  - vm_compute. split; [discriminate | reflexivity].
  - destruct (H s9_arrivals) as (r' & H1 & H2 & _).
    + unfold s9_arrivals. rewrite map_map.
      cbn [transport.datagram]. rewrite map_id, Hds.
      rewrite skipn_app, skipn_all, Nat.sub_diag. cbn [skipn app].
      apply Permutation_sym, Permutation_rev.
    + exists r'. split; [exact H1 | exact H2].
Defined.
